(* ===== verification/_CoqProject ===== *)
-Q . S2P
Prelude.v
Lists.v
JsNum.v
JsString.v
JsVal.v
JsObj.v
Babel.v
BabelProps.v
Json.v
Regex.v
Traffic.v
Redis.v
Async.v
Dao.v
DaoSpec.v
DaoProps.v
PubSub.v
PubSubProps.v
Server.v
Interleave.v
BrokerProps.v
Dashboard.v
DashboardProps.v
Agent.v
AgentProps.v
Network.v
NetworkProps.v
Lhcb.v
LhcbProps.v
LhcbCompiled.v
LhcbCompiledProps.v
Signalling.v
RtcClient.v
RtcProps.v
Call.v
Explore.v
CallProps.v
Session.v
SessionProps.v
ApiData.v
Locale.v
LocaleProps.v
ApiDataProps.v
ApiDoc.v
ApiDocProps.v
ApiDocInv.v
Handlebars.v
HandlebarsProps.v
SampleRequest.v
SampleRequestProps.v
NextTick.v
NextTickProps.v
Colors.v
ColorsProps.v
Glyphs.v
GlyphsProps.v
Bundle.v
BundleProps.v
