(* ===== verification/Prelude.v ===== *)
(** * The reTHINK QoS support software

    This development verifies the JavaScript of the repository dev-qos-support:
    the QoS broker (a Node.js server over Redis that admits the clients of
    communication service providers, CSPs, to TURN servers and accounts their
    traffic), its administration page, its API documentation and the page that shows
    it, the QoS agent that probes TURN servers, the client library of the last-hop
    connectivity broker (LHCB), and the WebRTC example that uses the broker.

    ** The program and the files that model it

    - The broker, src/broker/BrokerServer.  coturn publishes traffic reports;
      [Traffic] models [parseTurnTraffic] of app/dao.js, with the two regular
      expressions run by the matcher of [Regex].  [Redis] states what each Redis
      command the broker sends does, as laws of the interface [Redis]; [Async]
      models promise chains over the one shared connection, as turns of the event
      loop; [Dao] models every method of app/dao.js on top of them, [Server] the
      middleware of server.js (authentication, static files) and every route of
      app/routes.js, up to the response a request ends with.  [DaoSpec]
      holds what each method does to the stored data, by weakest preconditions;
      [DaoProps], [BrokerProps] and [Interleave] hold the properties.  [PubSub] is the
      other connection of the broker, on which the reports arrive: the pattern server.js
      subscribes to, the subscriptions the handlers add, and publications and deliveries
      in any order; [PubSubProps] says which reports are charged.
    - The administration page, public/js/app.js and cspfilter.js: [Dashboard]
      (state, events, pure functions) and [DashboardProps].
    - The API documentation, public/apidoc.  [ApiData] is the data: the entries of
      api_data.js and the settings of api_project.js; [ApiDataProps] compares them with
      the routes.  [Locale] and [LocaleProps] are the dictionaries of locales/ and the
      module that chooses one.  [ApiDoc] is the viewer, main.js: how it orders and
      groups the entries, the navigation, sections and articles it renders (with the
      attributes the templates of index.html write), and the three handlers of the
      version menus; [ApiDocProps] and [ApiDocInv] hold the order and the invariant of
      the page.  [Handlebars] is utils/handlebars_helper.js, every helper the templates
      call, with [HandlebarsProps]; [SampleRequest] is utils/send_sample_request.js, the
      form that sends a request from the page, with [SampleRequestProps].
    - The agent, src/agent/src: [Agent] (state, methods, effects, event loop) and
      [AgentProps].  [Network] puts agents on machines with clocks of their own, with the
      pings and answers under way between them, and [NetworkProps] says what they know of
      each other.  [Json] recognises the texts [JSON.parse] accepts.  The bundle
      src/agent/dist/qosbroker-agent.js carries a copy of the agent and code of its own:
      the loader of its modules and their table ([Bundle], [BundleProps]), the task
      queue of the [process] shim ([NextTick], [NextTickProps]), and the colours of the
      console ([Colors], [ColorsProps], with the formatters of [Glyphs],
      [GlyphsProps]).
    - The LHCB library, src/lhcb/lhcb_lib_js/lhcb.js: [Lhcb] (a store of sockets,
      brokers, clients and promises that refer to each other) and [LhcbProps].  The
      compiled library, lhcb.compiled.js, is modelled as it is written, console and
      wrappers of the logger included ([LhcbCompiled]), and related to the source
      ([LhcbCompiledProps]); the helpers and expansions of the transpiler, which the
      bundle of the agent shares, are in [Babel] and [BabelProps].
    - The WebRTC example, src/broker/appWebRTC: [Signalling] (the rooms of the
      server, over the interface [Adapter] of socket.io) and [RtcClient],
      [RtcProps] (the page).  [Call] puts two pages, their browsers and the server
      together, with what they send each other under way; [CallProps] follows a call in
      every order of events, by the exploration [Explore] of a finite system that runs in
      step with it.  [Session] composes the page with the broker: the requests
      the page sends when it has loaded, answered by the handlers of [Server], and the
      configuration it starts with; [SessionProps] follows a client from its admission
      over the subscription to its reports to the charge of its traffic.

    The language is modelled by [JsNum] (Numbers as IEEE-754 doubles, kept as
    integer multiples of 2^-1074, with every rounding), [JsString] (strings of
    8-bit code units, [parseInt], [Number], [parseFloat], [toString], [toFixed]),
    [JsVal] (values whose type changes at run time) and [JsObj] (objects as insertion
    ordered lists, their key order, [_.groupBy], the values of data attributes);
    [Lists] holds the list lemmas.

    ** How state and operations correspond to the code

    A method is one definition with the name it has in the code; a route is
    [route_<path>].  A handler that waits for Redis is a [prog]: each [Turn] sends
    the commands the code sends before it waits, and continues with the replies;
    [settle], [pthen] and [pcatch] are the promise combinators; [Pending] is a
    promise nobody settles and [Crashed] an exception in a callback.  [run] is a
    handler alone, [pstep] a step of any number of handlers on one connection,
    with other clients of the server in between.  The agent, the pages and the LHCB
    library are states with one function per method or event, whose results say
    which effects are produced (requests, timers, messages, browser calls) and
    whether an exception stopped the rest.  The entries of the documentation are shared
    by reference between the lists of the viewer: [ApiDoc] keeps them in one list and
    refers to them by position, and an element of the page is a record with the
    attributes the handlers select by.  Dates, random numbers, MD5, the answers of the
    network and of the browser, the comparison of versions by the semver package, the
    difference of two texts, the matching of the patterns of Redis and the groups of an
    address found by path-to-regexp are arguments; the addresses the constructor of
    WebSocket takes, which throws on any other one, are the class [Addresses]; what a task
    of the queue does to its program, with the tasks it queues, is an argument of the shim.
    In the compiled library a computation is a function from a state to a completion, as
    the language calls it, and a state ([eff]).  A network and a call are relations
    between states with the messages under way ([nstep], [call_step]).

    ** What the properties show

    - Admission and accounting ([DaoProps]): [getAppropriateTurn] implements the
      admission decision (C1, C2), provisioning (C3), exact accounting of the reports
      (C4), deletion, of unknown providers too (C6), the listing (C7).  Of the reports that
      are published, those the broker hears at all ([PubSubProps], C5).
    - Interleaving ([Interleave]): requests that only read and write the
      provisioning database cannot disturb each other (C8); a credential request
      can, through SELECT on the shared connection (C9).
    - A session ([SessionProps]): a page that is admitted starts with the server and the
      credentials of the broker, and of the reports on its traffic those the broker hears
      are charged to its provider (C10).
    - The page of the broker (C11 to C13): the table as a refinement of abstract
      rows, with everything a row shows, under every interleaving of answers and clicks,
      exactness of the edition of
      quotas, and an edition followed through the broker.
    - The agent (C14, C16 to C18): the window of samples, identifiers, and invariants of
      every run of the event loop.  A network of agents ([NetworkProps]): what they store
      of each other, whatever is delayed, overtaken or lost (C15).
    - The LHCB library: which message answers which request on a shared socket (C19), when
      a local client becomes ready and when it never does (C20).  The compiled library
      refines the source (C21), but for the constructor the logger leaves on every object
      (C22); the expansion of a for-of loop does what the loop does (C23).
    - The WebRTC example (C24 to C27): capacity of the rooms, invariants of the page,
      and what becomes of a call between two pages through the server, whatever comes
      first: it ends after at most 23 steps, established or lost (C27).
    - The HTTP front ([BrokerProps]): who may open what, and the spelling of a path that
      passes the guard of the pages (C28), that a request for a TURN server is answered
      (C29), exactly which requests a failing command leaves without an answer (C30).
    - The viewer of the documentation: the page stays well formed whatever the reader
      does (C31), what the version menu shows (C32).
    - The helpers of the templates: the comparison of lists equals a reference
      definition (C33).
    - Sample requests: where each parameter of the form goes (C34).  The
      dictionary that is chosen (C35).  The documentation against the routes (C36).
    - The bundle: every module runs at most once and the start comes to an end, cycles
      among the modules included (C37); the order of the task queue (C38), and that it is
      the plain queue and ends when that ends (C39); that colours only add control
      sequences (C40).

    Further theorems without a number are the behaviour of single operations: quotas that
    are no number, the traffic of unknown users, the traffic that closes a quota, the
    subscriptions, the percentages against the broker's gate, the text of a password,
    overlapping reads of the LHCB library, joining a room, deletions that are never
    answered, the stable custom order, the letter maps, themes and the novelty formatters,
    line breaks, the pieces of a difference, the start of the bundle in a page, a single
    ping, the credentials that are issued, queries two dictionaries share, calls that are
    established and lost, the entries the viewer lists, the line every call of the
    compiled library prints first, the prototypes [_createClass] builds, and the name of
    the library in a page.

    ** Bounds and fuel

    Integers are exact up to 2^53, as in the language, and the theorems on counters say
    so; Redis counters are 64-bit.  Fuel appears in conversions of the language: [digits]
    uses log2 n + 1 steps (a numeral has no more digits), [shortest] tries up to 17 digits
    (enough for a double), [small_exp] 400 multiplications by ten (324 suffice), and
    [json_valid] twice the length of the text (a character is consumed at least every
    second call); in [replace_breaks], one step per character of the text and one more
    ([newlineToBreak_spec] shows it is enough).  Tasks may queue tasks for ever, so
    [drain_loop] takes the rounds it may run, and [None] is a drain that is still running;
    C39 says exactly when some number of rounds is enough, and [drain_never_ends] is a
    queue for which none is.  In [load], the depth of nested requires, one per module and
    one more (C37 shows it is enough); in [expanded], the number of elements of the array
    and one more ([for_of_array] and [new_Logger_fresh] show it is enough; the runs of C21
    end); in [explore], the levels of the call system, 24, after which no state is left;
    and in [call_color], the depth of the recursion of themes that name themes, where a
    cycle exhausts every fuel ([theme_cycle]), as it exhausts the stack of the program.

    ** What is not modelled

    Listening sockets, TLS, CORS headers, the console of the broker.  In [Call], the
    candidates, refused media and the end of a call, which are events of the page
    ([RtcClient]) only.  The HTML templates and directives of Angular.  Of the
    documentation viewer, the texts inside an article, scrolling, tabs, fonts and syntax
    colouring.  Of the bundle, the transpiled copy of the agent: its methods are those of
    the source, which is modelled. The module table config.js, generated by the package
    manager, and the build file gulpfile.js, whose tasks are shell commands; the vendored
    libraries, Angular among them; the Java and C parts of the repository.  Redis, coturn,
    socket.io, express, the browser and crypto-js are not in the repository: they are
    parameters, with the documented behaviour the proofs need as laws, each with an
    instance.

    This file holds the shared vocabulary: the libraries every file builds on, the
    notation scope [broker_scope], the case-analysis tactics, the [broker] hint
    database, and the generic lemmas on integers, lists and strings. *)
From Stdlib Require Export ZArith Lia Bool.
From stdpp Require Export base tactics numbers list list_numbers gmap strings
  fin_maps relations sorting.

From Stdlib Require Ascii String.
Export Stdlib.Strings.Ascii (ascii(..)).
Export (notations) Stdlib.Strings.Ascii.

#[global] Open Scope Z_scope.

Declare Scope broker_scope.
Delimit Scope broker_scope with broker.
#[global] Open Scope broker_scope.

Create HintDb broker.

(** * Tactics *)

(** Split every [match] and [if] of the goal whose scrutinee is a variable or
    a closed test, substituting as it goes. *)
Ltac split_match :=
  repeat (case_match; simplify_eq/=).

(** Turn boolean integer tests of the context into propositions. *)
Ltac b2p :=
  repeat match goal with
  | H : (_ <? _) = true |- _ => apply Z.ltb_lt in H
  | H : (_ <? _) = false |- _ => apply Z.ltb_ge in H
  | H : (_ <=? _) = true |- _ => apply Z.leb_le in H
  | H : (_ <=? _) = false |- _ => apply Z.leb_gt in H
  | H : (_ =? _) = true |- _ => apply Z.eqb_eq in H
  | H : (_ =? _) = false |- _ => apply Z.eqb_neq in H
  end.

(** Decide the boolean integer tests of the goal with [lia]. *)
Ltac ztest :=
  repeat match goal with
  | |- context [?a <? ?b] =>
      first [ rewrite (proj2 (Z.ltb_lt a b)) by lia
            | rewrite (proj2 (Z.ltb_ge a b)) by lia ]
  | |- context [?a <=? ?b] =>
      first [ rewrite (proj2 (Z.leb_le a b)) by lia
            | rewrite (proj2 (Z.leb_gt a b)) by lia ]
  | |- context [?a =? ?b] =>
      first [ rewrite (proj2 (Z.eqb_eq a b)) by lia
            | rewrite (proj2 (Z.eqb_neq a b)) by lia ]
  end.

(** * Integers *)

Lemma pow2_pos n : 0 <= n -> 0 < 2 ^ n.
Proof. intros. apply Z.pow_pos_nonneg; lia. Qed.

Lemma pow2_ge1 n : 0 <= n -> 1 <= 2 ^ n.
Proof. intros H. pose proof (pow2_pos n H). lia. Qed.

Lemma pow2_split a b : 0 <= a <= b -> 2 ^ b = 2 ^ (b - a) * 2 ^ a.
Proof. intros. rewrite <- Z.pow_add_r by lia. f_equal. lia. Qed.

Lemma log2_mono_le a b : a <= b -> Z.log2 a <= Z.log2 b.
Proof. apply Z.log2_le_mono. Qed.

Lemma div_le_cross p1 q1 p2 q2 :
  0 < q1 -> 0 < q2 -> p1 * q2 <= p2 * q1 -> p1 / q1 <= p2 / q2.
Proof.
  intros H1 H2 H.
  apply Z.div_le_lower_bound; [done|].
  pose proof (Z.mul_div_le p1 q1 H1).
  enough (q1 * (q2 * (p1 / q1)) <= q1 * p2) by nia.
  nia.
Qed.

#[export] Hint Resolve pow2_pos pow2_ge1 : broker.

(** * Strings *)

Lemma string_app_assoc (a b c : string) : a +:+ (b +:+ c) = (a +:+ b) +:+ c.
Proof. induction a as [|x a IH]; [done|]. exact (f_equal (String x) IH). Qed.

Lemma string_app_nil_r (a : string) : a +:+ "" = a.
Proof. induction a as [|x a IH]; [done|]. exact (f_equal (String x) IH). Qed.

Lemma string_app_cons x (a b : string) : String x a +:+ b = String x (a +:+ b).
Proof. done. Qed.

Lemma string_app_nil_l (b : string) : "" +:+ b = b.
Proof. done. Qed.

Lemma string_length_app (a b : string) :
  String.length (a +:+ b) = (String.length a + String.length b)%nat.
Proof. induction a as [|x a IH]; [done|]. exact (f_equal S IH). Qed.

#[export] Hint Rewrite string_app_nil_r string_app_cons string_app_nil_l : broker.

(** A boolean test over a small range of integers, by evaluation. *)
Lemma range_test (n : Z) (p : Z -> bool) :
  forallb p (seqZ 0 n) = true -> forall d, 0 <= d < n -> p d = true.
Proof.
  rewrite forallb_forall. intros H d Hd. apply H, list_elem_of_In, elem_of_seqZ. lia.
Qed.

(** The same over all the characters. *)
Lemma ascii_test (p : ascii -> bool) :
  forallb (fun d => p (Stdlib.Strings.Ascii.ascii_of_N (Z.to_N d))) (seqZ 0 256) = true ->
  forall c, p c = true.
Proof.
  intros H c. rewrite <- (Stdlib.Strings.Ascii.ascii_N_embedding c).
  pose proof (Stdlib.Strings.Ascii.N_ascii_bounded c) as B.
  pose proof (range_test 256 (fun d => p (Stdlib.Strings.Ascii.ascii_of_N (Z.to_N d))) H
    (Z.of_N (Stdlib.Strings.Ascii.N_of_ascii c))) as E.
  cbv beta in E. rewrite N2Z.id in E. apply E. lia.
Qed.

(** Every character of a string satisfies a test. *)
Fixpoint str_all (p : ascii -> bool) (s : string) : bool :=
  match s with EmptyString => true | String c s' => p c && str_all p s' end.

Lemma str_all_app p a b : str_all p (a +:+ b) = str_all p a && str_all p b.
Proof.
  induction a as [|c a IH]; [done|].
  change (str_all p (String c a +:+ b)) with (p c && str_all p (a +:+ b)).
  rewrite IH. apply andb_assoc.
Qed.

Lemma str_all_impl (p q : ascii -> bool) s :
  (forall c, p c = true -> q c = true) -> str_all p s = true -> str_all q s = true.
Proof.
  intros H. induction s as [|c s IH]; [done|]. cbn. rewrite !andb_true_iff.
  intros [? ?]. auto.
Qed.
