(* ===== verification/Lists.v ===== *)
(** Facts on lists that several components share: permutations, filters, traversals
    that cannot fail, duplicate-free concatenations. *)
From S2P Require Import Prelude.

Section lists.
Context {A B : Type}.
Implicit Types (l : list A).

Lemma mapM_total (f : A -> option B) (g : A -> B) l :
  (forall x, x ∈ l -> f x = Some (g x)) -> mapM f l = Some (map g l).
Proof.
  induction l as [|x l IH]; intros H; [done|]. cbn.
  rewrite (H x) by left. cbn. rewrite IH by (intros; apply H; by right). done.
Qed.

Lemma filter_ext_in (P Q : A -> Prop) `{forall x, Decision (P x)} `{forall x, Decision (Q x)} l :
  (forall x, x ∈ l -> P x <-> Q x) -> filter P l = filter Q l.
Proof.
  induction l as [|x l IH]; intros Hl; [done|]. rewrite !filter_cons.
  pose proof (Hl x ltac:(left)) as Hx. rewrite IH by (intros; apply Hl; by right).
  destruct (decide (P x)), (decide (Q x)); tauto || done.
Qed.

Lemma filter_none (P : A -> Prop) `{forall x, Decision (P x)} l :
  (forall x, x ∈ l -> ~ P x) -> filter P l = [].
Proof.
  induction l as [|x l IH]; intros Hl; [done|].
  rewrite filter_cons_False by (apply Hl; left). apply IH. intros. apply Hl. by right.
Qed.

Lemma filter_all (P : A -> Prop) `{forall x, Decision (P x)} l :
  (forall x, x ∈ l -> P x) -> filter P l = l.
Proof.
  induction l as [|x l IH]; intros Hl; [done|].
  rewrite filter_cons_True by (apply Hl; left). f_equal. apply IH. intros. apply Hl. by right.
Qed.

Lemma concat_map_Permutation (f g : A -> list B) l :
  (forall x, x ∈ l -> f x ≡ₚ g x) -> concat (map f l) ≡ₚ concat (map g l).
Proof.
  induction l as [|x l IH]; intros H; [done|]. cbn.
  rewrite (H x) by left. by rewrite IH by (intros; apply H; by right).
Qed.

Lemma elem_concat (x : A) (ls : list (list A)) :
  x ∈ concat ls <-> exists l, l ∈ ls /\ x ∈ l.
Proof.
  induction ls as [|l ls IH]; cbn.
  - split; [by intros ?%not_elem_of_nil|by intros (l & []%not_elem_of_nil & _)].
  - rewrite elem_of_app, IH. split.
    + intros [?|(l' & ? & ?)]; [exists l; split; [left|done]|exists l'; split; [by right|done]].
    + intros (l' & [->|?]%elem_of_cons & ?); [by left|right; eauto].
Qed.

(** Pieces taken apart by a key are disjoint. *)
Lemma NoDup_concat_keyed {K} `{EqDecision K} (key : A -> option K) (pieces : K -> list A) (ks : list K) :
  NoDup ks -> (forall k, NoDup (pieces k)) -> (forall k x, x ∈ pieces k -> key x = Some k) ->
  NoDup (concat (map pieces ks)).
Proof.
  intros HN Hp Hk. induction ks as [|k ks IH]; [apply NoDup_nil_2|].
  apply NoDup_cons in HN as [Hnk HN]. cbn. apply NoDup_app. split; [done|].
  split; [|auto]. intros x Hx (l & Hl & Hxl)%elem_concat.
  apply list_elem_of_fmap in Hl as (k' & -> & Hk').
  apply Hk in Hx, Hxl. congruence.
Qed.
End lists.

Lemma concat_Permutation {A} (l l' : list (list A)) : l ≡ₚ l' -> concat l ≡ₚ concat l'.
Proof.
  induction 1 as [|x l l' _ IH|x y l|l l' l'' _ IH _ IH']; cbn.
  - done.
  - by rewrite IH.
  - rewrite !app_assoc. f_equiv. apply Permutation_app_comm.
  - by rewrite IH.
Qed.

Lemma filter_complement_Permutation {A} (P : A -> Prop) `{forall x, Decision (P x)} (l r : list A) :
  NoDup r -> NoDup l -> (forall x, x ∈ r <-> x ∈ l /\ P x) -> r ++ filter (fun x => ~ P x) l ≡ₚ l.
Proof.
  intros Hr Hl Hx. rewrite <- (filter_app_complement P l) at 2. f_equiv.
  apply NoDup_Permutation; [done|by apply NoDup_filter|].
  intros x. rewrite list_elem_of_filter, Hx. tauto.
Qed.

Lemma foldl_ext_in {A B} (f g : A -> B -> A) a l :
  (forall a x, x ∈ l -> f a x = g a x) -> foldl f a l = foldl g a l.
Proof.
  revert a. induction l as [|x l IH]; intros a H; [done|]. cbn.
  rewrite (H a x) by left. apply IH. intros. apply H. by right.
Qed.
