(* ===== verification/JsNum.v ===== *)
(** JavaScript Numbers: IEEE-754 binary64 values and the arithmetic of them
    that the program uses (ECMAScript "Number" operations, [Math.floor],
    [Math.round], [%], [|0]).

    A finite binary64 value is an integer multiple of [2^-1074], so it is kept
    as that integer: [Fin k] stands for [k * 2^-1074].  Every operation computes
    the exact rational result and rounds it to nearest, ties to even, at the
    width the magnitude allows (53 significant bits); overflow gives infinity
    and a negative result that underflows gives [NegZero]. *)
From S2P Require Import Prelude.

Inductive num :=
  | NaN
  | Inf (neg : bool)
  | NegZero
  | Fin (k : Z).

#[export] Instance num_eq_dec : EqDecision num.
Proof. solve_decision. Defined.

(** The unit: [1] is [Fin scale]; magnitudes from [limit] on are infinite. *)
Definition scale : Z := 2 ^ 1074.
Definition limit : Z := 2 ^ 2098.

(** Nearest integer to [p / q], ties to even. *)
Definition rne (p q : Z) : Z :=
  let d := p / q in
  match 2 * (p mod q) ?= q with
  | Lt => d
  | Gt => d + 1
  | Eq => if Z.even d then d else d + 1
  end.

(** Spacing of the representable values around the magnitude [f]. *)
Definition ulp (f : Z) : Z := 2 ^ Z.max 0 (Z.log2 f - 52).

Definition round_mag (p q : Z) : Z :=
  let u := ulp (p / q) in rne p (q * u) * u.

(** The Number nearest to [p / q] units; a zero result takes the sign of [p]. *)
Definition of_ratio (p q : Z) : num :=
  let m := round_mag (Z.abs p) q in
  if limit <=? m then Inf (p <? 0)
  else if m =? 0 then (if p <? 0 then NegZero else Fin 0)
  else Fin (Z.sgn p * m).

Definition of_Z (z : Z) : num := of_ratio (z * scale) 1.

Definition is_neg (x : num) : bool :=
  match x with
  | NaN => false | Inf n => n | NegZero => true | Fin k => k <? 0
  end.

Definition is_zero (x : num) : bool :=
  match x with NegZero => true | Fin k => k =? 0 | _ => false end.

(** The units of a finite value. *)
Definition units (x : num) : Z := match x with Fin k => k | _ => 0 end.

Definition signed_zero (neg : bool) : num := if neg then NegZero else Fin 0.

Definition neg (x : num) : num :=
  match x with
  | NaN => NaN
  | Inf n => Inf (negb n)
  | NegZero => Fin 0
  | Fin k => if k =? 0 then NegZero else Fin (- k)
  end.

Definition add (x y : num) : num :=
  match x, y with
  | NaN, _ | _, NaN => NaN
  | Inf a, Inf b => if Bool.eqb a b then Inf a else NaN
  | Inf a, _ => Inf a
  | _, Inf b => Inf b
  | NegZero, NegZero => NegZero
  | NegZero, Fin b => Fin b
  | Fin a, NegZero => Fin a
  | Fin a, Fin b => of_ratio (a + b) 1
  end.

Definition sub (x y : num) : num := add x (neg y).

Definition mul (x y : num) : num :=
  let s := xorb (is_neg x) (is_neg y) in
  match x, y with
  | NaN, _ | _, NaN => NaN
  | Inf _, _ => if is_zero y then NaN else Inf s
  | _, Inf _ => if is_zero x then NaN else Inf s
  | _, _ =>
      if is_zero x || is_zero y then signed_zero s
      else of_ratio (units x * units y) scale
  end.

Definition div (x y : num) : num :=
  let s := xorb (is_neg x) (is_neg y) in
  match x, y with
  | NaN, _ | _, NaN => NaN
  | Inf _, Inf _ => NaN
  | Inf _, _ => Inf s
  | _, Inf _ => signed_zero s
  | _, _ =>
      if is_zero y then (if is_zero x then NaN else Inf s)
      else if is_zero x then signed_zero s
      else of_ratio (Z.sgn (units y) * units x * scale) (Z.abs (units y))
  end.

(** [x % y]: the result has the sign of the dividend and is exact. *)
Definition rem (x y : num) : num :=
  match x, y with
  | NaN, _ | _, NaN | Inf _, _ => NaN
  | _, Inf _ => x
  | _, _ =>
      if is_zero y then NaN
      else if is_zero x then x
      else let r := Z.rem (units x) (units y) in
           if r =? 0 then signed_zero (is_neg x) else Fin r
  end.

(** Position on the number line; [NaN] has none. *)
Definition ord (x : num) : option Z :=
  match x with
  | NaN => None
  | Inf true => Some (- limit)
  | Inf false => Some limit
  | NegZero => Some 0
  | Fin k => Some k
  end.

(** [x < y], [x > y], [x <= y] and [x == y] on Numbers: false on [NaN]. *)
Definition num_cmp (p : Z -> Z -> bool) (x y : num) : bool :=
  match ord x, ord y with Some a, Some b => p a b | _, _ => false end.
Definition ltn : num -> num -> bool := num_cmp Z.ltb.
Definition gtn (x y : num) : bool := ltn y x.
Definition len : num -> num -> bool := num_cmp Z.leb.
Definition eqn : num -> num -> bool := num_cmp Z.eqb.

Definition isNaN (x : num) : bool := match x with NaN => true | _ => false end.
Definition isFinite (x : num) : bool :=
  match x with NegZero | Fin _ => true | _ => false end.

(** [Math.floor] and [Math.round] (halves go up); a zero reached from below
    keeps its sign. *)
Definition floor (x : num) : num :=
  match x with
  | Fin k => Fin (k / scale * scale)
  | _ => x
  end.

Definition round (x : num) : num :=
  match x with
  | Fin k =>
      let r := (2 * k + scale) / (2 * scale) in
      if (r =? 0) && (k <? 0) then NegZero else Fin (r * scale)
  | _ => x
  end.

(** Integer part towards zero, of a finite value. *)
Definition trunc_Z (x : num) : Z :=
  match x with Fin k => Z.quot k scale | _ => 0 end.

(** [x | 0]: ToInt32. *)
Definition to_int32 (x : num) : Z :=
  let i := trunc_Z x mod 2 ^ 32 in
  if i <? 2 ^ 31 then i else i - 2 ^ 32.

(** [Math.pow] at an integer base and exponent. *)
Definition pow_Z (b e : Z) : num :=
  if 0 <=? e then of_Z (b ^ e) else of_ratio scale (b ^ (- e)).

(** Values an operation can return: the magnitude is below [limit]. *)
Definition wf_num (x : num) : Prop :=
  match x with Fin k => Z.abs k < limit | _ => True end.

(** * Rounding *)

Lemma limit_pos : 0 < limit. Proof. apply pow2_pos. lia. Qed.
Lemma scale_pos : 0 < scale. Proof. apply pow2_pos. lia. Qed.
Lemma ulp_pos f : 0 < ulp f. Proof. apply pow2_pos. lia. Qed.
Lemma limit_scale : limit = 2 ^ 1024 * scale.
Proof. unfold limit, scale. by rewrite <- Z.pow_add_r by lia. Qed.

#[export] Hint Resolve limit_pos scale_pos ulp_pos : broker.

(** What [rne] computes: within half a unit, and even when half-way. *)
Lemma rne_spec p q :
  0 < q ->
  let n := rne p q in
  2 * n * q - q <= 2 * p <= 2 * n * q + q /\
  (2 * p = 2 * n * q + q \/ 2 * p = 2 * n * q - q -> Z.even n = true).
Proof.
  intros Hq n. subst n. unfold rne.
  pose proof (Z.div_mod p q ltac:(lia)) as Hd.
  pose proof (Z.mod_pos_bound p q Hq) as Hm.
  set (d := p / q) in *. set (r := p mod q) in *. clearbody d r.
  destruct (Z.compare_spec (2 * r) q) as [Hr|Hr|Hr].
  - destruct (Z.even d) eqn:He; [split; [nia|done]|].
    split; [nia|]. intros _. rewrite Z.add_1_r, Z.even_succ.
    by rewrite <- Z.negb_even, He.
  - split; [nia|]. intros [H|H]; nia.
  - split; [nia|]. intros [H|H]; nia.
Qed.

Lemma rne_mono p1 q1 p2 q2 :
  0 < q1 -> 0 < q2 -> p1 * q2 <= p2 * q1 -> rne p1 q1 <= rne p2 q2.
Proof.
  intros H1 H2 H.
  destruct (rne_spec p1 q1 H1) as [B1 E1]. destruct (rne_spec p2 q2 H2) as [B2 E2].
  set (n1 := rne p1 q1) in *. set (n2 := rne p2 q2) in *. clearbody n1 n2.
  destruct (Z.le_gt_cases n1 n2) as [|Hgt]; [done|exfalso].
  assert (Hn : n1 = n2 + 1).
  { enough (~ n1 >= n2 + 2) by lia. intros Hge.
    assert (2 * p1 * q2 >= (2 * n2 + 3) * q1 * q2) by nia.
    assert (2 * p2 * q1 <= (2 * n2 + 1) * q1 * q2) by nia.
    assert (0 < q1 * q2) by nia. nia. }
  subst n1.
  assert (T1 : 2 * p1 * q2 >= (2 * n2 + 1) * q1 * q2) by nia.
  assert (T2 : 2 * p2 * q1 <= (2 * n2 + 1) * q1 * q2) by nia.
  assert (Ev1 : Z.even (n2 + 1) = true) by (apply E1; right; nia).
  assert (Ev2 : Z.even n2 = true) by (apply E2; left; nia).
  rewrite Z.add_1_r, Z.even_succ, <- Z.negb_even, Ev2 in Ev1. done.
Qed.

Lemma rne_exact n q : 0 < q -> rne (n * q) q = n.
Proof.
  intros Hq. destruct (rne_spec (n * q) q Hq) as [B _].
  set (m := rne (n * q) q) in *. clearbody m. nia.
Qed.

Lemma rne_le p q n : 0 < q -> p <= n * q -> rne p q <= n.
Proof.
  intros Hq H. rewrite <- (rne_exact n q Hq). apply rne_mono; [done..|nia].
Qed.

Lemma rne_ge p q n : 0 < q -> n * q <= p -> n <= rne p q.
Proof.
  intros Hq H. rewrite <- (rne_exact n q Hq). apply rne_mono; [done..|nia].
Qed.

Lemma rne_nonneg p q : 0 < q -> 0 <= p -> 0 <= rne p q.
Proof. intros. by apply rne_ge; [|lia]. Qed.

(** A power of two is a multiple of the spacing of any smaller magnitude. *)
Lemma ulp_divides_pow f n : Z.log2 f <= n -> exists c, 2 ^ n = c * ulp f /\ 0 <= c.
Proof.
  intros H. pose proof (Z.log2_nonneg f). unfold ulp.
  exists (2 ^ (n - Z.max 0 (Z.log2 f - 52))). split.
  - apply pow2_split. lia.
  - pose proof (pow2_pos (n - Z.max 0 (Z.log2 f - 52))). lia.
Qed.

Lemma round_mag_le_pow p q n :
  0 < q -> 0 <= n -> Z.log2 (p / q) <= n -> p <= 2 ^ n * q -> round_mag p q <= 2 ^ n.
Proof.
  intros Hq Hn Hl Hp. unfold round_mag. pose proof (ulp_pos (p / q)) as Hu.
  destruct (ulp_divides_pow (p / q) n Hl) as (c & Hc & _). rewrite Hc in *.
  set (u := ulp (p / q)) in *. clearbody u.
  enough (rne p (q * u) <= c) by nia. apply rne_le; nia.
Qed.

Lemma round_mag_ge_pow p q n :
  0 < q -> 0 <= n -> Z.log2 (p / q) <= n -> 2 ^ n * q <= p -> 2 ^ n <= round_mag p q.
Proof.
  intros Hq Hn Hl Hp. unfold round_mag. pose proof (ulp_pos (p / q)) as Hu.
  destruct (ulp_divides_pow (p / q) n Hl) as (c & Hc & _). rewrite Hc in *.
  set (u := ulp (p / q)) in *. clearbody u.
  enough (c <= rne p (q * u)) by nia. apply rne_ge; nia.
Qed.

Lemma round_mag_mono p1 q1 p2 q2 :
  0 < q1 -> 0 < q2 -> 0 <= p1 -> p1 * q2 <= p2 * q1 ->
  round_mag p1 q1 <= round_mag p2 q2.
Proof.
  intros H1 H2 Hp H.
  pose proof (div_le_cross _ _ _ _ H1 H2 H) as Hf.
  pose proof (Z.div_pos p1 q1 Hp H1) as Hf0.
  pose proof (log2_mono_le _ _ Hf) as Hl.
  destruct (Z.le_gt_cases (Z.log2 (p2 / q2)) (Z.log2 (p1 / q1))) as [Hge|Hlt].
  - assert (Hu : ulp (p2 / q2) = ulp (p1 / q1)) by (unfold ulp; f_equal; lia).
    unfold round_mag. rewrite Hu. pose proof (ulp_pos (p1 / q1)) as Hup.
    set (u := ulp (p1 / q1)) in *. clearbody u.
    enough (rne p1 (q1 * u) <= rne p2 (q2 * u)) by nia. apply rne_mono; nia.
  - pose proof (Z.log2_nonneg (p1 / q1)) as Hn.
    assert (Hf2 : 0 < p2 / q2).
    { destruct (Z.le_gt_cases (p2 / q2) 0) as [Hz|]; [|done].
      rewrite (Z.log2_nonpos _ Hz) in Hlt. lia. }
    pose proof (Z.log2_spec _ Hf2) as [Hb2 _].
    pose proof (Z.mul_div_le p2 q2 H2) as Hm2.
    transitivity (2 ^ Z.log2 (p2 / q2)); [|apply round_mag_ge_pow; nia].
    transitivity (2 ^ (Z.log2 (p1 / q1) + 1)).
    + assert (p1 < 2 ^ (Z.log2 (p1 / q1) + 1) * q1).
      { assert (p1 / q1 < 2 ^ (Z.log2 (p1 / q1) + 1)) as Hb.
        { destruct (Z.eq_dec (p1 / q1) 0) as [E|E].
          - rewrite E. cbn. lia.
          - rewrite Z.add_1_r. apply Z.log2_spec. lia. }
        pose proof (Z.div_mod p1 q1 ltac:(lia)).
        pose proof (Z.mod_pos_bound p1 q1 H1). nia. }
      apply round_mag_le_pow; lia.
    + apply Z.pow_le_mono_r; lia.
Qed.

Lemma round_mag_nonneg p q : 0 < q -> 0 <= p -> 0 <= round_mag p q.
Proof.
  intros Hq Hp. unfold round_mag. pose proof (ulp_pos (p / q)).
  pose proof (rne_nonneg p (q * ulp (p / q)) ltac:(nia) Hp). nia.
Qed.

(** A magnitude with at most 53 significant bits is its own rounding. *)
Lemma round_mag_exact m j q :
  0 < q -> 0 <= m <= 2 ^ 53 -> 0 <= j -> round_mag (m * 2 ^ j * q) q = m * 2 ^ j.
Proof.
  intros Hq Hm Hj. unfold round_mag. rewrite Z.div_mul by lia.
  enough (exists c, m * 2 ^ j = c * ulp (m * 2 ^ j)) as [c Hc].
  { pose proof (ulp_pos (m * 2 ^ j)) as Hu. rewrite Hc at 1.
    set (u := ulp (m * 2 ^ j)) in *. clearbody u.
    replace (c * u * q) with (c * (q * u)) by ring.
    rewrite rne_exact by nia. lia. }
  destruct (Z.eq_dec m 0) as [->|Hm0]; [by exists 0|].
  unfold ulp. rewrite Z.log2_mul_pow2 by lia.
  destruct (Z.eq_dec m (2 ^ 53)) as [->|Hne].
  - rewrite Z.log2_pow2 by lia. exists (2 ^ 52).
    rewrite <- !Z.pow_add_r by lia. f_equal. lia.
  - assert (Z.log2 m <= 52).
    { assert (Z.log2 m < 53); [|lia]. apply Z.log2_lt_pow2; lia. }
    exists (m * 2 ^ (j - Z.max 0 (Z.log2 m + j - 52))).
    rewrite <- Z.mul_assoc, <- Z.pow_add_r by lia. do 2 f_equal. lia.
Qed.

(** * Numbers obtained by rounding *)

Lemma ord_of_ratio p q :
  0 < q ->
  ord (of_ratio p q) =
    Some (Z.max (- limit) (Z.min limit (Z.sgn p * round_mag (Z.abs p) q))).
Proof.
  intros Hq. unfold of_ratio. pose proof limit_pos.
  pose proof (round_mag_nonneg (Z.abs p) q Hq (Z.abs_nonneg p)) as Hm.
  assert (Hz : p = 0 -> round_mag (Z.abs p) q = 0).
  { intros ->. pose proof (round_mag_exact 0 0 q Hq) as E. cbn in E.
    apply E; lia. }
  set (m := round_mag (Z.abs p) q) in *. clearbody m.
  case_match; b2p.
  - destruct (Z.ltb_spec p 0); cbn; f_equal; [rewrite Z.sgn_neg by lia; lia|].
    assert (0 < p) by lia. rewrite Z.sgn_pos by lia. lia.
  - case_match; b2p.
    + subst m. destruct (p <? 0); cbn; f_equal; lia.
    + cbn. f_equal. pose proof (Z.sgn_spec p). nia.
Qed.

Lemma of_ratio_mono p1 q1 p2 q2 :
  0 < q1 -> 0 < q2 -> p1 * q2 <= p2 * q1 ->
  len (of_ratio p1 q1) (of_ratio p2 q2) = true.
Proof.
  intros H1 H2 H. unfold len, num_cmp. rewrite !ord_of_ratio by done.
  apply Z.leb_le.
  enough (Z.sgn p1 * round_mag (Z.abs p1) q1 <= Z.sgn p2 * round_mag (Z.abs p2) q2)
    by lia.
  pose proof (round_mag_nonneg (Z.abs p1) q1 H1 ltac:(lia)).
  pose proof (round_mag_nonneg (Z.abs p2) q2 H2 ltac:(lia)).
  pose proof (round_mag_mono (Z.abs p1) q1 (Z.abs p2) q2 H1 H2) as M12.
  pose proof (round_mag_mono (Z.abs p2) q2 (Z.abs p1) q1 H2 H1) as M21.
  destruct (Z.sgn_spec p1) as [[? ->]|[[? ->]|[? ->]]],
           (Z.sgn_spec p2) as [[? ->]|[[? ->]|[? ->]]];
    try (specialize (M12 ltac:(lia) ltac:(nia))); try (specialize (M21 ltac:(lia) ltac:(nia)));
    nia.
Qed.

Lemma round_mag_scale p q c :
  0 < q -> 0 < c -> 0 <= p -> round_mag (p * c) (q * c) = round_mag p q.
Proof. intros. apply Z.le_antisymm; apply round_mag_mono; nia. Qed.

Lemma of_ratio_scale p q c :
  0 < q -> 0 < c -> of_ratio (p * c) (q * c) = of_ratio p q.
Proof.
  intros Hq Hc. unfold of_ratio.
  rewrite Z.abs_mul, (Z.abs_eq c) by lia. rewrite round_mag_scale by lia.
  rewrite Z.sgn_mul, (Z.sgn_pos c), Z.mul_1_r by lia.
  replace (p * c <? 0) with (p <? 0); [done|].
  apply eq_true_iff_eq. rewrite !Z.ltb_lt. nia.
Qed.

(** Exactness: an integer number of units with at most 53 significant bits. *)
Lemma of_ratio_exact m j q :
  0 < q -> Z.abs m <= 2 ^ 53 -> 0 <= j -> Z.abs m * 2 ^ j < limit ->
  of_ratio (m * 2 ^ j * q) q = Fin (m * 2 ^ j).
Proof.
  intros Hq Hm Hj Hl. unfold of_ratio. pose proof (pow2_pos j Hj) as H2.
  rewrite !Z.abs_mul, (Z.abs_eq (2 ^ j)), (Z.abs_eq q) by lia.
  rewrite round_mag_exact by lia. ztest.
  rewrite !Z.sgn_mul, (Z.sgn_pos (2 ^ j)), (Z.sgn_pos q) by lia.
  case_match; b2p.
  - assert (m = 0) by nia. subst m. done.
  - f_equal. rewrite !Z.mul_1_r, Z.mul_assoc. f_equal.
    destruct (Z.sgn_spec m) as [[? ->]|[[? ->]|[? ->]]]; lia.
Qed.

(** Integers with at most 53 significant bits are represented exactly. *)
Lemma of_Z_exact_pow m j :
  Z.abs m <= 2 ^ 53 -> 0 <= j <= 900 -> of_Z (m * 2 ^ j) = Fin (m * 2 ^ j * scale).
Proof.
  intros Hm Hj. unfold of_Z, scale.
  rewrite <- Z.mul_assoc, <- Z.pow_add_r by lia.
  pose proof (of_ratio_exact m (j + 1074) 1) as E. rewrite Z.mul_1_r in E.
  apply E; [lia|done|lia|].
  apply Z.le_lt_trans with (2 ^ 53 * 2 ^ (j + 1074)).
  - apply Z.mul_le_mono_nonneg_r; [|done]. apply Z.lt_le_incl, pow2_pos. lia.
  - unfold limit. rewrite <- Z.pow_add_r by lia. apply Z.pow_lt_mono_r; lia.
Qed.

Lemma of_Z_exact z : Z.abs z <= 2 ^ 53 -> of_Z z = Fin (z * scale).
Proof.
  intros H. pose proof (of_Z_exact_pow z 0 H ltac:(lia)) as E.
  by rewrite Z.mul_1_r in E.
Qed.

Lemma of_Z_mono a b : a <= b -> len (of_Z a) (of_Z b) = true.
Proof. intros H. pose proof scale_pos. apply of_ratio_mono; nia. Qed.

Lemma ord_of_Z_Some z : exists k, ord (of_Z z) = Some k.
Proof. unfold of_Z. rewrite ord_of_ratio by lia. eauto. Qed.

(** Comparing rounded integers never reverses their order... *)
Lemma gtn_of_Z a b : gtn (of_Z a) (of_Z b) = true -> b < a.
Proof.
  intros H. destruct (Z.lt_ge_cases b a) as [|Hge]; [done|].
  pose proof (of_Z_mono a b Hge) as M.
  unfold gtn, ltn, len, num_cmp in *.
  destruct (ord_of_Z_Some a) as [x Hx], (ord_of_Z_Some b) as [y Hy].
  rewrite Hx, Hy in *. b2p. lia.
Qed.

(** ... and is the comparison of the integers while they are exact. *)
Lemma gtn_of_Z_exact a b :
  Z.abs a <= 2 ^ 53 -> Z.abs b <= 2 ^ 53 -> gtn (of_Z a) (of_Z b) = (b <? a).
Proof.
  intros Ha Hb. rewrite !of_Z_exact by done. unfold gtn, ltn, num_cmp. cbn.
  pose proof scale_pos. apply eq_true_iff_eq. rewrite !Z.ltb_lt. nia.
Qed.

Lemma add_of_Z a b :
  Z.abs a <= 2 ^ 53 -> Z.abs b <= 2 ^ 53 -> add (of_Z a) (of_Z b) = of_Z (a + b).
Proof.
  intros Ha Hb. rewrite (of_Z_exact a), (of_Z_exact b) by done. cbn.
  by rewrite <- Z.mul_add_distr_r.
Qed.

Lemma mul_of_Z a b :
  Z.abs a <= 2 ^ 53 -> Z.abs b <= 2 ^ 53 -> 0 <= a -> 0 < b ->
  mul (of_Z a) (of_Z b) = of_Z (a * b).
Proof.
  intros Ha Hb Ha0 Hb0. pose proof scale_pos as Hs.
  rewrite (of_Z_exact a), (of_Z_exact b) by done.
  unfold mul, is_neg, is_zero, units. cbn [is_neg is_zero units].
  assert ((a * scale <? 0) = false) as -> by (apply Z.ltb_ge; nia).
  assert ((b * scale <? 0) = false) as -> by (apply Z.ltb_ge; nia).
  assert ((b * scale =? 0) = false) as -> by (apply Z.eqb_neq; nia).
  destruct (Z.eqb_spec (a * scale) 0) as [E|E]; cbn [orb xorb signed_zero].
  - assert (a = 0) as -> by nia. by rewrite of_Z_exact by lia.
  - unfold of_Z. replace (a * scale * (b * scale)) with (a * b * scale * scale) by ring.
    by rewrite <- (of_ratio_scale (a * b * scale) 1 scale), Z.mul_1_l by lia.
Qed.

Lemma of_ratio_wf p q : 0 < q -> wf_num (of_ratio p q).
Proof.
  intros Hq. unfold of_ratio, wf_num.
  pose proof (round_mag_nonneg (Z.abs p) q Hq (Z.abs_nonneg p)).
  repeat case_match; simplify_eq; try done; b2p; try exact limit_pos.
  rewrite Z.abs_mul, (Z.abs_eq (round_mag _ _)) by done.
  destruct (Z.sgn_spec p) as [[? ->]|[[? ->]|[? ->]]]; cbn; lia.
Qed.

(** * Random fractions *)

(** A value [Math.random()] may return: a Number in [0, 1); the largest one is
    [1 - 2^-53]. *)
Definition random_value (x : num) : Prop :=
  exists k, x = Fin k /\ 0 <= k <= scale - 2 ^ 1021.

Lemma scale_split : scale = 2 ^ 53 * 2 ^ 1021.
Proof. unfold scale. by rewrite <- Z.pow_add_r by lia. Qed.

(** Scaling a random fraction by [n] never rounds up to [n]. *)
Lemma round_mag_below n p :
  0 < n <= 2 ^ 53 -> 0 <= p <= n * (scale - 2 ^ 1021) -> round_mag p 1 < n * scale.
Proof.
  intros Hn Hp. pose proof scale_split as Hsc.
  set (e := 2 ^ 1021) in *. assert (He : 0 < e) by (apply pow2_pos; lia).
  apply Z.le_lt_trans with (round_mag (n * (scale - e)) 1); [apply round_mag_mono; lia|].
  pose proof (Z.log2_spec n ltac:(lia)) as [Hlo Hhi].
  pose proof (Z.log2_nonneg n) as Hl0.
  assert (Hl : Z.log2 n <= 53).
  { rewrite <- (Z.log2_pow2 53) by lia. apply Z.log2_le_mono. lia. }
  set (l := Z.log2 n) in *.
  destruct (Z.eq_dec n (2 ^ l)) as [E|E].
  - pose proof (round_mag_exact (2 ^ 53 - 1) (l + 1021) 1 ltac:(lia) ltac:(lia) ltac:(lia)) as R.
    rewrite Z.mul_1_r, Z.pow_add_r in R by lia. fold e in R.
    replace (n * (scale - e)) with ((2 ^ 53 - 1) * (2 ^ l * e)) by (rewrite Hsc, E; ring).
    rewrite R, Hsc, E. nia.
  - assert (Hl52 : l <= 52).
    { destruct (Z.eq_dec l 53) as [El|]; [|lia]. rewrite El in *. lia. }
    set (v := n * (scale - e)) in *.
    assert (Hv : 2 ^ l * scale <= v < 2 ^ (l + 1) * scale).
    { unfold v. rewrite Hsc. rewrite Z.pow_succ_r in Hhi by lia.
      rewrite Z.pow_add_r by lia.
      pose proof (Z.pow_le_mono_r 2 (l + 1) 53 ltac:(lia) ltac:(lia)) as M.
      rewrite Z.pow_add_r in M by lia. nia. }
    assert (Hlog : Z.log2 v = l + 1074).
    { apply Z.log2_unique; [lia|]. unfold scale in Hv.
      rewrite <- !Z.pow_add_r in Hv by lia.
      by replace (Z.succ (l + 1074)) with (l + 1 + 1074) by lia. }
    unfold round_mag. rewrite Z.div_1_r, Z.mul_1_l. unfold ulp. rewrite Hlog.
    replace (Z.max 0 (l + 1074 - 52)) with (l + 1022) by lia.
    pose proof (pow2_pos (l + 1022) ltac:(lia)) as Hu.
    assert (Hc : n * scale = (n * 2 ^ (52 - l)) * 2 ^ (l + 1022)).
    { unfold scale. rewrite <- Z.mul_assoc, <- Z.pow_add_r by lia. do 2 f_equal. lia. }
    assert (Hue : 2 ^ (l + 1022) = 2 ^ l * 2 * e).
    { unfold e. rewrite <- !Z.mul_assoc, <- Z.pow_succ_r, <- Z.pow_add_r by lia.
      f_equal; lia. }
    rewrite Hc. apply Z.mul_lt_mono_pos_r; [done|].
    pose proof (rne_spec v (2 ^ (l + 1022)) Hu) as [[B _] _].
    apply Z.nle_gt. intros Hge.
    set (m := rne v (2 ^ (l + 1022))) in *. set (c := n * 2 ^ (52 - l)) in *.
    assert (2 * c * 2 ^ (l + 1022) <= 2 * m * 2 ^ (l + 1022)) by nia.
    unfold v in B. nia.
Qed.

Lemma mul_random n x :
  0 < n <= 2 ^ 53 -> random_value x ->
  exists k, mul x (of_Z n) = Fin k /\ 0 <= k < n * scale.
Proof.
  intros Hn (k & -> & Hk). pose proof scale_pos as Hs.
  rewrite of_Z_exact by lia. unfold mul. cbn [is_neg is_zero units].
  assert ((n * scale =? 0) = false) as -> by (apply Z.eqb_neq; nia).
  assert ((k <? 0) = false) as -> by (apply Z.ltb_ge; lia).
  assert ((n * scale <? 0) = false) as -> by (apply Z.ltb_ge; nia).
  destruct (Z.eqb_spec k 0) as [->|Hk0]; cbn [orb xorb signed_zero]; [exists 0; split; [done|nia]|].
  replace (k * (n * scale)) with (k * n * scale) by ring.
  pose proof (of_ratio_scale (k * n) 1 scale ltac:(lia) Hs) as R.
  rewrite Z.mul_1_l in R. rewrite R. clear R.
  unfold of_ratio. rewrite Z.abs_eq, Z.sgn_pos by nia.
  assert (Hb : round_mag (k * n) 1 < n * scale) by (apply round_mag_below; nia).
  pose proof (round_mag_nonneg (k * n) 1 ltac:(lia) ltac:(nia)) as Hr.
  assert (Hlim : n * scale <= limit).
  { unfold limit. rewrite (pow2_split 1074 2098) by lia. fold scale.
    assert (2 ^ 53 <= 2 ^ (2098 - 1074)) by (apply Z.pow_le_mono_r; lia). nia. }
  set (r := round_mag (k * n) 1) in *. clearbody r.
  assert ((limit <=? r) = false) as -> by (apply Z.leb_gt; lia).
  assert ((k * n <? 0) = false) as -> by (apply Z.ltb_ge; nia).
  destruct (Z.eqb_spec r 0); [exists 0; split; [done|nia]|].
  exists r. split; [by rewrite Z.mul_1_l|lia].
Qed.

(** [Math.floor(Math.random() * n)] is an index below [n]. *)
Lemma random_index n x :
  0 < n <= 2 ^ 53 -> random_value x -> 0 <= trunc_Z (floor (mul x (of_Z n))) < n.
Proof.
  intros Hn Hx. pose proof scale_pos as Hs.
  destruct (mul_random n x Hn Hx) as (k & -> & Hk). cbn [floor trunc_Z].
  rewrite Z.quot_mul by lia. split; [apply Z.div_pos; lia|].
  apply Z.div_lt_upper_bound; lia.
Qed.

(** * Quotients and products of positive values *)

Lemma div_Fin a b : 0 < a -> 0 < b -> div (Fin a) (Fin b) = of_ratio (a * scale) b.
Proof.
  intros Ha Hb. unfold div. cbn [is_neg is_zero units].
  rewrite (proj2 (Z.ltb_ge a 0)), (proj2 (Z.ltb_ge b 0)) by lia.
  rewrite (proj2 (Z.eqb_neq a 0)), (proj2 (Z.eqb_neq b 0)) by lia.
  by rewrite Z.sgn_pos, Z.abs_eq, Z.mul_1_l by lia.
Qed.

Lemma mul_Fin a b : 0 < a -> 0 < b -> mul (Fin a) (Fin b) = of_ratio (a * b) scale.
Proof.
  intros Ha Hb. unfold mul. cbn [is_neg is_zero units].
  rewrite (proj2 (Z.ltb_ge a 0)), (proj2 (Z.ltb_ge b 0)) by lia.
  by rewrite (proj2 (Z.eqb_neq a 0)), (proj2 (Z.eqb_neq b 0)) by lia.
Qed.

Lemma len_ord x y : len x y = true -> exists a b, ord x = Some a /\ ord y = Some b /\ a <= b.
Proof.
  unfold len, num_cmp. destruct (ord x) as [a|], (ord y) as [b|]; try done.
  intros H. b2p. eauto 6.
Qed.

Lemma ord_Fin x k : ord x = Some k -> 0 < k < limit -> x = Fin k.
Proof. destruct x as [|[]| |]; cbn; intros H Hk; simplify_eq; try lia; done. Qed.

(** A ratio between two representable values rounds to a value between them. *)
Lemma of_ratio_between p q lo hi :
  0 < q -> 0 < lo -> hi < limit -> lo * q <= p <= hi * q ->
  of_ratio lo 1 = Fin lo -> of_ratio hi 1 = Fin hi ->
  exists m, of_ratio p q = Fin m /\ lo <= m <= hi.
Proof.
  intros Hq Hlo Hhi Hp El Eh.
  pose proof (of_ratio_mono lo 1 p q ltac:(lia) Hq ltac:(lia)) as L.
  pose proof (of_ratio_mono p q hi 1 Hq ltac:(lia) ltac:(lia)) as U.
  rewrite El in L. rewrite Eh in U.
  apply len_ord in L as (a & b & Ha & Hb & Hab), U as (b' & c & Hb' & Hc & Hbc).
  cbn in Ha, Hc. simplify_eq. eexists. split; [apply ord_Fin; [done|lia]|lia].
Qed.

(** Division and multiplication by a power of two are exact. *)
Lemma div_pow2 z j :
  0 < z <= 2 ^ 53 -> 0 <= j <= 1000 ->
  div (Fin (z * scale)) (Fin (2 ^ j * scale)) = Fin (z * 2 ^ (1074 - j)).
Proof.
  intros Hz Hj. pose proof scale_pos. pose proof (pow2_pos j ltac:(lia)).
  rewrite div_Fin by nia. rewrite of_ratio_scale by lia.
  assert (E : z * scale = z * 2 ^ (1074 - j) * 2 ^ j).
  { rewrite <- Z.mul_assoc, <- Z.pow_add_r by lia. unfold scale. do 2 f_equal. lia. }
  rewrite E. apply of_ratio_exact; [lia|lia|lia|].
  assert (2 ^ (1074 - j) <= 2 ^ 1074) by (apply Z.pow_le_mono_r; lia).
  apply Z.le_lt_trans with (2 ^ 53 * 2 ^ 1074); [nia|by vm_compute].
Qed.

Lemma mul_pow2 z j :
  0 < z <= 2 ^ 53 -> 0 <= j <= 1000 ->
  mul (Fin (z * 2 ^ (1074 - j))) (Fin (2 ^ j * scale)) = Fin (z * scale).
Proof.
  intros Hz Hj. pose proof scale_pos. pose proof (pow2_pos j ltac:(lia)).
  pose proof (pow2_pos (1074 - j) ltac:(lia)).
  rewrite mul_Fin by nia.
  assert (E : z * 2 ^ (1074 - j) * (2 ^ j * scale) = z * 2 ^ 1074 * scale).
  { rewrite (pow2_split j 1074) by lia. ring. }
  rewrite E. apply of_ratio_exact; [lia|lia|lia|].
  apply Z.le_lt_trans with (2 ^ 53 * 2 ^ 1074); [nia|by vm_compute].
Qed.
