(* ===== verification/JsString.v ===== *)
(** JavaScript strings and the conversions between strings and Numbers.

    A string is a [string] of 8-bit code units (the program's protocol strings
    are ASCII).  Here are [parseInt], [Number(s)], [parseFloat],
    [Number.prototype.toString], [toFixed], [split], [replace] with a string
    pattern, and the digit printing and scanning they share. *)
From S2P Require Import Prelude JsNum.

(** * Characters *)

Definition code (c : ascii) : Z := Z.of_N (Stdlib.Strings.Ascii.N_of_ascii c).
Definition chr (z : Z) : ascii := Stdlib.Strings.Ascii.ascii_of_N (Z.to_N z).

Definition in_range (lo hi : ascii) (c : ascii) : bool :=
  (code lo <=? code c) && (code c <=? code hi).

(** Value of a digit character in the radices up to 36. *)
Definition digit_val (c : ascii) : Z :=
  if in_range "0" "9" c then code c - 48
  else if in_range "a" "z" c then code c - 87
  else if in_range "A" "Z" c then code c - 55
  else 36.

Definition digit_char (d : Z) : ascii := chr (if d <? 10 then 48 + d else 87 + d).

Definition is_digit (b : Z) (c : ascii) : bool := digit_val c <? b.

(** White space and line terminators below U+0100. *)
Definition is_ws (c : ascii) : bool :=
  in_range (chr 9) (chr 13) c || (code c =? 32) || (code c =? 160).

Definition eqc (a b : ascii) : bool := Stdlib.Strings.Ascii.eqb a b.

(** The properties every plain object has from [Object.prototype]: reading one of
    them never gives [undefined]. *)
Definition inherited (k : string) : bool :=
  bool_decide (k ∈ ["constructor"; "hasOwnProperty"; "isPrototypeOf"; "propertyIsEnumerable";
    "toLocaleString"; "toString"; "valueOf"; "__proto__"; "__defineGetter__";
    "__defineSetter__"; "__lookupGetter__"; "__lookupSetter__"]).

(** * Digits *)

(** Value, number and remainder of the longest prefix of radix-[b] digits. *)
Fixpoint scan_digits (b acc : Z) (cnt : nat) (s : string) : Z * nat * string :=
  match s with
  | String c s' =>
      if is_digit b c then scan_digits b (acc * b + digit_val c) (S cnt) s'
      else (acc, cnt, s)
  | EmptyString => (acc, cnt, s)
  end.

Fixpoint digits_go (fuel : nat) (b n : Z) (acc : string) : string :=
  match fuel with
  | O => acc
  | S f =>
      let acc' := String (digit_char (n mod b)) acc in
      if n / b =? 0 then acc' else digits_go f b (n / b) acc'
  end.

(** The radix-[b] numeral of [n >= 0]: [log2 n + 1] digits are enough. *)
Definition digits (b n : Z) : string :=
  digits_go (S (Z.to_nat (Z.log2 n))) b n "".

(** Decimal numeral of an integer. *)
Definition dec (z : Z) : string :=
  if z <? 0 then String "-" (digits 10 (- z)) else digits 10 z.

(** [s.toLowerCase()] on the 8-bit code units. *)
Definition lower_char (c : ascii) : ascii :=
  if in_range "A" "Z" c || ((192 <=? code c) && (code c <=? 222) && negb (code c =? 215))
  then chr (code c + 32) else c.
Fixpoint to_lower (s : string) : string :=
  match s with EmptyString => "" | String c s' => String (lower_char c) (to_lower s') end.

(** [s.toUpperCase()] of a text without code units above 127. *)
Fixpoint to_upper (s : string) : string :=
  match s with
  | EmptyString => ""
  | String c s' => String (if in_range "a" "z" c then chr (code c - 32) else c) (to_upper s')
  end.

Fixpoint zeros (n : nat) : string :=
  match n with O => "" | S m => String "0" (zeros m) end.

(** * Taking strings apart *)

Fixpoint trim_start (s : string) : string :=
  match s with
  | String c s' => if is_ws c then trim_start s' else s
  | EmptyString => s
  end.

Definition trim_end (s : string) : string := String.rev (trim_start (String.rev s)).
Definition trim (s : string) : string := trim_end (trim_start s).

(** [drop_prefix p s] is what follows [p] at the start of [s]. *)
Fixpoint drop_prefix (p s : string) : option string :=
  match p, s with
  | EmptyString, _ => Some s
  | String a p', String c s' => if eqc a c then drop_prefix p' s' else None
  | _, _ => None
  end.

Definition has_prefix (p s : string) : bool :=
  match drop_prefix p s with Some _ => true | None => false end.

(** [s.replace(p, r)] with a string pattern: the first occurrence only. *)
Fixpoint replace_first (p r s : string) : string :=
  match drop_prefix p s with
  | Some rest => r +:+ rest
  | None => match s with
            | String c s' => String c (replace_first p r s')
            | EmptyString => s
            end
  end.

(** [s.split(sep)] for a one-character separator. *)
Fixpoint split_go (sep : ascii) (cur s : string) : list string :=
  match s with
  | EmptyString => [String.rev cur]
  | String c s' =>
      if eqc c sep then String.rev cur :: split_go sep "" s'
      else split_go sep (String c cur) s'
  end.
Definition split (sep : ascii) (s : string) : list string := split_go sep "" s.

(** [s.split(sep)] for a separator of any positive length; [skip] counts the
    characters of a separator still to be passed. *)
Fixpoint split_str_go (sep : string) (skip : nat) (cur s : string) : list string :=
  match s with
  | EmptyString => [String.rev cur]
  | String c s' =>
      match skip with
      | S k => split_str_go sep k cur s'
      | O => if has_prefix sep s
             then String.rev cur :: split_str_go sep (pred (String.length sep)) "" s'
             else split_str_go sep 0 (String c cur) s'
      end
  end.
Definition split_str (sep s : string) : list string := split_str_go sep 0 "" s.

(** [s.split('')]. *)
Fixpoint characters (s : string) : list string :=
  match s with EmptyString => [] | String c s' => String c "" :: characters s' end.

(** [s.replace(/p/g, r)] for a pattern that stands for itself; [skip] passes the rest
    of a match. *)
Fixpoint replace_all_go (p r : string) (skip : nat) (s : string) : string :=
  match s with
  | EmptyString => ""
  | String c s' =>
      match skip with
      | S k => replace_all_go p r k s'
      | O => if has_prefix p s then r +:+ replace_all_go p r (pred (String.length p)) s'
             else String c (replace_all_go p r 0 s')
      end
  end.
Definition replace_all (p r s : string) : string := replace_all_go p r 0 s.

(** [s.replace(/a/g, b)] for characters. *)
Fixpoint replace_char (a b : ascii) (s : string) : string :=
  match s with
  | EmptyString => ""
  | String c s' => String (if eqc c a then b else c) (replace_char a b s')
  end.

(** What [innerHTML] shows of a text node. *)
Fixpoint escape_html (s : string) : string :=
  match s with
  | EmptyString => ""
  | String c s' =>
      (if eqc c "&" then "&amp;" else if eqc c "<" then "&lt;" else if eqc c ">" then "&gt;"
       else if code c =? 160 then "&nbsp;" else String c "") +:+ escape_html s'
  end.

(** A sign and what follows it. *)
Definition take_sign (s : string) : bool * string :=
  match s with
  | String c s' =>
      if eqc c "-" then (true, s') else if eqc c "+" then (false, s') else (false, s)
  | EmptyString => (false, s)
  end.

Definition apply_sign (n : bool) (x : num) : num := if n then neg x else x.

(** "0x" or "0X" and what follows it. *)
Definition drop_hex (s : string) : option string :=
  match drop_prefix "0x" s with Some r => Some r | None => drop_prefix "0X" s end.

(** * Strings to Numbers *)

(** [parseInt(s)]: radix 10, or 16 after "0x"; trailing characters ignored. *)
Definition parseInt (s : string) : num :=
  let '(n, s1) := take_sign (trim_start s) in
  let '(radix, s2) := match drop_hex s1 with Some r => (16, r) | None => (10, s1) end in
  match scan_digits radix 0 0 s2 with
  | (_, O, _) => NaN
  | (v, S _, _) => apply_sign n (of_Z v)
  end.

(** Mantissa and exponent of a decimal literal: digits, an optional fraction
    and an optional exponent part. *)
Definition scan_exponent (s : string) : Z * string :=
  match s with
  | String c s' =>
      if eqc c "e" || eqc c "E" then
        let '(n, s1) := take_sign s' in
        match scan_digits 10 0 0 s1 with
        | (_, O, _) => (0, s)
        | (v, S _, r) => (if n then - v else v, r)
        end
      else (0, s)
  | EmptyString => (0, s)
  end.

Definition scan_decimal (s : string) : option (Z * Z * string) :=
  let '(v1, c1, r1) := scan_digits 10 0 0 s in
  let '(v, c2, r) :=
    match r1 with
    | String "." r' => let '(v2, c, r2) := scan_digits 10 v1 0 r' in
        if Nat.eqb (c1 + c) 0 then (v1, O, r1) else (v2, c, r2)
    | _ => (v1, O, r1)
    end in
  if Nat.eqb (c1 + c2) 0 then None
  else let '(e, r3) := scan_exponent r in Some (v, e - Z.of_nat c2, r3).

Definition of_dec (m e : Z) : num :=
  if 0 <=? e then of_Z (m * 10 ^ e) else of_ratio (m * scale) (10 ^ (- e)).

(** [parseFloat(s)]. *)
Definition parseFloat (s : string) : num :=
  let '(n, s1) := take_sign (trim_start s) in
  if has_prefix "Infinity" s1 then Inf n
  else match scan_decimal s1 with
       | Some (m, e, _) => apply_sign n (of_dec m e)
       | None => NaN
       end.

(** The whole of [s] as an unsigned radix-[b] numeral. *)
Definition whole_digits (b : Z) (s : string) : num :=
  match scan_digits b 0 0 s with
  | (v, S _, EmptyString) => of_Z v
  | _ => NaN
  end.

(** [Number(s)]. *)
Definition to_number (s : string) : num :=
  let t := trim s in
  match t with
  | EmptyString => Fin 0
  | _ =>
      match drop_hex t, drop_prefix "0b" t, drop_prefix "0B" t,
            drop_prefix "0o" t, drop_prefix "0O" t with
      | Some r, _, _, _, _ => whole_digits 16 r
      | _, Some r, _, _, _ | _, _, Some r, _, _ => whole_digits 2 r
      | _, _, _, Some r, _ | _, _, _, _, Some r => whole_digits 8 r
      | _, _, _, _, _ =>
          let '(n, s1) := take_sign t in
          if String.eqb s1 "Infinity" then Inf n
          else match scan_decimal s1 with
               | Some (m, e, EmptyString) => apply_sign n (of_dec m e)
               | _ => NaN
               end
      end
  end.

(** * Numbers to strings *)

(** Decimal exponent of [k] units, [k > 0]: the [n] with
    [10^(n-1) <= k/scale < 10^n]; [j] counts the multiplications by ten that
    bring a magnitude below 1 up to 1 (324 are enough, 400 is the fuel). *)
Fixpoint small_exp (fuel : nat) (k : Z) (j : Z) : Z :=
  match fuel with
  | O => 1 - j
  | S f => if scale <=? 10 * k then - j else small_exp f (10 * k) (j + 1)
  end.

Definition dec_exp (k : Z) : Z :=
  if scale <=? k then Z.of_nat (String.length (digits 10 (k / scale)))
  else small_exp 400 k 0.

(** Does the decimal [s * 10^e] denote [Fin k]? *)
Definition denotes (k s e : Z) : bool := bool_decide (of_dec s e = Fin k).

(** The shortest decimal [s * 10^(n - d)], [d] digits long, that denotes
    [Fin k]; of the two [d]-digit neighbours of [k] the nearer is tried first. *)
Fixpoint shortest (fuel : nat) (k n d : Z) : Z * Z :=
  let e := n - d in
  let p := if 0 <=? e then k else k * 10 ^ (- e) in
  let q := if 0 <=? e then scale * 10 ^ e else scale in
  let lo := p / q in
  let near_lo := 2 * (p mod q) <=? q in
  let a := if near_lo then lo else lo + 1 in
  let b := if near_lo then lo + 1 else lo in
  if denotes k a e then (a, d)
  else if denotes k b e then (b, d)
  else match fuel with
       | O => (a, d)
       | S f => shortest f k n (d + 1)
       end.

(** Layout of the digits of [s] (there are [d]) with the point after [n]. *)
Definition layout (s d n : Z) : string :=
  let ds := digits 10 s in
  let at_ := Z.to_nat n in
  if (d <=? n) && (n <=? 21) then ds +:+ zeros (Z.to_nat (n - d))
  else if (0 <? n) && (n <=? 21) then
    String.substring 0 at_ ds +:+ "." +:+ String.substring at_ (Z.to_nat d - at_) ds
  else if (-6 <? n) && (n <=? 0) then "0." +:+ zeros (Z.to_nat (- n)) +:+ ds
  else
    let ex := (if 0 <=? n - 1 then "+" else "-") +:+ digits 10 (Z.abs (n - 1)) in
    if d =? 1 then ds +:+ "e" +:+ ex
    else String.substring 0 1 ds +:+ "." +:+
         String.substring 1 (Z.to_nat d - 1) ds +:+ "e" +:+ ex.

(** Decimal text of [k > 0] units.  An integer below [2^53] is its own shortest
    representation; otherwise 17 digits always denote the value. *)
Definition pos_to_string (k : Z) : string :=
  if (k mod scale =? 0) && (k / scale <? 2 ^ 53) then digits 10 (k / scale)
  else let n := dec_exp k in
       let '(s, d) := shortest 17 k n 1 in
       if s =? 10 ^ d then layout (10 ^ (d - 1)) d (n + 1) else layout s d n.

(** [String(x)]. *)
Definition num_to_string (x : num) : string :=
  match x with
  | NaN => "NaN"
  | Inf true => "-Infinity"
  | Inf false => "Infinity"
  | NegZero => "0"
  | Fin k => if k =? 0 then "0"
             else if k <? 0 then String "-" (pos_to_string (- k))
             else pos_to_string k
  end.

(** [x.toString(radix)] of an integer-valued [x] below [2^53] in magnitude. *)
Definition int_to_radix (radix : Z) (z : Z) : string :=
  if z <? 0 then String "-" (digits radix (- z)) else digits radix z.

(** [parseInt] of a Number reads its decimal text. *)
Definition parseInt_num (x : num) : num := parseInt (num_to_string x).

(** The digits of [n] with the point before the last [f] of them, padded with
    zeros on the left so that one digit precedes the point. *)
Definition fixed_layout (n : Z) (f : nat) : string :=
  let ds := digits 10 n in
  let l := String.length ds in
  let ds' := if (l <=? f)%nat then zeros (S f - l) +:+ ds else ds in
  let l' := String.length ds' in
  if (f =? 0)%nat then ds'
  else String.substring 0 (l' - f) ds' +:+ "." +:+ String.substring (l' - f) f ds'.

(** The integer [toFixed] prints, [k/scale * 10^f] to nearest, halves up. *)
Definition fixed_mantissa (k : Z) (f : nat) : Z :=
  (2 * k * 10 ^ Z.of_nat f + scale) / (2 * scale).

(** [x.toFixed(f)]. *)
Definition toFixed (x : num) (f : nat) : string :=
  match x with
  | NegZero => fixed_layout 0 f
  | Fin k =>
      if 10 ^ 21 * scale <=? Z.abs k then num_to_string x
      else let s := fixed_layout (fixed_mantissa (Z.abs k) f) f in
           if k <? 0 then String "-" s else s
  | _ => num_to_string x
  end.

#[global] Arguments eqc : simpl never.
#[global] Arguments is_ws : simpl never.
#[global] Arguments digit_val : simpl never.
#[global] Arguments is_digit : simpl never.

(** * Lemmas on digits *)

Lemma digit_val_char d : 0 <= d < 36 -> digit_val (digit_char d) = d.
Proof.
  intros H. apply Z.eqb_eq.
  by apply (range_test 36 (fun d => digit_val (digit_char d) =? d)).
Qed.

Lemma is_digit_char b d : 0 <= d < b -> b <= 36 -> is_digit b (digit_char d) = true.
Proof. intros. unfold is_digit. rewrite digit_val_char by lia. ztest. done. Qed.

(** Digit characters are not white space, signs, points or letters of a
    radix prefix. *)
Definition plain_digit (c : ascii) : bool :=
  in_range "0" "9" c.
#[global] Arguments plain_digit : simpl never.

Lemma digit_char_plain d : 0 <= d < 10 -> plain_digit (digit_char d) = true.
Proof. by apply (range_test 10 (fun d => plain_digit (digit_char d))). Qed.

Lemma plain_digit_spec c :
  plain_digit c = true ->
  is_ws c = false /\ eqc c "-" = false /\ eqc c "+" = false /\ is_digit 10 c = true /\
  eqc "I" c = false /\ eqc "x" c = false /\ eqc "X" c = false /\ eqc c "/" = false.
Proof.
  intros H.
  assert (T : implb (plain_digit c)
    (negb (is_ws c) && negb (eqc c "-") && negb (eqc c "+") && is_digit 10 c &&
     negb (eqc "I" c) && negb (eqc "x" c) && negb (eqc "X" c) && negb (eqc c "/")) = true).
  { apply (ascii_test (fun c => implb (plain_digit c)
      (negb (is_ws c) && negb (eqc c "-") && negb (eqc c "+") && is_digit 10 c &&
       negb (eqc "I" c) && negb (eqc "x" c) && negb (eqc "X" c) && negb (eqc c "/")))).
    by vm_compute. }
  rewrite H in T. cbn in T. rewrite !andb_true_iff, !negb_true_iff in T. tauto.
Qed.

(** Scanning the numeral [digits b n] reads exactly [n]. *)
Lemma scan_digits_go b fuel n acc a c :
  2 <= b <= 36 -> 0 <= n < b ^ Z.of_nat fuel -> (0 < fuel)%nat ->
  exists l, (0 < l)%nat /\
    scan_digits b a c (digits_go fuel b n acc) =
    scan_digits b (a * b ^ Z.of_nat l + n) (c + l) acc.
Proof.
  intros Hb. revert n acc. induction fuel as [|f IH]; intros n acc Hn Hf; [lia|].
  cbn [digits_go]. rewrite Nat2Z.inj_succ, Z.pow_succ_r in Hn by lia.
  pose proof (Z.div_mod n b ltac:(lia)) as Hdm.
  pose proof (Z.mod_pos_bound n b ltac:(lia)) as Hmod.
  assert (Hstep : forall x k, scan_digits b x k (String (digit_char (n mod b)) acc)
            = scan_digits b (x * b + n mod b) (S k) acc).
  { intros x k. cbn [scan_digits]. rewrite is_digit_char by lia.
    by rewrite digit_val_char by lia. }
  destruct (Z.eqb_spec (n / b) 0) as [E|E].
  - exists 1%nat. split; [lia|]. rewrite Hstep. rewrite E in Hdm.
    replace (n mod b) with n by lia. rewrite Nat.add_1_r. f_equal. lia.
  - pose proof (Z.div_pos n b ltac:(lia) ltac:(lia)) as Hp.
    assert (Hlt : n / b < b ^ Z.of_nat f) by (apply Z.div_lt_upper_bound; lia).
    assert (0 < f)%nat by (destruct f; [cbn in Hlt; lia|lia]).
    destruct (IH (n / b) (String (digit_char (n mod b)) acc)) as (l & Hl & ->); [lia..|].
    exists (S l). split; [lia|]. rewrite Hstep, Nat2Z.inj_succ, Z.pow_succ_r by lia.
    f_equal; [|lia]. nia.
Qed.

Lemma log2_fuel b n : 2 <= b -> 0 <= n -> n < b ^ Z.of_nat (S (Z.to_nat (Z.log2 n))).
Proof.
  intros Hb Hn. pose proof (Z.log2_nonneg n).
  rewrite Nat2Z.inj_succ, Z2Nat.id by done.
  destruct (Z.eq_dec n 0) as [->|Hne]; [cbn; lia|].
  apply Z.lt_le_trans with (2 ^ Z.succ (Z.log2 n)); [apply Z.log2_spec; lia|].
  apply Z.pow_le_mono_l. lia.
Qed.

Lemma digits_go_app fuel b n acc s :
  digits_go fuel b n acc +:+ s = digits_go fuel b n (acc +:+ s).
Proof.
  revert n acc. induction fuel as [|f IH]; intros n acc; [done|]. cbn [digits_go].
  case_match; [done|]. apply IH.
Qed.

Lemma scan_digits_digits b n a c rest :
  2 <= b <= 36 -> 0 <= n ->
  exists l, (0 < l)%nat /\ scan_digits b a c (digits b n +:+ rest) =
    scan_digits b (a * b ^ Z.of_nat l + n) (c + l) rest.
Proof.
  intros Hb Hn. unfold digits. rewrite digits_go_app.
  apply scan_digits_go; [done| |lia]. split; [done|]. apply log2_fuel; lia.
Qed.

Lemma digits_go_plain fuel n acc :
  str_all plain_digit acc = true -> str_all plain_digit (digits_go fuel 10 n acc) = true.
Proof.
  revert n acc. induction fuel as [|f IH]; intros n acc H; [done|]. cbn [digits_go].
  pose proof (Z.mod_pos_bound n 10 ltac:(lia)).
  assert (H' : str_all plain_digit (String (digit_char (n mod 10)) acc) = true).
  { cbn [str_all]. by rewrite digit_char_plain, H by lia. }
  case_match; [done|]. by apply IH.
Qed.

Lemma digits_plain n : str_all plain_digit (digits 10 n) = true.
Proof. by apply digits_go_plain. Qed.

Lemma digits_nonempty n : 0 <= n -> exists c s, digits 10 n = String c s.
Proof.
  intros Hn. destruct (digits 10 n) as [|c s] eqn:E; [|by eauto].
  destruct (scan_digits_digits 10 n 0 0 "" ltac:(lia) Hn) as (l & Hl & H).
  rewrite E in H. cbn in H. injection H. lia.
Qed.

#[export] Hint Resolve digits_plain : broker.

Lemma drop_prefix_app p s : drop_prefix p (p +:+ s) = Some s.
Proof.
  induction p as [|c p IH]; [done|].
  change (String c p +:+ s) with (String c (p +:+ s)).
  cbn. unfold eqc. by rewrite Stdlib.Strings.Ascii.eqb_refl.
Qed.

Lemma drop_prefix_Some p s r : drop_prefix p s = Some r -> s = p +:+ r.
Proof.
  revert s. induction p as [|c p IH]; intros s H; [by injection H as ->|].
  destruct s as [|c' s]; [done|]. cbn in H. unfold eqc in H.
  destruct (Stdlib.Strings.Ascii.eqb_spec c c') as [->|]; [|done].
  by rewrite (IH _ H).
Qed.

Lemma replace_first_app p r s : replace_first p r (p +:+ s) = r +:+ s.
Proof.
  pose proof (drop_prefix_app p s) as H.
  destruct (p +:+ s) eqn:E; cbn [replace_first]; by rewrite H.
Qed.

Lemma rev_app_acc s a b : String.rev_app s (a +:+ b) = String.rev_app s a +:+ b.
Proof.
  revert a. induction s as [|c s IH]; intros a; [done|]. cbn.
  by rewrite <- IH.
Qed.

Lemma rev_cons c s : String.rev (String c s) = String.rev s +:+ String c "".
Proof. unfold String.rev. cbn. by rewrite <- rev_app_acc. Qed.

Lemma rev_app_distr a b : String.rev (a +:+ b) = String.rev b +:+ String.rev a.
Proof.
  induction a as [|c a IH]; [by rewrite string_app_nil_l, string_app_nil_r|].
  rewrite string_app_cons, !rev_cons, IH. by rewrite string_app_assoc.
Qed.

Lemma rev_involutive s : String.rev (String.rev s) = s.
Proof. induction s as [|c s IH]; [done|]. by rewrite rev_cons, rev_app_distr, IH. Qed.

Lemma str_all_rev p s : str_all p (String.rev s) = str_all p s.
Proof.
  induction s as [|c s IH]; [done|].
  rewrite rev_cons, str_all_app, IH. cbn. rewrite andb_true_r. apply andb_comm.
Qed.

Lemma trim_start_no_ws s :
  str_all (fun c => negb (is_ws c)) s = true -> trim_start s = s.
Proof. destruct s as [|c s]; [done|]. cbn. by destruct (is_ws c). Qed.

Lemma trim_no_ws s : str_all (fun c => negb (is_ws c)) s = true -> trim s = s.
Proof.
  intros H. unfold trim, trim_end. rewrite (trim_start_no_ws s H).
  rewrite trim_start_no_ws by (by rewrite str_all_rev). apply rev_involutive.
Qed.

Lemma plain_no_ws s :
  str_all plain_digit s = true -> str_all (fun c => negb (is_ws c)) s = true.
Proof.
  apply str_all_impl. intros c Hc. by destruct (plain_digit_spec c Hc) as (-> & _).
Qed.

Lemma take_sign_plain s : str_all plain_digit s = true -> take_sign s = (false, s).
Proof.
  destruct s as [|c s]; [done|]. cbn. rewrite andb_true_iff. intros [Hc _].
  by destruct (plain_digit_spec c Hc) as (_ & -> & -> & _).
Qed.

Lemma drop_hex_plain s : str_all plain_digit s = true -> drop_hex s = None.
Proof.
  destruct s as [|c s]; [done|]. cbn. rewrite andb_true_iff. intros [_ Hs].
  unfold drop_hex. cbn. destruct (eqc "0" c); [|done].
  destruct s as [|d s]; [done|]. cbn in *. rewrite andb_true_iff in Hs.
  destruct Hs as [Hd _].
  by destruct (plain_digit_spec d Hd) as (_ & _ & _ & _ & _ & -> & -> & _).
Qed.

(** No radix prefix [0x] with [x] outside the digits. *)
Lemma drop_radix_plain x s :
  plain_digit x = false -> str_all plain_digit s = true ->
  drop_prefix (String "0" (String x "")) s = None.
Proof.
  intros Hx. destruct s as [|c s]; [done|]. cbn. rewrite andb_true_iff. intros [_ Hs].
  destruct (eqc "0" c); [|done]. destruct s as [|d s]; [done|].
  cbn in *. rewrite andb_true_iff in Hs. destruct Hs as [Hd _]. unfold eqc.
  destruct (Stdlib.Strings.Ascii.eqb_spec x d) as [->|]; [congruence|done].
Qed.

Lemma dec_nonneg n : 0 <= n -> dec n = digits 10 n.
Proof. intros. unfold dec. ztest. done. Qed.

(** [parseInt] and [Number] read back a decimal numeral. *)
Lemma parseInt_dec n : 0 <= n -> parseInt (dec n) = of_Z n.
Proof.
  intros Hn. rewrite dec_nonneg by done. unfold parseInt.
  rewrite trim_start_no_ws by (apply plain_no_ws, digits_plain).
  rewrite take_sign_plain, drop_hex_plain by apply digits_plain.
  destruct (scan_digits_digits 10 n 0 0 "" ltac:(lia) Hn) as (l & Hl & H).
  rewrite string_app_nil_r in H. rewrite H. cbn [scan_digits].
  destruct l; [lia|]. done.
Qed.

Lemma scan_decimal_digits n : 0 <= n -> scan_decimal (digits 10 n) = Some (n, 0, "").
Proof.
  intros Hn. unfold scan_decimal.
  destruct (scan_digits_digits 10 n 0 0 "" ltac:(lia) Hn) as (l & Hl & H).
  rewrite string_app_nil_r in H. rewrite H. cbn [scan_digits].
  destruct l as [|l]; [lia|]. done.
Qed.

Lemma eqb_infinity_plain s :
  str_all plain_digit s = true -> String.eqb s "Infinity" = false.
Proof.
  destruct s as [|c s]; [done|]. cbn. rewrite andb_true_iff. intros [Hc _].
  destruct (plain_digit_spec c Hc) as (_ & _ & _ & _ & HI & _).
  unfold eqc in HI. rewrite Stdlib.Strings.Ascii.eqb_sym in HI. by rewrite HI.
Qed.

Lemma to_number_dec n : 0 <= n -> to_number (dec n) = of_Z n.
Proof.
  intros Hn. rewrite dec_nonneg by done. unfold to_number.
  pose proof (digits_plain n) as Hp.
  rewrite trim_no_ws by (by apply plain_no_ws).
  destruct (digits_nonempty n Hn) as (c & s & E). rewrite E.
  rewrite <- E. rewrite drop_hex_plain by done.
  rewrite !drop_radix_plain by done.
  rewrite take_sign_plain, eqb_infinity_plain by done.
  rewrite scan_decimal_digits by done. unfold of_dec, apply_sign. cbn [Z.leb Z.compare].
  by rewrite Z.mul_1_r.
Qed.

Lemma of_Z_0 : of_Z 0 = Fin 0.
Proof. by vm_compute. Qed.

(** The text of a safe integer is its decimal numeral. *)
Lemma num_to_string_of_Z n : 0 <= n < 2 ^ 53 -> num_to_string (of_Z n) = dec n.
Proof.
  intros Hn. pose proof scale_pos as Hs. rewrite of_Z_exact by lia.
  rewrite dec_nonneg by lia. unfold num_to_string.
  destruct (Z.eqb_spec (n * scale) 0) as [E|E].
  - assert (n = 0) as -> by nia. done.
  - destruct (Z.ltb_spec (n * scale) 0); [nia|]. unfold pos_to_string.
    rewrite Z.mod_mul, Z.div_mul by lia. cbn [Z.eqb andb]. ztest. done.
Qed.

(** * [split] *)

Lemma split_go_no_sep sep cur s :
  str_all (fun c => negb (eqc c sep)) s = true ->
  split_go sep cur s = [String.rev cur +:+ s].
Proof.
  revert cur. induction s as [|c s IH]; intros cur; cbn.
  - by rewrite string_app_nil_r.
  - rewrite andb_true_iff. intros [Hc Hs]. destruct (eqc c sep); [done|].
    rewrite IH by done. by rewrite rev_cons, <- string_app_assoc.
Qed.

Lemma split_go_sep sep cur a s :
  str_all (fun c => negb (eqc c sep)) a = true -> 
  split_go sep cur (a +:+ String sep s) = (String.rev cur +:+ a) :: split_go sep "" s.
Proof.
  revert cur. induction a as [|c a IH]; intros cur; cbn.
  - intros _. change ("" +:+ String sep s) with (String sep s). cbn [split_go]. unfold eqc.
    rewrite Stdlib.Strings.Ascii.eqb_refl. by rewrite string_app_nil_r.
  - rewrite andb_true_iff. intros [Hc Hs].
    change (String c a +:+ String sep s) with (String c (a +:+ String sep s)). cbn [split_go].
    destruct (eqc c sep); [done|]. rewrite IH by done. by rewrite rev_cons, <- string_app_assoc.
Qed.

#[export] Hint Rewrite parseInt_dec to_number_dec num_to_string_of_Z
  using lia : broker.
