(* ===== verification/JsVal.v ===== *)
(** Dynamically typed JavaScript values, for the parts of the program whose
    variables hold a string at one moment and a Number or [undefined] at another:
    truthiness, the conversions [Number(v)] and [String(v)], strict equality and
    the [<] comparison. *)
From S2P Require Import Prelude JsNum JsString.

Inductive jsval :=
  | Undef
  | Null
  | JBool (b : bool)
  | JNum (x : num)
  | JStr (s : string).

#[export] Instance jsval_eq_dec : EqDecision jsval.
Proof. solve_decision. Defined.

(** A property that may be missing. *)
Definition of_field (o : option string) : jsval :=
  match o with Some s => JStr s | None => Undef end.

Definition truthy (v : jsval) : bool :=
  match v with
  | Undef | Null => false
  | JBool b => b
  | JNum x => negb (isNaN x || is_zero x)
  | JStr s => negb (String.eqb s "")
  end.

(** [Number(v)] and [String(v)]. *)
Definition to_num (v : jsval) : num :=
  match v with
  | Undef => NaN
  | Null => Fin 0
  | JBool b => if b then of_Z 1 else Fin 0
  | JNum x => x
  | JStr s => to_number s
  end.

Definition to_str (v : jsval) : string :=
  match v with
  | Undef => "undefined"
  | Null => "null"
  | JBool b => if b then "true" else "false"
  | JNum x => num_to_string x
  | JStr s => s
  end.

(** [a === b]. *)
Definition strict_eq (a b : jsval) : bool :=
  match a, b with
  | Undef, Undef | Null, Null => true
  | JBool x, JBool y => Bool.eqb x y
  | JNum x, JNum y => eqn x y
  | JStr x, JStr y => String.eqb x y
  | _, _ => false
  end.

(** Order of strings by code units. *)
Fixpoint str_lt (a b : string) : bool :=
  match a, b with
  | EmptyString, String _ _ => true
  | String x a', String y b' =>
      (code x <? code y) || ((code x =? code y) && str_lt a' b')
  | _, EmptyString => false
  end.

(** [a < b]: as strings when both are strings, as Numbers otherwise. *)
Definition js_lt (a b : jsval) : bool :=
  match a, b with
  | JStr x, JStr y => str_lt x y
  | _, _ => ltn (to_num a) (to_num b)
  end.
Definition js_gt (a b : jsval) : bool := js_lt b a.


(** [a <= b]: false when a Number is not a number. *)
Definition js_le (a b : jsval) : bool :=
  match a, b with
  | JStr x, JStr y => negb (str_lt y x)
  | _, _ => negb (isNaN (to_num a)) && negb (isNaN (to_num b)) && negb (ltn (to_num b) (to_num a))
  end.

(** [a == b] between primitives. *)
Definition loose_eq (a b : jsval) : bool :=
  match a, b with
  | (Undef | Null), (Undef | Null) => true
  | (Undef | Null), _ | _, (Undef | Null) => false
  | JStr x, JStr y => String.eqb x y
  | _, _ => eqn (to_num a) (to_num b)
  end.

(** [parseInt(v)] and [parseFloat(v)] read the text of the value. *)
Definition parseInt_val (v : jsval) : num := parseInt (to_str v).
Definition parseFloat_val (v : jsval) : num := parseFloat (to_str v).

(** [a || b]. *)
Definition js_or (a b : jsval) : jsval := if truthy a then a else b.

Lemma strict_eq_str s t : strict_eq (JStr s) (JStr t) = true <-> s = t.
Proof. cbn. apply String.eqb_eq. Qed.
