(* ===== verification/JsObj.v ===== *)
(** Plain JavaScript objects used as maps: own properties in the order
    [Object.keys], [for .. in] and [$.each] visit them.  The property names are kept
    in creation order; the names that are array indices are visited first, in
    increasing order.  Also [_.groupBy], which builds such an object, and the
    conversion of a [data-] attribute by jQuery's [.data]. *)
From S2P Require Import Prelude JsNum JsString JsVal.

(** * Property tables *)

(** Own property [k]. *)
Fixpoint obj_get {V} (k : string) (o : list (string * V)) : option V :=
  match o with
  | [] => None
  | (k', v) :: o' => if String.eqb k' k then Some v else obj_get k o'
  end.

(** [o[k] = v]: in place, or a new property at the end. *)
Fixpoint obj_set {V} (k : string) (v : V) (o : list (string * V)) : list (string * V) :=
  match o with
  | [] => [(k, v)]
  | (k', v') :: o' => if String.eqb k' k then (k', v) :: o' else (k', v') :: obj_set k v o'
  end.

(** [delete o[k]]. *)
Definition obj_del {V} (k : string) (o : list (string * V)) : list (string * V) :=
  filter (fun e => e.1 <> k) o.

(** Keys that are array indices come first, in increasing order. *)
Definition array_index (k : string) : option Z :=
  match scan_digits 10 0 0 k with
  | (v, S _, EmptyString) => if String.eqb (dec v) k && (v <? 2 ^ 32 - 1) then Some v else None
  | _ => None
  end.

Definition index_le {A} (x y : string * A) : Prop :=
  default 0 (array_index x.1) <= default 0 (array_index y.1).
#[export] Instance index_le_dec {A} (x y : string * A) : Decision (index_le x y).
Proof. unfold index_le. apply _. Defined.

(** The properties in the order they are visited. *)
Definition own_keys {A} (l : list (string * A)) : list (string * A) :=
  merge_sort index_le (filter (fun e => is_Some (array_index e.1)) l) ++
  filter (fun e => array_index e.1 = None) l.

(** [Object.keys(o)]. *)
Definition keys {A} (l : list (string * A)) : list string := (own_keys l).*1.

(** [_.groupBy(l, key)]. *)
Definition group_step {A} (key : A -> string) (o : list (string * list A)) (x : A) :
    list (string * list A) :=
  match obj_get (key x) o with
  | Some xs => obj_set (key x) (xs ++ [x]) o
  | None => obj_set (key x) [x] o
  end.
Definition groupBy {A} (key : A -> string) (l : list A) : list (string * list A) :=
  foldl (group_step key) [] l.

(** * Laws of property tables *)

Section laws.
Context {V : Type}.
Implicit Types (k : string) (v : V) (o : list (string * V)).

Lemma obj_get_set k v o : obj_get k (obj_set k v o) = Some v.
Proof.
  induction o as [|[k' v'] o IH]; cbn; [by rewrite String.eqb_refl|].
  destruct (String.eqb k' k) eqn:E; cbn; by rewrite E.
Qed.

Lemma obj_get_set_ne k k' v o : k <> k' -> obj_get k' (obj_set k v o) = obj_get k' o.
Proof.
  intros Hne. induction o as [|[j w] o IH]; cbn.
  - by rewrite (proj2 (String.eqb_neq k k') Hne).
  - destruct (String.eqb j k) eqn:E; cbn.
    + apply String.eqb_eq in E as ->. by rewrite (proj2 (String.eqb_neq k k') Hne).
    + by rewrite IH.
Qed.

Lemma obj_get_None k o : obj_get k o = None <-> k ∉ o.*1.
Proof.
  induction o as [|[j w] o IH]; cbn; [split; [intros _; apply not_elem_of_nil|done]|].
  rewrite not_elem_of_cons. destruct (String.eqb j k) eqn:E.
  - apply String.eqb_eq in E as ->. split; [done|]. by intros [? _].
  - apply String.eqb_neq in E. rewrite IH. intuition congruence.
Qed.

Lemma obj_get_elem k v o : obj_get k o = Some v -> (k, v) ∈ o.
Proof.
  induction o as [|[j w] o IH]; cbn; [done|]. destruct (String.eqb j k) eqn:E.
  - apply String.eqb_eq in E as ->. intros [= ->]. left.
  - intros H. right. auto.
Qed.

Lemma elem_obj_get k v o : NoDup o.*1 -> (k, v) ∈ o -> obj_get k o = Some v.
Proof.
  induction o as [|[j w] o IH]; cbn; [by intros _ H%elem_of_nil|].
  intros [Hj HN]%NoDup_cons [[= -> ->]|H]%elem_of_cons; [by rewrite String.eqb_refl|].
  destruct (String.eqb j k) eqn:E; [|auto].
  apply String.eqb_eq in E as ->. destruct Hj. apply list_elem_of_fmap. by exists (k, v).
Qed.

Lemma obj_set_fresh k v o : obj_get k o = None -> obj_set k v o = o ++ [(k, v)].
Proof.
  induction o as [|[j w] o IH]; cbn; [done|].
  destruct (String.eqb j k); [done|]. intros H. by rewrite IH.
Qed.

Lemma obj_set_keys k v o w : obj_get k o = Some w -> (obj_set k v o).*1 = o.*1.
Proof.
  induction o as [|[j x] o IH]; cbn; [done|].
  destruct (String.eqb j k) eqn:E; [done|]. intros H. cbn. by rewrite IH.
Qed.

Lemma obj_set_NoDup k v o : NoDup o.*1 -> NoDup (obj_set k v o).*1.
Proof.
  intros H. destruct (obj_get k o) as [w|] eqn:E; [by rewrite (obj_set_keys k v o w)|].
  rewrite obj_set_fresh by done. rewrite fmap_app. cbn.
  apply obj_get_None in E. apply NoDup_app. split; [done|]. split; [|apply NoDup_singleton].
  by intros x Hx ->%list_elem_of_singleton.
Qed.

Lemma elem_obj_set k v j w o :
  NoDup o.*1 -> (j, w) ∈ obj_set k v o <-> (j = k /\ w = v) \/ (j <> k /\ (j, w) ∈ o).
Proof.
  intros H. pose proof (obj_set_NoDup k v o H) as H'. split.
  - intros E%elem_obj_get; [|done]. destruct (decide (j = k)) as [->|Hne].
    + rewrite obj_get_set in E. left. by simplify_eq.
    + rewrite obj_get_set_ne in E by done. right. split; [done|]. by apply obj_get_elem.
  - intros [[-> ->]|[Hne E%elem_obj_get]]; [| |done].
    + apply obj_get_elem, obj_get_set.
    + apply obj_get_elem. by rewrite obj_get_set_ne.
Qed.

Lemma elem_obj_del j w k o : (j, w) ∈ obj_del k o <-> (j, w) ∈ o /\ j <> k.
Proof. unfold obj_del. rewrite list_elem_of_filter. cbn. tauto. Qed.

Lemma obj_get_del_ne k k' o : k <> k' -> obj_get k' (obj_del k o) = obj_get k' o.
Proof.
  intros Hne. unfold obj_del. induction o as [|[j w] o IH]; [done|]. rewrite filter_cons. cbn [fst].
  destruct (decide (j <> k)) as [Hj|Hj]; cbn [obj_get]; [by rewrite IH|].
  apply dec_stable in Hj as ->. by rewrite (proj2 (String.eqb_neq k k') Hne).
Qed.

(** Every property is visited once. *)
Lemma own_keys_Permutation o : own_keys o ≡ₚ o.
Proof.
  unfold own_keys. rewrite merge_sort_Permutation.
  induction o as [|e o IH]; [done|]. rewrite !filter_cons.
  destruct (array_index e.1) as [z|] eqn:E.
  - rewrite decide_True by (by eexists). rewrite decide_False by done. cbn. by rewrite IH.
  - rewrite decide_False by (by intros []). rewrite decide_True by done.
    rewrite <- Permutation_middle. by rewrite IH.
Qed.

Lemma elem_own_keys e o : e ∈ own_keys o <-> e ∈ o.
Proof. by rewrite own_keys_Permutation. Qed.

Lemma elem_keys k o : k ∈ keys o <-> is_Some (obj_get k o).
Proof.
  unfold keys. rewrite own_keys_Permutation.
  destruct (obj_get k o) as [v|] eqn:E.
  - split; [by eexists|]. intros _. apply obj_get_elem in E. apply list_elem_of_fmap.
    by exists (k, v).
  - apply obj_get_None in E. split; [done|by intros []].
Qed.

Lemma keys_NoDup o : NoDup o.*1 -> NoDup (keys o).
Proof. unfold keys. by rewrite own_keys_Permutation. Qed.
End laws.

(** * Laws of [groupBy] *)

Section group.
Context {A : Type} (key : A -> string).
Implicit Types (l : list A) (o : list (string * list A)).

(** The bucket of [k] holds the elements with that key, in their order, and only
    keys that occur have a bucket. *)
Definition bucket (k : string) l : list A := filter (fun x => key x = k) l.

Lemma group_step_NoDup o x : NoDup o.*1 -> NoDup (group_step key o x).*1.
Proof. unfold group_step. intros H. destruct (obj_get _ _); by apply obj_set_NoDup. Qed.

Lemma groupBy_snoc l x : groupBy key (l ++ [x]) = group_step key (groupBy key l) x.
Proof. unfold groupBy. by rewrite foldl_app. Qed.

Lemma groupBy_NoDup l : NoDup (groupBy key l).*1.
Proof.
  induction l as [|x l IH] using rev_ind; [apply NoDup_nil_2|].
  rewrite groupBy_snoc. by apply group_step_NoDup.
Qed.

Lemma groupBy_get k l :
  obj_get k (groupBy key l) = match bucket k l with [] => None | b => Some b end.
Proof.
  induction l as [|x l IH] using rev_ind; [done|].
  rewrite groupBy_snoc. unfold group_step, bucket. rewrite filter_app.
  destruct (decide (key x = k)) as [<-|Hne].
  - rewrite filter_cons_True by done. cbn [filter list_filter].
    assert (forall o, match obj_get (key x) o with
              | Some xs => obj_get (key x) (obj_set (key x) (xs ++ [x]) o)
              | None => obj_get (key x) (obj_set (key x) [x] o) end =
              Some (default [] (obj_get (key x) o) ++ [x])) as Ho.
    { intros o. destruct (obj_get (key x) o); by rewrite obj_get_set. }
    specialize (Ho (groupBy key l)).
    rewrite IH in Ho |- *. fold (bucket (key x) l).
    destruct (bucket (key x) l) as [|y b]; by rewrite Ho.
  - rewrite filter_cons_False by done. cbn [filter list_filter]. rewrite app_nil_r.
    fold (bucket k l). rewrite <- IH.
    destruct (obj_get (key x) (groupBy key l)); by rewrite obj_get_set_ne.
Qed.

Lemma elem_groupBy k b l :
  (k, b) ∈ groupBy key l <-> b = bucket k l /\ b <> [].
Proof.
  split.
  - intros H. apply elem_obj_get in H; [|apply groupBy_NoDup].
    rewrite groupBy_get in H. by destruct (bucket k l); simplify_eq.
  - intros [-> Hb]. apply obj_get_elem. rewrite groupBy_get. by destruct (bucket k l).
Qed.

(** Grouping loses and duplicates nothing. *)
Lemma concat_buckets l : concat (groupBy key l).*2 ≡ₚ l.
Proof.
  induction l as [|x l IH] using rev_ind; [done|].
  rewrite groupBy_snoc. unfold group_step.
  assert (Hset : forall o b, obj_get (key x) o = Some b ->
            concat (obj_set (key x) (b ++ [x]) o).*2 ≡ₚ concat o.*2 ++ [x]).
  { intros o. induction o as [|[j w] o IHo]; intros b; cbn; [done|].
    destruct (String.eqb j (key x)) eqn:E; cbn.
    - intros [= ->]. rewrite <- !app_assoc. f_equiv. apply Permutation_app_comm.
    - intros H. rewrite (IHo b H). by rewrite app_assoc. }
  destruct (obj_get (key x) (groupBy key l)) as [b|] eqn:E.
  - rewrite (Hset _ b E). by rewrite IH.
  - rewrite obj_set_fresh by done. rewrite fmap_app, concat_app. cbn. by rewrite IH.
Qed.
End group.

(** * Attributes *)

(** [$(el).data("x")] of an attribute whose text is [s].  A text in braces or
    brackets, which jQuery tries to parse as JSON, stays a string here. *)
Definition data_attr (s : string) : jsval :=
  if String.eqb s "true" then JBool true
  else if String.eqb s "false" then JBool false
  else if String.eqb s "null" then Null
  else if String.eqb (num_to_string (to_number s)) s then JNum (to_number s)
  else JStr s.

(** Used as a property name or in a selector, the converted value reads as the
    attribute does. *)
Lemma to_str_data_attr s : to_str (data_attr s) = s.
Proof.
  unfold data_attr.
  destruct (String.eqb s "true") eqn:E1; [by apply String.eqb_eq in E1|].
  destruct (String.eqb s "false") eqn:E2; [by apply String.eqb_eq in E2|].
  destruct (String.eqb s "null") eqn:E3; [by apply String.eqb_eq in E3|].
  destruct (String.eqb _ s) eqn:E4; [|done]. by apply String.eqb_eq in E4.
Qed.
