(* ===== verification/Babel.v ===== *)
(** What the transpiler puts around the classes and the loops of the compiled files,
    src/lhcb/lhcb_lib_js/lhcb.compiled.js and src/agent/dist/qosbroker-agent.js: the
    helpers [_createClass], [_classCallCheck] and [_interopRequireDefault], the
    expansion of a for-of loop and the one of a rest parameter; and what the language
    does for the constructs they replace.

    A computation takes a state to a completion, as the language calls it, and a state;
    [None] is a computation that has not ended within the fuel of its loops. *)
From S2P Require Import Prelude Lists JsNum JsString JsVal JsObj.

(** * Computations *)

(** What is thrown: an error of the language by its class, or any value. *)
Inductive exn := TypeError | Thrown (v : jsval).

Inductive completion (A : Type) := Normal (a : A) | Abrupt (e : exn).
Arguments Normal {A} a.
Arguments Abrupt {A} e.

Definition eff (S A : Type) : Type := S -> option (completion A * S).

#[export] Instance eff_ret S : MRet (eff S) := fun A a s => Some (Normal a, s).

#[export] Instance eff_bind S : MBind (eff S) := fun A B f m s =>
  match m s with
  | Some (Normal a, s') => f a s'
  | Some (Abrupt e, s') => Some (Abrupt e, s')
  | None => None
  end.

Section eff.
Context {S : Type}.

Definition throw {A} (e : exn) : eff S A := fun s => Some (Abrupt e, s).
Definition no_fuel {A} : eff S A := fun _ => None.
Definition get_state : eff S S := fun s => Some (Normal s, s).
Definition modify (f : S -> S) : eff S unit := fun s => Some (Normal tt, f s).

(** [try m catch (e) h]. *)
Definition try_catch {A} (m : eff S A) (h : exn -> eff S A) : eff S A := fun s =>
  match m s with
  | Some (Abrupt e, s') => h e s'
  | r => r
  end.

(** [try m finally f]: an exception of [f] replaces the completion of [m]. *)
Definition try_finally {A} (m : eff S A) (f : eff S unit) : eff S A := fun s =>
  match m s with
  | Some (r, s') =>
      match f s' with
      | Some (Normal _, s'') => Some (r, s'')
      | Some (Abrupt e, s'') => Some (Abrupt e, s'')
      | None => None
      end
  | None => None
  end.
End eff.

(** A computation on a part of the state. *)
Definition on_snd {V S A} (m : eff S A) : eff (V * S) A := fun '(v, s) =>
  match m s with Some (r, s') => Some (r, (v, s')) | None => None end.
Definition on_fst {V S A} (m : eff V A) : eff (V * S) A := fun '(v, s) =>
  match m v with Some (r, v') => Some (r, (v', s)) | None => None end.

(** * For-of loops *)

(** What [next()] of an iterator returns. *)
Record iter_result (A : Type) := IterResult { it_done : bool; it_value : A }.
Arguments IterResult {A}.
Arguments it_done {A}.
Arguments it_value {A}.

Section for_of.
Context {S A : Type}.
(** The expression iterated over up to its iterator, the iterator's [next] and, if it
    has one, its [return], and the body, which does not leave the loop. *)
Variable open : eff S unit.
Variable next : eff S (iter_result A).
Variable iter_return : option (eff S unit).
Variable body : A -> eff S unit.

(** ** The loop of the language *)

(** An exception of the body closes the iterator; what closing it throws is lost. *)
Definition close_iterator : eff S unit :=
  try_catch (default (mret tt) iter_return) (fun _ => mret tt).

Fixpoint for_of_loop (fuel : nat) : eff S unit :=
  match fuel with
  | O => no_fuel
  | Datatypes.S f =>
      r ← next;
      if it_done r then mret tt
      else try_catch (body (it_value r)) (fun e => close_iterator ;; throw e) ;; for_of_loop f
  end.

Definition for_of (fuel : nat) : eff S unit := open ;; for_of_loop fuel.

(** ** Its expansion *)

(** [_iteratorNormalCompletion], [_didIteratorError], [_iteratorError]. *)
Record vars := Vars { normalCompletion : bool; didError : bool; iteratorError : option exn }.

Definition set_normal (b : bool) : eff (vars * S) unit :=
  on_fst (modify (fun v => Vars b (didError v) (iteratorError v))).
Definition set_error (e : exn) : eff (vars * S) unit :=
  on_fst (modify (fun v => Vars (normalCompletion v) true (Some e))).
Definition get_vars : eff (vars * S) vars := on_fst get_state.

(** The condition of the loop, [_loop()], the update. *)
Fixpoint expanded_loop (fuel : nat) : eff (vars * S) unit :=
  match fuel with
  | O => no_fuel
  | Datatypes.S f =>
      step ← on_snd next;
      set_normal (it_done step) ;;
      if it_done step then mret tt
      else on_snd (body (it_value step)) ;; set_normal true ;; expanded_loop f
  end.

Definition expanded_finally : eff (vars * S) unit :=
  try_finally
    (v ← get_vars;
     match iter_return with
     | Some ret => if negb (normalCompletion v) then on_snd ret else mret tt
     | None => mret tt
     end)
    (v ← get_vars;
     if didError v then throw (default (Thrown Undef) (iteratorError v)) else mret tt).

Definition expanded (fuel : nat) : eff S unit := fun s =>
  match try_finally
          (try_catch (on_snd open ;; expanded_loop fuel) set_error)
          expanded_finally (Vars true false None, s) with
  | Some (r, (_, s')) => Some (r, s')
  | None => None
  end.
End for_of.

(** The iterator of an array nobody changes meanwhile: what is left of it. *)
Definition array_next {S A} : eff (list A * S) (iter_result (option A)) := fun '(l, s) =>
  match l with
  | [] => Some (Normal (IterResult true None), ([], s))
  | x :: l' => Some (Normal (IterResult false (Some x)), (l', s))
  end.

(** A body that is run for an element of the array. *)
Definition element {S A} (body : A -> eff S unit) (x : option A) : eff (list A * S) unit :=
  on_snd (match x with Some a => body a | None => mret tt end).

(** * Classes *)

Record descriptor (V : Type) := Descriptor {
  d_value : V;
  d_writable : bool;
  d_enumerable : bool;
  d_configurable : bool;
}.
Arguments Descriptor {V}.
Arguments d_value {V}.
Arguments d_writable {V}.
Arguments d_enumerable {V}.
Arguments d_configurable {V}.

Section classes.
Context {V : Type} `{EqDecision V}.

(** [Object.defineProperty] with all the fields of a data property; [None] is a
    TypeError. *)
Definition defineProperty (o : list (string * descriptor V)) (k : string) (d : descriptor V)
    : option (list (string * descriptor V)) :=
  match obj_get k o with
  | None => Some (obj_set k d o)
  | Some old =>
      if d_configurable old then Some (obj_set k d o)
      else if d_configurable d || negb (Bool.eqb (d_enumerable d) (d_enumerable old)) then None
      else if d_writable old then Some (obj_set k d o)
      else if d_writable d || negb (bool_decide (d_value d = d_value old)) then None
      else Some o
  end.

(** An entry [{key, value}] of the tables, with its [enumerable] if it has one. *)
Record prop := Prop_ { p_key : string; p_value : V; p_enumerable : option bool }.

Fixpoint defineProperties (target : list (string * descriptor V)) (props : list prop)
    : option (list (string * descriptor V)) :=
  match props with
  | [] => Some target
  | p :: l =>
      target' ← defineProperty target (p_key p)
                  (Descriptor (p_value p) true (default false (p_enumerable p)) true);
      defineProperties target' l
  end.

(** A constructor: its [prototype] and its own properties. *)
Record constructor := Constructor_ {
  prototype : list (string * descriptor V);
  statics : list (string * descriptor V);
}.

Definition _createClass (c : constructor) (protoProps staticProps : option (list prop))
    : option constructor :=
  proto ← match protoProps with Some l => defineProperties (prototype c) l | None => Some (prototype c) end;
  own ← match staticProps with Some l => defineProperties (statics c) l | None => Some (statics c) end;
  Some (Constructor_ proto own).

(** The prototype of a function declaration whose value is [f]. *)
Definition function_object (f : V) : constructor :=
  {| prototype := [("constructor", Descriptor f true false true)]; statics := [] |}.

(** The prototype a class of the language has: the constructor and its methods, none of
    them enumerable. *)
Definition class_prototype (f : V) (methods : list (string * V)) : list (string * descriptor V) :=
  foldl (fun o '(k, m) => obj_set k (Descriptor m true false true) o)
    [("constructor", Descriptor f true false true)] methods.
End classes.
Arguments prop : clear implicits.
Arguments constructor : clear implicits.

(** [_classCallCheck(instance, Constructor)]; whether the instance is one. *)
Definition _classCallCheck {S} (is_instance : bool) : eff S unit :=
  if is_instance then mret tt else throw TypeError.

(** The call of a class of the language without [new]. *)
Definition call_class {S} : eff S unit := throw TypeError.

(** * Modules and rest parameters *)

(** What a module exports: nothing, a boolean, a function without properties of its
    own, an object with its properties. *)
Inductive exported :=
  | Nothing_
  | Flag (b : bool)
  | Function_ (name : string)
  | Object_ (fields : list (string * exported)).

Definition exported_truthy (x : exported) : bool :=
  match x with Nothing_ => false | Flag b => b | _ => true end.

Definition property (obj : exported) (k : string) : exported :=
  match obj with Object_ fields => default Nothing_ (obj_get k fields) | _ => Nothing_ end.

(** [obj && obj.__esModule ? obj : { 'default': obj }]. *)
Definition _interopRequireDefault (obj : exported) : exported :=
  if exported_truthy obj && exported_truthy (property obj "__esModule") then obj
  else Object_ [("default", obj)].

(** The end of the agent's module: [exports['default'] = Agent], then
    [module.exports = exports['default']]. *)
Definition agent_exports : exported :=
  property (Object_ [("__esModule", Flag true); ("default", Function_ "Agent")]) "default".

(** What main.js constructs. *)
Definition agent_class : exported := property (_interopRequireDefault agent_exports) "default".

(** [for (_len = arguments.length, args = Array(_len > 1 ? _len - 1 : 0), _key = 1;
    _key < _len; _key++) args[_key - 1] = arguments[_key]]: [args] from [_key] on. *)
Fixpoint rest_loop {A} (n : nat) (arguments : list A) (key : nat) (args : list (option A))
    : list (option A) :=
  match n with
  | O => args
  | S n' => rest_loop n' arguments (S key) (<[pred key := arguments !! key]> args)
  end.

Definition rest_args {A} (arguments : list A) : list (option A) :=
  let len := length arguments in
  rest_loop (len - 1) arguments 1 (replicate (if (1 <? len)%nat then len - 1 else 0) None).
