(* ===== verification/BabelProps.v ===== *)
(** The expansions of the transpiler do what the constructs of the language do. *)
From S2P Require Import Prelude Lists JsNum JsString JsVal JsObj Babel.

(** The computation itself. *)
Ltac run_eff :=
  unfold close_iterator, set_normal, set_error, get_vars, try_finally, try_catch, on_fst, on_snd,
    get_state, modify, throw, mbind, eff_bind, mret, eff_ret;
  cbn [normalCompletion didError iteratorError default id negb].

(** * For-of loops *)

Section for_of.
Context {S A : Type}.
Variable open : eff S unit.
Variable next : eff S (iter_result A).
Variable iter_return : option (eff S unit).
Variable body : A -> eff S unit.

(** The [finally] after a loop that ended, and after one that threw. *)
Lemma finally_quiet e s :
  expanded_finally iter_return (Vars true false e, s) = Some (Normal tt, (Vars true false e, s)).
Proof. by destruct iter_return. Qed.

Lemma finally_rethrows n e s :
  expanded_finally iter_return (Vars n true (Some e), s) =
  match (if n then mret tt else close_iterator iter_return) s with
  | Some (_, s') => Some (Abrupt e, (Vars n true (Some e), s'))
  | None => None
  end.
Proof.
  unfold expanded_finally. run_eff. destruct iter_return as [r|], n; run_eff; try done.
  by destruct (r s) as [[[[]|e'] s']|].
Qed.

(** The handlers around the loop, from the head of the loop on. *)
Lemma expanded_from fuel e s :
  match try_finally (try_catch (expanded_loop next body fuel) set_error)
          (expanded_finally iter_return) (Vars true false e, s) with
  | Some (r, (_, s')) => Some (r, s')
  | None => None
  end = for_of_loop next iter_return body fuel s.
Proof.
  revert s. induction fuel as [|f IH]; intros s; [done|].
  cbn [expanded_loop for_of_loop]. revert IH. run_eff. intros IH.
  destruct (next s) as [[[r|ex] s1]|]; [| |done].
  - destruct (it_done r).
    + by rewrite finally_quiet.
    + destruct (body (it_value r) s1) as [[[[]|ex] s2]|]; [by rewrite <- IH| |done].
      rewrite finally_rethrows. run_eff.
      destruct iter_return as [ret|]; run_eff; [|done].
      by destruct (ret s2) as [[[[]|ex'] s3]|].
  - by rewrite finally_rethrows.
Qed.

(** C23. The expansion of a for-of loop, with its flags, handlers and rethrown error,
    does what the loop does: it runs the same bodies on the same states, closes the
    iterator exactly when a body threw, and throws the error of the body, whatever the
    closing does. *)
Theorem expanded_is_for_of fuel s :
  expanded open next iter_return body fuel s = for_of open next iter_return body fuel s.
Proof.
  pose proof (expanded_from fuel None) as K. revert K. unfold for_of, expanded. run_eff. intros K.
  destruct (open s) as [[[[]|ex] s1]|]; [apply K| |done].
  by rewrite finally_rethrows.
Qed.
End for_of.

(** Over an array: the body for every element in order, up to the first that throws. *)
Fixpoint each {S A} (body : A -> eff S unit) (l : list A) : eff S unit :=
  match l with
  | [] => mret tt
  | x :: l' => body x ;; each body l'
  end.

Lemma for_of_array {S A} (body : A -> eff S unit) (l : list A) (s : S) fuel :
  (length l < fuel)%nat ->
  exists l', for_of (mret tt) array_next None (element body) fuel (l, s) =
    match each body l s with Some (r, s') => Some (r, (l', s')) | None => None end.
Proof.
  unfold for_of. revert s fuel. induction l as [|x l IH]; intros s fuel Hf.
  all: destruct fuel as [|f]; [cbn in Hf; lia|].
  { by exists []. }
  cbn [length] in Hf. destruct (IH s f) as (l0 & _); [lia|].
  cbn [for_of_loop each]. revert IH. run_eff. cbn [array_next it_done it_value].
  intros IH. unfold element at 1. run_eff. destruct (body x s) as [[[[]|e] s1]|].
  - apply IH. lia.
  - by exists l.
  - by exists l.
Qed.

(** * Classes *)

Section classes.
Context {V : Type} `{EqDecision V}.

Lemma obj_get_Forall (P : descriptor V -> Prop) k o d :
  Forall (fun e => P e.2) o -> obj_get k o = Some d -> P d.
Proof.
  induction 1 as [|[k' d'] o Hd _ IH]; cbn [obj_get]; [done|].
  case_match; [by intros [= <-]|done].
Qed.

Lemma obj_set_Forall (P : descriptor V -> Prop) k o d :
  Forall (fun e => P e.2) o -> P d -> Forall (fun e => P e.2) (obj_set k d o).
Proof.
  intros Ho Hd. induction Ho as [|[k' d'] o Hd' Ho' IH]; cbn [obj_set]; [by constructor|].
  case_match; by constructor.
Qed.

Definition configurable (d : descriptor V) : Prop := d_configurable d = true.

Lemma defineProperties_methods o (ms : list (string * V)) :
  Forall (fun e => configurable e.2) o ->
  defineProperties o (map (fun '(k, m) => Prop_ k m None) ms) =
  Some (foldl (fun o '(k, m) => obj_set k (Descriptor m true false true) o) o ms).
Proof.
  revert o. induction ms as [|[k m] ms IH]; intros o Ho; [done|].
  cbn [map defineProperties p_key p_value p_enumerable foldl default].
  assert (E : defineProperty o k (Descriptor m true false true) =
              Some (obj_set k (Descriptor m true false true) o)).
  { unfold defineProperty. destruct (obj_get k o) as [old|] eqn:Hg; [|done].
    by rewrite (obj_get_Forall configurable _ _ _ Ho Hg). }
  unfold id. rewrite E. cbn [mbind option_bind]. apply IH, obj_set_Forall; done.
Qed.

(** [_createClass] gives a constructor the prototype the class has: same properties, in
    the same order, with the same attributes. *)
Theorem createClass_is_class (f : V) (methods : list (string * V)) :
  prototype <$> _createClass (function_object f)
                  (Some (map (fun '(k, m) => Prop_ k m None) methods)) None =
  Some (class_prototype f methods).
Proof.
  unfold _createClass, function_object, class_prototype. cbn [prototype statics].
  by rewrite defineProperties_methods by (by repeat constructor).
Qed.
End classes.

(** * Modules and rest parameters *)

Lemma agent_class_is_Agent : agent_class = Function_ "Agent".
Proof. done. Qed.

Lemma rest_loop_fills {A} n j (x : A) (l : list A) :
  length l = (j + n)%nat ->
  rest_loop n (x :: l) (S j) ((Some <$> take j l) ++ replicate n None) = Some <$> l.
Proof.
  revert j. induction n as [|n IH]; intros j Hl.
  { cbn. rewrite app_nil_r, firstn_all2 by lia. done. }
  cbn [rest_loop pred lookup list_lookup replicate].
  destruct (lookup_lt_is_Some_2 l j) as [y Hy]; [lia|].
  rewrite <- (IH (S j)) by lia. f_equal.
  rewrite insert_app_r_alt by (rewrite length_fmap, length_take; lia).
  rewrite length_fmap, length_take, Nat.min_l, Nat.sub_diag by lia. cbn [insert list_insert].
  rewrite (take_S_r _ _ _ Hy), fmap_app, <- app_assoc. cbn. by rewrite <- Hy.
Qed.

(** The expansion of a rest parameter collects the arguments after the first. *)
Theorem rest_args_spec {A} (arguments : list A) : rest_args arguments = Some <$> tail arguments.
Proof.
  unfold rest_args. destruct arguments as [|x [|y l]]; [done..|].
  cbn [length Nat.sub tail].
  rewrite (proj2 (Nat.ltb_lt _ _)) by (cbn; lia).
  exact (rest_loop_fills (S (length l)) 0 x (y :: l) eq_refl).
Qed.
