(* ===== verification/Json.v ===== *)
(** JSON texts as [JSON.parse] accepts them and [JSON.stringify] of a string: what
    the agent's [_validate("isJSON", ...)] and [_log] depend on.  The values are
    not built: [json_valid] tells whether [JSON.parse(s)] returns. *)
From S2P Require Import Prelude JsNum JsString.

Definition quote : ascii := chr 34.
Definition backslash : ascii := chr 92.

Definition json_ws (c : ascii) : bool :=
  (code c =? 32) || (code c =? 9) || (code c =? 10) || (code c =? 13).

Fixpoint skip_ws (s : string) : string :=
  match s with
  | String c s' => if json_ws c then skip_ws s' else s
  | EmptyString => s
  end.

(** A character after a backslash, [u] apart. *)
Definition simple_escape (c : ascii) : bool :=
  bool_decide (code c ∈ [34; 92; 47; 98; 102; 110; 114; 116]).

(** The rest of a string literal, up to and with its closing quote; returns what
    follows. *)
Fixpoint json_string (s : string) : option string :=
  match s with
  | EmptyString => None
  | String c s1 =>
      if eqc c quote then Some s1
      else if eqc c backslash then
        match s1 with
        | String e s2 =>
            if simple_escape e then json_string s2
            else if eqc e "u" then
              match s2 with
              | String a (String b (String x (String y s3))) =>
                  if is_digit 16 a && is_digit 16 b && is_digit 16 x && is_digit 16 y
                  then json_string s3 else None
              | _ => None
              end
            else None
        | EmptyString => None
        end
      else if code c <? 32 then None else json_string s1
  end.

(** At least one decimal digit. *)
Definition json_digits (s : string) : option string :=
  match scan_digits 10 0 0 s with (_, S _, r) => Some r | _ => None end.

Definition json_frac (s : string) : option string :=
  match s with String "." s' => json_digits s' | _ => Some s end.

Definition json_exp (s : string) : option string :=
  match s with
  | String c s' =>
      if eqc c "e" || eqc c "E" then json_digits (take_sign s').2 else Some s
  | EmptyString => Some s
  end.

(** An unsigned number: no leading zero. *)
Definition json_unsigned (s : string) : option string :=
  match s with
  | String "0" s' => Some s'
  | _ => json_digits s
  end.

Definition json_number (s : string) : option string :=
  let s := match s with String "-" s' => s' | _ => s end in
  r ← json_unsigned s; r' ← json_frac r; json_exp r'.

(** A value, the elements of an array after its bracket and the members of an
    object after its brace; what follows is returned. *)
Fixpoint json_value (fuel : nat) (s : string) : option string :=
  match fuel with
  | O => None
  | S f =>
      match skip_ws s with
      | EmptyString => None
      | String c s1 =>
          if eqc c quote then json_string s1
          else if eqc c "[" then
            match skip_ws s1 with
            | String "]" s2 => Some s2
            | s2 => json_elems f s2
            end
          else if eqc c "{" then
            match skip_ws s1 with
            | String "}" s2 => Some s2
            | s2 => json_members f s2
            end
          else if eqc c "t" then drop_prefix "rue" s1
          else if eqc c "f" then drop_prefix "alse" s1
          else if eqc c "n" then drop_prefix "ull" s1
          else json_number (String c s1)
      end
  end
with json_elems (fuel : nat) (s : string) : option string :=
  match fuel with
  | O => None
  | S f =>
      r ← json_value f s;
      match skip_ws r with
      | String "," r' => json_elems f r'
      | String "]" r' => Some r'
      | _ => None
      end
  end
with json_members (fuel : nat) (s : string) : option string :=
  match fuel with
  | O => None
  | S f =>
      match skip_ws s with
      | String c s1 =>
          if eqc c quote then
            r ← json_string s1;
            match skip_ws r with
            | String ":" r' =>
                v ← json_value f r';
                match skip_ws v with
                | String "," v' => json_members f v'
                | String "}" v' => Some v'
                | _ => None
                end
            | _ => None
            end
          else None
      | EmptyString => None
      end
  end.

(** Does [JSON.parse(s)] return?  A call consumes a character before it calls
    itself, directly or through one list function, so twice the length is
    enough fuel. *)
Definition json_valid (s : string) : bool :=
  match json_value (2 * String.length s + 2) s with
  | Some r => String.eqb (skip_ws r) ""
  | None => false
  end.

(** [JSON.stringify] of a string. *)
Definition escape_char (c : ascii) (rest : string) : string :=
  let n := code c in
  let esc x := String backslash (String x rest) in
  if n =? 34 then esc quote
  else if n =? 92 then esc backslash
  else if n =? 8 then esc "b"%char
  else if n =? 9 then esc "t"%char
  else if n =? 10 then esc "n"%char
  else if n =? 12 then esc "f"%char
  else if n =? 13 then esc "r"%char
  else if n <? 32 then
    String backslash ("u00" +:+ String (digit_char (n / 16)) (String (digit_char (n mod 16)) rest))
  else String c rest.

Fixpoint escape_all (s : string) : string :=
  match s with
  | EmptyString => String quote ""
  | String c s' => escape_char c (escape_all s')
  end.

Definition json_quote (s : string) : string := String quote (escape_all s).

(** * What starts a value *)

Definition value_start (c : ascii) : bool :=
  json_ws c || eqc c quote || eqc c "[" || eqc c "{" || eqc c "t" || eqc c "f" || eqc c "n" ||
  eqc c "-" || is_digit 10 c.

Lemma json_number_start c s : eqc c "-" = false -> is_digit 10 c = false -> json_number (String c s) = None.
Proof.
  intros H1 H2. unfold json_number.
  assert (E : match String c s with String "-" s' => s' | _ => String c s end = String c s).
  { destruct c as [[] [] [] [] [] [] [] []]; done. }
  rewrite E. unfold json_unsigned.
  assert (E' : match String c s with String "0" s' => Some s' | _ => json_digits (String c s) end
    = json_digits (String c s)).
  { destruct c as [[] [] [] [] [] [] [] []]; done. }
  rewrite E'. unfold json_digits. cbn [scan_digits]. by rewrite H2.
Qed.

Lemma not_json_start c s : value_start c = false -> json_valid (String c s) = false.
Proof.
  unfold value_start. rewrite !orb_false_iff. intros ((((((((H0 & H1) & H2) & H3) & H4) & H5) & H6) & H7) & H8).
  unfold json_valid. replace (2 * _ + 2)%nat with (S (2 * String.length (String c s) + 1)) by lia.
  cbn [json_value skip_ws]. rewrite H0, H1, H2, H3, H4, H5, H6.
  by rewrite json_number_start.
Qed.

(** * Quoted strings are valid *)

Lemma escape_char_read c s : json_string (escape_char c s) = json_string s.
Proof.
  unfold escape_char.
  pose proof (ascii_test (fun c =>
    let n := code c in
    if n =? 34 then true else if n =? 92 then true else if n =? 8 then true
    else if n =? 9 then true else if n =? 10 then true else if n =? 12 then true
    else if n =? 13 then true
    else if n <? 32 then is_digit 16 (digit_char (n / 16)) && is_digit 16 (digit_char (n mod 16))
    else negb (eqc c quote) && negb (eqc c backslash)) ltac:(by vm_compute) c) as T.
  cbv beta zeta in T |- *.
  do 7 (match type of T with (if ?b then _ else _) = true => destruct b eqn:? end;
        [try reflexivity|]).
  destruct (code c <? 32) eqn:E32.
  - apply andb_true_iff in T as [T1 T2].
    change (json_string (String backslash ("u00" +:+ String (digit_char (code c / 16))
      (String (digit_char (code c mod 16)) s)))) with
      (if is_digit 16 "0" && is_digit 16 "0" && is_digit 16 (digit_char (code c / 16))
          && is_digit 16 (digit_char (code c mod 16)) then json_string s else None).
    by rewrite T1, T2.
  - apply andb_true_iff in T as [T1%negb_true_iff T2%negb_true_iff].
    cbn [json_string]. rewrite T1, T2. by rewrite E32.
Qed.

Lemma json_quote_valid s : json_valid (json_quote s) = true.
Proof.
  unfold json_valid, json_quote.
  replace (2 * _ + 2)%nat with (S (2 * String.length (String quote (escape_all s)) + 1)) by lia.
  cbn [json_value]. change (skip_ws (String quote (escape_all s))) with (String quote (escape_all s)).
  change (eqc quote quote) with true. cbn iota.
  assert (E : json_string (escape_all s) = Some "").
  { induction s as [|c s IH]; [done|]. cbn [escape_all]. by rewrite escape_char_read. }
  by rewrite E.
Qed.
