(* ===== verification/Regex.v ===== *)
(** The regular expressions of the program, with ECMAScript's backtracking
    semantics: greedy and lazy repetition of a character class, literals and
    capture groups.  [exec] is [String.prototype.match] for a pattern without
    the global flag: the leftmost match, and at a position the first one in
    backtracking order. *)
From S2P Require Import Prelude JsNum JsString.

Inductive regex :=
  | RLit (s : string)                          (* a literal *)
  | RStar (greedy : bool) (p : ascii -> bool)  (* [p]* or [p]*? *)
  | RSeq (r1 r2 : regex)
  | RGroup (n : nat) (r : regex)               (* capture group [n] *)
  | REnd.                                      (* $ *)

(** [.] matches everything but a line terminator. *)
Definition dot (c : ascii) : bool := negb (code c =? 10) && negb (code c =? 13).

Abbreviation captures := (gmap nat string).

(** The part of [s] before its suffix [s']. *)
Definition consumed (s s' : string) : string :=
  String.substring 0 (String.length s - String.length s') s.

(** Continuation-passing matcher; [k] gets the rest of the input. *)
Fixpoint star_greedy {A} (p : ascii -> bool) (s : string) (k : string -> option A) : option A :=
  match s with
  | String c s' =>
      if p c then match star_greedy p s' k with Some a => Some a | None => k s end
      else k s
  | EmptyString => k s
  end.

Fixpoint star_lazy {A} (p : ascii -> bool) (s : string) (k : string -> option A) : option A :=
  match k s with
  | Some a => Some a
  | None => match s with
            | String c s' => if p c then star_lazy p s' k else None
            | EmptyString => None
            end
  end.

Fixpoint rmatch (r : regex) (s : string) (caps : captures)
    (k : string -> captures -> option captures) : option captures :=
  match r with
  | RLit l => match drop_prefix l s with Some s' => k s' caps | None => None end
  | RStar true p => star_greedy p s (fun s' => k s' caps)
  | RStar false p => star_lazy p s (fun s' => k s' caps)
  | RSeq r1 r2 => rmatch r1 s caps (fun s' caps' => rmatch r2 s' caps' k)
  | RGroup n r1 => rmatch r1 s caps (fun s' caps' => k s' (<[n := consumed s s']> caps'))
  | REnd => match s with EmptyString => k s caps | _ => None end
  end.

Fixpoint exec (r : regex) (s : string) : option captures :=
  match rmatch r s ∅ (fun _ caps => Some caps) with
  | Some caps => Some caps
  | None => match s with String _ s' => exec r s' | EmptyString => None end
  end.

Definition seqs (l : list regex) : regex := foldr RSeq (RLit "") l.

(** * What a match is *)

(** [matches r s s' caps caps']: [r] can consume [s] down to [s']. *)
Inductive matches : regex -> string -> string -> captures -> captures -> Prop :=
  | m_lit l s caps : matches (RLit l) (l +:+ s) s caps caps
  | m_star g p a s caps :
      str_all p a = true -> matches (RStar g p) (a +:+ s) s caps caps
  | m_seq r1 r2 s s1 s2 c c1 c2 :
      matches r1 s s1 c c1 -> matches r2 s1 s2 c1 c2 -> matches (RSeq r1 r2) s s2 c c2
  | m_group n r s s' c c' :
      matches r s s' c c' -> matches (RGroup n r) s s' c (<[n := consumed s s']> c')
  | m_end c : matches REnd "" "" c c.

Lemma star_greedy_sound {A} p s (k : string -> option A) a :
  star_greedy p s k = Some a ->
  exists pre s', s = pre +:+ s' /\ str_all p pre = true /\ k s' = Some a.
Proof.
  induction s as [|c s IH]; cbn; intros H; [by exists "", ""|].
  destruct (p c) eqn:Hp; [|by exists "", (String c s)].
  destruct (star_greedy p s k) as [a'|] eqn:E; simplify_eq.
  - destruct (IH eq_refl) as (pre & s' & -> & Hall & Hk).
    exists (String c pre), s'. cbn. by rewrite Hp, Hall.
  - by exists "", (String c s).
Qed.

Lemma star_lazy_sound {A} p s (k : string -> option A) a :
  star_lazy p s k = Some a ->
  exists pre s', s = pre +:+ s' /\ str_all p pre = true /\ k s' = Some a.
Proof.
  induction s as [|c s IH]; cbn; intros H.
  - destruct (k "") eqn:E; simplify_eq. by exists "", "".
  - destruct (k (String c s)) as [a'|] eqn:E; simplify_eq; [by exists "", (String c s)|].
    destruct (p c) eqn:Hp; [|done].
    destruct (IH H) as (pre & s' & -> & Hall & Hk).
    exists (String c pre), s'. cbn. by rewrite Hp, Hall.
Qed.

Lemma star_greedy_complete {A} p pre s' (k : string -> option A) :
  str_all p pre = true -> k s' <> None -> star_greedy p (pre +:+ s') k <> None.
Proof.
  induction pre as [|c pre IH]; cbn; intros H Hk.
  - rewrite string_app_nil_l. destruct s' as [|c s']; cbn; [done|].
    destruct (p c); [|done]. by destruct (star_greedy p s' k).
  - apply andb_true_iff in H as [Hc Hall]. rewrite string_app_cons. cbn. rewrite Hc.
    specialize (IH Hall Hk). by destruct (star_greedy p (pre +:+ s') k).
Qed.

Lemma star_lazy_complete {A} p pre s' (k : string -> option A) :
  str_all p pre = true -> k s' <> None -> star_lazy p (pre +:+ s') k <> None.
Proof.
  induction pre as [|c pre IH]; cbn; intros H Hk.
  - rewrite string_app_nil_l. destruct s' as [|c s']; cbn; [by destruct (k "")|by destruct (k (String c s'))].
  - apply andb_true_iff in H as [Hc Hall]. rewrite string_app_cons. cbn.
    destruct (k (String c (pre +:+ s'))); [done|]. rewrite Hc. by apply IH.
Qed.

(** The matcher is sound: a result comes from a match followed by the
    continuation... *)
Lemma rmatch_sound r s caps k out :
  rmatch r s caps k = Some out ->
  exists s' caps', matches r s s' caps caps' /\ k s' caps' = Some out.
Proof.
  revert s caps k. induction r as [l|g p|r1 IH1 r2 IH2|n r IH|]; intros s caps k H; cbn in H.
  - destruct (drop_prefix l s) as [s'|] eqn:E; [|done].
    apply drop_prefix_Some in E as ->. eauto using matches.
  - destruct g; [apply star_greedy_sound in H|apply star_lazy_sound in H];
      destruct H as (pre & s' & -> & Hall & Hk); eauto using matches.
  - apply IH1 in H as (s1 & c1 & M1 & H). apply IH2 in H as (s2 & c2 & M2 & H).
    eauto using matches.
  - apply IH in H as (s' & c' & M & H). eauto using matches.
  - destruct s; [|done]. eauto using matches.
Qed.

(** ... and complete: no match that the continuation accepts is missed. *)
Lemma rmatch_complete r s s' caps caps' c0 k :
  matches r s s' caps caps' ->
  (forall c, k s' c <> None) -> rmatch r s c0 k <> None.
Proof.
  intros M. revert c0 k. induction M; intros c0 k Hk; cbn; try apply Hk.
  - rewrite drop_prefix_app. apply Hk.
  - destruct g; [by apply star_greedy_complete|by apply star_lazy_complete].
  - apply IHM1. intros. by apply IHM2.
  - apply IHM. intros. apply Hk.
Qed.

(** [exec] decides whether some substring matches. *)
Theorem exec_iff r s :
  exec r s <> None <->
  exists pre s1 s2 caps, s = pre +:+ s1 /\ matches r s1 s2 ∅ caps.
Proof.
  split.
  - intros H. induction s as [|c s IH]; cbn in H.
    + destruct (rmatch r "" _ _) eqn:E; [|done].
      apply rmatch_sound in E as (s' & c' & M & _). by exists "", "", s', c'.
    + destruct (rmatch r (String c s) _ _) eqn:E.
      * apply rmatch_sound in E as (s' & c' & M & _). by exists "", (String c s), s', c'.
      * destruct (IH H) as (pre & s1 & s2 & caps & -> & M).
        by exists (String c pre), s1, s2, caps.
  - intros (pre & s1 & s2 & caps & -> & M).
    induction pre as [|c pre IH].
    + rewrite string_app_nil_l.
      pose proof (rmatch_complete _ _ _ _ _ ∅ (fun _ c => Some c) M ltac:(done)) as H.
      destruct s1; cbn; by destruct (rmatch _ _ _ _).
    + rewrite string_app_cons. cbn. by destruct (rmatch _ _ _ _).
Qed.

(** * Deterministic uses *)

Lemma substring_prefix a s : String.substring 0 (String.length a) (a +:+ s) = a.
Proof.
  induction a as [|c a IH]; [by destruct s|]. rewrite string_app_cons. cbn. by rewrite IH.
Qed.

Lemma consumed_app a s : consumed (a +:+ s) s = a.
Proof.
  unfold consumed. rewrite string_length_app, Nat.add_sub. apply substring_prefix.
Qed.

(** A lazy repetition stops at the first place the continuation accepts. *)
Lemma star_lazy_until {A} p stop a rest (k : string -> option A) :
  str_all p a = true ->
  str_all (fun c => negb (eqc c stop)) a = true ->
  (forall c s, eqc c stop = false -> k (String c s) = None) ->
  k rest <> None ->
  star_lazy p (a +:+ rest) k = k rest.
Proof.
  intros Hp Hs Hk Hr. induction a as [|c a IH].
  - rewrite string_app_nil_l. destruct rest; cbn; by destruct (k _).
  - cbn in Hp, Hs. apply andb_true_iff in Hp as [Hc Hp]. apply andb_true_iff in Hs as [Hn Hs].
    apply negb_true_iff in Hn. rewrite string_app_cons. cbn.
    rewrite (Hk c _ Hn), Hc. by apply IH.
Qed.

(** A greedy repetition runs to the end of the class when that is accepted. *)
Lemma star_greedy_run {A} p a rest (k : string -> option A) :
  str_all p a = true ->
  match rest with String c _ => p c = false | EmptyString => True end ->
  k rest <> None ->
  star_greedy p (a +:+ rest) k = k rest.
Proof.
  intros Hp Hn Hk. induction a as [|c a IH].
  - rewrite string_app_nil_l. destruct rest; cbn; [done|]. by rewrite Hn.
  - cbn in Hp. apply andb_true_iff in Hp as [Hc Hp]. rewrite string_app_cons. cbn.
    rewrite Hc, IH by done. by destruct (k rest).
Qed.

(** A match at the start is the one [exec] finds. *)
Lemma exec_here r s caps :
  rmatch r s ∅ (fun _ c => Some c) = Some caps -> exec r s = Some caps.
Proof. intros H. destruct s; cbn [exec]; by rewrite H. Qed.

(** Chaining a match through a sequence, last item first. *)
Section chain.
Implicit Types (k : string -> captures -> option captures) (r : regex).

Lemma chain_lit l r s caps k out :
  rmatch r s caps k = Some out -> rmatch (RSeq (RLit l) r) (l +:+ s) caps k = Some out.
Proof. intros H. cbn. by rewrite drop_prefix_app. Qed.

Lemma lit_head_fails x l r c s caps k :
  eqc c x = false -> rmatch (RSeq (RLit (String x l)) r) (String c s) caps k = None.
Proof.
  intros H. cbn. unfold eqc in *. by rewrite Stdlib.Strings.Ascii.eqb_sym, H.
Qed.

(** A lazy run before a literal stops where the literal's first character
    first occurs. *)
Lemma chain_lazy p x l r a s caps k out :
  str_all (fun c => p c && negb (eqc c x)) a = true ->
  rmatch (RSeq (RLit (String x l)) r) s caps k = Some out ->
  rmatch (RSeq (RStar false p) (RSeq (RLit (String x l)) r)) (a +:+ s) caps k = Some out.
Proof.
  intros Ha H. change (star_lazy p (a +:+ s)
    (fun s' => rmatch (RSeq (RLit (String x l)) r) s' caps k) = Some out).
  rewrite (star_lazy_until p x); [done|..].
  - eapply str_all_impl, Ha. cbv beta. intros c. rewrite andb_true_iff. tauto.
  - eapply str_all_impl, Ha. cbv beta. intros c. rewrite andb_true_iff. tauto.
  - intros. by apply lit_head_fails.
  - by rewrite H.
Qed.

Lemma chain_group_lazy n p x l r a s caps k out :
  str_all (fun c => p c && negb (eqc c x)) a = true ->
  rmatch (RSeq (RLit (String x l)) r) s (<[n := a]> caps) k = Some out ->
  rmatch (RSeq (RGroup n (RStar false p)) (RSeq (RLit (String x l)) r)) (a +:+ s) caps k
    = Some out.
Proof.
  intros Ha H. change (star_lazy p (a +:+ s) (fun s' =>
    rmatch (RSeq (RLit (String x l)) r) s' (<[n := consumed (a +:+ s) s']> caps) k) = Some out).
  rewrite (star_lazy_until p x); [by rewrite consumed_app|..].
  - eapply str_all_impl, Ha. cbv beta. intros c. rewrite andb_true_iff. tauto.
  - eapply str_all_impl, Ha. cbv beta. intros c. rewrite andb_true_iff. tauto.
  - intros. by apply lit_head_fails.
  - by rewrite consumed_app, H.
Qed.

(** A greedy run ends where its class does. *)
Lemma chain_run p a s r caps k out :
  str_all p a = true ->
  match s with String c _ => p c = false | EmptyString => True end ->
  rmatch r s caps k = Some out ->
  rmatch (RSeq (RStar true p) r) (a +:+ s) caps k = Some out.
Proof.
  intros Ha Hs H. cbn. rewrite star_greedy_run; [done..|]. by rewrite H.
Qed.

Lemma chain_group_run n p a s r caps k out :
  str_all p a = true ->
  match s with String c _ => p c = false | EmptyString => True end ->
  rmatch r s (<[n := a]> caps) k = Some out ->
  rmatch (RSeq (RGroup n (RStar true p)) r) (a +:+ s) caps k = Some out.
Proof.
  intros Ha Hs H. cbn.
  rewrite star_greedy_run; [by rewrite consumed_app|done..|]. by rewrite consumed_app, H.
Qed.
End chain.
