(* ===== verification/Traffic.v ===== *)
(** The TURN traffic reports (src/broker/BrokerServer/app/dao.js, the
    [parseTurnTraffic] method and the two event handlers of the subscription
    connection).  coturn publishes, on a channel named after the allocation,
    the bytes it relayed; the broker reads the user from the channel name and
    the bytes from the message. *)
From S2P Require Import Prelude JsNum JsString Regex.

(** * parseTurnTraffic *)

Record traffic := { user : string; sent_bytes : string }.

(** The channel pattern: the segments are lazy [.*?] runs between the literals,
    group 1 is the user, group 2 the digits of the session id. *)
Definition channel_pattern : regex :=
  seqs [RLit "turn/"; RStar false dot; RLit "/"; RStar false dot; RLit "/realm/";
        RStar false dot; RLit "/user/"; RGroup 1 (RStar false dot); RLit "/allocation/";
        RGroup 2 (RStar true plain_digit); RLit "/"].

(** The message pattern: four counters; groups 1 and 2 are rcvb and sentb. *)
Definition message_pattern : regex :=
  seqs [RLit "rcvp="; RStar true plain_digit; RLit ", rcvb=";
        RGroup 1 (RStar true plain_digit); RLit ", sentp="; RStar true plain_digit;
        RLit ", sentb="; RGroup 2 (RStar true plain_digit)].

(** [None] is the [undefined] of the two early returns. *)
Definition parseTurnTraffic (channel message : string) : option traffic :=
  match exec channel_pattern channel with
  | None => None
  | Some m =>
      let user := default "" (m !! 1%nat) in
      match exec message_pattern message with
      | None => None
      | Some m' => Some {| user := user; sent_bytes := default "" (m' !! 2%nat) |}
      end
  end.

(** What coturn publishes for an allocation of a realm user. *)
Definition channel_name (ip port realm user alloc : string) : string :=
  "turn/" +:+ ip +:+ "/" +:+ port +:+ "/realm/" +:+ realm +:+ "/user/" +:+ user +:+
  "/allocation/" +:+ alloc +:+ "/traffic".

Definition traffic_message (rcvp rcvb sentp sentb : Z) : string :=
  "rcvp=" +:+ dec rcvp +:+ ", rcvb=" +:+ dec rcvb +:+ ", sentp=" +:+ dec sentp +:+
  ", sentb=" +:+ dec sentb.

(** A path segment: no slash, no line terminator. *)
Definition segment (s : string) : bool := str_all (fun c => dot c && negb (eqc c "/")) s.

Lemma dec_plain z : 0 <= z -> str_all plain_digit (dec z) = true.
Proof. intros. rewrite dec_nonneg by done. apply digits_plain. Qed.

Lemma exec_channel ip port realm user alloc :
  segment ip = true -> segment port = true -> segment realm = true ->
  segment user = true -> str_all plain_digit alloc = true ->
  exec channel_pattern (channel_name ip port realm user alloc)
    = Some (<[2%nat := alloc]> (<[1%nat := user]> ∅)).
Proof.
  intros Hi Hp Hr Hu Ha. apply exec_here.
  unfold channel_pattern, seqs, channel_name. cbn [foldr].
  apply chain_lit, chain_lazy; [done|].
  apply chain_lit, chain_lazy; [done|].
  apply chain_lit, chain_lazy; [done|].
  apply chain_lit, chain_group_lazy; [done|].
  apply chain_lit, chain_group_run; [done|done|].
  by vm_compute.
Qed.

Lemma exec_message a b c d :
  0 <= a -> 0 <= b -> 0 <= c -> 0 <= d ->
  exec message_pattern (traffic_message a b c d)
    = Some (<[2%nat := dec d]> (<[1%nat := dec b]> ∅)).
Proof.
  intros Ha Hb Hc Hd. apply exec_here.
  unfold message_pattern, seqs, traffic_message. cbn [foldr].
  rewrite <- (string_app_nil_r (dec d)) at 1.
  apply chain_lit, chain_run; [by apply dec_plain|done|].
  apply chain_lit, chain_group_run; [by apply dec_plain|done|].
  apply chain_lit, chain_run; [by apply dec_plain|done|].
  apply chain_lit, chain_group_run; [by apply dec_plain|done|].
  done.
Qed.

(** Whatever coturn publishes for a realm user is read back as that user and
    the number of bytes sent. *)
Lemma parse_published ip port realm usr alloc a b c d :
  segment ip = true -> segment port = true -> segment realm = true ->
  segment usr = true -> str_all plain_digit alloc = true ->
  0 <= a -> 0 <= b -> 0 <= c -> 0 <= d ->
  parseTurnTraffic (channel_name ip port realm usr alloc) (traffic_message a b c d)
    = Some {| user := usr; sent_bytes := dec d |}.
Proof.
  intros. unfold parseTurnTraffic.
  rewrite exec_channel, exec_message by done. by simplify_map_eq.
Qed.
