(* ===== verification/Redis.v ===== *)
(** The Redis server as the broker uses it (through the [redis] package):
    the commands src/broker/BrokerServer/app/dao.js sends, their replies, and
    the documented behaviour of each command, stated over an abstract view of
    the database.  Redis itself is not in the repository: every theorem about
    the broker is proved for any implementation [Redis] whose steps agree with
    that documentation ([RedisLaws]).  A concrete implementation, used by the
    witnesses only, closes the file. *)
From S2P Require Import Prelude JsNum JsString Regex.

Inductive cmd :=
  | SELECT (db : Z)
  | GET (k : string)
  | SET (k v : string)
  | EXPIRE (k : string) (ttl : Z)
  | KEYS (pattern : string)
  | HGETALL (k : string)
  | HSETNX (k f v : string)
  | HMSET (k : string) (fvs : list (string * string))
  | HINCRBY (k f incr : string)
  | RENAME (k k' : string).

Abbreviation hash := (gmap string string).

(** Replies as the [redis] package delivers them to a callback: [RErr] is a
    non-null first argument; an empty hash arrives as [null]. *)
Inductive reply :=
  | ROk
  | RInt (z : Z)
  | RBulk (o : option string)
  | RKeys (l : list string)
  | RHash (o : option hash)
  | RErr (e : string).

Inductive rval := VStr (s : string) | VHash (h : hash).

(** What is stored: the database selected on the connection and the keys of
    every database, with the time to live of those that have one. *)
Record view := View {
  selected : Z;
  data : gmap (Z * string) rval;
  ttls : gmap (Z * string) Z;
}.

#[export] Instance rval_eq_dec : EqDecision rval.
Proof. solve_decision. Defined.
#[export] Instance view_eq_dec : EqDecision view.
Proof. solve_decision. Defined.

Definition here (v : view) (k : string) : Z * string := (selected v, k).
Definition at_key (v : view) (k : string) : option rval := data v !! here v k.

Definition put (v : view) (k : string) (x : rval) : view :=
  View (selected v) (<[here v k := x]> (data v)) (ttls v).

Definition wrong_type : reply :=
  RErr "WRONGTYPE Operation against a key holding the wrong kind of value".

(** A signed 64-bit integer in canonical decimal notation. *)
Definition in_int64 (z : Z) : bool := (- 2 ^ 63 <=? z) && (z <? 2 ^ 63).

Definition redis_int (s : string) : option Z :=
  let '(n, s1) := take_sign s in
  match scan_digits 10 0 0 s1 with
  | (v, _, _) =>
      let z := if n then - v else v in
      if String.eqb s (dec z) && in_int64 z then Some z else None
  end.

(** Keys of the selected database that start with [p]. *)
Definition keys_with_prefix (v : view) (p : string) : list string :=
  filter (fun k => has_prefix p k = true)
    (omap (fun '((db, k), _) => if db =? selected v then Some k else None)
       (map_to_list (data v))).

(** Effect of the commands that have one documented outcome. *)
Definition doc_step (v : view) (c : cmd) : view * reply :=
  match c with
  | SELECT n =>
      if (0 <=? n) && (n <? 16) then (View n (data v) (ttls v), ROk)
      else (v, RErr "ERR DB index is out of range")
  | GET k =>
      (v, match at_key v k with
          | None => RBulk None | Some (VStr s) => RBulk (Some s) | _ => wrong_type
          end)
  | SET k x =>
      (View (selected v) (<[here v k := VStr x]> (data v)) (delete (here v k) (ttls v)), ROk)
  | EXPIRE k t =>
      match at_key v k with
      | None => (v, RInt 0)
      | Some _ => (View (selected v) (data v) (<[here v k := t]> (ttls v)), RInt 1)
      end
  | KEYS _ => (v, ROk)
  | HGETALL k =>
      (v, match at_key v k with
          | None => RHash None | Some (VHash h) => RHash (Some h) | _ => wrong_type
          end)
  | HSETNX k f x =>
      match at_key v k with
      | None => (put v k (VHash {[f := x]}), RInt 1)
      | Some (VHash h) =>
          match h !! f with
          | Some _ => (v, RInt 0)
          | None => (put v k (VHash (<[f := x]> h)), RInt 1)
          end
      | _ => (v, wrong_type)
      end
  | HMSET k fvs =>
      match at_key v k with
      | None => (put v k (VHash (foldl (fun h '(f, x) => <[f := x]> h) ∅ fvs)), ROk)
      | Some (VHash h) => (put v k (VHash (foldl (fun h '(f, x) => <[f := x]> h) h fvs)), ROk)
      | _ => (v, wrong_type)
      end
  | HINCRBY k f i =>
      match at_key v k with
      | Some (VStr _) => (v, wrong_type)
      | o =>
          let h := match o with Some (VHash h) => h | _ => ∅ end in
          match redis_int i, redis_int (default "0" (h !! f)) with
          | Some a, Some b =>
              if in_int64 (b + a) then (put v k (VHash (<[f := dec (b + a)]> h)), RInt (b + a))
              else (v, RErr "ERR increment or decrement would overflow")
          | None, _ => (v, RErr "ERR value is not an integer or out of range")
          | _, None => (v, RErr "ERR hash value is not an integer")
          end
      end
  | RENAME k k' =>
      match at_key v k with
      | None => (v, RErr "ERR no such key")
      | Some x =>
          (View (selected v) (<[here v k' := x]> (delete (here v k) (data v)))
             (match ttls v !! here v k with
              | Some t => <[here v k' := t]> (delete (here v k) (ttls v))
              | None => delete (here v k') (ttls v)
              end), ROk)
      end
  end.

(** The documentation: [KEYS prefix*] lists the keys in an unspecified order;
    every other command does [doc_step]. *)
Definition doc (v : view) (c : cmd) (r : reply) (v' : view) : Prop :=
  match c with
  | KEYS pat =>
      v' = v /\ exists l, r = RKeys l /\
        forall p, pat = p +:+ "*" -> l ≡ₚ keys_with_prefix v p
  | _ => (v', r) = doc_step v c
  end.

(** * The interface *)

Class Redis (St : Type) := {
  rexec : St -> cmd -> St * reply;
  view_of : St -> view;
}.

Class RedisLaws (St : Type) `{Redis St} : Prop := {
  rexec_doc s c : doc (view_of s) c (rexec s c).2 (view_of (rexec s c).1);
}.

(** * A concrete implementation *)

Definition strip_star (pat : string) : string :=
  String.substring 0 (String.length pat - 1) pat.

#[export] Instance RefRedis : Redis view := {
  rexec v c := match c with
               | KEYS pat => (v, RKeys (keys_with_prefix v (strip_star pat)))
               | _ => doc_step v c
               end;
  view_of v := v;
}.

#[export] Instance RefRedis_laws : RedisLaws view.
Proof.
  split. intros v c. cbn.
  destruct c; cbn [doc]; try (symmetry; apply surjective_pairing).
  split; [done|]. eexists. split; [done|]. intros p ->.
  unfold strip_star. rewrite string_length_app, Nat.add_sub.
  by rewrite substring_prefix.
Qed.
