(* ===== verification/Async.v ===== *)
(** Asynchronous handlers: a handler is a sequence of turns of the event loop.
    In a turn it sends commands on the shared Redis connection; the rest of it
    runs when the replies are in.  Between two turns of one handler any other
    handler may take turns, so commands sent in one turn are processed
    together and the handlers interleave at turn boundaries.

    [run] runs a handler alone; [pstep] is the interleaved step of a pool of
    handlers that share the connection. *)
From S2P Require Import Prelude JsNum JsString Regex Redis.

(** How a promise chain ends: resolved, rejected, never settled, or the process
    dies on an exception thrown inside a Redis callback. *)
Inductive outcome (A : Type) :=
  | Resolved (a : A)
  | Rejected (e : string)
  | Pending
  | Crashed.
Arguments Resolved {A} a.
Arguments Rejected {A} e.
Arguments Pending {A}.
Arguments Crashed {A}.

Inductive prog (A : Type) :=
  | Done (o : outcome A)
  | Turn (cs : list cmd) (k : list reply -> prog A).
Arguments Done {A} o.
Arguments Turn {A} cs k.

(** What follows [p] when it settles one way or the other ([p.then(f, g)]): the
    continuation receives the outcome. *)
Fixpoint settle {A B} (p : prog A) (f : outcome A -> prog B) : prog B :=
  match p with
  | Done o => f o
  | Turn cs k => Turn cs (fun rs => settle (k rs) f)
  end.

(** [p.then(f)]. *)
Definition pthen {A B} (p : prog A) (f : A -> prog B) : prog B :=
  settle p (fun o => match o with
                     | Resolved a => f a
                     | Rejected e => Done (Rejected e)
                     | Pending => Done Pending
                     | Crashed => Done Crashed
                     end).

(** [p.catch(g)]. *)
Definition pcatch {A} (p : prog A) (g : string -> prog A) : prog A :=
  settle p (fun o => match o with Rejected e => g e | _ => Done o end).

(** Commands sent, replies ignored, in the same turn as the start of [p]. *)
Definition also {A} (cs : list cmd) (p : prog A) : prog A :=
  match p with
  | Done o => Turn cs (fun _ => Done o)
  | Turn cs' k => Turn (cs ++ cs') (fun rs => k (drop (length cs) rs))
  end.

Notation "'let!' x ':=' p 'in' q" := (pthen p (fun x => q))
  (at level 200, x name, p at level 100, q at level 200) : broker_scope.

(** The replies one by one: an error (or a reply missing) ends the turn as [e]
    says, otherwise [f] continues with the reply. *)
Definition on_reply {A} (rs : list reply) (e : string -> prog A) (f : reply -> prog A) : prog A :=
  match rs with
  | RErr m :: _ => e m
  | r :: _ => f r
  | [] => Done Pending
  end.

Section run.
Context `{Redis St}.

Fixpoint exec_all (s : St) (cs : list cmd) : St * list reply :=
  match cs with
  | [] => (s, [])
  | c :: cs' =>
      let '(s1, r) := rexec s c in
      let '(s2, rs) := exec_all s1 cs' in (s2, r :: rs)
  end.

(** A handler with the connection to itself. *)
Fixpoint run {A} (p : prog A) (s : St) : outcome A * St :=
  match p with
  | Done o => (o, s)
  | Turn cs k => let '(s', rs) := exec_all s cs in run (k rs) s'
  end.

Lemma run_settle {A B} (p : prog A) (f : outcome A -> prog B) s :
  run (settle p f) s = let '(o, s') := run p s in run (f o) s'.
Proof.
  revert s. induction p as [o|cs k IH]; intros s; cbn; [done|].
  destruct (exec_all s cs) as [s' rs]. apply IH.
Qed.

Lemma exec_all_app s cs cs' :
  exec_all s (cs ++ cs') =
    let '(s1, rs) := exec_all s cs in
    let '(s2, rs') := exec_all s1 cs' in (s2, rs ++ rs').
Proof.
  revert s. induction cs as [|c cs IH]; intros s; cbn.
  - by destruct (exec_all s cs').
  - destruct (rexec s c) as [s1 r]. rewrite IH.
    destruct (exec_all s1 cs) as [s2 rs]. by destruct (exec_all s2 cs').
Qed.

Lemma length_exec_all s cs : length (exec_all s cs).2 = length cs.
Proof.
  revert s. induction cs as [|c cs IH]; intros s; cbn; [done|].
  destruct (rexec s c) as [s1 r]. specialize (IH s1).
  destruct (exec_all s1 cs). cbn in *. by rewrite IH.
Qed.

Lemma run_also {A} cs (p : prog A) s :
  run (also cs p) s = run p (exec_all s cs).1.
Proof.
  destruct p as [o|cs' k]; cbn.
  - by destruct (exec_all s cs).
  - rewrite exec_all_app. pose proof (length_exec_all s cs) as L.
    destruct (exec_all s cs) as [s1 rs]. cbn in *.
    destruct (exec_all s1 cs') as [s2 rs']. by rewrite <- L, drop_app_length.
Qed.
End run.

(** * Reasoning from the documentation

    [wp p v Q]: whatever the documentation allows the server to do from the view
    [v], the handler [p] run alone ends in an outcome and a view that satisfy
    [Q]. *)

Fixpoint wpc (v : view) (cs : list cmd) (Q : list reply -> view -> Prop) : Prop :=
  match cs with
  | [] => Q [] v
  | c :: cs' => forall r v1, doc v c r v1 -> wpc v1 cs' (fun rs => Q (r :: rs))
  end.

Fixpoint wp {A} (p : prog A) (v : view) (Q : outcome A -> view -> Prop) : Prop :=
  match p with
  | Done o => Q o v
  | Turn cs k => wpc v cs (fun rs v' => wp (k rs) v' Q)
  end.

Definition det (c : cmd) : bool := match c with KEYS _ => false | _ => true end.

Lemma doc_det v c r v' : det c = true -> doc v c r v' <-> (v', r) = doc_step v c.
Proof. by destruct c. Qed.

Lemma wpc_mono v cs (Q Q' : list reply -> view -> Prop) :
  (forall rs v', Q rs v' -> Q' rs v') -> wpc v cs Q -> wpc v cs Q'.
Proof.
  revert v Q Q'. induction cs as [|c cs IH]; intros v Q Q' HQ; cbn; [apply HQ|].
  intros Hw r v1 D. eapply IH, Hw, D. intros rs v'. apply HQ.
Qed.

Lemma wpc_det v c cs (Q : list reply -> view -> Prop) :
  det c = true ->
  wpc (doc_step v c).1 cs (fun rs => Q ((doc_step v c).2 :: rs)) -> wpc v (c :: cs) Q.
Proof.
  intros Hd Hw r v1 D. apply doc_det in D; [|done].
  destruct (doc_step v c) as [v2 r2]. by injection D as -> ->.
Qed.

Lemma wpc_app v cs cs' (Q : list reply -> view -> Prop) :
  wpc v cs (fun rs v1 => wpc v1 cs' (fun rs' => Q (rs ++ rs'))) -> wpc v (cs ++ cs') Q.
Proof.
  revert v Q. induction cs as [|c cs IH]; intros v Q; cbn; [done|].
  intros Hw r v1 D. apply IH, Hw, D.
Qed.

Lemma wp_mono {A} (p : prog A) v (Q Q' : outcome A -> view -> Prop) :
  (forall o v', Q o v' -> Q' o v') -> wp p v Q -> wp p v Q'.
Proof.
  intros HQ. revert v. induction p as [o|cs k IH]; intros v; cbn; [apply HQ|].
  apply wpc_mono. intros rs v'. apply IH.
Qed.

(** The rule of sequencing. *)
Lemma wp_settle {A B} (p : prog A) (f : outcome A -> prog B) v Q :
  wp p v (fun o v' => wp (f o) v' Q) -> wp (settle p f) v Q.
Proof.
  revert v. induction p as [o|cs k IH]; intros v; cbn; [done|].
  apply wpc_mono. intros rs v'. apply IH.
Qed.

Lemma wpc_length v cs (Q : list reply -> view -> Prop) :
  wpc v cs Q -> wpc v cs (fun rs v' => length rs = length cs /\ Q rs v').
Proof.
  revert v Q. induction cs as [|c cs IH]; intros v Q; cbn; [done|].
  intros Hw r v1 D. specialize (Hw r v1 D). apply IH in Hw.
  eapply wpc_mono, Hw. cbn. intros rs v' [-> ?]. done.
Qed.

Lemma wp_also {A} cs (p : prog A) v Q :
  wpc v cs (fun _ v1 => wp p v1 Q) -> wp (also cs p) v Q.
Proof.
  intros Hw. destruct p as [o|cs' k]; cbn; [done|].
  apply wpc_app. apply wpc_length in Hw. eapply wpc_mono, Hw.
  cbn. intros rs v1 [HL Hk]. eapply wpc_mono, Hk. intros rs' v2.
  by rewrite <- HL, drop_app_length.
Qed.

Section wp_sound.
Context `{RedisLaws St}.

Lemma wpc_sound cs s (Q : list reply -> view -> Prop) :
  wpc (view_of s) cs Q -> Q (exec_all s cs).2 (view_of (exec_all s cs).1).
Proof.
  revert s Q. induction cs as [|c cs IH]; intros s Q Hw; cbn; [done|].
  pose proof (rexec_doc s c) as D.
  destruct (rexec s c) as [s1 r] eqn:E. cbn in D.
  specialize (Hw _ _ D). apply IH in Hw. by destruct (exec_all s1 cs).
Qed.

(** A handler run alone on any implementation meets its [wp]. *)
Lemma wp_sound {A} (p : prog A) s Q :
  wp p (view_of s) Q -> Q (run p s).1 (view_of (run p s).2).
Proof.
  revert s. induction p as [o|cs k IH]; intros s Hw; cbn; [done|].
  apply wpc_sound in Hw. destruct (exec_all s cs) as [s1 rs]. by apply IH.
Qed.
End wp_sound.

(** Reduce a goal about [run p s] to the [wp] of [p] from the view of [s]. *)
Ltac by_wp :=
  match goal with
  | |- context [run ?p ?s] =>
      pattern (run p s).1, (view_of (run p s).2); apply wp_sound; cbv beta
  end.

Lemma wpc_select v n cs (Q : list reply -> view -> Prop) :
  (0 <=? n) && (n <? 16) = true ->
  wpc (View n (data v) (ttls v)) cs (fun rs => Q (ROk :: rs)) ->
  wpc v (SELECT n :: cs) Q.
Proof. intros Hn Hw. apply wpc_det; [done|]. cbn [doc_step]. by rewrite Hn. Qed.

(** One step of symbolic execution: sequencing, the start of a turn, a command
    other than [KEYS], the end of a turn. *)
Ltac redis_step :=
  match goal with
  | |- wp (also _ _) _ _ => apply wp_also
  | |- wp (pthen _ _) _ _ => apply wp_settle
  | |- wp (settle _ _) _ _ => apply wp_settle
  | |- wp (Turn _ _) _ _ => cbn [wp]
  | |- wp (Done _) _ _ => cbn [wp]
  | |- wp (on_reply (ROk :: _) _ _) _ _ => cbn [on_reply]
  | |- wp (on_reply [] _ _) _ _ => cbn [on_reply]
  | |- wpc _ (SELECT _ :: _) _ => apply wpc_select; [done|]; cbn [data ttls]
  | |- wpc _ (?c :: _) _ =>
      lazymatch c with
      | KEYS _ => fail
      | _ => apply wpc_det; [done|]; cbn [doc_step fst snd]
      end
  | |- wpc _ [] _ => cbn [wpc]
  end.

(** * Interleaving *)

Section pool.
Context `{Redis St} {A : Type}.

(** A step of the environment: another client of the same server. *)
Variable env : St -> St -> Prop.

(** Handlers that may arrive. *)
Variable ok : prog A -> Prop.

(** One turn of handler [i] of the pool, the arrival of a handler, or a step
    of the environment. *)
Inductive pstep : St * list (prog A) -> St * list (prog A) -> Prop :=
  | pstep_turn s ps i cs k :
      ps !! i = Some (Turn cs k) ->
      pstep (s, ps) ((exec_all s cs).1, <[i := k (exec_all s cs).2]> ps)
  | pstep_spawn s ps p : ok p -> pstep (s, ps) (s, ps ++ [p])
  | pstep_env s s' ps : env s s' -> pstep (s, ps) (s', ps).
End pool.
