(* ===== verification/Dao.v ===== *)
(** The data access object of the QoS broker
    (src/broker/BrokerServer/app/dao.js): one handler per method, over the
    shared Redis connection.

    A parameter that the request may lack is an [option string]; [undefined]
    in a string concatenation or as a command argument is the text
    "undefined".  The current date, the random numbers and MD5 are arguments. *)
From S2P Require Import Prelude JsNum JsString Regex Traffic Redis Async.

Definition REALM : string := "orange.com".
Definition TTLUSER : Z := 604800.

(** Text of a parameter that may be [undefined]. *)
Definition js_str (o : option string) : string := default "undefined" o.

(** [Number(x)] of a hash field that may be missing. *)
Definition js_number (o : option string) : num :=
  match o with Some s => to_number s | None => NaN end.

Definition slice1 (s : string) : string :=
  match s with String _ s' => s' | EmptyString => "" end.

(** [rnd] is the value [Math.random()] returned. *)
Definition randomString (length : Z) (rnd : num) : string :=
  slice1 (int_to_radix 36
    (trunc_Z (round (sub (pow_Z 36 (length + 1)) (mul rnd (pow_Z 36 length)))))).

(** A reply used as an object: reading or setting a property of [null] throws. *)
Definition as_object (r : reply) : option hash :=
  match r with RHash (Some h) => Some h | _ => None end.

(** [cspInfos] after [getCspInfoAndConso]: the provisioned fields plus the two
    properties the method sets. *)
Record csp_info := {
  cspName : option string;
  fields : hash;
  dataConso : option string;
}.
Definition dataQuota (i : csp_info) : option string := fields i !! "dataQuota".

(** * Reading a CSP *)

(** A [selectAsync(db).then(body)] inside a [new Promise]: when the selection
    fails the promise is never settled. *)
Definition selecting {A} (db : Z) (body : prog A) : prog A :=
  Turn [SELECT db] (fun rs => on_reply rs (fun _ => Done Pending) (fun _ => body)).

(** The callback [if (err) reject(err) else resolve(reply)]. *)
Definition settle_reply (c : cmd) : prog reply :=
  Turn [c] (fun rs => on_reply rs (fun e => Done (Rejected e)) (fun r => Done (Resolved r))).

Definition getCSPInfos (cspkey : string) : prog reply :=
  selecting 2 (settle_reply (HGETALL cspkey)).

Definition getCSPConso (cspConsoKey : option string) : prog reply :=
  selecting 2 (settle_reply (HGETALL (js_str cspConsoKey +:+ ":conso"))).

Definition type_error : string := "TypeError".

Definition getCspInfoAndConso (csp : option string) : prog csp_info :=
  let cspKey := "prov:" +:+ js_str csp in
  settle (getCSPInfos cspKey) (fun o =>
    match o with
    | Resolved reply =>
        match as_object reply with
        | None => Done (Rejected "CSP not found")
        | Some h =>
            settle (getCSPConso (Some cspKey)) (fun o' =>
              match o' with
              | Resolved consoResult =>
                  match as_object consoResult with
                  | None => Done (Rejected "CSP consumption unknown")
                  | Some c => Done (Resolved
                      {| cspName := csp; fields := h; dataConso := c !! "data" |})
                  end
              | Rejected _ => Done (Rejected "CSP consumption unknown")
              | Pending => Done Pending
              | Crashed => Done Crashed
              end)
        end
    | Rejected _ => Done (Rejected "CSP not found")
    | Pending => Done Pending
    | Crashed => Done Crashed
    end).

(** * TURN servers *)

Record turn_server := { turnUrl : string; turnStatus : reply }.

(** The [get] callbacks, in reply order: the first error rejects; the list is
    returned once every server has answered. *)
Fixpoint collect_turns (names : list string) (rs : list reply) (acc : list turn_server)
    : outcome (list turn_server) :=
  match names, rs with
  | [], _ => Resolved acc
  | n :: names', RErr e :: rs' => Rejected e
  | n :: names', r :: rs' => collect_turns names' rs' (acc ++ [{| turnUrl := n; turnStatus := r |}])
  | _, [] => Pending
  end.

Definition getTurnServers : prog (list turn_server) :=
  selecting 2 (Turn [KEYS "turnservers:*"] (fun rs =>
    on_reply rs (fun e => Done (Rejected e)) (fun r =>
      match r with
      | RKeys [] => Done (Rejected "No turn found")
      | RKeys names => Turn (map GET names) (fun rs' => Done (collect_turns names rs' []))
      | _ => Done Pending
      end))).

(** * Serving a client *)

Definition registerUser_cmds (csp : option string) (user : string) : list cmd :=
  [SELECT 2; SET ("users:" +:+ user) (js_str csp); EXPIRE ("users:" +:+ user) TTLUSER].

Definition registerUser (csp : option string) (user : string) : prog unit :=
  Turn (registerUser_cmds csp user) (fun _ => Done (Resolved tt)).

(** [Number(result.dataConso) > Number(result.dataQuota)]. *)
Definition quota_exceeded (i : csp_info) : bool :=
  gtn (js_number (dataConso i)) (js_number (dataQuota i)).

Section service.
(** [MD5(s).toString()] of the crypto-js package. *)
Variable MD5 : string -> string.

(** [iso] is [new Date().toISOString()]. *)
Definition client_id (csp client : option string) (iso : string) : string :=
  MD5 (js_str csp +:+ ":" +:+ js_str client +:+ iso).

(** A random element of the list of urls; [undefined] out of range. *)
Definition pick_turn (rnd : num) (servers : list turn_server) : option string :=
  let urls := map (fun t => replace_first "turnservers:" "" (turnUrl t)) servers in
  let i := trunc_Z (floor (mul rnd (of_Z (Z.of_nat (length urls))))) in
  if i <? 0 then None else urls !! Z.to_nat i.

Definition check_quota (result : csp_info) : prog unit :=
  if quota_exceeded result then Done (Rejected "data consumption exceeded")
  else Done (Resolved tt).

Definition getAppropriateTurn (csp client : option string) (iso : string) (rnd : num)
    : prog (option string * string) :=
  let clientId := client_id csp client iso in
  also (registerUser_cmds csp clientId)
    (settle (let! result := getCspInfoAndConso csp in check_quota result) (fun o =>
       match o with
       | Resolved _ =>
           let! res := getTurnServers in Done (Resolved (pick_turn rnd res, clientId))
       | Rejected err => Done (Rejected ("Unable to get a turn server : " +:+ err))
       | Pending => Done Pending
       | Crashed => Done Crashed
       end)).

(** * Credentials *)

Definition credentials_key (clientId : string) : string :=
  "turn/realm/" +:+ REALM +:+ "/user/" +:+ clientId +:+ "/key".

Definition createTurnCredentials (clientId : option string) (rnd : num) : prog string :=
  let id := js_str clientId in
  let password := randomString 6 rnd in
  selecting 0
    (let! _ := settle_reply (SET (credentials_key id)
                 (MD5 (id +:+ ":" +:+ REALM +:+ ":" +:+ password))) in
     Done (Resolved password)).

(** A rejection is not handled: the returned promise then never settles. *)
Definition getCredentials (clientId : option string) (rnd : num)
    : prog (option string * string) :=
  settle (createTurnCredentials clientId rnd) (fun o =>
    match o with
    | Resolved password => Done (Resolved (clientId, password))
    | Rejected _ | Pending => Done Pending
    | Crashed => Done Crashed
    end).
End service.

(** * Provisioning *)

Definition asGB : num := mul (mul (of_Z 1024) (of_Z 1024)) (of_Z 1024).

Record form_data := {
  servicename : option string;
  audio : option string;
  video : option string;
  qdata : option string;
}.

(** A quota of the form: 0 when absent, otherwise [parseInt]. *)
Definition form_quota (o : option string) : num :=
  match o with None => Fin 0 | Some s => parseInt s end.

Definition registerCSP_cmds (formDatas : form_data) : list cmd :=
  let redisKey := "prov:" +:+ js_str (servicename formDatas) in
  let conso := redisKey +:+ ":conso" in
  let gb (x : num) := num_to_string (mul x asGB) in
  [HSETNX redisKey "audioQuota" (gb (form_quota (audio formDatas)));
   HSETNX redisKey "videoQuota" (gb (form_quota (video formDatas)));
   HSETNX redisKey "dataQuota" (gb (parseInt (js_str (qdata formDatas))));
   HSETNX redisKey "conso" conso;
   HSETNX conso "audio" (num_to_string (Fin 0));
   HSETNX conso "video" (num_to_string (Fin 0));
   HSETNX conso "data" (num_to_string (Fin 0))].

(** The value returned at once, and the work left to the event loop. *)
Definition registerCSP (formDatas : form_data) (TTL : Z) : (option string * Z) * prog unit :=
  ((servicename formDatas, TTL),
   selecting 2 (Turn (registerCSP_cmds formDatas) (fun _ => Done (Resolved tt)))).

Definition deleteCSP (cspkey : string) : prog Z :=
  Turn [SELECT 2;
        RENAME (cspkey +:+ ":conso") ("histo" +:+ cspkey +:+ ":conso");
        RENAME cspkey ("histo" +:+ cspkey)]
    (fun rs => on_reply (drop 2 rs) (fun e => Done (Rejected e)) (fun _ => Done (Resolved 1))).

Definition updateCSPQuotas (cspkey audioQuota videoQuota dataQuota : option string)
    : prog reply :=
  selecting 2 (settle_reply (HMSET (js_str cspkey)
    [("audioQuota", js_str audioQuota); ("videoQuota", js_str videoQuota);
     ("dataQuota", js_str dataQuota)])).

(** * The dashboard listing *)

(** ['.*:conso'] and ['.*:conso$'] as patterns. *)
Definition conso_pattern : regex := seqs [RStar true dot; RLit ":conso"].
Definition conso_end_pattern : regex := seqs [RStar true dot; RLit ":conso"; REnd].

Definition matches_pattern (r : regex) (s : string) : bool :=
  match exec r s with Some _ => true | None => false end.

Definition prov_keys (names : list string) : list string :=
  filter (fun k => matches_pattern conso_pattern k = false) names.

(** The [hgetall] callbacks in reply order.  An error leaves [info] undefined and
    a key that is gone leaves it [null]: setting [info.csp] then throws inside
    the callback.  [acc] is [infos]; the promise resolves when it is full. *)
Fixpoint collect_infos (total : nat) (keys : list string) (rs : list reply)
    (acc : list (hash * string)) : outcome (list (hash * string)) :=
  match keys, rs with
  | k :: keys', r :: rs' =>
      match as_object r with
      | None => Crashed
      | Some info =>
          let acc' := acc ++ [(info, k)] in
          if Nat.eqb (length acc') total then Resolved acc'
          else collect_infos total keys' rs' acc'
      end
  | _, _ => Pending
  end.

Definition getAllCspInfo : prog (list (hash * string)) :=
  Turn [SELECT 2; KEYS "prov:*"] (fun rs =>
    on_reply (drop 1 rs) (fun _ => Done Crashed) (fun r =>
      match r with
      | RKeys names =>
          let provKeys := prov_keys names in
          let wanted := filter (fun k => matches_pattern conso_end_pattern k = false) provKeys in
          Turn (map HGETALL wanted)
            (fun rs' => Done (collect_infos (length provKeys) wanted rs' []))
      | _ => Done Crashed
      end)).

(** * Consumption *)

(** [parsedTraffic] is [undefined] when the report did not parse.  Only the
    last command has an error callback; a failure before it leaves the promise
    unsettled.  An unknown user reads as [null]. *)
Definition addCSPConso (parsedTraffic : option traffic) : prog reply :=
  selecting 2
    (match parsedTraffic with
     | None => Done Pending
     | Some t =>
         Turn [GET ("users:" +:+ user t)] (fun rs =>
           on_reply rs (fun _ => Done Pending) (fun res =>
             let name := match res with RBulk (Some s) => s | _ => "null" end in
             settle_reply (HINCRBY ("prov:" +:+ name +:+ ":conso") "data" (sent_bytes t))))
     end).

(** * The subscription connection *)

(** State of the two event handlers of [subscribeClient]: the properties of the
    plain object [subscribers] and the [subscribe] calls made, latest last. *)
Record subscription := {
  subscribers : gset string;
  subscribed : list string;
}.

(** ['pmessage'] handler: the package passes the pattern and then the channel,
    which the code names [channel] and [message]. *)
Definition on_pmessage (st : subscription) (channel message : string) : subscription :=
  if inherited message || bool_decide (message ∈ subscribers st) then st
  else {| subscribers := {[message]} ∪ subscribers st;
          subscribed := subscribed st ++ [message] |}.

(** ['message'] handler: account the traffic. *)
Definition on_message (channel message : string) : prog reply :=
  addCSPConso (parseTurnTraffic channel message).
