(* ===== verification/DaoSpec.v ===== *)
(** What the methods of the data access object promise, run alone: an abstract
    outcome computed from the stored data, and the data afterwards. *)
From S2P Require Import Prelude JsNum JsString Regex Traffic Redis Async Dao.

(** * Views and keys *)

Definition sel (n : Z) (v : view) : view := View n (data v) (ttls v).

(** The entry of key [k] in database 2, where the broker keeps its data. *)
Definition db2 (v : view) (k : string) : option rval := data v !! (2, k).

Definition prov_key (csp : string) : string := "prov:" +:+ csp.
Definition conso_key (csp : string) : string := "prov:" +:+ csp +:+ ":conso".
Definition user_key (u : string) : string := "users:" +:+ u.

Lemma app_neq_self (a b : string) : b <> "" -> a <> a +:+ b.
Proof.
  intros Hb H. apply (f_equal String.length) in H. rewrite string_length_app in H.
  destruct b; [done|]. cbn in H. lia.
Qed.

Lemma prov_conso_neq a : prov_key a <> conso_key a.
Proof.
  unfold prov_key, conso_key. rewrite string_app_assoc. by apply app_neq_self.
Qed.

Lemma user_prov_neq u a : user_key u <> "prov:" +:+ a.
Proof. done. Qed.

Lemma db2_neq (m : gmap (Z * string) rval) k k' x :
  k <> k' -> <[(2, k) := x]> m !! (2, k') = m !! (2, k').
Proof. intros. apply lookup_insert_ne. congruence. Qed.

#[export] Hint Resolve prov_conso_neq user_prov_neq : broker.

(** * getCspInfoAndConso *)

(** The outcome as a function of database 2, on every branch. *)
Definition csp_outcome (v : view) (csp : option string) : outcome csp_info :=
  match db2 v (prov_key (js_str csp)) with
  | Some (VHash h) =>
      match db2 v (conso_key (js_str csp)) with
      | Some (VHash c) =>
          Resolved {| cspName := csp; fields := h; dataConso := c !! "data" |}
      | _ => Rejected "CSP consumption unknown"
      end
  | _ => Rejected "CSP not found"
  end.

Lemma wp_selecting n {A} (p : prog A) v Q :
  (0 <=? n) && (n <? 16) = true -> wp p (sel n v) Q -> wp (selecting n p) v Q.
Proof. intros Hn H. unfold selecting. cbn [wp]. apply wpc_select; [done|]. exact H. Qed.

(** [if (err) reject(err) else resolve(reply)]. *)
Lemma wp_settle_reply c v (Q : outcome reply -> view -> Prop) :
  det c = true ->
  Q (match (doc_step v c).2 with RErr e => Rejected e | r => Resolved r end)
    (doc_step v c).1 ->
  wp (settle_reply c) v Q.
Proof.
  intros Hd HQ. unfold settle_reply. cbn [wp]. apply wpc_det; [done|]. cbn [wpc].
  by destruct (doc_step v c).2.
Qed.

Lemma wp_getCspInfoAndConso csp v Q :
  Q (csp_outcome v csp) (sel 2 v) -> wp (getCspInfoAndConso csp) v Q.
Proof.
  intros HQ. unfold getCspInfoAndConso, getCSPInfos, getCSPConso.
  unfold csp_outcome, db2, prov_key, conso_key in HQ.
  apply wp_settle, wp_selecting, wp_settle_reply; [done..|].
  cbn [doc_step fst snd]. unfold at_key, here. cbn [selected data sel].
  destruct (data v !! (2, "prov:" +:+ js_str csp)) as [[s|h]|];
    cbn [as_object]; [done| |done].
  apply wp_settle, wp_selecting, wp_settle_reply; [done..|].
  cbn [doc_step fst snd]. unfold at_key, here. cbn [selected data sel js_str default].
  unfold default, id. rewrite <- string_app_assoc.
  by destruct (data v !! (2, "prov:" +:+ (js_str csp +:+ ":conso"))) as [[s|c]|].
Qed.

(** * Keys by prefix *)

Lemma has_prefix_app p s : has_prefix p (p +:+ s) = true.
Proof. unfold has_prefix. by rewrite drop_prefix_app. Qed.

Lemma has_prefix_iff p k : has_prefix p k = true <-> exists s, k = p +:+ s.
Proof.
  unfold has_prefix. split.
  - destruct (drop_prefix p k) as [r|] eqn:E; [|done]. intros _.
    exists r. by apply drop_prefix_Some.
  - intros [s ->]. by rewrite drop_prefix_app.
Qed.

Lemma turn_not_inherited c : has_prefix "turn/" c = true -> inherited c = false.
Proof.
  intros [x ->]%has_prefix_iff. apply bool_decide_eq_false.
  rewrite !elem_of_cons, elem_of_nil. by intuition.
Qed.

Lemma elem_of_keys v p k :
  k ∈ keys_with_prefix v p <-> has_prefix p k = true /\ is_Some (at_key v k).
Proof.
  unfold keys_with_prefix, at_key, here.
  rewrite list_elem_of_filter, list_elem_of_omap. apply and_iff_compat_l. split.
  - intros ([[db k'] x] & Hin & H). apply elem_of_map_to_list in Hin.
    destruct (Z.eqb_spec db (selected v)); simplify_eq. by exists x.
  - intros [x Hx]. exists (selected v, k, x). split; [by apply elem_of_map_to_list|].
    by rewrite Z.eqb_refl.
Qed.

Lemma NoDup_keys v p : NoDup (keys_with_prefix v p).
Proof.
  unfold keys_with_prefix. apply NoDup_filter.
  pose proof (NoDup_fst_map_to_list (data v)) as H.
  induction (map_to_list (data v)) as [|[[db k] x] l IH]; cbn; [constructor|].
  cbn in H. apply NoDup_cons in H as [Hn H]. specialize (IH H).
  destruct (Z.eqb_spec db (selected v)) as [->|]; [|done].
  apply NoDup_cons. split; [|done].
  rewrite list_elem_of_omap. intros ([[db' k'] x'] & Hin & E).
  destruct (Z.eqb_spec db' (selected v)); simplify_eq. apply Hn.
  rewrite list_elem_of_fmap. by exists (selected v, k, x').
Qed.

(** The listing depends only on which keys of the database have the prefix. *)
Lemma keys_with_prefix_ext v v' p :
  (forall s, is_Some (at_key v (p +:+ s)) <-> is_Some (at_key v' (p +:+ s))) ->
  keys_with_prefix v p ≡ₚ keys_with_prefix v' p.
Proof.
  intros H. apply NoDup_Permutation; [apply NoDup_keys..|].
  intros k. rewrite !elem_of_keys, !has_prefix_iff.
  split; intros [[s ->] Hk]; (split; [by eexists|by apply H]).
Qed.

(** * getTurnServers *)

Definition turn_keys (v : view) : list string := keys_with_prefix (sel 2 v) "turnservers:".

Definition get_reply (v : view) (k : string) : reply := (doc_step v (GET k)).2.

Lemma wpc_gets v names Q :
  Q (map (get_reply v) names) v -> wpc v (map GET names) Q.
Proof.
  revert Q. induction names as [|k names IH]; intros Q HQ; cbn [map]; [exact HQ|].
  apply wpc_det; [done|]. apply IH, HQ.
Qed.

Definition turns_outcome (v : view) (names : list string) : outcome (list turn_server) :=
  match names with
  | [] => Rejected "No turn found"
  | _ => collect_turns names (map (get_reply (sel 2 v)) names) []
  end.

Lemma wp_getTurnServers v Q :
  (forall names, names ≡ₚ turn_keys v -> Q (turns_outcome v names) (sel 2 v)) ->
  wp getTurnServers v Q.
Proof.
  intros HQ. unfold getTurnServers. apply wp_selecting; [done|]. cbn [wp wpc].
  intros r v1 [-> (l & -> & Hl)]. cbn [on_reply].
  specialize (HQ l (Hl "turnservers:" eq_refl)).
  destruct l as [|k l]; [exact HQ|]. cbn [wp]. by apply wpc_gets.
Qed.

Lemma collect_turns_strings v names acc :
  (forall k, k ∈ names -> exists s, at_key v k = Some (VStr s)) ->
  exists l, map turnUrl l = names /\
    collect_turns names (map (get_reply v) names) acc = Resolved (acc ++ l).
Proof.
  revert acc. induction names as [|k names IH]; intros acc Hk; cbn [map collect_turns].
  - exists []. by rewrite app_nil_r.
  - destruct (Hk k) as [s Hs]; [left|].
    assert (get_reply v k = RBulk (Some s)) as -> by (unfold get_reply; cbn [doc_step snd]; by rewrite Hs).
    destruct (IH (acc ++ [{| turnUrl := k; turnStatus := RBulk (Some s) |}])) as (l & Hl & E).
    { intros k' Hk'. apply Hk. by right. }
    rewrite E.
    exists ({| turnUrl := k; turnStatus := RBulk (Some s) |} :: l). cbn.
    by rewrite Hl, <- app_assoc.
Qed.


(** * Registering a user *)

(** The view once a user is registered for a week. *)
Definition registered (v : view) (csp : option string) (u : string) : view :=
  View 2 (<[(2, user_key u) := VStr (js_str csp)]> (data v))
         (<[(2, user_key u) := TTLUSER]> (delete (2, user_key u) (ttls v))).

Lemma wpc_registerUser csp u v Q :
  (forall rs, Q rs (registered v csp u)) -> wpc v (registerUser_cmds csp u) Q.
Proof.
  intros HQ. unfold registerUser_cmds. do 2 redis_step.
  apply wpc_det; [done|]. cbn [doc_step]. unfold at_key, here.
  cbn [selected data ttls fst snd]. rewrite lookup_insert_eq. apply HQ.
Qed.

Lemma db2_registered v csp u k :
  k <> user_key u -> db2 (registered v csp u) k = db2 v k.
Proof. intros. unfold db2, registered. cbn. by apply db2_neq. Qed.

Lemma csp_outcome_registered v csp u c :
  csp_outcome (registered v c u) csp = csp_outcome v csp.
Proof. unfold csp_outcome. by rewrite !db2_registered. Qed.

Lemma turn_keys_registered v csp u : turn_keys (registered v csp u) ≡ₚ turn_keys v.
Proof.
  apply keys_with_prefix_ext. intros s. unfold at_key, here. cbn.
  by rewrite db2_neq.
Qed.

Lemma turns_outcome_registered v csp u names :
  names ≡ₚ turn_keys v ->
  turns_outcome (registered v csp u) names = turns_outcome v names.
Proof.
  intros Hn. unfold turns_outcome. destruct names as [|k names]; [done|]. f_equal.
  apply map_ext_in. intros k' Hk. apply list_elem_of_In in Hk.
  rewrite Hn in Hk. apply elem_of_keys in Hk as [[s ->]%has_prefix_iff _].
  unfold get_reply, doc_step, at_key, here. cbn. by rewrite db2_neq.
Qed.

(** * getAppropriateTurn *)

(** The admission decision, as a function of database 2 before the request. *)
Definition admission (MD5 : string -> string) (v : view) (csp client : option string)
    (iso : string) (rnd : num) (o : outcome (option string * string)) : Prop :=
  match csp_outcome v csp with
  | Resolved i =>
      if quota_exceeded i
      then o = Rejected "Unable to get a turn server : data consumption exceeded"
      else exists names, names ≡ₚ turn_keys v /\
             o = match turns_outcome v names with
                 | Resolved l => Resolved (pick_turn rnd l, client_id MD5 csp client iso)
                 | Rejected e => Rejected e
                 | Pending => Pending
                 | Crashed => Crashed
                 end
  | Rejected e => o = Rejected ("Unable to get a turn server : " +:+ e)
  | Pending | Crashed => False
  end.

Lemma sel_registered v csp u : sel 2 (registered v csp u) = registered v csp u.
Proof. done. Qed.

Lemma wp_getAppropriateTurn MD5 csp client iso rnd v Q :
  (forall o, admission MD5 v csp client iso rnd o ->
             Q o (registered v csp (client_id MD5 csp client iso))) ->
  wp (getAppropriateTurn MD5 csp client iso rnd) v Q.
Proof.
  intros HQ. unfold getAppropriateTurn, admission in *.
  set (u := client_id MD5 csp client iso) in *.
  apply wp_also, wpc_registerUser. intros _. do 2 redis_step.
  apply wp_getCspInfoAndConso. rewrite csp_outcome_registered, sel_registered.
  destruct (csp_outcome v csp) as [i|e| |] eqn:Ho; cbn [wp].
  - unfold check_quota. destruct (quota_exceeded i); cbn [wp]; [by apply HQ|].
    redis_step. apply wp_getTurnServers. intros names Hn.
    rewrite sel_registered. rewrite turn_keys_registered in Hn.
    rewrite turns_outcome_registered by done.
    specialize (HQ _ (ex_intro _ names (conj Hn eq_refl))).
    destruct (turns_outcome v names); exact HQ.
  - by apply HQ.
  - exfalso. unfold csp_outcome in Ho. repeat case_match; done.
  - exfalso. unfold csp_outcome in Ho. repeat case_match; done.
Qed.

(** * Provisioning *)

(** The two hashes [registerCSP] creates for a new CSP. *)
Definition new_prov (f : form_data) : hash :=
  <["conso" := conso_key (js_str (servicename f))]>
  (<["dataQuota" := num_to_string (mul (parseInt (js_str (qdata f))) asGB)]>
  (<["videoQuota" := num_to_string (mul (form_quota (video f)) asGB)]>
  {["audioQuota" := num_to_string (mul (form_quota (audio f)) asGB)]})).

Definition new_conso : hash := <["data" := "0"]> (<["video" := "0"]> {["audio" := "0"]}).

(** [HSETNX] at a key of the selected database. *)
Lemma wpc_hsetnx_new v k f x cs Q :
  at_key v k = None ->
  wpc (put v k (VHash {[f := x]})) cs (fun rs => Q (RInt 1 :: rs)) ->
  wpc v (HSETNX k f x :: cs) Q.
Proof. intros Hk H. apply wpc_det; [done|]. cbn [doc_step]. by rewrite Hk. Qed.

Lemma wpc_hsetnx_add v k f x h cs Q :
  at_key v k = Some (VHash h) -> h !! f = None ->
  wpc (put v k (VHash (<[f := x]> h))) cs (fun rs => Q (RInt 1 :: rs)) ->
  wpc v (HSETNX k f x :: cs) Q.
Proof. intros Hk Hf H. apply wpc_det; [done|]. cbn [doc_step]. by rewrite Hk, Hf. Qed.

Lemma wpc_hsetnx_keep v k f x h y cs Q :
  at_key v k = Some (VHash h) -> h !! f = Some y ->
  wpc v cs (fun rs => Q (RInt 0 :: rs)) -> wpc v (HSETNX k f x :: cs) Q.
Proof. intros Hk Hf H. apply wpc_det; [done|]. cbn [doc_step]. by rewrite Hk, Hf. Qed.

Lemma at_key_put v k x : at_key (put v k x) k = Some x.
Proof. unfold at_key, put, here. cbn. by rewrite lookup_insert_eq. Qed.

Lemma at_key_put_ne v k k' x : k <> k' -> at_key (put v k x) k' = at_key v k'.
Proof. intros. unfold at_key, put, here. cbn. rewrite lookup_insert_ne; congruence. Qed.

Lemma put_put v k x y : put (put v k x) k y = put v k y.
Proof. unfold put, here. cbn. by rewrite insert_insert_eq. Qed.

Lemma put_comm v k k' x y : k <> k' -> put (put v k x) k' y = put (put v k' y) k x.
Proof. intros. unfold put, here. cbn. rewrite insert_insert_ne; congruence. Qed.

Lemma wp_registerCSP_new f ttl v Q :
  let csp := js_str (servicename f) in
  db2 v (prov_key csp) = None -> db2 v (conso_key csp) = None ->
  Q (Resolved tt) (put (put (sel 2 v) (prov_key csp) (VHash (new_prov f)))
                     (conso_key csp) (VHash new_conso)) ->
  wp (registerCSP f ttl).2 v Q.
Proof.
  intros csp Hp Hc HQ. unfold registerCSP. cbn [snd].
  apply wp_selecting; [done|]. cbn [wp]. unfold registerCSP_cmds.
  fold csp. change ("prov:" +:+ csp) with (prov_key csp).
  replace (prov_key csp +:+ ":conso") with (conso_key csp)
    by (unfold prov_key, conso_key; by rewrite <- string_app_assoc).
  apply wpc_hsetnx_new; [done|].
  do 3 (eapply wpc_hsetnx_add; [apply at_key_put|done|]; rewrite put_put).
  apply wpc_hsetnx_new; [by rewrite at_key_put_ne by apply prov_conso_neq|].
  do 2 (eapply wpc_hsetnx_add; [apply at_key_put|done|]; rewrite put_put).
  exact HQ.
Qed.

(** A CSP that has all its fields: registering it again changes nothing. *)
Definition complete_prov (h : hash) : Prop :=
  is_Some (h !! "audioQuota") /\ is_Some (h !! "videoQuota") /\
  is_Some (h !! "dataQuota") /\ is_Some (h !! "conso").
Definition complete_conso (h : hash) : Prop :=
  is_Some (h !! "audio") /\ is_Some (h !! "video") /\ is_Some (h !! "data").

Lemma wp_registerCSP_known f ttl v h c Q :
  let csp := js_str (servicename f) in
  db2 v (prov_key csp) = Some (VHash h) -> complete_prov h ->
  db2 v (conso_key csp) = Some (VHash c) -> complete_conso c ->
  Q (Resolved tt) (sel 2 v) -> wp (registerCSP f ttl).2 v Q.
Proof.
  intros csp Hp ([? ?] & [? ?] & [? ?] & [? ?]) Hc ([? ?] & [? ?] & [? ?]) HQ.
  unfold registerCSP. cbn [snd].
  apply wp_selecting; [done|]. cbn [wp]. unfold registerCSP_cmds.
  fold csp. change ("prov:" +:+ csp) with (prov_key csp).
  replace (prov_key csp +:+ ":conso") with (conso_key csp)
    by (unfold prov_key, conso_key; by rewrite <- string_app_assoc).
  do 7 (eapply wpc_hsetnx_keep; [eassumption|eassumption|]).
  exact HQ.
Qed.

(** * Consumption *)

Lemma int64_dec_bounds z : in_int64 z = true <-> - 2 ^ 63 <= z < 2 ^ 63.
Proof. unfold in_int64. rewrite andb_true_iff, Z.leb_le, Z.ltb_lt. done. Qed.

Lemma redis_int_dec z : 0 <= z < 2 ^ 63 -> redis_int (dec z) = Some z.
Proof.
  intros Hz. unfold redis_int. rewrite dec_nonneg by lia.
  rewrite take_sign_plain by apply digits_plain.
  destruct (scan_digits_digits 10 z 0 0 "" ltac:(lia) ltac:(lia)) as (l & Hl & E).
  rewrite string_app_nil_r in E. rewrite E. cbn [scan_digits].
  rewrite Z.mul_0_l, Z.add_0_l, dec_nonneg, String.eqb_refl by lia.
  by rewrite (proj2 (int64_dec_bounds z)) by lia.
Qed.

(** The hash of a key of database 2; an absent key counts as the empty hash. *)
Definition hash_of (o : option rval) : option hash :=
  match o with None => Some ∅ | Some (VHash h) => Some h | Some (VStr _) => None end.

(** The CSP a user's traffic is charged to: "null" when the user is unknown. *)
Definition charged (v : view) (u : string) : option string :=
  match db2 v (user_key u) with
  | None => Some "null" | Some (VStr c) => Some c | Some (VHash _) => None
  end.

Lemma wp_addCSPConso_charge v u b n c h d Q :
  charged v u = Some c ->
  hash_of (db2 v (conso_key c)) = Some h ->
  redis_int b = Some n -> redis_int (default "0" (h !! "data")) = Some d ->
  Q (if in_int64 (d + n) then Resolved (RInt (d + n))
     else Rejected "ERR increment or decrement would overflow")
    (if in_int64 (d + n)
     then put (sel 2 v) (conso_key c) (VHash (<["data" := dec (d + n)]> h)) else sel 2 v) ->
  wp (addCSPConso (Some {| user := u; sent_bytes := b |})) v Q.
Proof.
  intros Hc Hh Hn Hd HQ. unfold addCSPConso.
  apply wp_selecting; [done|]. cbn [wp]. apply wpc_det; [done|]. cbn [doc_step fst snd wpc].
  unfold charged, db2, user_key in Hc. unfold at_key, here. cbn [sel selected data user].
  assert (K : wp (settle_reply (HINCRBY (conso_key c) "data" b)) (sel 2 v) Q).
  { apply wp_settle_reply; [done|]. unfold hash_of, db2 in Hh. cbn [doc_step].
    change (at_key (sel 2 v) (conso_key c)) with (data v !! (2, conso_key c)).
    destruct (data v !! (2, conso_key c)) as [[|h']|]; simplify_eq; rewrite Hn, Hd;
      destruct (in_int64 (d + n)); exact HQ. }
  destruct (data v !! (2, "users:" +:+ u)) as [[s|h']|]; simplify_eq; exact K.
Qed.

(** * Deleting a CSP *)

Definition histo (k : string) : string := "histo" +:+ k.

(** [RENAME] seen from database 2. *)
Definition renamed (v v' : view) (k k' : string) : Prop :=
  selected v' = 2 /\ forall j, db2 v' j =
    if decide (j = k') then db2 v k else if decide (j = k) then None else db2 v j.

Lemma wpc_rename v k k' cs (Q : list reply -> view -> Prop) :
  selected v = 2 -> k <> k' ->
  match db2 v k with
  | None => wpc v cs (fun rs => Q (RErr "ERR no such key" :: rs))
  | Some _ => forall v', renamed v v' k k' -> wpc v' cs (fun rs => Q (ROk :: rs))
  end -> wpc v (RENAME k k' :: cs) Q.
Proof.
  intros Hs Hk H. apply wpc_det; [done|]. cbn [doc_step].
  unfold at_key, here. rewrite Hs. unfold db2 in H.
  destruct (data v !! (2, k)) as [x|] eqn:E; [|exact H].
  apply H. split; [by cbn|]. intros j. unfold db2. cbn. rewrite E.
  destruct (decide (j = k')) as [->|Hj]; [by rewrite lookup_insert_eq|].
  rewrite lookup_insert_ne by congruence.
  destruct (decide (j = k)) as [->|Hj']; [by rewrite lookup_delete_eq|].
  by rewrite lookup_delete_ne by congruence.
Qed.

(** The entry of [k], if there is one, moved to [k']. *)
Definition moved (k k' : string) (f : string -> option rval) (j : string) : option rval :=
  match f k with
  | Some x => if decide (j = k') then Some x else if decide (j = k) then None else f j
  | None => f j
  end.

Lemma moved_other k k' f j : j <> k -> j <> k' -> moved k k' f j = f j.
Proof. intros H1 H2. unfold moved. destruct (f k); [|done]. by rewrite !decide_False. Qed.

Lemma moved_there k k' f : moved k k' f k' = if f k then f k else f k'.
Proof. unfold moved. destruct (f k); [|done]. by rewrite decide_True. Qed.

Lemma moved_gone k k' f : k <> k' -> moved k k' f k = None.
Proof. intros H. unfold moved. destruct (f k) eqn:E; [|done]. by rewrite decide_False, decide_True. Qed.

Lemma moved_none k k' f j : f k = None -> moved k k' f j = f j.
Proof. intros H. unfold moved. by rewrite H. Qed.

Lemma moved_ext k k' f g j : (forall i, f i = g i) -> moved k k' f j = moved k k' g j.
Proof. intros H. unfold moved. by rewrite !H. Qed.

Lemma renamed_moved v v' k k' j :
  is_Some (db2 v k) -> renamed v v' k k' -> db2 v' j = moved k k' (db2 v) j.
Proof. intros [x Hx] [_ H]. rewrite H. unfold moved. by rewrite Hx. Qed.

(** What deletion leaves: each of the two entries that is there moved to its "histo" key. *)
Definition deleted (v v' : view) (k : string) : Prop :=
  forall j, db2 v' j =
    moved k (histo k) (moved (k +:+ ":conso") (histo (k +:+ ":conso")) (db2 v)) j.

Lemma key_neqs k :
  k <> k +:+ ":conso" /\ histo k <> histo (k +:+ ":conso") /\
  (has_prefix "prov:" k = true -> k <> histo k /\ k <> histo (k +:+ ":conso") /\
     k +:+ ":conso" <> histo k /\ k +:+ ":conso" <> histo (k +:+ ":conso")).
Proof.
  split; [by apply app_neq_self|]. split.
  - unfold histo. rewrite string_app_assoc. by apply app_neq_self.
  - intros [s ->]%has_prefix_iff. done.
Qed.

Lemma wp_deleteCSP v k Q :
  has_prefix "prov:" k = true ->
  (forall v', deleted v v' k ->
     Q (if db2 v k then Resolved 1 else Rejected "ERR no such key") v') ->
  wp (deleteCSP k) v Q.
Proof.
  intros Hp HQ. unfold deleteCSP.
  destruct (key_neqs k) as (N1 & N2 & N3). specialize (N3 Hp) as (N4 & N5 & N6 & N7).
  cbn [wp]. apply wpc_select; [done|].
  change ("histo" +:+ k +:+ ":conso") with (histo (k +:+ ":conso")).
  change ("histo" +:+ k) with (histo k).
  change {| selected := 2; data := data v; ttls := ttls v |} with (sel 2 v).
  change (db2 v) with (db2 (sel 2 v)) in HQ. unfold deleted in *. change (db2 v) with (db2 (sel 2 v)) in *.
  set (f := moved (k +:+ ":conso") (histo (k +:+ ":conso")) (db2 (sel 2 v))) in *.
  assert (Hf : f k = db2 (sel 2 v) k) by (by apply moved_other).
  apply wpc_rename; [done|done|].
  destruct (db2 (sel 2 v) (k +:+ ":conso")) as [y|] eqn:Ey.
  - intros v1 R1. assert (H1 : forall j, db2 v1 j = f j) by (intros j; by apply renamed_moved).
    apply wpc_rename; [apply R1|done|]. rewrite H1, Hf.
    destruct (db2 (sel 2 v) k) as [x|] eqn:Ex.
    + intros v2 R2. cbn. apply HQ. intros j.
      rewrite (renamed_moved v1 v2 k (histo k)) by (rewrite ?H1, ?Hf; done). by apply moved_ext.
    + cbn. apply HQ. intros j. by rewrite moved_none, H1 by (by rewrite Hf).
  - assert (H1 : forall j, f j = db2 (sel 2 v) j) by (intros j; by apply moved_none).
    apply wpc_rename; [done|done|]. destruct (db2 (sel 2 v) k) as [x|] eqn:Ex.
    + intros v2 R2. cbn. apply HQ. intros j.
      rewrite (renamed_moved (sel 2 v) v2 k (histo k)) by (rewrite ?Ex; done). by apply moved_ext.
    + cbn. apply HQ. intros j. by rewrite moved_none by (by rewrite Hf).
Qed.

(** * Listing the CSPs *)

Lemma conso_pattern_iff k :
  matches_pattern conso_pattern k = true <-> exists a b, k = a +:+ ":conso" +:+ b.
Proof.
  unfold matches_pattern.
  transitivity (exec conso_pattern k <> None); [by destruct (exec conso_pattern k)|].
  rewrite exec_iff. split.
  - intros (pre & s1 & s2 & caps & -> & M). unfold conso_pattern, seqs in M. cbn in M.
    inversion M as [| |? ? ? ? ? ? ? ? M1 M2| |]; subst. inversion M1; subst.
    inversion M2 as [| |? ? ? ? ? ? ? ? M3 M4| |]; subst. inversion M3; subst.
    exists (pre +:+ a). eexists. by rewrite <- string_app_assoc.
  - intros (a & b & ->). exists a, (":conso" +:+ b), b, ∅. split; [done|].
    unfold conso_pattern, seqs. cbn [foldr].
    eapply m_seq; [apply (m_star true dot ""); done|].
    eapply m_seq; [apply (m_lit ":conso" b)|]. apply (m_lit "" b).
Qed.

(** A key that passes the first filter passes the second. *)
Lemma conso_end_implies k :
  matches_pattern conso_end_pattern k = true -> matches_pattern conso_pattern k = true.
Proof.
  intros H. apply conso_pattern_iff. unfold matches_pattern in H.
  assert (E : exec conso_end_pattern k <> None) by (by destruct (exec conso_end_pattern k)).
  apply exec_iff in E as (pre & s1 & s2 & caps & -> & M).
  unfold conso_end_pattern, seqs in M. cbn in M.
  inversion M as [| |? ? ? ? ? ? ? ? M1 M2| |]; subst. inversion M1; subst.
  inversion M2 as [| |? ? ? ? ? ? ? ? M3 M4| |]; subst. inversion M3; subst.
  exists (pre +:+ a). eexists. by rewrite <- string_app_assoc.
Qed.

Lemma wanted_all names :
  filter (fun k => matches_pattern conso_end_pattern k = false) (prov_keys names)
    = prov_keys names.
Proof.
  unfold prov_keys. induction names as [|k names IH]; [done|].
  rewrite filter_cons. case_decide as Hk; [|done]. rewrite filter_cons, IH.
  rewrite decide_True; [done|].
  apply not_true_is_false. intros H. apply conso_end_implies in H. congruence.
Qed.

Definition hgetall_reply (v : view) (k : string) : reply := (doc_step v (HGETALL k)).2.

Lemma wpc_hgetalls v names Q :
  Q (map (hgetall_reply v) names) v -> wpc v (map HGETALL names) Q.
Proof.
  revert Q. induction names as [|k names IH]; intros Q HQ; cbn [map]; [exact HQ|].
  apply wpc_det; [done|]. apply IH, HQ.
Qed.

(** Entry of the listing for one key. *)
Definition csp_entry (v : view) (k : string) : option (hash * string) :=
  match db2 v k with Some (VHash h) => Some (h, k) | _ => None end.

Lemma hgetall_entry v k :
  selected v = 2 ->
  as_object (hgetall_reply v k) = fst <$> csp_entry v k.
Proof.
  intros Hs. unfold hgetall_reply, csp_entry. cbn [doc_step snd].
  unfold at_key, here. rewrite Hs. unfold db2. by destruct (data v !! (2, k)) as [[]|].
Qed.

Definition listing_outcome (v : view) (keys : list string) : outcome (list (hash * string)) :=
  match keys with
  | [] => Pending
  | _ => match mapM (csp_entry v) keys with Some l => Resolved l | None => Crashed end
  end.

Lemma collect_infos_spec v keys acc total :
  selected v = 2 -> keys <> [] -> total = (length acc + length keys)%nat ->
  collect_infos total keys (map (hgetall_reply v) keys) acc =
    match mapM (csp_entry v) keys with Some l => Resolved (acc ++ l) | None => Crashed end.
Proof.
  intros Hs. revert acc. induction keys as [|k keys IH]; intros acc Hne Ht; [done|].
  cbn [map collect_infos]. rewrite hgetall_entry by done. cbn [mapM].
  destruct (csp_entry v k) as [[h k']|] eqn:Ek; cbn; [|done].
  assert (k' = k) as ->.
  { unfold csp_entry in Ek. by destruct (db2 v k) as [[]|]; simplify_eq. }
  rewrite length_app. cbn [length]. subst total.
  destruct keys as [|k2 keys].
  - cbn. rewrite Nat.eqb_refl. done.
  - destruct (Nat.eqb_spec (length acc + 1) (length acc + length (k :: k2 :: keys))) as [E|E];
      [cbn in E; lia|].
    rewrite IH; [|done|rewrite length_app; cbn; lia].
    destruct (mapM (csp_entry v) (k2 :: keys)) as [l|]; cbn; [|done].
    by rewrite <- app_assoc.
Qed.

(** Text that does not contain ":conso". *)
Definition no_conso (s : string) : Prop := ~ exists a b, s = a +:+ ":conso" +:+ b.

Lemma wp_getAllCspInfo v Q :
  (forall names, names ≡ₚ keys_with_prefix (sel 2 v) "prov:" ->
     Q (listing_outcome v (prov_keys names)) (sel 2 v)) ->
  wp getAllCspInfo v Q.
Proof.
  intros HQ. unfold getAllCspInfo. cbn [wp].
  apply wpc_select; [done|]. intros r v1 [-> (l & -> & Hl)]. cbn.
  specialize (HQ l (Hl "prov:" eq_refl)). rewrite wanted_all.
  apply wpc_hgetalls. cbn [wp]. unfold listing_outcome in HQ.
  destruct (prov_keys l) as [|k keys]; [exact HQ|].
  rewrite (collect_infos_spec (sel 2 v)) by done. exact HQ.
Qed.

(** * Credentials *)

Lemma wp_getCredentials MD5 id rnd v Q :
  let pw := randomString 6 rnd in
  Q (Resolved (id, pw))
    (View 0 (<[(0, credentials_key (js_str id)) :=
                 VStr (MD5 (js_str id +:+ ":" +:+ REALM +:+ ":" +:+ pw))]> (data v))
            (delete (0, credentials_key (js_str id)) (ttls v))) ->
  wp (getCredentials MD5 id rnd) v Q.
Proof.
  intros pw HQ. unfold getCredentials, createTurnCredentials.
  apply wp_settle, wp_selecting; [done|]. apply wp_settle.
  apply wp_settle_reply; [done|]. exact HQ.
Qed.

(** * Changing quotas *)

Lemma wp_updateCSPQuotas k a x d v h Q :
  hash_of (db2 v k) = Some h ->
  Q (Resolved ROk)
    (put (sel 2 v) k (VHash (<["dataQuota" := js_str d]>
       (<["videoQuota" := js_str x]> (<["audioQuota" := js_str a]> h))))) ->
  wp (updateCSPQuotas (Some k) a x d) v Q.
Proof.
  intros Hh HQ. unfold updateCSPQuotas.
  apply wp_selecting; [done|]. apply wp_settle_reply; [done|].
  cbn [doc_step js_str default]. unfold default, id, at_key, here, sel. cbn [selected data].
  unfold hash_of, db2 in Hh.
  destruct (data v !! (2, k)) as [[|h']|]; simplify_eq; exact HQ.
Qed.

(** The only error a stored TURN key can give is that it is not a string. *)
Lemma collect_turns_error v names acc e :
  collect_turns names (map (get_reply v) names) acc = Rejected e -> RErr e = wrong_type.
Proof.
  revert acc. induction names as [|k names IH]; intros acc H; [done|].
  cbn [map collect_turns] in H.
  assert (D : exists r, get_reply v k = r /\ (r = wrong_type \/ exists o, r = RBulk o)).
  { eexists. split; [done|]. unfold get_reply. cbn [doc_step snd].
    destruct (at_key v k) as [[]|]; eauto. }
  destruct D as (r & E & [->|[o ->]]); rewrite E in H.
  - cbn in H. by injection H as <-.
  - by eapply IH.
Qed.

Lemma db2_put v k x j :
  selected v = 2 -> db2 (put v k x) j = if decide (j = k) then Some x else db2 v j.
Proof.
  intros Hs. unfold db2, put, here. rewrite Hs. cbn.
  destruct (decide (j = k)) as [->|]; [by rewrite lookup_insert_eq|].
  by rewrite lookup_insert_ne by congruence.
Qed.
