(* ===== verification/DaoProps.v ===== *)
(** Properties of the broker's data access object, for every Redis
    implementation that behaves as documented: admission, provisioning,
    accounting, deletion, listing and the subscription handlers. *)
From S2P Require Import Prelude JsNum JsString Regex Traffic Redis Async Dao DaoSpec.

(** * A database to evaluate on *)

Definition demo_view : view := {|
  selected := 0;
  data := <[(2, "prov:acme") := VHash (<["dataQuota" := "1000"]> {["conso" := "prov:acme:conso"]})]>
          (<[(2, "prov:acme:conso") := VHash (<["audio" := "0"]> {["data" := "900"]})]>
          (<[(2, "turnservers:10.0.0.1:3478") := VStr "1"]>
          (<[(2, "users:u1") := VStr "acme"]> ∅)));
  ttls := ∅;
|}.

Definition demo_prov_hash : hash := <["dataQuota" := "1000"]> {["conso" := "prov:acme:conso"]}.
Definition demo_conso_hash : hash := <["audio" := "0"]> {["data" := "900"]}.

Lemma demo_prov : db2 (view_of demo_view) (prov_key "acme") = Some (VHash demo_prov_hash).
Proof. by vm_compute. Qed.
Lemma demo_conso : db2 (view_of demo_view) (conso_key "acme") = Some (VHash demo_conso_hash).
Proof. by vm_compute. Qed.
Lemma demo_user : db2 (view_of demo_view) (user_key "u1") = Some (VStr "acme").
Proof. by vm_compute. Qed.
Lemma demo_absent k :
  k = "prov:new" \/ k = "prov:new:conso" \/ k = "users:ghost" \/ k = "prov:null:conso" ->
  db2 (view_of demo_view) k = None.
Proof. by intros [->|[->|[->| ->]]]; vm_compute. Qed.

Definition demo_md5 (s : string) : string := "h" +:+ s.
Definition demo_rnd : num := Fin (2 ^ 1073).

(** * Admission *)

Section admission_lemmas.
(** A CSP with a quota and a consumption, in decimal. *)
Definition provisioned (v : view) (csp : string) (q d : Z) : Prop :=
  exists h c : hash, db2 v (prov_key csp) = Some (VHash h) /\ h !! "dataQuota" = Some (dec q) /\
              db2 v (conso_key csp) = Some (VHash c) /\ c !! "data" = Some (dec d).

Lemma quota_exceeded_Z csp (h c : hash) q d :
  0 <= q -> 0 <= d -> h !! "dataQuota" = Some (dec q) -> c !! "data" = Some (dec d) ->
  quota_exceeded {| cspName := csp; fields := h; dataConso := c !! "data" |}
    = gtn (of_Z d) (of_Z q).
Proof.
  intros Hq Hd Eq Ed. unfold quota_exceeded, dataQuota. cbn [fields dataConso].
  rewrite Eq, Ed. cbn [js_number]. by rewrite !to_number_dec.
Qed.

Lemma csp_outcome_provisioned v csp q d :
  0 <= q -> 0 <= d -> provisioned v csp q d ->
  exists i, csp_outcome v (Some csp) = Resolved i /\ quota_exceeded i = gtn (of_Z d) (of_Z q).
Proof.
  intros Hq Hd (h & c & Hh & Eq & Hc & Ed). unfold csp_outcome. cbn [js_str default].
  unfold default, id. rewrite Hh, Hc. eexists. split; [done|]. by apply quota_exceeded_Z.
Qed.

(** The servers on offer: the TURN keys, all plain strings, at least one. *)
Definition servers_ok (v : view) : Prop :=
  turn_keys v <> [] /\ Z.of_nat (length (turn_keys v)) <= 2 ^ 53 /\
  forall k, k ∈ turn_keys v -> exists x, db2 v k = Some (VStr x).

Lemma pick_turn_in rnd l :
  random_value rnd -> l <> [] -> Z.of_nat (length l) <= 2 ^ 53 ->
  exists t, t ∈ l /\ pick_turn rnd l = Some (replace_first "turnservers:" "" (turnUrl t)).
Proof.
  intros Hr Hne Hlen. unfold pick_turn. rewrite length_map.
  assert (0 < Z.of_nat (length l)) by (destruct l; [done|cbn; lia]).
  pose proof (random_index (Z.of_nat (length l)) rnd ltac:(lia) Hr) as Hi.
  set (i := trunc_Z _) in *. clearbody i.
  destruct (Z.ltb_spec i 0); [lia|].
  destruct (lookup_lt_is_Some_2 l (Z.to_nat i)) as [t Ht]; [lia|].
  exists t. split; [by eapply list_elem_of_lookup_2|].
  change (map ?f l) with (f <$> l). by rewrite list_lookup_fmap, Ht.
Qed.

Lemma turns_outcome_ok v names :
  servers_ok v -> names ≡ₚ turn_keys v ->
  exists l, turns_outcome v names = Resolved l /\ map turnUrl l = names.
Proof.
  intros (Hne & _ & Hk) Hn. destruct names as [|k names]; [by apply Permutation_nil_l in Hn|].
  unfold turns_outcome.
  destruct (collect_turns_strings (sel 2 v) (k :: names) []) as (l & Hl & ->).
  { intros k' Hk'. apply Hk. by rewrite <- Hn. }
  by exists l.
Qed.
(** Only the TURN keys matter. *)
Lemma servers_ok_ext v v' :
  (forall k, has_prefix "turnservers:" k = true -> db2 v' k = db2 v k) ->
  servers_ok v -> servers_ok v'.
Proof.
  intros Hk (Hne & Hlen & Hstr).
  assert (Hkeys : turn_keys v' ≡ₚ turn_keys v).
  { apply keys_with_prefix_ext. intros x.
    change (is_Some (db2 v' ("turnservers:" +:+ x)) <-> is_Some (db2 v ("turnservers:" +:+ x))).
    by rewrite Hk by apply has_prefix_app. }
  split_and!.
  - intros E. rewrite E in Hkeys. by apply Permutation_nil_l in Hkeys.
  - by rewrite Hkeys.
  - intros k Hin. rewrite Hkeys in Hin. destruct (Hstr k Hin) as [x Hx].
    apply elem_of_keys in Hin as [Hpre _]. exists x. by rewrite Hk.
Qed.

(** The decision for a provisioned CSP with exact integers. *)
Lemma admission_gate MD5 csp client iso rnd q d v o :
  0 <= q <= 2 ^ 53 -> 0 <= d <= 2 ^ 53 -> random_value rnd ->
  provisioned v csp q d -> servers_ok v ->
  admission MD5 v (Some csp) client iso rnd o ->
  if q <? d
  then o = Rejected "Unable to get a turn server : data consumption exceeded"
  else exists url x,
    o = Resolved (Some url, client_id MD5 (Some csp) client iso) /\
    db2 v ("turnservers:" +:+ url) = Some (VStr x).
Proof.
  intros Hq Hd Hr Hp Hs Ha. unfold admission in Ha.
  destruct (csp_outcome_provisioned _ _ q d ltac:(lia) ltac:(lia) Hp) as (i & Hi & E).
  rewrite Hi, E, gtn_of_Z_exact in Ha by lia.
  destruct (q <? d); [exact Ha|]. destruct Ha as (names & Hn & ->).
  destruct (turns_outcome_ok _ _ Hs Hn) as (l & -> & Hl).
  destruct Hs as (Hne & Hlen & Hk).
  assert (Hll : length l = length (turn_keys v)) by (by rewrite <- Hn, <- Hl, length_map).
  destruct (pick_turn_in rnd l Hr) as (t & Ht & ->).
  { intros ->. cbn in Hll. by destruct (turn_keys v). }
  { by rewrite Hll. }
  assert (Hin : turnUrl t ∈ turn_keys v).
  { rewrite <- Hn, <- Hl. by apply (list_elem_of_fmap_2 turnUrl). }
  destruct (Hk _ Hin) as [x Hx].
  apply elem_of_keys in Hin as [[url Hurl]%has_prefix_iff _].
  rewrite Hurl, replace_first_app in *. by exists url, x.
Qed.
End admission_lemmas.

(** C1. [getAppropriateTurn] implements the admission decision: on every branch
    (unknown CSP, missing consumption, quota exceeded, no TURN server, success)
    its outcome is the one computed from the stored data, and whatever the
    outcome the only change to the data is the registration of the new client
    id for a week. *)
Theorem getAppropriateTurn_refines `{RedisLaws St} MD5 csp client iso rnd (s : St) :
  let r := run (getAppropriateTurn MD5 csp client iso rnd) s in
  admission MD5 (view_of s) csp client iso rnd r.1 /\
  view_of r.2 = registered (view_of s) csp (client_id MD5 csp client iso).
Proof.
  cbv zeta. by_wp. by apply wp_getAppropriateTurn.
Qed.

Lemma getAppropriateTurn_refines_witness :
  admission demo_md5 demo_view (Some "acme") (Some "c") "t" demo_rnd
    (Resolved (Some "10.0.0.1:3478", "hacme:ct")).
Proof.
  pose proof (getAppropriateTurn_refines (St := view) demo_md5 (Some "acme") (Some "c") "t"
    demo_rnd demo_view) as [H _].
  vm_compute (run _ _) in H. exact H.
Defined.

(** C2. The quota gate.  For a CSP provisioned with an integer quota and
    consumption (exact as Numbers), a request is refused exactly when the
    consumption is above the quota; otherwise the client gets its id and the
    address of one of the registered TURN servers. *)
Theorem quota_gate `{RedisLaws St} MD5 csp client iso rnd q d (s : St) :
  0 <= q <= 2 ^ 53 -> 0 <= d <= 2 ^ 53 -> random_value rnd ->
  provisioned (view_of s) csp q d -> servers_ok (view_of s) ->
  let o := (run (getAppropriateTurn MD5 (Some csp) client iso rnd) s).1 in
  if q <? d
  then o = Rejected "Unable to get a turn server : data consumption exceeded"
  else exists url x,
    o = Resolved (Some url, client_id MD5 (Some csp) client iso) /\
    db2 (view_of s) ("turnservers:" +:+ url) = Some (VStr x).
Proof.
  intros Hq Hd Hr Hp Hs o. subst o.
  by_wp. apply wp_getAppropriateTurn. intros o Ha.
  exact (admission_gate MD5 csp client iso rnd q d (view_of s) o Hq Hd Hr Hp Hs Ha).
Qed.

Lemma demo_provisioned : provisioned (view_of demo_view) "acme" 1000 900.
Proof.
  exists demo_prov_hash, demo_conso_hash. rewrite demo_prov, demo_conso.
  repeat split; by vm_compute.
Qed.

Lemma demo_servers : servers_ok (view_of demo_view).
Proof.
  assert (turn_keys demo_view = ["turnservers:10.0.0.1:3478"]) as E by (by vm_compute).
  change (servers_ok demo_view). unfold servers_ok. rewrite E.
  split; [done|]. split; [by vm_compute|].
  intros k ->%list_elem_of_singleton. exists "1". by vm_compute.
Qed.

Lemma demo_random : random_value demo_rnd.
Proof. exists (2 ^ 1073). split; [done|]. split; by vm_compute. Qed.

Lemma quota_gate_witness :
  exists url x,
    (run (getAppropriateTurn demo_md5 (Some "acme") (Some "c") "t" demo_rnd) demo_view).1
      = Resolved (Some url, client_id demo_md5 (Some "acme") (Some "c") "t") /\
    db2 demo_view ("turnservers:" +:+ url) = Some (VStr x).
Proof.
  exact (quota_gate (St := view) demo_md5 "acme" (Some "c") "t" demo_rnd 1000 900 demo_view
    ltac:(lia) ltac:(lia) demo_random demo_provisioned demo_servers).
Defined.

(** * Provisioning *)

Lemma asGB_value : asGB = of_Z (2 ^ 30).
Proof. by vm_compute. Qed.

(** The text stored for a quota of [n] gigabytes. *)
Lemma quota_text n :
  0 <= n < 2 ^ 23 -> num_to_string (mul (parseInt (dec n)) asGB) = dec (n * 2 ^ 30).
Proof.
  intros Hn. rewrite parseInt_dec, asGB_value, mul_of_Z by lia.
  by rewrite num_to_string_of_Z by lia.
Qed.

(** C3. Provisioning.  Registering a new CSP with a data quota of [n] gigabytes
    stores the quota in bytes and a zero consumption, and touches no other key;
    whatever is submitted for the same name afterwards changes nothing: the
    first registration wins. *)
Theorem registerCSP_first_wins `{RedisLaws St} csp a x n f' ttl (s : St) :
  0 <= n < 2 ^ 23 -> servicename f' = Some csp ->
  db2 (view_of s) (prov_key csp) = None -> db2 (view_of s) (conso_key csp) = None ->
  let f := {| servicename := Some csp; audio := a; video := x; qdata := Some (dec n) |} in
  let s1 := (run (registerCSP f ttl).2 s).2 in
  let s2 := (run (registerCSP f' ttl).2 s1).2 in
  provisioned (view_of s1) csp (n * 2 ^ 30) 0 /\
  (forall k, k <> prov_key csp -> k <> conso_key csp ->
             db2 (view_of s1) k = db2 (view_of s) k) /\
  view_of s2 = view_of s1.
Proof.
  intros Hn Hf' Hp Hc f s1 s2.
  set (v1 := put (put (sel 2 (view_of s)) (prov_key csp) (VHash (new_prov f)))
                 (conso_key csp) (VHash new_conso)).
  assert (E1 : view_of s1 = v1).
  { subst s1. by_wp. by apply wp_registerCSP_new. }
  assert (Ep : db2 v1 (prov_key csp) = Some (VHash (new_prov f))).
  { unfold v1. rewrite !db2_put by done.
    by rewrite decide_False, decide_True by auto with broker. }
  assert (Ec : db2 v1 (conso_key csp) = Some (VHash new_conso)).
  { unfold v1. rewrite !db2_put by done. by rewrite decide_True. }
  split; [|split].
  - rewrite E1. exists (new_prov f), new_conso. rewrite Ep, Ec. unfold new_prov, f.
    cbn [qdata servicename audio video js_str default]. unfold default, id.
    rewrite quota_text by done. by split_and!; simplify_map_eq.
  - intros k Hk1 Hk2. rewrite E1. unfold v1. rewrite !db2_put by done.
    by rewrite !decide_False by done.
  - subst s2. rewrite <- E1 in Ep, Ec. by_wp.
    eapply wp_registerCSP_known; rewrite ?Hf'; cbn [js_str default]; unfold default, id.
    + exact Ep.
    + unfold complete_prov, new_prov. split_and!; simplify_map_eq; eauto.
    + exact Ec.
    + unfold complete_conso, new_conso. split_and!; simplify_map_eq; eauto.
    + rewrite E1. done.
Qed.

Lemma registerCSP_first_wins_witness :
  let f := {| servicename := Some "new"; audio := None; video := None; qdata := Some "5" |} in
  let f' := {| servicename := Some "new"; audio := Some "1"; video := None; qdata := Some "7" |} in
  let s1 := (run (registerCSP f 3200).2 demo_view).2 in
  provisioned s1 "new" 5368709120 0 /\ (run (registerCSP f' 3200).2 s1).2 = s1.
Proof.
  pose proof (registerCSP_first_wins (St := view) "new" None None 5
    {| servicename := Some "new"; audio := Some "1"; video := None; qdata := Some "7" |}
    3200 demo_view ltac:(lia) eq_refl eq_refl eq_refl) as (H1 & _ & H2).
  split; [exact H1|exact H2].
Defined.

(** A quota that is not a number is no quota.  A CSP registered without a
    readable data quota gets the quota text "NaN"; in every later state where
    that field stands, whatever has been consumed, no request for the CSP is
    refused for exceeding its quota. *)
Theorem nan_quota_never_blocks `{RedisLaws St} MD5 f ttl client iso rnd (s s2 : St) :
  let csp := js_str (servicename f) in
  parseInt (js_str (qdata f)) = NaN ->
  db2 (view_of s) (prov_key csp) = None -> db2 (view_of s) (conso_key csp) = None ->
  let s1 := (run (registerCSP f ttl).2 s).2 in
  exists h, db2 (view_of s1) (prov_key csp) = Some (VHash h) /\
    h !! "dataQuota" = Some "NaN" /\
    forall h2, db2 (view_of s2) (prov_key csp) = Some (VHash h2) ->
      h2 !! "dataQuota" = h !! "dataQuota" ->
      (run (getAppropriateTurn MD5 (servicename f) client iso rnd) s2).1 <>
        Rejected "Unable to get a turn server : data consumption exceeded".
Proof.
  intros csp Hq Hp Hc s1. exists (new_prov f).
  assert (Eq : new_prov f !! "dataQuota" = Some "NaN").
  { unfold new_prov. rewrite Hq. by simplify_map_eq. }
  split; [|split; [done|]].
  - subst s1. by_wp. apply wp_registerCSP_new; [done|done|].
    rewrite !db2_put by done.
    by rewrite decide_False, decide_True by auto with broker.
  - intros h2 Hh2 E2. by_wp. apply wp_getAppropriateTurn. intros o Ha Ho.
    unfold admission, csp_outcome in Ha. fold csp in Ha. rewrite Hh2 in Ha.
    destruct (db2 (view_of s2) (conso_key csp)) as [[|c]|]; try (by rewrite Ho in Ha).
    unfold quota_exceeded, dataQuota in Ha. cbn [fields dataConso] in Ha.
    rewrite E2, Eq in Ha. change (js_number (Some "NaN")) with NaN in Ha.
    assert (Hg : forall x, gtn x NaN = false) by (by intros []).
    rewrite Hg in Ha. destruct Ha as (names & _ & ->).
    unfold turns_outcome in Ho. destruct names as [|k names]; [done|].
    destruct (collect_turns _ _ _) eqn:Ec; simplify_eq. by apply collect_turns_error in Ec.
Qed.

Lemma nan_quota_never_blocks_witness :
  let f := {| servicename := Some "new"; audio := None; video := None; qdata := Some "lots" |} in
  exists h, db2 (run (registerCSP f 3200).2 demo_view).2 (prov_key "new") = Some (VHash h) /\
    h !! "dataQuota" = Some "NaN".
Proof.
  destruct (nan_quota_never_blocks (St := view) demo_md5
    {| servicename := Some "new"; audio := None; video := None; qdata := Some "lots" |}
    3200 (Some "c") "t" demo_rnd demo_view demo_view
    ltac:(by vm_compute) (demo_absent _ (or_introl eq_refl))
    (demo_absent _ (or_intror (or_introl eq_refl))))
    as (h & H1 & H2 & _).
  exists h. split; [exact H1|exact H2].
Defined.

(** * Accounting *)

(** One traffic report as coturn publishes it. *)
Record report := {
  rcvp : Z; rcvb : Z; sentp : Z; sentb : Z; alloc : string;
}.

Definition report_ok (r : report) : Prop :=
  0 <= rcvp r /\ 0 <= rcvb r /\ 0 <= sentp r /\ 0 <= sentb r /\
  str_all plain_digit (alloc r) = true.

Definition total_sent (l : list report) : Z := foldr (fun r n => sentb r + n) 0 l.

Section messages.
Context `{Redis St}.

(** The ['message'] events handled one after the other. *)
Fixpoint handle_messages (s : St) (msgs : list (string * string)) : St :=
  match msgs with
  | [] => s
  | (ch, m) :: msgs' => handle_messages (run (on_message ch m) s).2 msgs'
  end.
End messages.

Definition published (ip port realm usr : string) (r : report) : string * string :=
  (channel_name ip port realm usr (alloc r),
   traffic_message (rcvp r) (rcvb r) (sentp r) (sentb r)).

Lemma total_sent_nonneg l : Forall report_ok l -> 0 <= total_sent l.
Proof.
  unfold total_sent. induction 1 as [|r l (_ & _ & _ & ? & _) ? IH]; cbn; lia.
Qed.

(** The induction on the reports. *)
Lemma handle_reports `{RedisLaws St} ip port realm usr csp (h : hash) d l (s : St) :
  segment ip = true -> segment port = true -> segment realm = true -> segment usr = true ->
  db2 (view_of s) (user_key usr) = Some (VStr csp) ->
  db2 (view_of s) (conso_key csp) = Some (VHash h) -> h !! "data" = Some (dec d) ->
  0 <= d -> Forall report_ok l -> d + total_sent l < 2 ^ 63 ->
  let s' := handle_messages s (map (published ip port realm usr) l) in
  db2 (view_of s') (conso_key csp) = Some (VHash (<["data" := dec (d + total_sent l)]> h)) /\
  forall k, k <> conso_key csp -> db2 (view_of s') k = db2 (view_of s) k.
Proof.
  intros Hi Hpt Hr Hu Husr Hc Hd Hd0 Hl. revert s h d Husr Hc Hd Hd0.
  induction Hl as [|r l (H1 & H2 & H3 & H4 & H5) Hl IH]; intros s h d Husr Hc Hd Hd0 Hmax s'.
  - cbn. rewrite Z.add_0_r, insert_id by done. done.
  - pose proof (total_sent_nonneg l Hl).
    change (total_sent (r :: l)) with (sentb r + total_sent l) in *.
    set (s1 := (run (on_message (channel_name ip port realm usr (alloc r))
                 (traffic_message (rcvp r) (rcvb r) (sentp r) (sentb r))) s).2).
    assert (E1 : view_of s1 = put (sel 2 (view_of s)) (conso_key csp)
                   (VHash (<["data" := dec (d + sentb r)]> h))).
    { subst s1. by_wp. unfold on_message. rewrite parse_published by done.
      eapply (wp_addCSPConso_charge _ _ _ (sentb r) csp h d).
      - unfold charged. by rewrite Husr.
      - by rewrite Hc.
      - apply redis_int_dec. lia.
      - rewrite Hd. apply redis_int_dec. lia.
      - by rewrite (proj2 (int64_dec_bounds _)) by lia. }
    destruct (IH s1 (<["data" := dec (d + sentb r)]> h) (d + sentb r)) as [Ha Hb].
    + rewrite E1, db2_put, decide_False by done. done.
    + rewrite E1, db2_put, decide_True by done. done.
    + by rewrite lookup_insert_eq.
    + lia.
    + lia.
    + rewrite insert_insert_eq in Ha. rewrite Z.add_assoc.
      split; [exact Ha|]. intros k Hk.
      change (db2 (view_of (handle_messages s1 (map (published ip port realm usr) l))) k
              = db2 (view_of s) k).
      by rewrite Hb, E1, db2_put, decide_False by done.
Qed.

(** C4. Accounting is exact.  However the reports of a user's allocations are
    split, once they have been handled the consumption of the CSP the user was
    registered for has grown by exactly the bytes sent, and no other key of the
    database has changed. *)
Theorem accounting_total `{RedisLaws St} ip port realm usr csp (h : hash) d l (s : St) :
  segment ip = true -> segment port = true -> segment realm = true -> segment usr = true ->
  db2 (view_of s) (user_key usr) = Some (VStr csp) ->
  db2 (view_of s) (conso_key csp) = Some (VHash h) -> h !! "data" = Some (dec d) ->
  0 <= d -> Forall report_ok l -> d + total_sent l < 2 ^ 63 ->
  let s' := handle_messages s (map (published ip port realm usr) l) in
  db2 (view_of s') (conso_key csp) = Some (VHash (<["data" := dec (d + total_sent l)]> h)) /\
  forall k, k <> conso_key csp -> db2 (view_of s') k = db2 (view_of s) k.
Proof. intros. by apply handle_reports. Qed.

Definition demo_report (n : Z) : report :=
  {| rcvp := 1; rcvb := 2; sentp := 3; sentb := n; alloc := "000000000000000001" |}.

Lemma accounting_total_witness :
  let s' := handle_messages demo_view
    (map (published "10.0.0.1" "3478" "orange.com" "u1") [demo_report 40; demo_report 61]) in
  exists h, db2 s' (conso_key "acme") = Some (VHash h) /\ h !! "data" = Some "1001".
Proof.
  destruct (accounting_total (St := view) "10.0.0.1" "3478" "orange.com" "u1" "acme"
    demo_conso_hash 900 [demo_report 40; demo_report 61] demo_view
    eq_refl eq_refl eq_refl eq_refl demo_user demo_conso eq_refl ltac:(lia)
    ltac:(repeat constructor; cbn; lia) ltac:(cbn; lia)) as [H _].
  eexists. split; [exact H|]. by vm_compute.
Defined.

(** Traffic of an unknown user (never registered, or expired after a week)
    is not lost silently: it is charged to the key of a CSP called "null",
    which the broker creates, and to nothing else. *)
Theorem unknown_user_charged_to_null `{RedisLaws St} ip port realm usr r (s : St) :
  segment ip = true -> segment port = true -> segment realm = true -> segment usr = true ->
  report_ok r -> sentb r < 2 ^ 63 ->
  db2 (view_of s) (user_key usr) = None -> db2 (view_of s) "prov:null:conso" = None ->
  let '(ch, m) := published ip port realm usr r in
  view_of (run (on_message ch m) s).2
    = put (sel 2 (view_of s)) "prov:null:conso" (VHash {["data" := dec (sentb r)]}).
Proof.
  intros Hi Hpt Hr Hu (H1 & H2 & H3 & H4 & H5) Hb Husr Hn. cbn [published].
  by_wp. unfold on_message. rewrite parse_published by done.
  eapply (wp_addCSPConso_charge _ _ _ (sentb r) "null" ∅ 0).
  - unfold charged. by rewrite Husr.
  - change (conso_key "null") with "prov:null:conso". by rewrite Hn.
  - apply redis_int_dec. lia.
  - rewrite lookup_empty. by vm_compute.
  - by rewrite Z.add_0_l, (proj2 (int64_dec_bounds _)) by lia.
Qed.

Lemma unknown_user_charged_to_null_witness :
  let '(ch, m) := published "10.0.0.1" "3478" "orange.com" "ghost" (demo_report 7) in
  db2 (run (on_message ch m) demo_view).2 "prov:null:conso" = Some (VHash {["data" := "7"]}).
Proof.
  pose proof (unknown_user_charged_to_null (St := view) "10.0.0.1" "3478" "orange.com" "ghost"
    (demo_report 7) demo_view eq_refl eq_refl eq_refl eq_refl
    ltac:(repeat split; cbn; lia) ltac:(cbn; lia)
    ltac:(by vm_compute) ltac:(by vm_compute)) as E.
  cbn [published] in *. change (view_of ?x) with x in E. rewrite E. by vm_compute.
Defined.

(** * Deletion *)

(** C6. Deletion archives.  Deleting a provisioned CSP moves its quotas and its
    consumption, unchanged, to the "histo" keys and leaves every other key alone.
    Deleting a CSP that is not provisioned rejects with the error of Redis; it moves
    the consumption if there is one, and changes no data otherwise.  Either way the CSP
    is unknown from then on and its clients are refused. *)
Theorem deleteCSP_archives `{RedisLaws St} MD5 csp client iso rnd (s : St) :
  let v := view_of s in
  let r := run (deleteCSP (prov_key csp)) s in
  let v' := view_of r.2 in
  r.1 = (if db2 v (prov_key csp) then Resolved 1 else Rejected "ERR no such key") /\
  db2 v' (histo (prov_key csp)) =
    (if db2 v (prov_key csp) then db2 v (prov_key csp) else db2 v (histo (prov_key csp))) /\
  db2 v' (histo (conso_key csp)) =
    (if db2 v (conso_key csp) then db2 v (conso_key csp) else db2 v (histo (conso_key csp))) /\
  db2 v' (prov_key csp) = None /\ db2 v' (conso_key csp) = None /\
  (forall k, k <> prov_key csp -> k <> conso_key csp -> k <> histo (prov_key csp) ->
     k <> histo (conso_key csp) -> db2 v' k = db2 v k) /\
  (db2 v (prov_key csp) = None -> db2 v (conso_key csp) = None -> forall k, db2 v' k = db2 v k) /\
  (run (getAppropriateTurn MD5 (Some csp) client iso rnd) r.2).1
    = Rejected "Unable to get a turn server : CSP not found".
Proof.
  intros v r v'.
  assert (Hk : prov_key csp +:+ ":conso" = conso_key csp).
  { unfold prov_key, conso_key. by rewrite <- string_app_assoc. }
  assert (D : r.1 = (if db2 v (prov_key csp) then Resolved 1 else Rejected "ERR no such key") /\
              deleted v v' (prov_key csp)).
  { subst v v' r. by_wp. by apply wp_deleteCSP; [apply has_prefix_app|]. }
  destruct D as [Hr D]. split; [done|]. unfold deleted, moved in D. rewrite Hk in D.
  destruct (key_neqs (prov_key csp)) as (N1 & N2 & N3).
  destruct (N3 (has_prefix_app _ _)) as (N4 & N5 & N6 & N7). rewrite Hk in *.
  assert (Gone : db2 v' (prov_key csp) = None).
  { rewrite D. destruct (db2 v (conso_key csp)); rewrite ?decide_False by done;
      (destruct (db2 v (prov_key csp)) eqn:Ex; [by rewrite decide_False, decide_True|done]). }
  assert (Moved : db2 v' (histo (prov_key csp)) =
    (if db2 v (prov_key csp) then db2 v (prov_key csp) else db2 v (histo (prov_key csp)))).
  { rewrite D. destruct (db2 v (conso_key csp)); rewrite ?decide_False by done;
      (destruct (db2 v (prov_key csp)); [by rewrite decide_True|done]). }
  split; [done|]. split; [|split; [done|]].
  { rewrite D. destruct (db2 v (conso_key csp)); rewrite ?(decide_True _ _ eq_refl), ?decide_False by done;
      (destruct (db2 v (prov_key csp)); by rewrite ?decide_False by done). }
  split; [|split; [|split]].
  - rewrite D. destruct (db2 v (conso_key csp)) eqn:Ey; rewrite ?decide_False by done;
      (destruct (db2 v (prov_key csp)); rewrite ?decide_False, ?decide_True by done; done).
  - intros k ????. rewrite D. destruct (db2 v (conso_key csp)); rewrite ?decide_False by done;
      (destruct (db2 v (prov_key csp)); by rewrite ?decide_False by done).
  - intros Hx Hy k. by rewrite D, Hy, Hx.
  - by_wp. apply wp_getAppropriateTurn. intros o Ha. unfold admission, csp_outcome in Ha.
    cbn [js_str default] in Ha. unfold default, id in Ha. fold v' in Ha. by rewrite Gone in Ha.
Qed.

Lemma deleteCSP_archives_witness :
  let r := run (deleteCSP "prov:acme") demo_view in
  r.1 = Resolved 1 /\ (run (deleteCSP "prov:ghost") demo_view).1 = Rejected "ERR no such key" /\
  (run (getAppropriateTurn demo_md5 (Some "acme") (Some "c") "t" demo_rnd) r.2).1
    = Rejected "Unable to get a turn server : CSP not found".
Proof.
  destruct (deleteCSP_archives (St := view) demo_md5 "acme" (Some "c") "t" demo_rnd demo_view)
    as (H1 & _ & _ & _ & _ & _ & _ & H2).
  destruct (deleteCSP_archives (St := view) demo_md5 "ghost" (Some "c") "t" demo_rnd demo_view)
    as (H3 & _).
  split; [|split; [|exact H2]].
  - etransitivity; [exact H1|]. by vm_compute.
  - etransitivity; [exact H3|]. by vm_compute.
Defined.

(** * Listing *)

(** C7. The dashboard listing.  It answers with exactly one entry, quotas and
    key, for every key "prov:..." that does not contain ":conso", in some
    order; with none it never answers; with such a key that is not a hash the
    process dies. *)
Theorem getAllCspInfo_lists `{RedisLaws St} (s : St) :
  exists keys : list string, NoDup keys /\
    (forall k, k ∈ keys <-> has_prefix "prov:" k = true /\ no_conso k /\
                            is_Some (db2 (view_of s) k)) /\
    (run getAllCspInfo s).1 =
      match keys with
      | [] => Pending
      | _ => match mapM (csp_entry (view_of s)) keys with
             | Some l => Resolved l | None => Crashed
             end
      end.
Proof.
  by_wp. apply wp_getAllCspInfo. intros names Hn. exists (prov_keys names).
  split; [|split].
  - apply NoDup_filter. rewrite Hn. apply NoDup_keys.
  - intros k. unfold prov_keys. rewrite list_elem_of_filter, Hn, elem_of_keys.
    unfold no_conso. rewrite <- conso_pattern_iff, <- not_true_iff_false.
    change (at_key (sel 2 (view_of s)) k) with (db2 (view_of s) k). tauto.
  - done.
Qed.

Lemma getAllCspInfo_lists_witness :
  exists keys : list string, "prov:acme" ∈ keys /\ ~ "prov:acme:conso" ∈ keys.
Proof.
  destruct (getAllCspInfo_lists (St := view) demo_view) as (keys & _ & Hk & _).
  exists keys. rewrite !Hk. split.
  - split; [done|]. split; [|eexists; by vm_compute].
    unfold no_conso. by rewrite <- conso_pattern_iff.
  - intros (_ & Hn & _). apply Hn. by exists "prov:acme", "".
Defined.

(** * From accounting to admission *)

(** The quota closes the loop.  A CSP with quota [q] whose consumption was
    [d]: after the traffic reports of one of its users have been handled, the
    next client is refused exactly when [d] plus the bytes sent is above [q]. *)
Theorem accounted_traffic_blocks `{RedisLaws St} MD5 client iso rnd ip port realm usr csp q d l
    (s : St) :
  segment ip = true -> segment port = true -> segment realm = true -> segment usr = true ->
  db2 (view_of s) (user_key usr) = Some (VStr csp) -> provisioned (view_of s) csp q d ->
  servers_ok (view_of s) -> random_value rnd ->
  0 <= q <= 2 ^ 53 -> 0 <= d -> Forall report_ok l -> d + total_sent l <= 2 ^ 53 ->
  let s' := handle_messages s (map (published ip port realm usr) l) in
  (run (getAppropriateTurn MD5 (Some csp) client iso rnd) s').1
    = Rejected "Unable to get a turn server : data consumption exceeded"
  <-> q < d + total_sent l.
Proof.
  intros Hi Hpt Hr Hu Husr (h & c & Hh & Eq & Hc & Ed) Hs Hrnd Hq Hd Hl Hmax s'.
  pose proof (total_sent_nonneg l Hl).
  destruct (handle_reports ip port realm usr csp c d l s) as [Ha Hb]; try done; [lia|].
  fold s' in Ha, Hb.
  assert (Hp' : provisioned (view_of s') csp q (d + total_sent l)).
  { exists h, (<["data" := dec (d + total_sent l)]> c). split_and!; [|done|done|].
    - by rewrite Hb by auto with broker.
    - by simplify_map_eq. }
  assert (Hs' : servers_ok (view_of s')).
  { apply (servers_ok_ext (view_of s)); [|done]. intros k [x ->]%has_prefix_iff. by apply Hb. }
  assert (G : forall o : outcome (option string * string),
    (if q <? d + total_sent l
     then o = Rejected "Unable to get a turn server : data consumption exceeded"
     else exists url x, o = Resolved (Some url, client_id MD5 (Some csp) client iso) /\
            db2 (view_of s') ("turnservers:" +:+ url) = Some (VStr x)) ->
    (o = Rejected "Unable to get a turn server : data consumption exceeded"
     <-> q < d + total_sent l)).
  { intros o. destruct (Z.ltb_spec q (d + total_sent l)); [done|].
    intros (url & x & -> & _). split; [done|lia]. }
  apply G. clear G. by_wp. apply wp_getAppropriateTurn. intros o Hadm.
  exact (admission_gate MD5 csp client iso rnd q (d + total_sent l) (view_of s') o
           Hq ltac:(lia) Hrnd Hp' Hs' Hadm).
Qed.

Lemma accounted_traffic_blocks_witness :
  let s' := handle_messages demo_view
    (map (published "10.0.0.1" "3478" "orange.com" "u1") [demo_report 40; demo_report 61]) in
  (run (getAppropriateTurn demo_md5 (Some "acme") (Some "c") "t" demo_rnd) s').1
    = Rejected "Unable to get a turn server : data consumption exceeded".
Proof.
  apply (accounted_traffic_blocks (St := view) demo_md5 (Some "c") "t" demo_rnd
    "10.0.0.1" "3478" "orange.com" "u1" "acme" 1000 900 [demo_report 40; demo_report 61] demo_view
    eq_refl eq_refl eq_refl eq_refl demo_user demo_provisioned demo_servers demo_random
    ltac:(lia) ltac:(lia) ltac:(repeat constructor; cbn; lia) ltac:(cbn; lia)).
  cbn. lia.
Defined.

(** * The subscription connection *)

Definition no_subscription : subscription := {| subscribers := ∅; subscribed := [] |}.

(** The ['pmessage'] events of a pattern, one per channel that publishes. *)
Definition handle_pmessages (pattern : string) (st : subscription) (channels : list string)
    : subscription :=
  foldl (fun st ch => on_pmessage st pattern ch) st channels.

Lemma on_pmessage_spec pattern ch st :
  has_prefix "turn/" ch = true ->
  NoDup (subscribed st) -> (forall c, c ∈ subscribed st <-> c ∈ subscribers st) ->
  let st' := on_pmessage st pattern ch in
  NoDup (subscribed st') /\ (forall c, c ∈ subscribed st' <-> c ∈ subscribers st') /\
  (forall c, c ∈ subscribed st' <-> c ∈ subscribed st \/ c = ch).
Proof.
  intros Hch Hnd Heq. unfold on_pmessage. rewrite turn_not_inherited by done. cbn [orb].
  case_bool_decide as Hd; cbn.
  - split_and!; try done. intros c. split; [by left|]. intros [| ->]; [done|]. by apply Heq.
  - split_and!.
    + apply NoDup_app. split_and!; [done| |apply NoDup_singleton].
      intros c Hc. rewrite list_elem_of_singleton. intros ->. by apply Hd, Heq.
    + intros c. rewrite elem_of_app, list_elem_of_singleton, Heq. set_solver.
    + intros c. by rewrite elem_of_app, list_elem_of_singleton.
Qed.

Lemma handle_pmessages_spec pattern channels st :
  Forall (fun c => has_prefix "turn/" c = true) channels ->
  NoDup (subscribed st) -> (forall c, c ∈ subscribed st <-> c ∈ subscribers st) ->
  let st' := handle_pmessages pattern st channels in
  NoDup (subscribed st') /\ (forall c, c ∈ subscribed st' <-> c ∈ subscribers st') /\
  (forall c, c ∈ subscribed st' <-> c ∈ subscribed st \/ c ∈ channels).
Proof.
  intros Hch. revert st. induction Hch as [|ch l Hch _ IH]; intros st Hnd Heq st'.
  - cbn. split_and!; try done. intros c. rewrite elem_of_nil. tauto.
  - destruct (on_pmessage_spec pattern ch st Hch Hnd Heq) as (H1 & H2 & H3).
    destruct (IH _ H1 H2) as (H4 & H5 & H6). split_and!; [exact H4|exact H5|].
    intros c. rewrite elem_of_cons. etransitivity; [apply H6|]. rewrite H3. tauto.
Qed.

(** Each traffic channel is subscribed to exactly once, however many of its
    reports match the pattern and in whatever order the channels publish. *)
Theorem one_subscription_per_channel pattern channels :
  Forall (fun c => has_prefix "turn/" c = true) channels ->
  let st := handle_pmessages pattern no_subscription channels in
  NoDup (subscribed st) /\ (forall c, c ∈ subscribed st <-> c ∈ channels) /\
  (forall c, c ∈ subscribers st <-> c ∈ channels).
Proof.
  intros Hch.
  destruct (handle_pmessages_spec pattern channels no_subscription Hch) as (H1 & H2 & H3).
  - constructor.
  - cbn. intros c. rewrite elem_of_nil. set_solver.
  - cbn in H3. split_and!; [done| |]; intros c; rewrite <- ?H2, H3, elem_of_nil; tauto.
Qed.

Lemma one_subscription_per_channel_witness :
  NoDup (subscribed (handle_pmessages "turn/*" no_subscription ["turn/a"; "turn/b"; "turn/a"])) /\
  subscribed (handle_pmessages "turn/*" no_subscription ["turn/a"; "turn/b"; "turn/a"])
    = ["turn/a"; "turn/b"].
Proof.
  destruct (one_subscription_per_channel "turn/*" ["turn/a"; "turn/b"; "turn/a"]) as [H _].
  - by repeat constructor.
  - split; [exact H|by vm_compute].
Defined.
