(* ===== verification/PubSub.v ===== *)
(** The way of a traffic report to the broker: coturn publishes it, Redis delivers it on
    the broker's subscription connection, and the two handlers of
    src/broker/BrokerServer/app/dao.js treat it.

    A publication is delivered to the connection as a 'message' if the connection has
    subscribed to its channel by then, and as a 'pmessage' for every pattern of the
    connection that matches.  The SUBSCRIBE command of a handler takes effect when Redis
    gets to it; deliveries arrive in order. *)
From S2P Require Import Prelude JsNum JsString JsVal Regex Redis Async Traffic Dao DaoSpec DaoProps.

(** * Patterns *)

(** A pattern with a text put in the place of every star. *)
Fixpoint fill (pattern : string) (parts : list string) : string :=
  match pattern with
  | EmptyString => ""
  | String c p => if eqc c "*" then default "" (head parts) +:+ fill p (tail parts) else String c (fill p parts)
  end.

(** No other character that Redis gives a meaning. *)
Definition only_stars (pattern : string) : bool :=
  str_all (fun c => negb (eqc c "?" || eqc c "[" || eqc c "\")) pattern.

(** The matching of Redis, as documented for a star. *)
Class GlobLaws (glob : string -> string -> bool) : Prop :=
  glob_fill pattern parts : only_stars pattern = true -> glob pattern (fill pattern parts) = true.

(** An implementation for patterns of stars and plain characters. *)
Fixpoint star_match (pattern : string) : string -> bool :=
  match pattern with
  | EmptyString => fun s => String.eqb s ""
  | String c p =>
      if eqc c "*" then
        fix go (s : string) : bool :=
          if star_match p s then true else match s with EmptyString => false | String _ s' => go s' end
      else fun s => match s with String d s' => if eqc c d then star_match p s' else false | EmptyString => false end
  end.

#[export] Instance star_match_laws : GlobLaws star_match.
Proof.
  intros p parts _. revert parts. induction p as [|c p IH]; intros parts; [done|].
  cbn [star_match fill]. destruct (eqc c "*").
  - generalize (default "" (head parts)). intros x.
    induction x as [|d x IHx].
    + change ("" +:+ ?s) with s. destruct (fill p (tail parts)) eqn:E; by rewrite <- E, IH.
    + rewrite string_app_cons, IHx. by destruct (star_match p _).
  - rewrite IH. unfold eqc. by rewrite Stdlib.Strings.Ascii.eqb_refl.
Qed.

(** server.js: [dao.psubscribe(...)]. *)
Definition TRAFFIC_PATTERN : string := "turn/*/*/realm/*/user/*/allocation/*/traffic".

(** * The connection *)

Inductive delivery :=
  | Message (channel data : string)
  | PMessage (pattern channel data : string).

Section pubsub.
Context `{Redis St}.
Variable glob : string -> string -> bool.
(** The allocations of one user on one server. *)
Variables ip port realm usr : string.

(** What the connection has subscribed to, SUBSCRIBE commands under way and deliveries
    under way (oldest first), the state of the handlers, the database, and the reports
    published so far, each with whether its channel was subscribed to. *)
Record pubsub := PubSub_ {
  patterns : list string;
  subscribed_channels : gset string;
  commands : list string;
  inbox : list delivery;
  handlers : subscription;
  database : St;
  history : list (report * bool);
}.

(** [redisDAO.prototype.psubscribe], up to the answer of Redis. *)
Definition psubscribe (pattern : string) (w : pubsub) : pubsub :=
  PubSub_ (patterns w ++ [pattern]) (subscribed_channels w) (commands w) (inbox w) (handlers w)
    (database w) (history w).

(** The constructor of redisDAO, then server.js. *)
Definition boot_pubsub (s : St) : pubsub :=
  psubscribe TRAFFIC_PATTERN (PubSub_ [] ∅ [] [] no_subscription s []).

Inductive pevent := Publish (r : report) | ServeSubscribe | Deliver.

Definition deliveries (w : pubsub) (channel data : string) : list delivery :=
  (if decide (channel ∈ subscribed_channels w) then [Message channel data] else []) ++
  map (fun p => PMessage p channel data) (filter (fun p => glob p channel = true) (patterns w)).

Definition publish (r : report) (w : pubsub) : pubsub :=
  let '(channel, data) := published ip port realm usr r in
  PubSub_ (patterns w) (subscribed_channels w) (commands w) (inbox w ++ deliveries w channel data)
    (handlers w) (database w)
    (history w ++ [(r, bool_decide (channel ∈ subscribed_channels w))]).

Definition serve_subscribe (w : pubsub) : pubsub :=
  match commands w with
  | [] => w
  | channel :: l =>
      PubSub_ (patterns w) ({[channel]} ∪ subscribed_channels w) l (inbox w) (handlers w)
        (database w) (history w)
  end.

(** The handler of the oldest delivery; 'pmessage' sends the SUBSCRIBE commands it adds to
    those made so far. *)
Definition deliver (w : pubsub) : pubsub :=
  match inbox w with
  | [] => w
  | Message channel data :: l =>
      PubSub_ (patterns w) (subscribed_channels w) (commands w) l (handlers w)
        (run (on_message channel data) (database w)).2 (history w)
  | PMessage pattern channel data :: l =>
      let handlers' := on_pmessage (handlers w) pattern channel in
      PubSub_ (patterns w) (subscribed_channels w)
        (commands w ++ drop (length (subscribed (handlers w))) (subscribed handlers'))
        l handlers' (database w) (history w)
  end.

Definition pubsub_step (w : pubsub) (e : pevent) : pubsub :=
  match e with
  | Publish r => publish r w
  | ServeSubscribe => serve_subscribe w
  | Deliver => deliver w
  end.

Definition pubsub_run (events : list pevent) (s : St) : pubsub :=
  foldl pubsub_step (boot_pubsub s) events.
End pubsub.
