(* ===== verification/PubSubProps.v ===== *)
(** Which traffic reports are accounted: the first ones of every allocation are not. *)
From S2P Require Import Prelude JsNum JsString JsVal Regex Redis Async Traffic Dao DaoSpec DaoProps PubSub.

Lemma fill_lit a p parts :
  str_all (fun c => negb (eqc c "*")) a = true -> fill (a +:+ p) parts = a +:+ fill p parts.
Proof.
  induction a as [|c a IH]; [done|]. cbn [str_all]. intros [Hc Ha]%andb_true_iff.
  rewrite !string_app_cons. cbn [fill]. destruct (eqc c "*"); [done|]. by rewrite IH.
Qed.

Lemma fill_star x p l : fill (String "*" p) (x :: l) = x +:+ fill p l.
Proof. done. Qed.

Lemma fill_traffic ip port realm usr a :
  fill TRAFFIC_PATTERN [ip; port; realm; usr; a] = channel_name ip port realm usr a.
Proof.
  assert (E : TRAFFIC_PATTERN = "turn/" +:+ String "*" ("/" +:+ String "*" ("/realm/" +:+ String "*"
    ("/user/" +:+ String "*" ("/allocation/" +:+ String "*" ("/traffic" +:+ "")))))) by (by vm_compute).
  rewrite E, fill_lit, fill_star by done. rewrite fill_lit, fill_star by done.
  rewrite fill_lit, fill_star by done. rewrite fill_lit, fill_star by done.
  rewrite fill_lit, fill_star by done. by rewrite fill_lit.
Qed.

Section props.
Context `{RedisLaws St}.
Variable glob : string -> string -> bool.
Context `{!GlobLaws glob}.
Variables ip port realm usr : string.

Notation step := (pubsub_step glob ip port realm usr).
Notation channel_of r := (channel_name ip port realm usr (alloc r)).

(** The pattern of the broker matches the channels coturn publishes on. *)
Lemma traffic_channels_match r : glob TRAFFIC_PATTERN (channel_of r) = true.
Proof. rewrite <- fill_traffic. by apply glob_fill. Qed.

(** * The invariant *)

(** The reports of a channel with their marks, and those that were delivered as messages. *)
Definition on_channel (ch : string) (l : list (report * bool)) : list bool :=
  omap (fun x => if decide (channel_of x.1 = ch) then Some x.2 else None) l.
Definition heard (l : list (report * bool)) : list report :=
  omap (fun x : report * bool => if x.2 then Some x.1 else None) l.

Definition messages (l : list delivery) : list (string * string) :=
  omap (fun d => match d with Message ch m => Some (ch, m) | PMessage _ _ _ => None end) l.

(** A channel whose first [n] reports were missed, one at least. *)
Definition missed_then_heard (marks : list bool) (active : Prop) : Prop :=
  exists n m, marks = replicate n false ++ replicate m true /\ (marks <> [] -> (1 <= n)%nat) /\
    ((1 <= m)%nat -> active).

Record pinv (s : St) (w : pubsub) : Prop := {
  pi_patterns : patterns w = [TRAFFIC_PATTERN];
  pi_nodup : NoDup (subscribed (handlers w));
  pi_handlers : forall ch, ch ∈ subscribed (handlers w) <-> ch ∈ subscribers (handlers w);
  pi_asked : forall ch, ch ∈ subscribed_channels w \/ ch ∈ commands w -> ch ∈ subscribed (handlers w);
  pi_known : forall ch, ch ∈ subscribed (handlers w) \/ (exists p m, PMessage p ch m ∈ inbox w) ->
    exists x, x ∈ history w /\ channel_of x.1 = ch;
  pi_marks : forall ch, missed_then_heard (on_channel ch (history w)) (ch ∈ subscribed_channels w);
  pi_database : exists k, (k <= length (heard (history w)))%nat /\
    database w = handle_messages s (take k (map (published ip port realm usr) (heard (history w)))) /\
    messages (inbox w) = drop k (map (published ip port realm usr) (heard (history w)));
}.

Lemma on_channel_app ch l l' : on_channel ch (l ++ l') = on_channel ch l ++ on_channel ch l'.
Proof. apply omap_app. Qed.
Lemma heard_app l l' : heard (l ++ l') = heard l ++ heard l'.
Proof. apply omap_app. Qed.
Lemma messages_app l l' : messages (l ++ l') = messages l ++ messages l'.
Proof. apply omap_app. Qed.

Lemma handle_messages_snoc s l ch m :
  handle_messages s (l ++ [(ch, m)]) = (run (on_message ch m) (handle_messages s l)).2.
Proof. revert s. induction l as [|[c d] l IH]; intros s; [done|]. cbn. apply IH. Qed.

Lemma pinv_boot s : pinv s (boot_pubsub s).
Proof.
  split; cbn; try done.
  - constructor.
  - intros ch. rewrite elem_of_nil. set_solver.
  - intros ch [Hc|Hc]; [set_solver|by apply elem_of_nil in Hc].
  - intros ch [Hc|(p & m & Hc)]; by apply elem_of_nil in Hc.
  - intros ch. exists 0%nat, 0%nat. split_and!; [done|done|lia].
  - by exists 0%nat; split; [lia|].
Qed.

Lemma marks_extend marks active b :
  missed_then_heard marks active -> (b = true <-> active) -> (active -> marks <> []) ->
  missed_then_heard (marks ++ [b]) active.
Proof.
  intros (n & m & -> & Hn & Hm) Hb Ha. destruct b.
  - exists n, (S m). split; [|split].
    + by rewrite <- app_assoc, <- replicate_cons_app.
    + intros _. apply Hn, Ha. by apply Hb.
    + intros _. by apply Hb.
  - assert (m = 0%nat) as ->.
    { destruct m; [done|]. exfalso. assert (false = true) by (apply Hb, Hm; lia). done. }
    exists (S n), 0%nat. split; [|split; [intros; lia|lia]].
    cbn [replicate]. by rewrite !app_nil_r, <- replicate_cons_app.
Qed.

Lemma marks_mono marks (P Q : Prop) : (P -> Q) -> missed_then_heard marks P -> missed_then_heard marks Q.
Proof. intros HPQ (n & m & E & Hn & Hm). exists n, m. split_and!; [done|done|]. intros Hm1. by apply HPQ, Hm. Qed.

Lemma on_channel_nonempty ch l x : x ∈ l -> channel_of x.1 = ch -> on_channel ch l <> [].
Proof.
  intros Hx E Hnil. assert (Hin : x.2 ∈ on_channel ch l).
  { apply list_elem_of_omap. exists x. by rewrite decide_True. }
  rewrite Hnil in Hin. by apply elem_of_nil in Hin.
Qed.

Lemma publish_keeps s r w : pinv s w -> pinv s (step w (Publish r)).
Proof.
  intros [I1 I2 I3 I4 I5 I6 (k & Ik & Id & Im)]. cbn [pubsub_step publish published].
  set (ch := channel_of r). set (data := traffic_message _ _ _ _).
  split; cbn [patterns subscribed_channels commands inbox handlers database history]; try done.
  - intros c Hc. assert (K : (c ∈ subscribed (handlers w) \/ exists p m, PMessage p c m ∈ inbox w) \/ c = ch).
    { destruct Hc as [Hc|(p & m & Hc)]; [by left; left|]. apply elem_of_app in Hc as [Hc|Hc].
      - left. right. by exists p, m.
      - right. unfold deliveries in Hc. apply elem_of_app in Hc as [Hc|Hc].
        + case_decide; [|by apply elem_of_nil in Hc]. by apply list_elem_of_singleton in Hc.
        + apply list_elem_of_fmap in Hc as (q & [= _ -> _] & _). done. }
    destruct K as [K| ->].
    + destruct (I5 c K) as (x & Hx & E). exists x. split; [|done]. apply elem_of_app. by left.
    + eexists. split; [apply elem_of_app; right; by apply list_elem_of_singleton|done].
  - intros c. rewrite on_channel_app. unfold on_channel at 2. cbn [omap list_omap fst snd]. fold ch.
    case_decide as Hc; [subst c|by rewrite app_nil_r].
    apply marks_extend; [apply I6|by rewrite bool_decide_eq_true|].
    intros Ha. destruct (I5 ch) as (x & Hx & E). { left. apply I4. by left. }
    by eapply on_channel_nonempty.
  - exists k. rewrite heard_app, messages_app, map_app. split; [rewrite length_app; lia|].
    rewrite take_app_le, drop_app_le by (rewrite length_map; lia).
    split; [done|]. rewrite Im. f_equal. unfold deliveries. rewrite messages_app.
    unfold heard. cbn [omap list_omap snd fst].
    assert (messages (map (fun p => PMessage p ch data) (filter (fun p => glob p ch = true) (patterns w))) = []) as ->.
    { induction (filter _ (patterns w)) as [|p l IHl]; [done|]. apply IHl. }
    case_bool_decide; [by rewrite decide_True|by rewrite decide_False].
Qed.

Lemma serve_subscribe_keeps s w : pinv s w -> pinv s (step w ServeSubscribe).
Proof.
  intros I. cbn [pubsub_step]. unfold serve_subscribe. destruct (commands w) as [|c l] eqn:Hc; [done|].
  destruct I as [I1 I2 I3 I4 I5 I6 I7].
  split; cbn [patterns subscribed_channels commands inbox handlers database history]; try done.
  - intros ch Hch. apply I4. rewrite Hc, elem_of_cons. set_solver.
  - intros ch. eapply marks_mono; [|apply I6]. set_solver.
Qed.

Lemma deliver_keeps s w : pinv s w -> pinv s (step w Deliver).
Proof.
  intros I. cbn [pubsub_step]. unfold deliver. destruct (inbox w) as [|[ch m|p ch m] l] eqn:Hi; [done|..].
  - destruct I as [I1 I2 I3 I4 I5 I6 (k & Ik & Id & Im)].
    split; cbn [patterns subscribed_channels commands inbox handlers database history]; try done.
    + intros c Hc. apply I5. destruct Hc as [Hc|(p & d & Hc)]; [by left|right; exists p, d]. rewrite Hi. by right.
    + rewrite Hi in Im. cbn [messages omap list_omap] in Im.
      set (all := map (published ip port realm usr) (heard (history w))) in *.
      assert (Hk : all !! k = Some (ch, m)) by (by rewrite <- (Nat.add_0_r k), <- lookup_drop, <- Im).
      exists (S k). split. { apply lookup_lt_Some in Hk. unfold all in Hk. rewrite length_map in Hk. lia. }
      split; [by rewrite (take_S_r _ _ _ Hk), handle_messages_snoc, Id|].
      rewrite (drop_S _ _ _ Hk) in Im. by injection Im.
  - destruct I as [I1 I2 I3 I4 I5 I6 (k & Ik & Id & Im)].
    destruct (I5 ch) as (x & Hx & E). { right. exists p, m. rewrite Hi. by left. }
    assert (Ht : has_prefix "turn/" ch = true).
    { rewrite <- E. unfold has_prefix, channel_name. by rewrite drop_prefix_app. }
    destruct (on_pmessage_spec p ch (handlers w) Ht I2 I3) as (H1 & H2 & H3).
    split; cbn [patterns subscribed_channels commands inbox handlers database history]; try done.
    + intros c. rewrite elem_of_app. intros [Hc|[Hc|Hc]].
      * apply H3. left. apply I4. by left.
      * apply H3. left. apply I4. by right.
      * eapply elem_of_submseteq; [exact Hc|]. apply sublist_submseteq, sublist_drop.
    + intros c [Hc|(q & d & Hc)].
      * apply H3 in Hc as [Hc| ->]; [apply I5; by left|by exists x].
      * apply I5. right. exists q, d. rewrite Hi. by right.
    + exists k. rewrite Hi in Im. done.
Qed.

Lemma pubsub_invariant events s : pinv s (pubsub_run glob ip port realm usr events s).
Proof.
  unfold pubsub_run. induction events as [|e events IH] using rev_ind; [apply pinv_boot|].
  rewrite foldl_app. cbn [foldl]. destruct e as [r| |].
  - by apply publish_keeps.
  - by apply serve_subscribe_keeps.
  - by apply deliver_keeps.
Qed.

(** With no delivery under way the database is what handling the reports heard makes of
    the first one. *)
Lemma reports_handled events (s : St) :
  let w := pubsub_run glob ip port realm usr events s in
  inbox w = [] -> database w = handle_messages s (map (published ip port realm usr) (heard (history w))).
Proof.
  intros w Hin. pose proof (pubsub_invariant events s) as I. fold w in I.
  destruct (pi_database _ _ I) as (k & Hk & Hdb & Hm). rewrite Hin in Hm. cbn in Hm.
  assert (Hlen : length (map (published ip port realm usr) (heard (history w))) = k).
  { apply (f_equal length) in Hm. rewrite length_drop in Hm. cbn in Hm. rewrite length_map in *. lia. }
  by rewrite firstn_all2 in Hdb by lia.
Qed.

Lemma heard_ok (l : list (report * bool)) :
  Forall (fun x => report_ok x.1) l -> Forall report_ok (heard l).
Proof.
  intros Hok. apply Forall_forall. intros r Hr. unfold heard in Hr.
  apply list_elem_of_omap in Hr as ([r' b] & Hx & E). cbn in E. destruct b; [|done].
  injection E as ->. exact (proj1 (Forall_forall _ _) Hok _ Hx).
Qed.

(** C5. The reports of a user from publication to account.  Whatever is published and
    however late Redis gets to the commands and the broker to the deliveries: of every
    allocation the reports published before the subscription to its channel, one at least,
    are missed, and all later ones are heard; once no delivery is under way the
    consumption of the CSP has grown by exactly the bytes of the reports heard, and no
    other key of the database has changed. *)
Theorem first_reports_missed csp (h : hash) d events (s : St) :
  segment ip = true -> segment port = true -> segment realm = true -> segment usr = true ->
  db2 (view_of s) (user_key usr) = Some (VStr csp) ->
  db2 (view_of s) (conso_key csp) = Some (VHash h) -> h !! "data" = Some (dec d) ->
  let w := pubsub_run glob ip port realm usr events s in
  0 <= d -> Forall (fun x => report_ok x.1) (history w) -> d + total_sent (heard (history w)) < 2 ^ 63 ->
  inbox w = [] ->
  (forall ch, exists n m, on_channel ch (history w) = replicate n false ++ replicate m true /\
     (on_channel ch (history w) <> [] -> (1 <= n)%nat)) /\
  db2 (view_of (database w)) (conso_key csp) =
    Some (VHash (<["data" := dec (d + total_sent (heard (history w)))]> h)) /\
  forall k, k <> conso_key csp -> db2 (view_of (database w)) k = db2 (view_of s) k.
Proof.
  intros Hi Hp Hr Hu Husr Hc Hd w Hd0 Hok Hmax Hin.
  pose proof (pubsub_invariant events s) as I. fold w in I. split.
  - intros ch. destruct (pi_marks _ _ I ch) as (n & m & E & Hn & _). by exists n, m.
  - unfold w. rewrite reports_handled by done. fold w.
    apply handle_reports; try done. by apply heard_ok.
Qed.
End props.

(** Three reports of one allocation: the first is answered by a subscription, which takes
    effect after the second. *)
Definition demo_events : list pevent :=
  [Publish (demo_report 40); Deliver; Publish (demo_report 7); ServeSubscribe;
   Publish (demo_report 61); Deliver; Deliver; Deliver].

Notation demo_connection s := (pubsub_run star_match "10.0.0.1" "3478" "orange.com" "u1" demo_events s).

(** What the connection sees does not depend on the database. *)
Lemma demo_history `{Redis St} (s : St) : history (demo_connection s) =
  [(demo_report 40, false); (demo_report 7, false); (demo_report 61, true)].
Proof. vm_compute. reflexivity. Qed.

Lemma demo_inbox `{Redis St} (s : St) : inbox (demo_connection s) = [].
Proof. vm_compute. reflexivity. Qed.

Lemma first_reports_missed_witness :
  heard (history (demo_connection demo_view)) = [demo_report 61] /\
  exists h, db2 (view_of (database (demo_connection demo_view))) (conso_key "acme") = Some (VHash h) /\
    h !! "data" = Some "961".
Proof.
  pose proof (first_reports_missed (St := view) star_match "10.0.0.1" "3478" "orange.com" "u1" "acme"
    demo_conso_hash 900 demo_events demo_view eq_refl eq_refl eq_refl eq_refl demo_user demo_conso eq_refl) as T.
  cbv zeta in T. rewrite (demo_history demo_view) in T |- *. split; [reflexivity|].
  assert (Hok : Forall (fun x : report * bool => report_ok x.1)
    [(demo_report 40, false); (demo_report 7, false); (demo_report 61, true)]) by
    (repeat (apply Forall_cons; split; [unfold report_ok; cbn; split_and!; [lia..|reflexivity]|]); constructor).
  specialize (T ltac:(lia) Hok). cbn [heard omap list_omap snd fst total_sent foldr] in T.
  specialize (T ltac:(cbn; lia) (demo_inbox demo_view)). destruct T as (_ & Hc & _).
  eexists. split; [exact Hc|]. rewrite lookup_insert_eq. reflexivity.
Defined.
