(* ===== verification/Server.v ===== *)
(** The HTTP front of the broker: src/broker/BrokerServer/server.js (middleware,
    basic authentication) and src/broker/BrokerServer/app/routes.js (one route
    per method of the data access object).

    The express router matches a path without regard to case and to a slash at its
    end.  The static file middleware, a package, is the parameter [static], with its
    documentation as [StaticLaws]; the parsing of the Authorization header is an
    argument of the request. *)
From S2P Require Import Prelude JsNum JsString Regex Traffic Redis Async Dao.

Inductive meth := GET_ | HEAD_ | POST_ | DELETE_ | PUT_.
#[export] Instance meth_eq_dec : EqDecision meth.
Proof. solve_decision. Defined.

(** The routes and the files of GET requests serve HEAD requests too; their response is
    sent without its body. *)
Definition served_as (m : meth) : meth := match m with HEAD_ => GET_ | _ => m end.

Record request := {
  rmethod : meth;
  rpath : string;
  query : gmap string string;
  body : gmap string string;
  credentials : option (string * string);   (* what basic-auth extracts *)
}.

(** Bodies of the JSON answers. *)
Inductive json_body :=
  | JTurn (url : option string) (clientId : string)
  | JInfos (l : list (hash * string))
  | JReply (r : reply)
  | JCredentials (clientId : option string) (password : string).

Inductive response :=
  | Json (status : Z) (b : json_body)
  | Send (status : Z) (text : string)
  | SendStatus (status : Z)
  | Redirect (url : string)
  | SendFile (name : string)
  | NextRoute.

Record config := { LOGIN : string; PASSWD : string }.

(** * auth *)

Definition nonempty (s : string) : bool := negb (String.eqb s "").

(** [None] lets the request through to the next handler. *)
Definition auth (cfg : config) (req : request) : option response :=
  match credentials req with
  | None => Some (SendStatus 401)
  | Some (name, pass) =>
      if negb (nonempty name) || negb (nonempty pass) then Some (SendStatus 401)
      else if String.eqb name (LOGIN cfg) && String.eqb pass (PASSWD cfg) then None
      else Some (SendStatus 401)
  end.

(** * Routes *)

(** The path as the router compares it. *)
Definition route_path (req : request) : string :=
  let p := to_lower (rpath req) in
  match String.rev p with String "/" r => String.rev r | _ => p end.

(** What a handler does: the response it sends at once, if any, and the
    asynchronous work, which may send one when it settles. *)
Definition reaction : Type := option response * prog (option response).

Definition idle : prog (option response) := Done (Resolved None).
Definition answer_now (r : response) : reaction := (Some r, idle).

(** [p.then(f)] without a rejection handler: a rejection sends nothing. *)
Definition answering {A} (p : prog A) (f : A -> response) : prog (option response) :=
  let! a := p in Done (Resolved (Some (f a))).

(** [p.then(f, g)] / [p.then(f).catch(g)]. *)
Definition answering_or {A} (p : prog A) (f : A -> response) (g : string -> response)
    : prog (option response) :=
  settle p (fun o => match o with
                     | Resolved a => Done (Resolved (Some (f a)))
                     | Rejected e => Done (Resolved (Some (g e)))
                     | Pending => Done Pending
                     | Crashed => Done Crashed
                     end).

Section routes.
Variable MD5 : string -> string.
Variable cfg : config.
(** The date and the random number the handler reads. *)
Variable iso : string.
Variable rnd : num.

Definition guarded (req : request) (r : reaction) : reaction :=
  match auth cfg req with Some resp => answer_now resp | None => r end.

Definition form_of (b : gmap string string) : form_data :=
  {| servicename := b !! "servicename"; audio := b !! "audio";
     video := b !! "video"; qdata := b !! "qdata" |}.

Definition provRequest (req : request) : reaction :=
  let '(_, work) := registerCSP (form_of (body req)) 3200 in
  (Some (Redirect "/dashboard.html"), let! _ := work in idle).

Definition route_getAppropriateTurn (req : request) : reaction :=
  (None, answering_or
    (getAppropriateTurn MD5 (query req !! "cspId") (query req !! "clientName") iso rnd)
    (fun '(url, id) => Json 200 (JTurn url id))
    (fun error => Send 404 error)).

Definition route_getAllCspInfo : reaction :=
  (None, answering_or getAllCspInfo (fun l => Json 200 (JInfos l)) (fun err => Send 500 err)).

Definition route_getCspConso (req : request) : reaction :=
  (None, answering (getCSPConso (query req !! "cspkey")) (fun r => Json 200 (JReply r))).

Definition route_getCredentials (req : request) : reaction :=
  (None, answering (getCredentials MD5 (query req !! "clientId") rnd)
           (fun '(id, pw) => Json 200 (JCredentials id pw))).

Definition route_deleteCSP (req : request) : reaction :=
  match query req !! "cspkey" with
  | None => (None, idle)
  | Some cspkey => (None, answering (deleteCSP cspkey) (fun _ => SendStatus 200))
  end.

Definition route_changeQuotas (req : request) : reaction :=
  (None, answering
    (updateCSPQuotas (query req !! "cspKey") (query req !! "audioQuota")
                     (query req !! "videoQuota") (query req !! "dataQuota"))
    (fun _ => SendStatus 200)).

(** The table of routes, in registration order; an unknown path falls through. *)
Definition route (req : request) : reaction :=
  let p := route_path req in
  match served_as (rmethod req) with
  | GET_ =>
      if String.eqb p "/dashboard" then guarded req (answer_now (SendFile "dashboard.html"))
      else if String.eqb p "/apidoc" then guarded req (answer_now (SendFile "apidoc/index.html"))
      else if String.eqb p "/getappropriateturn" then route_getAppropriateTurn req
      else if String.eqb p "/getallcspinfo" then route_getAllCspInfo
      else if String.eqb p "/getcspconso" then route_getCspConso req
      else if String.eqb p "/getcredentials" then route_getCredentials req
      else if String.eqb p "/changequotas" then route_changeQuotas req
      else answer_now NextRoute
  | POST_ => if String.eqb p "/provrequest" then provRequest req else answer_now NextRoute
  | DELETE_ => if String.eqb p "/deletecsp" then route_deleteCSP req else answer_now NextRoute
  | _ => answer_now NextRoute
  end.

(** The middleware chain: the files of the directory public first, then the routes. *)
Variable static : string -> option response.

Definition serve (req : request) : reaction :=
  match served_as (rmethod req), static (rpath req) with
  | GET_, Some answer => answer_now answer
  | _, _ => route req
  end.
End routes.

(** The response a request gets in the end: at once, or when its work settles. *)
Definition final_response (now : option response) (o : outcome (option response)) : option response :=
  match now with
  | Some r => Some r
  | None => match o with Resolved r => r | _ => None end
  end.

(** * Static files *)

(** The documentation of [express.static] for a directory that holds [files]: a file is
    sent, a directory is redirected to its name with a slash, which sends its index. *)
Record StaticLaws (files : list string) (static : string -> option response) : Prop := {
  static_file f : f ∈ files -> static ("/" +:+ f) = Some (SendFile f);
  static_index d :
    d +:+ "/index.html" ∈ files ->
    static ("/" +:+ d +:+ "/") = Some (SendFile (d +:+ "/index.html"));
  static_directory d f :
    d +:+ "/" +:+ f ∈ files -> d ∉ files ->
    static ("/" +:+ d) = Some (Redirect ("/" +:+ d +:+ "/"))
}.
