(* ===== verification/Interleave.v ===== *)
(** Concurrent requests on the broker's single Redis connection.  SELECT is a
    state of the connection, so a handler that has selected its database and
    waits for the reply can find another database selected when it goes on.
    Here: handlers that use database 2 only never disturb each other, and a
    credential request (database 0) can. *)
From S2P Require Import Prelude JsNum JsString Regex Traffic Redis Async Dao DaoSpec Server.

(** * Handlers that use one database *)

Definition selects (n : Z) (c : cmd) : Prop :=
  match c with SELECT m => m = n | _ => True end.

Fixpoint sel_only (n : Z) {A} (p : prog A) : Prop :=
  match p with
  | Done _ => True
  | Turn cs k => Forall (selects n) cs /\ forall rs, sel_only n (k rs)
  end.

(** Its first command, if any, selects the database. *)
Definition fresh (n : Z) {A} (p : prog A) : Prop :=
  match p with Turn (SELECT m :: _) _ => m = n | Turn _ _ => False | Done _ => True end.

Lemma sel_only_settle n {A B} (p : prog A) (f : outcome A -> prog B) :
  sel_only n p -> (forall o, sel_only n (f o)) -> sel_only n (settle p f).
Proof.
  intros Hp Hf. induction p as [o|cs k IH]; cbn; [done|].
  destruct Hp as [Hcs Hk]. split; [done|]. intros rs. by apply IH.
Qed.

Lemma sel_only_also n {A} cs (p : prog A) :
  Forall (selects n) cs -> sel_only n p -> sel_only n (also cs p).
Proof.
  intros Hcs Hp. destruct p as [o|cs' k]; cbn in *; [done|].
  destruct Hp as [? ?]. split; [by apply Forall_app|]. auto.
Qed.

Lemma sel_only_selecting n {A} (p : prog A) : sel_only n p -> sel_only n (selecting n p).
Proof.
  intros Hp. cbn. split; [by repeat constructor|].
  intros [|[] rs]; cbn; done.
Qed.

Lemma sel_only_on_reply n {A} rs (e : string -> prog A) f :
  (forall m, sel_only n (e m)) -> (forall r, sel_only n (f r)) -> sel_only n (on_reply rs e f).
Proof. intros He Hf. destruct rs as [|[] rs]; cbn; done. Qed.

Lemma sel_only_settle_reply n c : selects n c -> sel_only n (settle_reply c).
Proof.
  intros Hc. cbn. split; [by repeat constructor|]. intros rs. by apply sel_only_on_reply.
Qed.

Lemma Forall_selects_map n {A} (f : A -> cmd) l :
  (forall a, selects n (f a)) -> Forall (selects n) (map f l).
Proof. intros Hf. induction l; cbn; by constructor. Qed.

Create HintDb selonly.
#[export] Hint Resolve sel_only_settle sel_only_also sel_only_selecting sel_only_on_reply
  sel_only_settle_reply Forall_selects_map : selonly.

Lemma sel_only_getCspInfoAndConso csp : sel_only 2 (getCspInfoAndConso csp).
Proof.
  unfold getCspInfoAndConso. apply sel_only_settle.
  - by apply sel_only_selecting, sel_only_settle_reply.
  - intros [r|e| |]; try exact I. destruct (as_object r); [|exact I].
    apply sel_only_settle.
    + by apply sel_only_selecting, sel_only_settle_reply.
    + intros [r'|e'| |]; try exact I. by destruct (as_object r').
Qed.

Lemma sel_only_getTurnServers : sel_only 2 getTurnServers.
Proof.
  apply sel_only_selecting. cbn. split; [by repeat constructor|]. intros rs.
  apply sel_only_on_reply; [done|]. intros [| | |[|k l]| |]; cbn; try done.
  split; [|done]. constructor; [done|]. by apply Forall_selects_map.
Qed.

Lemma sel_only_getAppropriateTurn MD5 csp client iso rnd :
  sel_only 2 (getAppropriateTurn MD5 csp client iso rnd).
Proof.
  unfold getAppropriateTurn. apply sel_only_also; [by repeat constructor|].
  apply sel_only_settle; [apply sel_only_settle; [apply sel_only_getCspInfoAndConso|]|].
  - intros [i|e| |]; cbn; try done. unfold check_quota. by destruct (quota_exceeded i).
  - intros [u|e| |]; try done. apply sel_only_settle; [apply sel_only_getTurnServers|].
    by intros [].
Qed.

Lemma sel_only_getAllCspInfo : sel_only 2 getAllCspInfo.
Proof.
  cbn. split; [by repeat constructor|]. intros rs.
  apply sel_only_on_reply; [done|]. intros [| | |l| |]; cbn; try done.
  split; [|done]. by apply Forall_selects_map.
Qed.

Lemma sel_only_deleteCSP k : sel_only 2 (deleteCSP k).
Proof.
  cbn. split; [by repeat constructor|]. intros rs. by apply sel_only_on_reply.
Qed.

Lemma sel_only_registerCSP f ttl : sel_only 2 (registerCSP f ttl).2.
Proof. apply sel_only_selecting. cbn. split; [by repeat constructor|done]. Qed.

(** Every route but the one that issues credentials uses database 2 only, and
    selects it first. *)
Definition issues_credentials (req : request) : bool :=
  bool_decide (served_as (rmethod req) = GET_) && String.eqb (route_path req) "/getcredentials".

Lemma sel_only_answering {A} n (p : prog A) f : sel_only n p -> sel_only n (answering p f).
Proof. intros Hp. apply sel_only_settle; [done|]. by intros []. Qed.

Lemma sel_only_answering_or {A} n (p : prog A) f g :
  sel_only n p -> sel_only n (answering_or p f g).
Proof. intros Hp. apply sel_only_settle; [done|]. by intros []. Qed.

Lemma fresh_guarded n cfg req r :
  sel_only n r.2 /\ fresh n r.2 ->
  sel_only n (guarded cfg req r).2 /\ fresh n (guarded cfg req r).2.
Proof. unfold guarded. by destruct (auth cfg req). Qed.

Lemma uses_now n r : sel_only n (answer_now r).2 /\ fresh n (answer_now r).2.
Proof. by split. Qed.

Lemma uses_waiting n {A} (p : prog A) : sel_only n p -> fresh n p -> sel_only n p /\ fresh n p.
Proof. done. Qed.

Lemma route_uses_db2 MD5 cfg iso rnd req :
  issues_credentials req = false ->
  sel_only 2 (route MD5 cfg iso rnd req).2 /\ fresh 2 (route MD5 cfg iso rnd req).2.
Proof.
  intros Hc. unfold issues_credentials in Hc. unfold route.
  destruct (served_as (rmethod req)) eqn:Em.
  - set (p := route_path req) in *. rewrite bool_decide_eq_true_2 in Hc by done.
    cbn [andb] in Hc. rewrite Hc.
    destruct (String.eqb p "/dashboard"); [apply fresh_guarded, uses_now|].
    destruct (String.eqb p "/apidoc"); [apply fresh_guarded, uses_now|].
    destruct (String.eqb p "/getappropriateturn").
    { split; [|reflexivity]. apply sel_only_answering_or, sel_only_getAppropriateTurn. }
    destruct (String.eqb p "/getallcspinfo").
    { split; [|reflexivity]. apply sel_only_answering_or, sel_only_getAllCspInfo. }
    destruct (String.eqb p "/getcspconso").
    { split; [|reflexivity].
      by apply sel_only_answering, sel_only_selecting, sel_only_settle_reply. }
    destruct (String.eqb p "/changequotas"); [|apply uses_now].
    split; [|reflexivity].
    by apply sel_only_answering, sel_only_selecting, sel_only_settle_reply.
  - apply uses_now.
  - clear Hc. destruct (String.eqb _ _); [|apply uses_now].
    split; [|reflexivity]. unfold provRequest.
    apply sel_only_settle; [|by intros []]. exact (sel_only_registerCSP (form_of (body req)) 3200).
  - clear Hc. destruct (String.eqb _ _); [|apply uses_now]. unfold route_deleteCSP.
    destruct (query req !! "cspkey"); [|by split].
    split; [|reflexivity]. apply sel_only_answering, sel_only_deleteCSP.
  - apply uses_now.
Qed.

(** * No interference inside one database *)

(** The database each command of a turn is executed against. *)
Fixpoint targets (db : Z) (cs : list cmd) : list (Z * cmd) :=
  match cs with
  | [] => []
  | SELECT n :: cs' => targets n cs'
  | c :: cs' => (db, c) :: targets db cs'
  end.

Section pool_invariant.
Context `{RedisLaws St} {A : Type}.
Variable env : St -> St -> Prop.
Hypothesis env_selected : forall s s', env s s' -> selected (view_of s') = selected (view_of s).
Variable ok : prog A -> Prop.
Hypothesis ok_uses : forall p, ok p -> sel_only 2 p /\ fresh 2 p.

(** Either database 2 is selected, or no handler has started. *)
Definition settled (c : St * list (prog A)) : Prop :=
  Forall (sel_only 2) c.2 /\ (selected (view_of c.1) = 2 \/ Forall (fresh 2) c.2).

Lemma wpc_selected cs v :
  Forall (selects 2) cs -> selected v = 2 -> wpc v cs (fun _ v' => selected v' = 2).
Proof.
  intros Hcs. revert v. induction Hcs as [|c cs Hc Hcs IH]; intros v Hv; cbn; [done|].
  intros r v1 D. apply IH. destruct c; cbn in D;
    [|try by (repeat case_match; simplify_eq)..].
  - cbn in Hc. subst. by injection D as -> ->.
  - by destruct D as [-> _].
Qed.

Lemma exec_selected s cs :
  Forall (selects 2) cs -> selected (view_of s) = 2 ->
  selected (view_of (exec_all s cs).1) = 2.
Proof.
  intros Hcs Hs.
  exact (wpc_sound cs s (fun _ v => selected v = 2) (wpc_selected cs _ Hcs Hs)).
Qed.

Lemma exec_fresh s cs :
  Forall (selects 2) (SELECT 2 :: cs) ->
  selected (view_of (exec_all s (SELECT 2 :: cs)).1) = 2.
Proof.
  intros Hcs. apply Forall_cons in Hcs as [_ Hcs].
  apply (wpc_sound (SELECT 2 :: cs) s (fun _ v => selected v = 2)).
  apply wpc_select; [done|]. by apply wpc_selected.
Qed.

Lemma settled_step c c' : pstep env ok c c' -> settled c -> settled c'.
Proof.
  intros Hstep [Hall Hsel]. destruct Hstep as [s ps i cs k Hi|s ps p Hok|s s' ps He]; cbn in *.
  - pose proof (Forall_lookup_1 _ _ _ _ Hall Hi) as [Hcs Hk].
    split; cbn; [by apply Forall_insert|]. left. destruct Hsel as [Hs|Hf].
    + by apply exec_selected.
    + pose proof (Forall_lookup_1 _ _ _ _ Hf Hi) as F.
      destruct cs as [|[] cs]; try done. cbn in F. subst. by apply exec_fresh.
  - destruct (ok_uses p Hok) as [Hp Hf]. split; cbn.
    + apply Forall_app. split; [done|]. by constructor.
    + destruct Hsel as [|Hfs]; [by left|right]. apply Forall_app. split; [done|]. by constructor.
  - split; cbn; [done|]. rewrite (env_selected _ _ He). done.
Qed.

Lemma settled_reachable c c' : rtc (pstep env ok) c c' -> settled c -> settled c'.
Proof. induction 1; eauto using settled_step. Qed.

Lemma targets_db2 cs db :
  Forall (selects 2) cs -> db = 2 -> Forall (fun t => t.1 = 2) (targets db cs).
Proof.
  intros Hcs. revert db. induction Hcs as [|c cs Hc Hcs IH]; intros db ->; cbn; [done|].
  destruct c; cbn in Hc |- *; try (constructor; [done|]); auto.
Qed.
End pool_invariant.

(** The asynchronous work a request can start, credentials apart. *)
Definition data_request (MD5 : string -> string) (cfg : config) (p : prog (option response))
    : Prop :=
  exists req iso rnd, issues_credentials req = false /\ p = (route MD5 cfg iso rnd req).2.

(** C8. Requests do not interfere through the shared connection as long as none
    of them issues credentials: however their turns interleave, with each other
    and with other clients of the server, every command of every turn is
    executed against database 2. *)
Theorem data_requests_stay_in_db2 `{RedisLaws St} MD5 cfg (env : St -> St -> Prop) s s' ps i cs k :
  (forall t t', env t t' -> selected (view_of t') = selected (view_of t)) ->
  rtc (pstep env (data_request MD5 cfg)) (s, []) (s', ps) ->
  ps !! i = Some (Turn cs k) ->
  Forall (fun t => t.1 = 2) (targets (selected (view_of s')) cs).
Proof.
  intros Henv Hreach Hi.
  assert (Hok : forall p, data_request MD5 cfg p -> sel_only 2 p /\ fresh 2 p).
  { intros p (req & iso & rnd & Hc & ->). by apply route_uses_db2. }
  assert (Hset : settled (s', ps)).
  { apply (settled_reachable env Henv _ Hok _ _ Hreach). split; cbn; [constructor|].
    right. constructor. }
  destruct Hset as [Hall Hsel]. cbn in *.
  pose proof (Forall_lookup_1 _ _ _ _ Hall Hi) as [Hcs _].
  destruct Hsel as [Hs|Hf]; [by apply targets_db2|].
  pose proof (Forall_lookup_1 _ _ _ _ Hf Hi) as F.
  destruct cs as [|[] cs]; try done. cbn in F |- *. subst.
  apply Forall_cons in Hcs as [_ Hcs]. by apply targets_db2.
Qed.

Definition demo_cfg : config := {| LOGIN := "admin"; PASSWD := "reThink" |}.
Definition turn_request : request := {|
  rmethod := GET_; rpath := "/getAppropriateTurn";
  query := <["cspId" := "acme"]> {["clientName" := "c"]}; body := ∅; credentials := None;
|}.

Lemma data_requests_stay_in_db2_witness :
  exists cs k, (route id demo_cfg "t" (Fin 0) turn_request).2 = Turn cs k /\
    Forall (fun t => t.1 = 2) (targets 5 cs).
Proof.
  assert (P : rtc (pstep (fun _ _ : view => False) (data_request id demo_cfg))
    (View 5 ∅ ∅, []) (View 5 ∅ ∅, [(route id demo_cfg "t" (Fin 0) turn_request).2])).
  { apply rtc_once, (pstep_spawn _ _ _ []). by exists turn_request, "t", (Fin 0). }
  eexists _, _. split; [reflexivity|].
  exact (data_requests_stay_in_db2 (St := view) id demo_cfg (fun _ _ => False)
    _ _ _ 0%nat _ _ (fun _ _ (f : False) => match f with end) P eq_refl).
Defined.

(** * The race *)

Section race.
Context `{RedisLaws St} {A : Type}.
Variable env : St -> St -> Prop.
Variable ok : prog A -> Prop.

(** The turns of a pool of two handlers. *)
Lemma pool_first (s : St) cs (k : list reply -> prog A) p :
  pstep env ok (s, [Turn cs k; p]) ((exec_all s cs).1, [k (exec_all s cs).2; p]).
Proof. by apply (pstep_turn env ok s [Turn cs k; p] 0). Qed.

Lemma pool_second (s : St) cs (k : list reply -> prog A) p :
  pstep env ok (s, [p; Turn cs k]) ((exec_all s cs).1, [p; k (exec_all s cs).2]).
Proof. by apply (pstep_turn env ok s [p; Turn cs k] 1). Qed.

Lemma exec_register (s : St) csp u :
  let r := exec_all s (registerUser_cmds csp u ++ [SELECT 2]) in
  r.2 = [ROk; ROk; RInt 1; ROk] /\ view_of r.1 = registered (view_of s) csp u.
Proof.
  apply (wpc_sound (registerUser_cmds csp u ++ [SELECT 2]) s
    (fun rs v => rs = [ROk; ROk; RInt 1; ROk] /\ v = registered (view_of s) csp u)).
  cbn [app registerUser_cmds]. do 2 redis_step.
  apply wpc_det; [done|]. cbn [doc_step]. unfold at_key, here.
  cbn [selected data ttls fst snd]. rewrite lookup_insert_eq. cbn [fst snd].
  by do 2 redis_step.
Qed.

Lemma exec_select (s : St) n :
  (0 <=? n) && (n <? 16) = true ->
  (exec_all s [SELECT n]).2 = [ROk] /\ view_of (exec_all s [SELECT n]).1 = sel n (view_of s).
Proof.
  intros Hn. apply (wpc_sound [SELECT n] s (fun rs v => rs = [ROk] /\ v = sel n (view_of s))).
  by apply wpc_select.
Qed.

Lemma exec_hgetall (s : St) k :
  (exec_all s [HGETALL k]).2 = [hgetall_reply (view_of s) k].
Proof.
  apply (wpc_sound [HGETALL k] s (fun rs _ => rs = [hgetall_reply (view_of s) k])).
  by apply wpc_det.
Qed.
End race.

(** The turns of the two handlers of the race. *)
Lemma turn_request_turns MD5 cfg iso rnd csp req :
  served_as (rmethod req) = GET_ -> rpath req = "/getAppropriateTurn" -> query req !! "cspId" = Some csp ->
  let u := client_id MD5 (Some csp) (query req !! "clientName") iso in
  exists k1 k2,
    (route MD5 cfg iso rnd req).2
      = Turn (registerUser_cmds (Some csp) u ++ [SELECT 2]) k1 /\
    k1 [ROk; ROk; RInt 1; ROk] = Turn [HGETALL (prov_key csp)] k2 /\
    k2 [RHash None]
      = Done (Resolved (Some (Send 404 "Unable to get a turn server : CSP not found"))).
Proof.
  intros Hm Hp Hq u. unfold route, route_path. rewrite Hm, Hp.
  unfold route_getAppropriateTurn. rewrite Hq.
  eexists _, _. split; [reflexivity|]. split; reflexivity.
Qed.

Lemma credentials_request_turns MD5 cfg iso rnd req :
  served_as (rmethod req) = GET_ -> rpath req = "/getCredentials" ->
  exists k, (route MD5 cfg iso rnd req).2 = Turn [SELECT 0] k.
Proof. intros Hm Hp. unfold route, route_path. rewrite Hm, Hp. eexists. reflexivity. Qed.

(** C9. The race on SELECT.  A client of a CSP that is provisioned (database 2
    is not touched by the two requests but for the client's own registration)
    can be refused as belonging to an unknown CSP: when a credential request
    selects database 0 while the first request waits for its own SELECT, the
    CSP is looked up in database 0. *)
Theorem credentials_race `{RedisLaws St} MD5 cfg env ok iso rnd csp req1 req2 (s : St) :
  served_as (rmethod req1) = GET_ -> rpath req1 = "/getAppropriateTurn" -> query req1 !! "cspId" = Some csp ->
  served_as (rmethod req2) = GET_ -> rpath req2 = "/getCredentials" ->
  data (view_of s) !! (0, prov_key csp) = None ->
  exists s' p2,
    rtc (pstep env ok)
      (s, [(route MD5 cfg iso rnd req1).2; (route MD5 cfg iso rnd req2).2])
      (s', [Done (Resolved (Some (Send 404 "Unable to get a turn server : CSP not found"))); p2])
    /\ forall k, k <> user_key (client_id MD5 (Some csp) (query req1 !! "clientName") iso) ->
         db2 (view_of s') k = db2 (view_of s) k.
Proof.
  intros Hm1 Hp1 Hq1 Hm2 Hp2 Hno.
  destruct (turn_request_turns MD5 cfg iso rnd csp req1 Hm1 Hp1 Hq1) as (k1 & k2 & -> & E1 & E2).
  destruct (credentials_request_turns MD5 cfg iso rnd req2 Hm2 Hp2) as (k3 & ->).
  set (u := client_id MD5 (Some csp) _ iso).
  destruct (exec_register s (Some csp) u) as [R1 V1].
  set (s1 := (exec_all s (registerUser_cmds (Some csp) u ++ [SELECT 2])).1) in *.
  destruct (exec_select s1 0 eq_refl) as [R2 V2].
  set (s2 := (exec_all s1 [SELECT 0]).1) in *.
  assert (R3 : (exec_all s2 [HGETALL (prov_key csp)]).2 = [RHash None]
            /\ view_of (exec_all s2 [HGETALL (prov_key csp)]).1 = view_of s2).
  { apply (wpc_sound [HGETALL (prov_key csp)] s2
      (fun rs v => rs = [RHash None] /\ v = view_of s2)).
    apply wpc_det; [done|]. cbn [doc_step fst snd wpc]. unfold at_key, here.
    rewrite V2, V1. cbn [selected sel data registered].
    by rewrite lookup_insert_ne, Hno by done. }
  destruct R3 as [R3 V3].
  exists (exec_all s2 [HGETALL (prov_key csp)]).1, (k3 [ROk]). split.
  - eapply rtc_l; [apply pool_first|]. rewrite R1, E1. fold s1.
    eapply rtc_l; [apply pool_second|]. rewrite R2. fold s2.
    eapply rtc_l; [apply pool_first|]. rewrite R3, E2. apply rtc_refl.
  - intros k Hk. rewrite V3, V2, V1. by apply (db2_registered (view_of s)).
Qed.

Definition cred_request : request := {|
  rmethod := GET_; rpath := "/getCredentials";
  query := {["clientId" := "u1"]}; body := ∅; credentials := None;
|}.

Definition race_view : view :=
  View 2 (<[(2, "prov:acme") := VHash {["dataQuota" := "1000"]}]>
         {[(2, "prov:acme:conso") := VHash {["data" := "0"]}]}) ∅.

Lemma credentials_race_witness :
  exists s' p2,
    rtc (pstep (fun _ _ => False) (fun _ => False))
      (race_view, [(route id demo_cfg "t" (Fin 0) turn_request).2;
                   (route id demo_cfg "t" (Fin 0) cred_request).2])
      (s', [Done (Resolved (Some (Send 404 "Unable to get a turn server : CSP not found"))); p2]).
Proof.
  destruct (credentials_race (St := view) id demo_cfg (fun _ _ => False) (fun _ => False) "t"
    (Fin 0) "acme" turn_request cred_request race_view eq_refl eq_refl
    ltac:(by vm_compute) eq_refl eq_refl ltac:(by vm_compute)) as (s' & p2 & R & _).
  by exists s', p2.
Defined.
