(* ===== verification/BrokerProps.v ===== *)
(** More properties of the broker: what the traffic reports carry, who may open
    which page, which requests are answered, and the credentials it issues. *)
From S2P Require Import Prelude JsNum JsString Regex Traffic Redis Async Dao DaoSpec Server.

(** * Traffic reports *)

(** Reports are read back.  For an allocation of any user of any realm, the
    channel and the message coturn publishes are parsed to that user and to the
    number of bytes sent. *)
Theorem published_roundtrip ip port realm usr alloc rp rb sp sb :
  segment ip = true -> segment port = true -> segment realm = true -> segment usr = true ->
  str_all plain_digit alloc = true -> 0 <= rp -> 0 <= rb -> 0 <= sp -> 0 <= sb ->
  parseTurnTraffic (channel_name ip port realm usr alloc) (traffic_message rp rb sp sb)
    = Some {| user := usr; sent_bytes := dec sb |}.
Proof. intros. by apply parse_published. Qed.

Lemma published_roundtrip_witness :
  parseTurnTraffic
    "turn/10.0.0.1/3478/realm/orange.com/user/u1/allocation/000000000000000001/traffic"
    "rcvp=1, rcvb=20, sentp=3, sentb=40" = Some {| user := "u1"; sent_bytes := "40" |}.
Proof.
  exact (published_roundtrip "10.0.0.1" "3478" "orange.com" "u1" "000000000000000001" 1 20 3 40
    eq_refl eq_refl eq_refl eq_refl eq_refl ltac:(lia) ltac:(lia) ltac:(lia) ltac:(lia)).
Defined.

(** * Access *)

Definition allowed (cfg : config) (cr : option (string * string)) : bool :=
  match cr with
  | Some (n, p) => nonempty n && nonempty p && String.eqb n (LOGIN cfg) && String.eqb p (PASSWD cfg)
  | None => false
  end.

(** The same request with other credentials. *)
Definition as_user (req : request) (cr : option (string * string)) : request :=
  {| rmethod := rmethod req; rpath := rpath req; query := query req; body := body req;
     credentials := cr |}.

Lemma guarded_spec cfg req r :
  guarded cfg req r = if allowed cfg (credentials req) then r else answer_now (SendStatus 401).
Proof.
  unfold guarded, auth, allowed. destruct (credentials req) as [[n p]|]; [|done].
  destruct (nonempty n), (nonempty p); try done. cbn [negb orb andb].
  by destruct (String.eqb n _ && String.eqb p _).
Qed.

(** What the router does with a request depends on its credentials only for the two
    pages. *)
Lemma route_access MD5 cfg iso rnd req :
  let p := route_path req in
  if bool_decide (served_as (rmethod req) = GET_) && (String.eqb p "/dashboard" || String.eqb p "/apidoc") then
    route MD5 cfg iso rnd req = answer_now
      (if allowed cfg (credentials req)
       then SendFile (if String.eqb p "/dashboard" then "dashboard.html" else "apidoc/index.html")
       else SendStatus 401)
  else forall cr, route MD5 cfg iso rnd (as_user req cr) = route MD5 cfg iso rnd req.
Proof.
  cbv zeta. unfold route, as_user. cbn [rmethod].
  destruct (served_as (rmethod req)) eqn:Em; try done. rewrite bool_decide_eq_true_2 by done. cbn [andb].
  destruct (String.eqb (route_path req) "/dashboard") eqn:E1; cbn [orb].
  { rewrite guarded_spec. by destruct (allowed _ _). }
  destruct (String.eqb (route_path req) "/apidoc") eqn:E2; cbn [orb].
  { rewrite guarded_spec. by destruct (allowed _ _). }
  intros cr. unfold route_path in *. cbn [rpath]. by rewrite E1, E2.
Qed.

(** C28. The guard can be walked round.  A request for the dashboard or the documentation
    that no file answers gets its page with the configured login and password, both
    non-empty, and 401 otherwise; every other request, provisioning, deletion and quota
    changes included, is served the same whatever its credentials.  Among these are
    "/dashboard.html" and "/apidoc/", which send the two guarded pages, and "/apidoc",
    which the static files answer before the guard is asked. *)
Theorem only_pages_are_guarded MD5 cfg iso rnd files static req :
  StaticLaws files static ->
  "dashboard.html" ∈ files -> "apidoc/index.html" ∈ files -> "apidoc" ∉ files ->
  let served := serve MD5 cfg iso rnd static in
  (if bool_decide (served_as (rmethod req) = GET_ /\ static (rpath req) = None) &&
      (String.eqb (route_path req) "/dashboard" || String.eqb (route_path req) "/apidoc") then
     served req = answer_now
       (if allowed cfg (credentials req)
        then SendFile (if String.eqb (route_path req) "/dashboard" then "dashboard.html"
                       else "apidoc/index.html")
        else SendStatus 401)
   else forall cr, served (as_user req cr) = served req) /\
  (served_as (rmethod req) = GET_ ->
   (rpath req = "/dashboard.html" -> served req = answer_now (SendFile "dashboard.html")) /\
   (rpath req = "/apidoc/" -> served req = answer_now (SendFile "apidoc/index.html")) /\
   (rpath req = "/apidoc" -> served req = answer_now (Redirect "/apidoc/"))).
Proof.
  intros L Hd Ha Hna served. split.
  - unfold served, serve. pose proof (route_access MD5 cfg iso rnd req) as R. cbv zeta in R.
    destruct (bool_decide_reflect (served_as (rmethod req) = GET_)) as [Hm|Hm]; cbn [andb] in R.
    + rewrite Hm. destruct (static (rpath req)) as [a|] eqn:E.
      * rewrite bool_decide_eq_false_2 by by intros [_ ?].
        cbn [andb]. intros cr. unfold as_user. cbn [rmethod rpath]. by rewrite Hm, E.
      * rewrite bool_decide_eq_true_2 by done. cbn [andb].
        destruct (_ || _); [done|]. intros cr. rewrite <- (R cr). unfold as_user.
        cbn [rmethod rpath]. by rewrite Hm, E.
    + rewrite bool_decide_eq_false_2 by by intros [? _]. cbn [andb]. intros cr.
      unfold as_user in *. cbn [rmethod rpath]. destruct (served_as (rmethod req)); [done|apply R..].
  - intros Hm. unfold served, serve. rewrite Hm. split_and!; intros ->.
    + pose proof (static_file _ _ L _ Hd) as E. change ("/" +:+ "dashboard.html") with "/dashboard.html" in E.
      by rewrite E.
    + pose proof (static_index _ _ L "apidoc" Ha) as E.
      change ("/" +:+ "apidoc" +:+ "/") with "/apidoc/" in E. by rewrite E.
    + pose proof (static_directory _ _ L "apidoc" "index.html" Ha Hna) as E.
      change ("/" +:+ "apidoc") with "/apidoc" in E. by rewrite E.
Qed.

(** The two pages as static files, for the examples. *)
Definition two_files : list string := ["dashboard.html"; "apidoc/index.html"].
Definition two_static (path : string) : option response :=
  if String.eqb path "/dashboard.html" then Some (SendFile "dashboard.html")
  else if String.eqb path "/apidoc/index.html" || String.eqb path "/apidoc/"
  then Some (SendFile "apidoc/index.html")
  else if String.eqb path "/apidoc" then Some (Redirect "/apidoc/")
  else None.

Lemma two_static_laws : StaticLaws two_files two_static.
Proof.
  assert (D : forall d t, d +:+ String "/" t ∈ two_files -> d = "apidoc" /\ t = "index.html").
  { intros d t H. unfold two_files in H. rewrite !elem_of_cons, elem_of_nil in H.
    destruct H as [H|[H|[]]];
      do 18 (destruct d as [|? d]; [by (discriminate H || injection H as ->)|];
             try discriminate H; injection H as -> H). }
  split.
  - intros f H. unfold two_files in H. rewrite !elem_of_cons, elem_of_nil in H.
    by destruct H as [->|[->|[]]].
  - intros d H. destruct (D d "index.html" H) as [-> _]. done.
  - intros d f H _. destruct (D d f H) as [-> _]. done.
Qed.

Definition page_request (path : string) : request :=
  {| rmethod := GET_; rpath := path; query := ∅; body := ∅; credentials := None |}.

Lemma only_pages_are_guarded_witness :
  let served := serve id {| LOGIN := "l"; PASSWD := "p" |} "t" (Fin 0) two_static in
  served (page_request "/dashboard") = answer_now (SendStatus 401) /\
  served (page_request "/dashboard.html") = answer_now (SendFile "dashboard.html").
Proof.
  pose proof (fun req => only_pages_are_guarded id {| LOGIN := "l"; PASSWD := "p" |} "t" (Fin 0)
    two_files two_static req two_static_laws ltac:(left) ltac:(right; left)
    ltac:(apply (bool_decide_unpack _); by vm_compute)) as H.
  split.
  - exact (proj1 (H (page_request "/dashboard"))).
  - exact (proj1 (proj2 (H (page_request "/dashboard.html")) eq_refl) eq_refl).
Defined.

(** * Answers *)

Lemma collect_turns_settles v names acc :
  match collect_turns names (map (get_reply v) names) acc with
  | Resolved _ | Rejected _ => True
  | _ => False
  end.
Proof.
  revert acc. induction names as [|k names IH]; intros acc; [done|]. cbn [map collect_turns].
  destruct (get_reply v k); done || apply IH.
Qed.

Lemma admission_settles MD5 v csp client iso rnd o :
  admission MD5 v csp client iso rnd o ->
  match o with Resolved _ | Rejected _ => True | _ => False end.
Proof.
  unfold admission, csp_outcome.
  destruct (db2 v (prov_key (js_str csp))) as [[|h]|]; [by intros ->| |by intros ->].
  destruct (db2 v (conso_key (js_str csp))) as [[|c]|]; [by intros ->| |by intros ->].
  destruct (quota_exceeded _); [by intros ->|]. intros (names & _ & ->).
  unfold turns_outcome. destruct names as [|k names]; [done|].
  pose proof (collect_turns_settles (sel 2 v) (k :: names) []) as S.
  destruct (collect_turns _ _ _); done.
Qed.

(** C29. A request for a TURN server is always answered: with 200, an address (if
    one was drawn) and the client id, or with 404 and a reason; whatever is
    stored, and whatever the request lacks. *)
Theorem turn_request_answered `{RedisLaws St} MD5 cfg iso rnd req (s : St) :
  served_as (rmethod req) = GET_ -> route_path req = "/getappropriateturn" ->
  let r := route MD5 cfg iso rnd req in
  exists resp, final_response r.1 (run r.2 s).1 = Some resp /\
    ((exists url, resp = Json 200 (JTurn url
        (client_id MD5 (query req !! "cspId") (query req !! "clientName") iso))) \/
     (exists reason, resp = Send 404 reason)).
Proof.
  intros Hm Hp r. subst r. unfold route. rewrite Hm, Hp.
  change (String.eqb "/getappropriateturn" "/dashboard") with false.
  change (String.eqb "/getappropriateturn" "/apidoc") with false.
  change (String.eqb "/getappropriateturn" "/getappropriateturn") with true. cbn iota.
  unfold route_getAppropriateTurn. cbn [fst snd final_response].
  by_wp. unfold answering_or. apply wp_settle, wp_getAppropriateTurn. intros o Ha.
  pose proof (admission_settles _ _ _ _ _ _ _ Ha) as Hs.
  destruct o as [[url id]|e| |]; try done; cbn [wp].
  - eexists. split; [done|]. left. exists url. f_equal. f_equal.
    unfold admission in Ha. destruct (csp_outcome _ _) as [i|e| |]; try done.
    destruct (quota_exceeded i); [done|]. destruct Ha as (names & _ & E).
    destruct (turns_outcome _ _); simplify_eq. done.
  - eexists. split; [done|]. right. by eexists.
Qed.

Definition bare_request : request :=
  {| rmethod := GET_; rpath := "/getAppropriateTurn"; query := ∅; body := ∅; credentials := None |}.

Lemma turn_request_answered_witness :
  exists resp, final_response None
    (run (route id {| LOGIN := "l"; PASSWD := "p" |} "t" (Fin 0) bare_request).2 (View 0 ∅ ∅)).1
      = Some resp.
Proof.
  destruct (turn_request_answered (St := view) id {| LOGIN := "l"; PASSWD := "p" |} "t" (Fin 0)
    bare_request (View 0 ∅ ∅) eq_refl eq_refl) as (resp & E & _).
  exists resp. exact E.
Defined.

(** ** Requests that are never answered *)

(** A key the listing shows. *)
Definition csp_key (v : view) (k : string) : Prop :=
  has_prefix "prov:" k = true /\ no_conso k /\ is_Some (db2 v k).

(** The requests that get no answer, from what is stored: a deletion without a key, or of
    a key that does not exist; the listing of no CSP, or of a key that is not a hash; the
    consumption and the quotas of a key that is not a hash. *)
Definition unanswered (v : view) (req : request) : Prop :=
  let p := route_path req in
  match served_as (rmethod req) with
  | DELETE_ =>
      p = "/deletecsp" /\
      match query req !! "cspkey" with Some k => db2 v k = None | None => True end
  | GET_ =>
      p = "/getallcspinfo" /\
        ((forall k, ~ csp_key v k) \/ exists k x, csp_key v k /\ db2 v k = Some (VStr x)) \/
      p = "/getcspconso" /\
        (exists x, db2 v (js_str (query req !! "cspkey") +:+ ":conso") = Some (VStr x)) \/
      p = "/changequotas" /\
        exists x, db2 v (js_str (query req !! "cspKey")) = Some (VStr x)
  | _ => False
  end.

(** No response when the work of a route settles. *)
Definition silent (o : outcome (option response)) : Prop := final_response None o = None.

Lemma silent_listing v :
  wp (answering_or getAllCspInfo (fun l => Json 200 (JInfos l)) (fun err => Send 500 err)) v
    (fun o _ => silent o <->
       ((forall k, ~ csp_key v k) \/ exists k x, csp_key v k /\ db2 v k = Some (VStr x))).
Proof.
  apply wp_settle, wp_getAllCspInfo. intros names Hn.
  assert (Hk : forall k, k ∈ prov_keys names <-> csp_key v k).
  { intros k. unfold prov_keys, csp_key. rewrite list_elem_of_filter, Hn, elem_of_keys.
    unfold no_conso. rewrite <- conso_pattern_iff, <- not_true_iff_false.
    change (at_key (sel 2 v) k) with (db2 v k). tauto. }
  unfold listing_outcome. destruct (prov_keys names) as [|k0 l].
  - cbn. split; [|done]. intros _. left. intros k H. by apply Hk, not_elem_of_nil in H.
  - destruct (mapM (csp_entry v) (k0 :: l)) as [es|] eqn:E; cbn [wp].
    + split; [done|]. intros [H|(k & x & H & Hx)].
      * exfalso. apply (H k0), Hk. left.
      * exfalso. apply Hk in H. apply mapM_Some in E.
        apply list_elem_of_lookup in H as [i Hi].
        destruct (Forall2_lookup_l _ _ _ _ _ E Hi) as (y & _ & Hy).
        unfold csp_entry in Hy. by rewrite Hx in Hy.
    + split; [|done]. intros _. right. apply mapM_None, Exists_exists in E as (k & Hin & Hy).
      apply Hk in Hin. destruct Hin as (Hp & Hc & [x Hx]).
      exists k. unfold csp_entry in Hy. rewrite Hx in Hy. destruct x as [x|]; [|done].
      exists x. split; [|done]. split_and!; [done|done|by exists (VStr x)].
Qed.

Lemma silent_conso key v f :
  wp (answering (getCSPConso key) f) v
    (fun o _ => silent o <-> exists x, db2 v (js_str key +:+ ":conso") = Some (VStr x)).
Proof.
  apply wp_settle. unfold getCSPConso. apply wp_selecting, wp_settle_reply; [done..|].
  cbn [doc_step fst snd]. unfold at_key, here, db2. cbn [selected data sel].
  destruct (data v !! _) as [[x|h]|]; cbn.
  - split; [by exists x|done].
  - split; [done|by intros [x [=]]].
  - split; [done|by intros [x [=]]].
Qed.

Lemma silent_quotas key a x d v f :
  wp (answering (updateCSPQuotas key a x d) f) v
    (fun o _ => silent o <-> exists y, db2 v (js_str key) = Some (VStr y)).
Proof.
  apply wp_settle. unfold updateCSPQuotas. apply wp_selecting, wp_settle_reply; [done..|].
  cbn [doc_step]. unfold at_key, here, db2. cbn [selected data sel].
  destruct (data v !! _) as [[y|h]|]; cbn.
  - split; [by exists y|done].
  - split; [done|by intros [y [=]]].
  - split; [done|by intros [y [=]]].
Qed.

(** The answer of a deletion is that of its second renaming. *)
Lemma silent_delete key v f :
  wp (answering (deleteCSP key) f) v (fun o _ => silent o <-> db2 v key = None).
Proof.
  apply wp_settle. unfold deleteCSP. cbn [wp]. apply wpc_select; [done|].
  assert (N1 : (2, key) <> (2, key +:+ ":conso")).
  { intros [= H]. by apply (app_neq_self key ":conso") in H. }
  assert (N2 : (2, key) <> (2, "histo" +:+ key +:+ ":conso")).
  { intros [= H]. apply (f_equal String.length) in H. rewrite !string_length_app in H.
    cbn in H. lia. }
  apply wpc_det; [done|]. cbn [doc_step]. unfold at_key, here. cbn [selected data].
  set (v1 := fst _). assert (E : data v1 !! (2, key) = data v !! (2, key) /\ selected v1 = 2).
  { subst v1. destruct (data v !! (2, key +:+ ":conso")); [|done]. cbn. split; [|done].
    by rewrite lookup_insert_ne, lookup_delete_ne. }
  destruct E as [E Es]. clearbody v1.
  apply wpc_det; [done|]. cbn [doc_step]. unfold at_key, here. rewrite Es, E. unfold db2.
  destruct (data v !! (2, key)); cbn [wpc fst snd drop on_reply wp]; by split.
Qed.

Lemma silent_turn MD5 csp client iso rnd v f g :
  wp (answering_or (getAppropriateTurn MD5 csp client iso rnd) f g) v (fun o _ => ~ silent o).
Proof.
  apply wp_settle, wp_getAppropriateTurn. intros o Ha%admission_settles. by destruct o.
Qed.

(** C30. A request is left without an answer exactly when [unanswered] says so: whatever
    is stored and whatever it carries, every other request gets a response, at once or
    when the database has replied. *)
Theorem unanswered_iff `{RedisLaws St} MD5 cfg iso rnd req (s : St) :
  let r := route MD5 cfg iso rnd req in
  final_response r.1 (run r.2 s).1 = None <-> unanswered (view_of s) req.
Proof.
  cbv zeta. unfold unanswered, route. generalize (route_path req). intros p.
  assert (Hnow : forall x, final_response (answer_now x).1 (run (answer_now x).2 s).1 = None <-> False)
    by done.
  destruct (served_as (rmethod req)).
  - assert (G : forall r n, final_response (guarded cfg req (answer_now (SendFile n))).1 r = None <-> False)
      by (intros r n; unfold guarded; by destruct (auth cfg req)).
    repeat (match goal with |- context [String.eqb p ?c] => destruct (String.eqb_spec p c) as [->|] end);
      cbn [fst snd].
    + rewrite G. intuition discriminate.
    + rewrite G. intuition discriminate.
    + unfold route_getAppropriateTurn. cbn [fst snd].
      enough (~ silent (run (answering_or (getAppropriateTurn MD5 (query req !! "cspId")
        (query req !! "clientName") iso rnd) (fun '(url, id) => Json 200 (JTurn url id))
        (fun error => Send 404 error)) s).1) by (unfold silent in *; intuition discriminate).
      by_wp. apply silent_turn.
    + transitivity ((forall k, ~ csp_key (view_of s) k) \/
        exists k x, csp_key (view_of s) k /\ db2 (view_of s) k = Some (VStr x)).
      * unfold route_getAllCspInfo. cbn [fst snd]. by_wp. apply silent_listing.
      * intuition discriminate.
    + transitivity (exists x, db2 (view_of s) (js_str (query req !! "cspkey") +:+ ":conso")
        = Some (VStr x)).
      * unfold route_getCspConso. cbn [fst snd]. by_wp. apply silent_conso.
      * intuition discriminate.
    + unfold route_getCredentials. cbn [fst snd].
      transitivity False; [|intuition discriminate]. by_wp. unfold answering.
      by apply wp_settle, wp_getCredentials.
    + transitivity (exists x, db2 (view_of s) (js_str (query req !! "cspKey")) = Some (VStr x)).
      * unfold route_changeQuotas. cbn [fst snd]. by_wp. apply silent_quotas.
      * intuition discriminate.
    + rewrite Hnow. tauto.
  - done.
  - destruct (String.eqb p _); [|done]. unfold provRequest. by destruct (registerCSP _ _).
  - destruct (String.eqb_spec p "/deletecsp") as [->|]; [|rewrite Hnow; tauto].
    unfold route_deleteCSP. destruct (query req !! "cspkey") as [k|]; [|cbn; tauto].
    cbn [fst snd]. transitivity (db2 (view_of s) k = None); [|tauto].
    by_wp. apply silent_delete.
  - done.
Qed.

Lemma unanswered_iff_witness :
  let r := route id {| LOGIN := "l"; PASSWD := "p" |} "t" (Fin 0)
    {| rmethod := GET_; rpath := "/getAllCspInfo/"; query := ∅; body := ∅; credentials := None |} in
  final_response r.1 (run r.2 (View 0 ∅ ∅)).1 = None.
Proof.
  apply (unanswered_iff (St := view) id {| LOGIN := "l"; PASSWD := "p" |} "t" (Fin 0)).
  left. split; [reflexivity|]. left. intros k (_ & _ & [x Hx]).
  unfold db2 in Hx. cbn [data view_of RefRedis] in Hx. by rewrite lookup_empty in Hx.
Defined.

(** Deleting a CSP that does not exist is never answered: the route sends
    nothing, at once or later, and no key of the database changes. *)
Theorem delete_unknown_unanswered `{RedisLaws St} MD5 cfg iso rnd req csp (s : St) :
  served_as (rmethod req) = DELETE_ -> route_path req = "/deletecsp" ->
  query req !! "cspkey" = Some (prov_key csp) ->
  db2 (view_of s) (prov_key csp) = None -> db2 (view_of s) (conso_key csp) = None ->
  let r := route MD5 cfg iso rnd req in
  final_response r.1 (run r.2 s).1 = None /\
  forall k, db2 (view_of (run r.2 s).2) k = db2 (view_of s) k.
Proof.
  intros Hm Hp Hq Hx Hy r. subst r. unfold route. rewrite Hm, Hp.
  change (String.eqb "/deletecsp" "/deletecsp") with true. cbn iota.
  unfold route_deleteCSP. rewrite Hq. cbn [fst snd final_response].
  by_wp. unfold answering. apply wp_settle. unfold deleteCSP. cbn [wp].
  assert (Hk : prov_key csp +:+ ":conso" = conso_key csp).
  { unfold prov_key, conso_key. by rewrite <- string_app_assoc. }
  destruct (key_neqs (prov_key csp)) as (N1 & N2 & N3).
  destruct (N3 (has_prefix_app _ _)) as (N4 & N5 & N6 & N7). rewrite Hk in *.
  apply wpc_select; [done|].
  apply wpc_rename; [done|exact N7|]. 
  change (db2 (View 2 (data (view_of s)) (ttls (view_of s))) (conso_key csp))
    with (db2 (view_of s) (conso_key csp)). rewrite Hy.
  apply wpc_rename; [done|exact N4|].
  change (db2 (View 2 (data (view_of s)) (ttls (view_of s))) (prov_key csp))
    with (db2 (view_of s) (prov_key csp)). rewrite Hx.
  by split.
Qed.

Definition delete_request : request :=
  {| rmethod := DELETE_; rpath := "/deleteCSP"; query := {["cspkey" := "prov:ghost"]}; body := ∅;
     credentials := None |}.

Lemma delete_unknown_unanswered_witness :
  final_response None
    (run (route id {| LOGIN := "l"; PASSWD := "p" |} "t" (Fin 0) delete_request).2 (View 0 ∅ ∅)).1
      = None.
Proof.
  exact (proj1 (delete_unknown_unanswered (St := view) id {| LOGIN := "l"; PASSWD := "p" |} "t"
    (Fin 0) delete_request "ghost" (View 0 ∅ ∅) eq_refl eq_refl ltac:(by vm_compute)
    ltac:(by vm_compute) ltac:(by vm_compute))).
Defined.

(** The registration that the agents of src/agent send is none of the broker's requests:
    no route takes it. *)
Lemma registration_unrouted MD5 cfg iso rnd req :
  served_as (rmethod req) = POST_ -> rpath req = "/turn-servers-management/register/" ->
  route MD5 cfg iso rnd req = answer_now NextRoute.
Proof. intros Hm Hp. unfold route, route_path. by rewrite Hm, Hp. Qed.

(** * Credentials *)

Definition base36 (c : ascii) : bool := is_digit 36 c && negb (in_range "A" "Z" c).

Lemma digits_go_base36 fuel n acc :
  str_all base36 acc = true -> str_all base36 (digits_go fuel 36 n acc) = true.
Proof.
  revert n acc. induction fuel as [|f IH]; intros n acc H; [done|]. cbn [digits_go].
  pose proof (Z.mod_pos_bound n 36 ltac:(lia)) as Hb.
  assert (H' : str_all base36 (String (digit_char (n mod 36)) acc) = true).
  { cbn [str_all]. rewrite H, andb_true_r.
    by apply (range_test 36 (fun d => base36 (digit_char d)) ltac:(by vm_compute)). }
  destruct (n / 36 =? 0); [done|]. by apply IH.
Qed.

Lemma digits_go_length fuel k b n acc :
  2 <= b -> (k < fuel)%nat -> b ^ Z.of_nat k <= n < b ^ Z.of_nat (S k) ->
  String.length (digits_go fuel b n acc) = (S k + String.length acc)%nat.
Proof.
  intros Hb. revert k n acc. induction fuel as [|f IH]; intros k n acc Hk Hn; [lia|].
  cbn [digits_go]. destruct k as [|k].
  - rewrite Z.div_small by (cbn in Hn; lia). done.
  - assert (E1 : b ^ Z.of_nat (S k) = b * b ^ Z.of_nat k)
      by (rewrite Nat2Z.inj_succ, Z.pow_succ_r; lia).
    assert (E2 : b ^ Z.of_nat (S (S k)) = b * b ^ Z.of_nat (S k))
      by (rewrite (Nat2Z.inj_succ (S k)), Z.pow_succ_r; lia).
    assert (Hd : b ^ Z.of_nat k <= n / b < b ^ Z.of_nat (S k)).
    { split; [apply Z.div_le_lower_bound|apply Z.div_lt_upper_bound]; lia. }
    pose proof (Z.pow_pos_nonneg b (Z.of_nat k) ltac:(lia) ltac:(lia)).
    destruct (Z.eqb_spec (n / b) 0); [lia|].
    rewrite (IH k) by (done || lia). cbn. lia.
Qed.

(** The integer whose digits make the password. *)
Lemma random_draw rnd :
  random_value rnd ->
  exists r, 35 * 36 ^ 6 <= r <= 36 ^ 7 /\ randomString 6 rnd = slice1 (digits 36 r).
Proof.
  intros Hr. pose proof scale_pos as Hs. unfold randomString.
  change (pow_Z 36 (6 + 1)) with (of_Z (36 ^ 7)). change (pow_Z 36 6) with (of_Z (36 ^ 6)).
  destruct (mul_random (36 ^ 6) rnd ltac:(lia) Hr) as (k & -> & Hk).
  assert (exists m, sub (of_Z (36 ^ 7)) (Fin k) = Fin m /\
                    35 * 36 ^ 6 * scale <= m <= 36 ^ 7 * scale) as (m & -> & Hm).
  { unfold sub. rewrite of_Z_exact by lia. cbn [neg].
    destruct (Z.eqb_spec k 0) as [->|Hk0]; cbn [add].
    - exists (36 ^ 7 * scale). split; [done|lia].
    - apply of_ratio_between; [lia|lia|by vm_compute|lia|by vm_compute|by vm_compute]. }
  set (r := (2 * m + scale) / (2 * scale)).
  assert (Hrr : 35 * 36 ^ 6 <= r <= 36 ^ 7).
  { unfold r. split; [apply Z.div_le_lower_bound; lia|].
    apply Z.lt_succ_r, Z.div_lt_upper_bound; lia. }
  exists r. split; [done|]. cbn [round]. fold r.
  rewrite (proj2 (Z.eqb_neq r 0)) by lia. cbn [andb trunc_Z].
  rewrite Z.quot_mul by lia. unfold int_to_radix. by rewrite (proj2 (Z.ltb_ge r 0)) by lia.
Qed.

(** The form of a password: lower-case base-36 digits, six of them, or the
    seven zeros the code makes of the smallest random numbers. *)
Theorem password_form rnd :
  random_value rnd ->
  let w := randomString 6 rnd in
  str_all base36 w = true /\ (String.length w = 6%nat \/ w = "0000000").
Proof.
  intros Hr w. subst w. destruct (random_draw rnd Hr) as (r & Hb & ->).
  destruct (Z.eq_dec r (36 ^ 7)) as [->|Hne]; [split; [by vm_compute|right; by vm_compute]|].
  assert (Ha : str_all base36 (digits 36 r) = true) by (by apply digits_go_base36).
  assert (Hl : String.length (digits 36 r) = 7%nat).
  { unfold digits. rewrite (digits_go_length _ 6); [done|lia| |].
    - pose proof (Z.log2_le_mono (35 * 36 ^ 6) r ltac:(lia)) as L.
      change (Z.log2 (35 * 36 ^ 6)) with 36 in L. lia.
    - change (Z.of_nat 6) with 6. change (Z.of_nat 7) with 7. lia. }
  destruct (digits 36 r) as [|c s]; [done|]. cbn [slice1 str_all String.length] in *.
  apply andb_true_iff in Ha as [_ Ha]. split; [done|]. left. lia.
Qed.

Lemma password_form_witness : str_all base36 (randomString 6 (Fin (2 ^ 1073))) = true.
Proof.
  refine (proj1 (password_form (Fin (2 ^ 1073)) _)).
  exists (2 ^ 1073). split; [done|]. split; by vm_compute.
Defined.

(** The credentials work.  The route answers with the client id and a
    password, and stores, for that client and in database 0 where the TURN server
    looks, exactly the digest of "client:realm:password"; no other key of any
    database changes. *)
Theorem credentials_issued `{RedisLaws St} MD5 cfg iso rnd req cid (s : St) :
  served_as (rmethod req) = GET_ -> route_path req = "/getcredentials" ->
  query req !! "clientId" = Some cid ->
  let r := route MD5 cfg iso rnd req in
  let pw := randomString 6 rnd in
  final_response r.1 (run r.2 s).1 = Some (Json 200 (JCredentials (Some cid) pw)) /\
  data (view_of (run r.2 s).2) !! (0, "turn/realm/orange.com/user/" +:+ cid +:+ "/key")
    = Some (VStr (MD5 (cid +:+ ":orange.com:" +:+ pw))) /\
  forall db k, (db, k) <> (0, "turn/realm/orange.com/user/" +:+ cid +:+ "/key") ->
    data (view_of (run r.2 s).2) !! (db, k) = data (view_of s) !! (db, k).
Proof.
  intros Hm Hp Hq r pw. subst r pw. unfold route. rewrite Hm, Hp.
  change (String.eqb "/getcredentials" "/dashboard") with false.
  change (String.eqb "/getcredentials" "/apidoc") with false.
  change (String.eqb "/getcredentials" "/getappropriateturn") with false.
  change (String.eqb "/getcredentials" "/getallcspinfo") with false.
  change (String.eqb "/getcredentials" "/getcspconso") with false.
  change (String.eqb "/getcredentials" "/getcredentials") with true. cbn iota.
  unfold route_getCredentials. rewrite Hq. cbn [fst snd final_response].
  by_wp. unfold answering. apply wp_settle, wp_getCredentials. cbn [wp js_str data].
  unfold default, id. split; [done|]. split.
  - apply lookup_insert_eq.
  - intros db k Hk. apply lookup_insert_ne. exact (not_eq_sym Hk).
Qed.

Definition credentials_request : request :=
  {| rmethod := GET_; rpath := "/getCredentials"; query := {["clientId" := "u1"]}; body := ∅;
     credentials := None |}.

Lemma credentials_issued_witness :
  let r := route (fun s => "md5 of " +:+ s) {| LOGIN := "l"; PASSWD := "p" |} "t" (Fin (2 ^ 1073))
             credentials_request in
  final_response r.1 (run r.2 (View 0 ∅ ∅)).1
    = Some (Json 200 (JCredentials (Some "u1") (randomString 6 (Fin (2 ^ 1073))))).
Proof.
  exact (proj1 (credentials_issued (St := view) (fun s => "md5 of " +:+ s)
    {| LOGIN := "l"; PASSWD := "p" |} "t" (Fin (2 ^ 1073)) credentials_request "u1" (View 0 ∅ ∅)
    eq_refl eq_refl ltac:(by vm_compute))).
Defined.
