(* ===== verification/Dashboard.v ===== *)
(** The administration page of the broker
    (src/broker/BrokerServer/public/js/app.js and cspfilter.js): the controller
    of the table of CSPs as a state with one operation per event (an answer of
    the broker, a click), and the three pure functions of the page.

    A row is one object of [provs]; the rows are shared by reference, so the row
    being edited is kept as its index.  Angular, jQuery and the browser call the
    operations and are not modelled, but for the query string [$http.get]
    builds from its [params]. *)
From S2P Require Import Prelude JsNum JsString JsVal.

(** * Data *)

(** A triple indexed by the kind of traffic. *)
Record trio (A : Type) := Trio { t_audio : A; t_video : A; t_data : A }.
Arguments Trio {A} _ _ _.
Arguments t_audio {A} _.
Arguments t_video {A} _.
Arguments t_data {A} _.

Definition trio_map {A B} (f : A -> B) (t : trio A) : trio B :=
  Trio (f (t_audio t)) (f (t_video t)) (f (t_data t)).
Definition trio_zip {A B C} (f : A -> B -> C) (t : trio A) (u : trio B) : trio C :=
  Trio (f (t_audio t) (t_audio u)) (f (t_video t) (t_video u)) (f (t_data t) (t_data u)).

(** One CSP of the table: its key, the quotas, and the properties the
    consumption answers add. *)
Record row := Row {
  row_csp : string;
  quotas : trio jsval;
  consumed : trio jsval;
  hasrisen : trio jsval;
  percent : trio jsval;
}.

Record dash := Dash {
  provs : list row;
  order : string;
  orderType : jsval;
  oldcons : gmap string (trio jsval);
  cspToEdit : option nat;
  edit : bool;
  filteringUnit : string;
}.

(** Requests the page sends. *)
Inductive call :=
  | GetAllCspInfo
  | GetCspConso (first : bool) (url cspkey : string) (cspIndex : nat)
  | DeleteCsp (params : gmap string string)
  | ChangeQuotas (params : gmap string string).

Definition controller_init : dash * list call :=
  (Dash [] "" (JNum (of_Z 1)) ∅ None false "MB", [GetAllCspInfo]).

(** * Consumption *)

Definition calculatePercentConsumed (consumed quota : jsval) : num :=
  let consumed := parseInt_val consumed in
  let quota := parseInt_val quota in
  if eqn consumed (Fin 0) || eqn quota (Fin 0) then Fin 0
  else mul (div consumed quota) (of_Z 100).

(** The answer to [getCSPConso]: [None] when the broker sent [null], otherwise
    the three fields, each of which may be missing. *)
Definition conso_answer : Type := option (trio (option string)).

(** The properties [$.extend] writes to a row. *)
Definition extend_row (r : row) (res : trio (option string)) (risen : trio bool) : row :=
  Row (row_csp r) (quotas r)
    (trio_map (fun s => JNum (parseInt_val (of_field s))) res)
    (trio_map JBool risen)
    (trio_zip (fun s q => JNum (calculatePercentConsumed (of_field s) q)) res (quotas r)).

Definition set_row (d : dash) (i : nat) (r : row) (old : gmap string (trio jsval)) : dash :=
  Dash (<[i := r]> (provs d)) (order d) (orderType d) old (cspToEdit d) (edit d)
       (filteringUnit d).

(** [success] callback of [getCSPConso]; [None] is an exception, which leaves
    the state as it was. *)
Definition getCSPConso_success (d : dash) (cspkey : string) (cspIndex : nat)
    (res : conso_answer) : option dash :=
  match res with
  | None => Some d
  | Some res =>
      r ← provs d !! cspIndex;
      Some (set_row d cspIndex (extend_row r res (Trio false false false))
              (<[cspkey := consumed r]> (oldcons d)))
  end.

(** [success] callback of [reloadCSPConso]. *)
Definition reloadCSPConso_success (d : dash) (cspkey : string) (cspIndex : nat)
    (res : conso_answer) : option dash :=
  match res with
  | None => Some d
  | Some res =>
      r ← provs d !! cspIndex;
      old ← oldcons d !! cspkey;
      let risen := trio_zip (fun s o => js_gt (JNum (parseInt_val (of_field s))) o) res old in
      Some (set_row d cspIndex (extend_row r res risen)
              (<[cspkey := trio_map of_field res]> (oldcons d)))
  end.

Definition conso_url (cspkey : string) : string := "./getCSPConso?cspkey=" +:+ cspkey.

(** One consumption request per row, in row order. *)
Definition conso_calls (first : bool) (rows : list row) : list call :=
  imap (fun i r => GetCspConso first (conso_url (row_csp r)) (row_csp r) i) rows.

(** * Events *)

(** A row as the broker lists it. *)
Definition listed_row (fields : gmap string string) (csp : string) : row :=
  let q f := of_field (fields !! f) in
  Row csp (Trio (q "audioQuota") (q "videoQuota") (q "dataQuota"))
    (Trio Undef Undef Undef) (Trio Undef Undef Undef) (Trio Undef Undef Undef).

Definition getAllCspInfo_success (d : dash) (data : list row) : dash * list call :=
  (Dash data (order d) (orderType d) (oldcons d) (cspToEdit d) (edit d) (filteringUnit d),
   conso_calls true data).

Definition reload (d : dash) : dash * list call := (d, conso_calls false (provs d)).

(** [dashboard.filter]: the same column again reverses the order. *)
Definition filter_by (d : dash) (row : string) : dash :=
  let order := if String.eqb (order d) row then "-" +:+ row else row in
  Dash (provs d) order (JStr (String.substring 0 1 order)) (oldcons d) (cspToEdit d) (edit d)
       (filteringUnit d).

(** The query string: parameters that are [null] or [undefined] are left out. *)
Definition query_params (l : list (string * jsval)) : gmap string string :=
  foldl (fun m '(k, v) => match v with Undef | Null => m | _ => <[k := to_str v]> m end) ∅ l.

Definition deleteCSP_click (cspkey : string) (confirmed : bool) : list call :=
  if confirmed then [DeleteCsp (query_params [("cspkey", JStr cspkey)])] else [].

Definition showEdit (d : dash) (csp : nat) : dash :=
  Dash (provs d) (order d) (orderType d) (oldcons d) (Some csp) true (filteringUnit d).

Definition hideEdit (d : dash) : dash :=
  Dash (provs d) (order d) (orderType d) (oldcons d) None false (filteringUnit d).

(** The menu of units of the table. *)
Definition select_unit (d : dash) (unit_ : string) : dash :=
  Dash (provs d) (order d) (orderType d) (oldcons d) (cspToEdit d) (edit d) unit_.

(** Audio and video quotas that are not numbers become 0; the data quota is
    sent as it is. *)
Definition clean_quotas (q : trio jsval) : trio jsval :=
  let clean v := if strict_eq v (JStr "NaN") then JNum (Fin 0) else v in
  Trio (clean (t_audio q)) (clean (t_video q)) (t_data q).

Definition submitChanges (d : dash) (cspEdited : nat) : option (dash * list call) :=
  r ← provs d !! cspEdited;
  let q := clean_quotas (quotas r) in
  Some (set_row d cspEdited (Row (row_csp r) q (consumed r) (hasrisen r) (percent r)) (oldcons d),
        [ChangeQuotas (query_params
           [("cspKey", JStr (row_csp r)); ("audioQuota", t_audio q);
            ("videoQuota", t_video q); ("dataQuota", t_data q)])]).

(** * Units *)

Definition units_list : list string := ["bytes"; "kB"; "MB"; "GB"; "TB"; "PB"].

Fixpoint index_of (x : string) (l : list string) (i : Z) : Z :=
  match l with
  | [] => -1
  | y :: l' => if String.eqb y x then i else index_of x l' (i + 1)
  end.

(** [Math.pow(1024, units.indexOf(unit))]. *)
Definition unit_size (unit_ : string) : num := pow_Z 1024 (index_of unit_ units_list 0).

(** The [bytes] filter. *)
Definition bytes (v : jsval) (unit_ : string) (precision : option nat) : string :=
  if strict_eq v (JNum (Fin 0)) then "0"
  else if isNaN (parseFloat_val v) || negb (isFinite (to_num v)) then "-"
  else toFixed (div (to_num v) (unit_size unit_)) (default 1%nat precision).

(** The [stringToNumber] directive: from the input field to the model and back. *)
Definition parse_field (unit_ : string) (value : jsval) : string :=
  "" +:+ num_to_string (mul (to_num value) (unit_size unit_)).

Definition format_field (unit_ : string) (value : jsval) : num :=
  div (to_num value) (unit_size unit_).

(** Typing in the quota field of the edition form, which is bound to the data
    quota of the row being edited. *)
Definition input_quota (d : dash) (value : jsval) : dash :=
  match cspToEdit d with
  | Some i =>
      match provs d !! i with
      | Some r =>
          set_row d i
            (Row (row_csp r)
               (Trio (t_audio (quotas r)) (t_video (quotas r))
                  (JStr (parse_field (filteringUnit d) value)))
               (consumed r) (hasrisen r) (percent r)) (oldcons d)
      | None => d
      end
  | None => d
  end.

(** The [cspfilter] filter: the part of the key after the first colon. *)
Definition cspfilter (input : option string) : option string :=
  match input with
  | Some s => split ":" s !! 1%nat
  | None => Some ""
  end.

(** * The page as a state machine *)

Inductive event :=
  | Answer (first : bool) (cspIndex : nat) (res : conso_answer)
  | Reload
  | Filter (row : string)
  | ShowEdit (csp : nat)
  | HideEdit
  | SelectUnit (unit_ : string)
  | Input (value : jsval)
  | Submit (csp : nat).

(** One event; an exception in a callback leaves the state as it was.  The key of
    a consumption request is the key of its row. *)
Definition step (d : dash) (e : event) : dash :=
  match e with
  | Answer first i res =>
      match provs d !! i with
      | None => d
      | Some r =>
          default d (if first then getCSPConso_success d (row_csp r) i res
                     else reloadCSPConso_success d (row_csp r) i res)
      end
  | Reload => (reload d).1
  | Filter row => filter_by d row
  | ShowEdit i => showEdit d i
  | HideEdit => hideEdit d
  | SelectUnit u => select_unit d u
  | Input v => input_quota d v
  | Submit i => match submitChanges d i with Some (d', _) => d' | None => d end
  end.

(** * The percentage and the broker's quota gate *)

Lemma parseInt_val_dec z : 0 <= z -> parseInt_val (JStr (dec z)) = of_Z z.
Proof. apply parseInt_dec. Qed.

Lemma ratio_times_100 d q :
  0 < d <= 2 ^ 53 -> 0 < q <= 2 ^ 53 ->
  exists m, div (of_Z d) (of_Z q) = Fin m /\ 0 < m /\
    mul (Fin m) (of_Z 100) = of_ratio (m * 100) 1 /\
    (if q <=? d then scale <= m else m <= (2 ^ 53 - 1) * 2 ^ 1021).
Proof.
  intros Hd Hq. pose proof scale_pos as Hs.
  rewrite (of_Z_exact d), (of_Z_exact q) by lia.
  rewrite div_Fin by nia.
  replace (d * scale * scale) with (d * scale * scale) by ring.
  rewrite of_ratio_scale by lia.
  assert (Hsc : scale = 2 ^ 53 * 2 ^ 1021) by (by vm_compute).
  assert (exists m, of_ratio (d * scale) q = Fin m /\ 0 < m /\
    (if q <=? d then scale <= m else m <= (2 ^ 53 - 1) * 2 ^ 1021)) as (m & -> & Hm & Hb).
  { destruct (Z.leb_spec q d).
    - destruct (of_ratio_between (d * scale) q scale (2 ^ 53 * scale)) as (m & E & Hm);
        [lia|lia|by vm_compute|nia|by vm_compute|by vm_compute|].
      exists m. split; [done|]. lia.
    - destruct (of_ratio_between (d * scale) q (2 ^ 1021) ((2 ^ 53 - 1) * 2 ^ 1021)) as (m & E & Hm);
        [lia|by vm_compute|by vm_compute| |by vm_compute|by vm_compute|].
      + rewrite Hsc. pose proof (pow2_pos 1021 ltac:(lia)). nia.
      + exists m. split; [done|]. pose proof (pow2_pos 1021 ltac:(lia)). lia. }
  exists m. split; [done|]. split; [done|]. split; [|done].
  rewrite of_Z_exact, mul_Fin by lia.
  replace (m * (100 * scale)) with (m * 100 * scale) by ring.
  by rewrite <- (of_ratio_scale (m * 100) 1 scale), Z.mul_1_l by lia.
Qed.

(** The percentage reaches 100 exactly when the consumption reaches the quota. *)
Lemma percent_reaches_100 d q :
  0 <= d <= 2 ^ 53 -> 0 < q <= 2 ^ 53 ->
  len (of_Z 100) (calculatePercentConsumed (JStr (dec d)) (JStr (dec q))) = (q <=? d).
Proof.
  intros Hd Hq. pose proof scale_pos as Hs. unfold calculatePercentConsumed.
  rewrite !parseInt_val_dec by lia.
  assert (Eq : eqn (of_Z q) (Fin 0) = false).
  { rewrite of_Z_exact by lia. unfold eqn, num_cmp. cbn. apply Z.eqb_neq. nia. }
  rewrite Eq, orb_false_r.
  destruct (Z.eq_dec d 0) as [->|Hd0].
  { rewrite of_Z_0. change (eqn (Fin 0) (Fin 0)) with true. cbn [orb].
    rewrite (proj2 (Z.leb_gt q 0)) by lia. by vm_compute. }
  assert (Ed : eqn (of_Z d) (Fin 0) = false).
  { rewrite of_Z_exact by lia. unfold eqn, num_cmp. cbn. apply Z.eqb_neq. nia. }
  rewrite Ed. destruct (ratio_times_100 d q ltac:(lia) Hq) as (m & -> & Hm & -> & Hb).
  destruct (q <=? d).
  - unfold of_Z. apply of_ratio_mono; lia.
  - pose proof (of_ratio_mono (m * 100) 1 ((2 ^ 53 - 1) * 2 ^ 1021 * 100) 1
      ltac:(lia) ltac:(lia) ltac:(lia)) as M.
    apply len_ord in M as (a & b & Ha & Hb' & Hab).
    assert (E : ltn (of_ratio ((2 ^ 53 - 1) * 2 ^ 1021 * 100) 1) (of_Z 100) = true)
      by (by vm_compute).
    unfold ltn, len, num_cmp in *. rewrite Hb' in E. rewrite Ha.
    destruct (ord (of_Z 100)); [|done]. b2p. apply Z.leb_gt. lia.
Qed.

Lemma percent_of_zero_quota d :
  calculatePercentConsumed (JStr (dec d)) (JStr (dec 0)) = Fin 0.
Proof.
  unfold calculatePercentConsumed.
  change (eqn (parseInt_val (JStr (dec 0))) (Fin 0)) with true. by rewrite orb_true_r.
Qed.

(** * Units *)

Lemma unit_size_pow2 u :
  u ∈ units_list -> exists j, 0 <= j <= 50 /\ unit_size u = Fin (2 ^ j * scale).
Proof.
  intros Hu. unfold units_list in Hu. rewrite !elem_of_cons, elem_of_nil in Hu.
  destruct Hu as [->|[->|[->|[->|[->|[->|[]]]]]]].
  - exists 0. split; [lia|by vm_compute].
  - exists 10. split; [lia|by vm_compute].
  - exists 20. split; [lia|by vm_compute].
  - exists 30. split; [lia|by vm_compute].
  - exists 40. split; [lia|by vm_compute].
  - exists 50. split; [lia|by vm_compute].
Qed.

Definition unit_bytes (u : string) : Z := 1024 ^ index_of u units_list 0.

Lemma unit_bytes_spec u :
  u ∈ units_list -> 0 < unit_bytes u <= 2 ^ 50 /\ unit_size u = of_Z (unit_bytes u).
Proof.
  intros Hu. unfold units_list in Hu. rewrite !elem_of_cons, elem_of_nil in Hu.
  destruct Hu as [->|[->|[->|[->|[->|[->|[]]]]]]]; (split; [split; by vm_compute|by vm_compute]).
Qed.

(** The text the form sends for [n] units. *)
Lemma parse_field_units u n :
  u ∈ units_list -> 0 <= n -> n * unit_bytes u < 2 ^ 53 ->
  parse_field u (JNum (of_Z n)) = dec (n * unit_bytes u).
Proof.
  intros Hu Hn Hb. destruct (unit_bytes_spec u Hu) as [Hs E]. unfold parse_field.
  cbn [to_num]. rewrite E, mul_of_Z by nia. rewrite num_to_string_of_Z by nia. done.
Qed.

Lemma format_parse u z :
  u ∈ units_list -> 0 <= z <= 2 ^ 53 ->
  mul (format_field u (JStr (dec z))) (unit_size u) = of_Z z.
Proof.
  intros Hu Hz. destruct (unit_size_pow2 u Hu) as (j & Hj & Ej). pose proof scale_pos.
  unfold format_field. cbn [to_num]. rewrite Ej, to_number_dec, of_Z_exact by lia.
  pose proof (pow2_pos j ltac:(lia)).
  destruct (Z.eq_dec z 0) as [->|Hz0].
  - cbn [div mul is_neg is_zero units]. rewrite Z.mul_0_l. cbn [Z.ltb Z.eqb Z.compare].
    rewrite (proj2 (Z.ltb_ge (2 ^ j * scale) 0)), (proj2 (Z.eqb_neq (2 ^ j * scale) 0)) by nia.
    cbn [xorb signed_zero mul is_neg is_zero units].
    by rewrite (proj2 (Z.ltb_ge (2 ^ j * scale) 0)) by nia.
  - by rewrite div_pow2, mul_pow2 by lia.
Qed.

(** * The CSP name *)

Lemma cspfilter_prov a rest :
  str_all (fun c => negb (eqc c ":")) a = true ->
  cspfilter (Some ("prov:" +:+ a)) = Some a /\
  cspfilter (Some ("prov:" +:+ a +:+ ":" +:+ rest)) = Some a.
Proof.
  intros Ha. unfold cspfilter, split.
  change ("prov:" +:+ a) with ("prov" +:+ String ":" a).
  change ("prov:" +:+ a +:+ ":" +:+ rest) with ("prov" +:+ String ":" (a +:+ String ":" rest)).
  rewrite !split_go_sep, split_go_no_sep by done. done.
Qed.
