(* ===== verification/DashboardProps.v ===== *)
(** Properties of the administration page: the growth arrow as a refinement of
    an abstract row, the percentage against the broker's own quota gate, the
    edition of quotas, sorting and the CSP names. *)
From S2P Require Import Prelude JsNum JsString JsVal Regex Traffic Redis Async Dao DaoSpec Server Dashboard.

(** * An abstract row *)

(** What a row shows, as integers: nothing yet, or the last consumption received
    and the arrows, with the consumption the next answer is compared with. *)
Inductive known :=
  | Waiting
  | Shown (prev : option (trio Z)) (last : trio Z) (up : trio bool).

Definition no_arrow : trio bool := Trio false false false.

(** An answer for the row: [first] is the one the listing asks for, the others
    follow a click on reload. *)
Definition abs_answer (k : known) (first : bool) (a : trio Z) : known :=
  match first, k with
  | true, Waiting => Shown None a no_arrow
  | true, Shown _ last _ => Shown (Some last) a no_arrow
  | false, Waiting => Waiting
  | false, Shown None _ _ => Shown (Some a) a no_arrow
  | false, Shown (Some p) _ _ => Shown (Some a) a (trio_zip Z.ltb p a)
  end.

(** The percentage of a quota: 0 when nothing is consumed or the quota reads as 0. *)
Definition share (a : Z) (quota : jsval) : num :=
  let n := parseInt_val quota in
  if (a =? 0) || eqn n (Fin 0) then Fin 0 else mul (div (of_Z a) n) (of_Z 100).

(** A row of the table: the consumption, the quotas, the percentages, and whether the
    row is the one being edited, in which unit. *)
Record row_state := RowState {
  seen : known;
  row_quotas : trio jsval;
  row_percent : trio jsval;
  edited : bool;
  in_unit : string;
}.

Definition listed_state (q : trio jsval) : row_state :=
  RowState Waiting q (Trio Undef Undef Undef) false "MB".

Definition with_quotas (k : row_state) (q : trio jsval) : row_state :=
  RowState (seen k) q (row_percent k) (edited k) (in_unit k).

(** A reload before the first answer leaves the row as it is. *)
Definition takes_answer (first : bool) (k : known) : bool :=
  first || match k with Waiting => false | Shown _ _ _ => true end.

Definition row_answer (k : row_state) (first : bool) (a : trio Z) : row_state :=
  if takes_answer first (seen k)
  then RowState (abs_answer (seen k) first a) (row_quotas k)
         (trio_map JNum (trio_zip share a (row_quotas k))) (edited k) (in_unit k)
  else k.

(** Events of the page with the consumptions as integers. *)
Inductive page_event :=
  | PAnswer (first : bool) (i : nat) (a : option (trio Z))
  | POther (e : event).

(** What an event does to row [i]. *)
Definition abs_step (i : nat) (k : row_state) (e : page_event) : row_state :=
  match e with
  | PAnswer first j (Some a) => if Nat.eqb i j then row_answer k first a else k
  | POther (ShowEdit j) => RowState (seen k) (row_quotas k) (row_percent k) (Nat.eqb i j) (in_unit k)
  | POther HideEdit => RowState (seen k) (row_quotas k) (row_percent k) false (in_unit k)
  | POther (SelectUnit u) => RowState (seen k) (row_quotas k) (row_percent k) (edited k) u
  | POther (Input v) =>
      if edited k
      then with_quotas k (Trio (t_audio (row_quotas k)) (t_video (row_quotas k))
                            (JStr (parse_field (in_unit k) v)))
      else k
  | POther (Submit j) => if Nat.eqb i j then with_quotas k (clean_quotas (row_quotas k)) else k
  | _ => k
  end.

(** The concrete event: the broker sends the integers in decimal. *)
Definition concrete (e : page_event) : event :=
  match e with
  | PAnswer first i a => Answer first i (trio_map (fun z => Some (dec z)) <$> a)
  | POther e => e
  end.

Definition safe (z : Z) : Prop := 0 <= z <= 2 ^ 53.
Definition trio_all {A} (P : A -> Prop) (t : trio A) : Prop :=
  P (t_audio t) /\ P (t_video t) /\ P (t_data t).

Definition event_ok (e : page_event) : Prop :=
  match e with
  | PAnswer _ _ (Some a) => trio_all safe a
  | PAnswer _ _ None => True
  | POther (Answer _ _ _) => False
  | POther _ => True
  end.

(** * The simulation *)

Definition undefs : trio jsval := Trio Undef Undef Undef.

(** A stored consumption that reads as the Number [z]. *)
Definition reads (v : jsval) (z : Z) : Prop := safe z /\ to_num v = of_Z z.

Definition trio_reads (t : trio jsval) (a : trio Z) : Prop :=
  reads (t_audio t) (t_audio a) /\ reads (t_video t) (t_video a) /\ reads (t_data t) (t_data a).

Definition known_shows (old : option (trio jsval)) (r : row) (k : known) : Prop :=
  match k with
  | Waiting => consumed r = undefs /\ old = None
  | Shown prev last up =>
      trio_all safe last /\ consumed r = trio_map (fun z => JNum (of_Z z)) last /\
      hasrisen r = trio_map JBool up /\
      exists o, old = Some o /\
        match prev with None => o = undefs | Some p => trio_reads o p end
  end.

Definition row_shows (old : option (trio jsval)) (r : row) (k : row_state) : Prop :=
  known_shows old r (seen k) /\ quotas r = row_quotas k /\ percent r = row_percent k.

Definition shows (d : dash) (i : nat) (k : row_state) : Prop :=
  (exists r, provs d !! i = Some r /\ row_shows (oldcons d !! row_csp r) r k) /\
  (cspToEdit d = Some i <-> edited k = true) /\ filteringUnit d = in_unit k.

Definition csps (d : dash) : list string := map row_csp (provs d).

Lemma reads_dec z : safe z -> reads (JStr (dec z)) z.
Proof. intros Hz. split; [done|]. cbn. apply to_number_dec. apply Hz. Qed.

Lemma reads_num z : safe z -> reads (JNum (of_Z z)) z.
Proof. by split. Qed.

Lemma risen_undef x : js_gt (JNum x) Undef = false.
Proof. unfold js_gt, js_lt. cbn [to_num]. unfold ltn, num_cmp. cbn. done. Qed.

Lemma risen_reads v p z :
  reads v p -> safe z -> js_gt (JNum (of_Z z)) v = (p <? z).
Proof.
  intros [Hp Hv] Hz. unfold safe in *. unfold js_gt.
  assert (js_lt v (JNum (of_Z z)) = ltn (to_num v) (of_Z z)) as -> by (by destruct v).
  rewrite Hv. apply (gtn_of_Z_exact z p); lia.
Qed.

Lemma parse_answer z : safe z -> parseInt_val (of_field (Some (dec z))) = of_Z z.
Proof. intros [Hz _]. by apply parseInt_val_dec. Qed.

Lemma extend_row_consumed r a up :
  trio_all safe a ->
  consumed (extend_row r (trio_map (fun z => Some (dec z)) a) up)
    = trio_map (fun z => JNum (of_Z z)) a.
Proof.
  intros (H1 & H2 & H3). cbn [extend_row consumed]. unfold trio_map.
  cbn [t_audio t_video t_data]. by rewrite !parse_answer by done.
Qed.

(** The arrows a reload computes. *)
Lemma risen_first a :
  trio_zip (fun s o => js_gt (JNum (parseInt_val (of_field s))) o)
    (trio_map (fun z : Z => Some (dec z)) a) undefs = no_arrow.
Proof. unfold trio_zip, undefs. cbn [t_audio t_video t_data]. by rewrite !risen_undef. Qed.

Lemma risen_next a o p :
  trio_all safe a -> trio_reads o p ->
  trio_zip (fun s o => js_gt (JNum (parseInt_val (of_field s))) o)
    (trio_map (fun z : Z => Some (dec z)) a) o = trio_zip Z.ltb p a.
Proof.
  intros (H1 & H2 & H3) (R1 & R2 & R3). unfold trio_zip, trio_map.
  cbn [t_audio t_video t_data]. rewrite !parse_answer by done.
  by rewrite (risen_reads _ _ _ R1), (risen_reads _ _ _ R2), (risen_reads _ _ _ R3) by done.
Qed.

Lemma trio_reads_dec a :
  trio_all safe a -> trio_reads (trio_map of_field (trio_map (fun z => Some (dec z)) a)) a.
Proof. intros (H1 & H2 & H3). split; [|split]; by apply reads_dec. Qed.

Lemma trio_reads_num a :
  trio_all safe a -> trio_reads (trio_map (fun z => JNum (of_Z z)) a) a.
Proof. intros (H1 & H2 & H3). split; [|split]; by apply reads_num. Qed.

(** The percentages an answer computes. *)
Lemma share_computed a q : safe a -> calculatePercentConsumed (of_field (Some (dec a))) q = share a q.
Proof.
  intros Ha. unfold calculatePercentConsumed, share. rewrite parse_answer by done.
  assert (eqn (of_Z a) (Fin 0) = (a =? 0)) as ->; [|done].
  destruct Ha as [H1 H2]. rewrite of_Z_exact by lia. unfold eqn, num_cmp. cbn. pose proof scale_pos.
  destruct (Z.eqb_spec a 0) as [->|]; apply Z.eqb_eq || apply Z.eqb_neq; nia.
Qed.

Lemma extend_row_percent r a up :
  trio_all safe a ->
  percent (extend_row r (trio_map (fun z => Some (dec z)) a) up) = trio_map JNum (trio_zip share a (quotas r)).
Proof.
  intros (H1 & H2 & H3). cbn [extend_row percent]. unfold trio_map, trio_zip.
  cbn [t_audio t_video t_data]. by rewrite !share_computed.
Qed.

(** * Preservation *)

Lemma set_row_csps d i r old r0 :
  provs d !! i = Some r0 -> row_csp r = row_csp r0 -> csps (set_row d i r old) = csps d.
Proof.
  intros Hi Hr. unfold csps. cbn [provs set_row]. apply list_eq. intros j.
  change (map row_csp ?l) with (row_csp <$> l). rewrite !list_lookup_fmap.
  destruct (decide (i = j)) as [->|Hij].
  - rewrite list_lookup_insert_eq by (by eapply lookup_lt_Some). rewrite Hi. cbn. by rewrite Hr.
  - by rewrite list_lookup_insert_ne by done.
Qed.

(** Writing row [j] and its stored consumption does not change row [i]. *)
Lemma set_row_other d i j rj r' o k :
  NoDup (csps d) -> provs d !! j = Some rj -> i <> j ->
  shows d i k -> shows (set_row d j r' (<[row_csp rj := o]> (oldcons d))) i k.
Proof.
  intros Hnd Hj Hij [(r & Hi & Hs) He]. split; [|exact He]. exists r. cbn [provs oldcons set_row].
  rewrite list_lookup_insert_ne by done. split; [done|].
  rewrite lookup_insert_ne; [done|]. intros E. apply Hij.
  apply (NoDup_lookup (csps d) i j (row_csp r)); [done| |].
  - unfold csps. change (map row_csp ?l) with (row_csp <$> l). by rewrite list_lookup_fmap, Hi.
  - unfold csps. change (map row_csp ?l) with (row_csp <$> l).
    rewrite list_lookup_fmap, Hj. cbn. by rewrite E.
Qed.

(** The row an answer is written to. *)
Lemma set_row_self d i r a up o k k' :
  provs d !! i = Some r -> trio_all safe a -> shows d i k ->
  known_shows (Some o) (extend_row r (trio_map (fun z => Some (dec z)) a) up) k' ->
  shows (set_row d i (extend_row r (trio_map (fun z => Some (dec z)) a) up) (<[row_csp r := o]> (oldcons d))) i
    (RowState k' (row_quotas k) (trio_map JNum (trio_zip share a (row_quotas k))) (edited k) (in_unit k)).
Proof.
  intros Hi Ha [(r0 & Hi0 & _ & Hq & _) He] Hs. rewrite Hi in Hi0. injection Hi0 as <-. split; [|exact He].
  eexists. cbn [provs oldcons set_row].
  rewrite list_lookup_insert_eq by (by eapply lookup_lt_Some). split; [done|].
  change (row_csp (extend_row r _ _)) with (row_csp r). rewrite lookup_insert_eq.
  split_and!; [done|exact Hq|]. rewrite extend_row_percent by done. cbn [row_percent]. by rewrite Hq.
Qed.

(** The row that receives an answer. *)
Lemma answer_self d i r first a k :
  provs d !! i = Some r -> trio_all safe a -> shows d i k ->
  shows (step d (Answer first i (Some (trio_map (fun z => Some (dec z)) a)))) i (row_answer k first a).
Proof.
  intros Hi Ha Hsh. pose proof Hsh as [(r0 & Hi0 & Hs & _) _]. rewrite Hi in Hi0. injection Hi0 as <-.
  pose proof (fun up => extend_row_consumed r a up Ha) as Hcon.
  cbn [step]. rewrite Hi. unfold row_answer. destruct first.
  - unfold getCSPConso_success. rewrite Hi. cbn [mbind option_bind default takes_answer orb].
    apply set_row_self; [done..|].
    destruct (seen k) as [|prev last up]; cbn [abs_answer known_shows] in *.
    + destruct Hs as [Hc _]. split_and!; [apply Ha..|apply Hcon|done|]. rewrite Hc. by exists undefs.
    + destruct Hs as (Hl & Hc & _). split_and!; [apply Ha..|apply Hcon|done|].
      rewrite Hc. eexists. split; [done|]. by apply trio_reads_num.
  - unfold reloadCSPConso_success. rewrite Hi. cbn [mbind option_bind].
    destruct (seen k) as [|prev last up] eqn:Ek; cbn [known_shows takes_answer orb] in *.
    + destruct Hs as [Hc Ho]. by rewrite Ho.
    + destruct Hs as (Hl & _ & _ & o & Ho & Hp). rewrite Ho. cbn [mbind option_bind default].
      unfold default, id. apply set_row_self; [done..|].
      destruct prev as [p|]; cbn [abs_answer known_shows].
      * rewrite (risen_next a o p) by done.
        split_and!; [apply Ha..|apply Hcon|done|]. eexists. split; [done|]. by apply trio_reads_dec.
      * subst o. rewrite risen_first.
        split_and!; [apply Ha..|apply Hcon|done|]. eexists. split; [done|]. by apply trio_reads_dec.
Qed.

Lemma answer_other d i j first res k :
  NoDup (csps d) -> i <> j -> shows d i k -> shows (step d (Answer first j res)) i k.
Proof.
  intros Hnd Hij Hs. cbn [step]. destruct (provs d !! j) as [rj|] eqn:Hj; [|done].
  destruct res as [res|]; [|by destruct first]. destruct first.
  - unfold getCSPConso_success. rewrite Hj. cbn. by apply set_row_other.
  - unfold reloadCSPConso_success. rewrite Hj. cbn.
    destruct (oldcons d !! row_csp rj); [|done]. cbn. by apply set_row_other.
Qed.

(** New quotas of row [j]. *)
Lemma set_quotas_shows d i j rj q k :
  provs d !! j = Some rj -> shows d i k ->
  shows (set_row d j (Row (row_csp rj) q (consumed rj) (hasrisen rj) (percent rj)) (oldcons d)) i
    (if Nat.eqb i j then with_quotas k q else k).
Proof.
  intros Hj [(r & Hi & Hs & Hq & Hp) He]. destruct (Nat.eqb_spec i j) as [<-|Hij]; (split; [|exact He]).
  - rewrite Hi in Hj. injection Hj as <-. eexists. cbn [provs oldcons set_row].
    rewrite list_lookup_insert_eq by (by eapply lookup_lt_Some). split; [done|].
    split_and!; [|done|exact Hp]. unfold known_shows in *. cbn [seen with_quotas row_csp consumed hasrisen].
    exact Hs.
  - exists r. cbn [provs oldcons set_row]. by rewrite list_lookup_insert_ne by done.
Qed.

Lemma other_shows d i k e :
  event_ok (POther e) -> shows d i k -> shows (step d e) i (abs_step i k (POther e)).
Proof.
  intros Hok Hsh. pose proof Hsh as [(r & Hi & Hs & Hq & Hp) [He Hu]].
  destruct e as [f j res| |row|j| |u|v|j]; [done|done|done|..]; cbn [step abs_step].
  - split; [by exists r|]. split; [|done]. cbn.
    destruct (Nat.eqb_spec i j) as [->|]; [by split|]. split; [by intros [= <-]|done].
  - split; [by exists r|]. by split.
  - split; [by exists r|]. by split.
  - unfold input_quota. destruct (cspToEdit d) as [j|] eqn:Ej.
    + destruct (provs d !! j) as [rj|] eqn:Hj.
      * pose proof (set_quotas_shows d i j rj (Trio (t_audio (quotas rj)) (t_video (quotas rj))
          (JStr (parse_field (filteringUnit d) v))) k Hj Hsh) as G.
        revert G. destruct (Nat.eqb_spec i j) as [<-|Hij]; intros G.
        -- rewrite (proj1 He eq_refl). rewrite Hi in Hj. injection Hj as <-. rewrite <- Hq, <- Hu. exact G.
        -- destruct (edited k); [|exact G]. by injection (proj2 He eq_refl) as ->.
      * destruct (edited k); [|done]. injection (proj2 He eq_refl) as ->. by rewrite Hi in Hj.
    + destruct (edited k); [by discriminate (proj2 He eq_refl)|done].
  - unfold submitChanges. destruct (provs d !! j) as [rj|] eqn:Hj.
    + cbn [mbind option_bind].
      pose proof (set_quotas_shows d i j rj (clean_quotas (quotas rj)) k Hj Hsh) as G.
      revert G. destruct (Nat.eqb_spec i j) as [<-|Hij]; intros G; [|exact G]. rewrite Hi in Hj. injection Hj as <-.
      rewrite <- Hq. exact G.
    + cbn [mbind option_bind]. destruct (Nat.eqb_spec i j) as [<-|]; [by rewrite Hi in Hj|done].
Qed.

Lemma step_csps d e : csps (step d e) = csps d.
Proof.
  destruct e as [first j res| |row|j| |u|v|j]; try done; cbn [step].
  - destruct (provs d !! j) as [rj|] eqn:Hj; [|done].
    destruct res as [res|]; [|by destruct first]. destruct first.
    + unfold getCSPConso_success. rewrite Hj. cbn [mbind option_bind default].
      by eapply (set_row_csps d j).
    + unfold reloadCSPConso_success. rewrite Hj. cbn [mbind option_bind].
      destruct (oldcons d !! row_csp rj); [|done]. cbn [mbind option_bind default].
      by eapply (set_row_csps d j).
  - unfold input_quota. destruct (cspToEdit d) as [j|]; [|done].
    destruct (provs d !! j) as [rj|] eqn:Hj; [|done]. by eapply (set_row_csps d j).
  - unfold submitChanges. destruct (provs d !! j) as [rj|] eqn:Hj; [|done].
    by eapply (set_row_csps d j).
Qed.

Lemma foldl_csps es d : csps (foldl step d es) = csps d.
Proof. revert d. induction es as [|e es IH]; intros d; [done|]. cbn. by rewrite IH, step_csps. Qed.

Lemma step_shows d i k e :
  NoDup (csps d) -> event_ok e -> shows d i k ->
  shows (step d (concrete e)) i (abs_step i k e).
Proof.
  intros Hnd Hok Hs. destruct e as [first j [a|]|e]; cbn [concrete].
  - cbn [abs_step]. destruct (Nat.eqb_spec i j) as [<-|Hij].
    + pose proof Hs as [(r & Hi & _) _]. by eapply answer_self.
    + by apply answer_other.
  - cbn. destruct (provs d !! j); [|done]. by destruct first.
  - by apply other_shows.
Qed.

Lemma run_shows evs d i k :
  NoDup (csps d) -> Forall event_ok evs -> shows d i k ->
  shows (foldl step d (map concrete evs)) i (foldl (abs_step i) k evs).
Proof.
  intros Hnd Hok. revert d k Hnd. induction Hok as [|e evs He Hevs IH]; intros d k Hnd Hs.
  - done.
  - cbn [map foldl]. apply IH; [by rewrite step_csps|by apply step_shows].
Qed.

(** * The growth arrow *)

(** The page once the broker has listed [infos]. *)
Definition listed (infos : list (hash * string)) : dash :=
  (getAllCspInfo_success controller_init.1 (map (fun '(h, k) => listed_row h k) infos)).1.

Lemma listed_csps infos : csps (listed infos) = infos.*2.
Proof.
  unfold csps, listed. cbn [getAllCspInfo_success provs fst].
  induction infos as [|[h k] infos IH]; [done|]. cbn. by rewrite <- IH.
Qed.

(** Row [i] of the listing. *)
Definition listed_quotas (h : hash) : trio jsval := quotas (listed_row h "").

Lemma listed_shows infos i h key :
  infos !! i = Some (h, key) -> shows (listed infos) i (listed_state (listed_quotas h)).
Proof.
  intros E. unfold listed. cbn [getAllCspInfo_success fst]. split; [|by split].
  exists (listed_row h key). cbn [provs oldcons].
  change (map ?f infos) with (f <$> infos). rewrite list_lookup_fmap, E. split; [done|].
  split_and!; [|done..]. split; [done|]. exact (lookup_empty _).
Qed.

(** C11. The table refines an abstract row.  From the listing on, however the answers of
    the broker for the different rows interleave with each other and with clicks on the
    page (sorting, the unit, editing, typing, submitting), what a row shows, consumption,
    quotas, percentages and growth arrows, is a function of the quotas that were listed
    for it, of the answers for that row alone and of the clicks. *)
Theorem rows_refine infos evs i h key :
  NoDup infos.*2 -> Forall event_ok evs -> infos !! i = Some (h, key) ->
  shows (foldl step (listed infos) (map concrete evs)) i
    (foldl (abs_step i) (listed_state (listed_quotas h)) evs).
Proof.
  intros Hnd Hok Hi. apply run_shows; [by rewrite listed_csps|done|by eapply listed_shows].
Qed.

Definition demo_infos : list (hash * string) :=
  [({["dataQuota" := "1000"]}, "prov:a"); ({["dataQuota" := "50"]}, "prov:b")].
Definition usage (n : Z) : option (trio Z) := Some (Trio 0 0 n).

Lemma rows_refine_witness :
  let evs := [PAnswer true 1 (usage 7); PAnswer true 0 (usage 10); POther (Filter "csp");
              PAnswer false 0 (usage 20); PAnswer false 1 (usage 7); POther (ShowEdit 0);
              POther (SelectUnit "GB"); POther (Input (JStr "2")); PAnswer false 0 (usage 30)] in
  exists r, provs (foldl step (listed demo_infos) (map concrete evs)) !! 0%nat = Some r /\
    t_data (quotas r) = JStr "2147483648" /\ t_data (consumed r) = JNum (of_Z 30) /\
    t_data (hasrisen r) = JBool true /\
    t_data (percent r) = JNum (mul (div (of_Z 30) (of_Z 2147483648)) (of_Z 100)).
Proof.
  intros evs.
  destruct (rows_refine demo_infos evs 0 {["dataQuota" := "1000"]} "prov:a"
    ltac:(by apply (bool_decide_unpack _); vm_compute)
    ltac:(unfold evs; repeat constructor; cbn; unfold safe; lia) eq_refl)
    as [(r & Hi & Hs & Hq & Hp) _].
  exists r. split; [exact Hi|]. split; [by rewrite Hq; vm_compute|].
  destruct Hs as (_ & Hc & Hr & _). split; [by rewrite Hc|]. split; [by rewrite Hr|].
  by rewrite Hp; vm_compute.
Defined.

(** The arrow comes one reload late.  After the first consumption [a0], the
    first reload never shows an arrow, whatever has been consumed since; from
    the second reload on the arrow is up exactly for the kinds of traffic that
    grew since the reload before. *)
Theorem arrow_from_second_reload infos evs i h key a0 a1 a2 :
  NoDup infos.*2 -> Forall event_ok evs -> infos !! i = Some (h, key) ->
  trio_all safe a0 -> trio_all safe a1 -> trio_all safe a2 ->
  seen (foldl (abs_step i) (listed_state (listed_quotas h)) evs) = Waiting ->
  let d0 := foldl step (listed infos) (map concrete (evs ++ [PAnswer true i (Some a0)])) in
  let d1 := step d0 (concrete (PAnswer false i (Some a1))) in
  let d2 := step d1 (concrete (PAnswer false i (Some a2))) in
  exists r1 r2,
    provs d1 !! i = Some r1 /\ hasrisen r1 = trio_map JBool no_arrow /\
    provs d2 !! i = Some r2 /\ hasrisen r2 = trio_map JBool (trio_zip Z.ltb a1 a2).
Proof.
  intros Hnd Hok Hi H0 H1 H2 Hw d0 d1 d2.
  assert (exists k0, shows d0 i k0 /\ seen k0 = Shown None a0 no_arrow) as (k0 & S0 & E0).
  { unfold d0. pose proof (run_shows (evs ++ [PAnswer true i (Some a0)]) (listed infos) i
      (listed_state (listed_quotas h))) as R.
    rewrite foldl_app in R. cbn [foldl abs_step] in R. rewrite Nat.eqb_refl in R.
    eexists. split; [apply R; [by rewrite listed_csps| |by eapply listed_shows]|].
    - apply Forall_app. split; [done|]. by constructor.
    - unfold row_answer. cbn [takes_answer orb seen]. by rewrite Hw. }
  assert (Hn0 : NoDup (csps d0)).
  { unfold d0. by rewrite foldl_csps, listed_csps. }
  pose proof (step_shows d0 i _ (PAnswer false i (Some a1)) Hn0 H1 S0) as S1.
  assert (Hn1 : NoDup (csps d1)) by (unfold d1; by rewrite step_csps).
  pose proof (step_shows d1 i _ (PAnswer false i (Some a2)) Hn1 H2 S1) as S2.
  cbn [abs_step] in S1, S2. rewrite Nat.eqb_refl in S1, S2. unfold row_answer in S1, S2.
  rewrite E0 in S1, S2. cbn [takes_answer orb seen abs_answer] in S1, S2.
  destruct S1 as [(r1 & E1 & (_ & _ & U1 & _) & _) _], S2 as [(r2 & E2 & (_ & _ & U2 & _) & _) _].
  by exists r1, r2.
Qed.

Lemma arrow_from_second_reload_witness :
  let d0 := foldl step (listed demo_infos) (map concrete [PAnswer true 0 (usage 10)]) in
  let d1 := step d0 (concrete (PAnswer false 0 (usage 500))) in
  exists r1, provs d1 !! 0%nat = Some r1 /\ t_data (hasrisen r1) = JBool false.
Proof.
  destruct (arrow_from_second_reload demo_infos [] 0 {["dataQuota" := "1000"]} "prov:a"
    (Trio 0 0 10) (Trio 0 0 500) (Trio 0 0 900)
    ltac:(by apply (bool_decide_unpack _); vm_compute) ltac:(constructor) eq_refl
    ltac:(repeat split; cbn; lia) ltac:(repeat split; cbn; lia) ltac:(repeat split; cbn; lia)
    eq_refl)
    as (r1 & r2 & H1 & H2 & _).
  exists r1. split; [exact H1|]. by rewrite H2.
Defined.

(** * The percentage *)

(** The colour of a row agrees with the broker's gate.  For a positive
    quota the percentage is 100 or more exactly when the consumption has reached
    the quota, so every row whose clients are refused is red; with a quota of 0
    the page shows 0 percent while the broker refuses any consumption. *)
Theorem percent_agrees_with_gate csp (h : hash) d q :
  safe d -> safe q -> h !! "dataQuota" = Some (dec q) ->
  let percent := calculatePercentConsumed (JStr (dec d)) (of_field (h !! "dataQuota")) in
  quota_exceeded {| cspName := csp; fields := h; dataConso := Some (dec d) |} = (q <? d) /\
  (0 < q -> len (of_Z 100) percent = (q <=? d)) /\
  (q = 0 -> percent = Fin 0).
Proof.
  intros Hd Hq Eq percent. unfold safe in *. split; [|split].
  - unfold quota_exceeded, dataQuota. cbn [fields dataConso]. rewrite Eq. cbn [js_number].
    rewrite !to_number_dec by lia. by apply gtn_of_Z_exact; lia.
  - intros Hq0. unfold percent. rewrite Eq. cbn [of_field]. apply percent_reaches_100; lia.
  - intros ->. unfold percent. rewrite Eq. apply percent_of_zero_quota.
Qed.

Lemma percent_agrees_with_gate_witness :
  calculatePercentConsumed (JStr (dec 7)) (JStr (dec 0)) = Fin 0.
Proof.
  exact (proj2 (proj2 (percent_agrees_with_gate (Some "a") {["dataQuota" := dec 0]} 7 0
    ltac:(unfold safe; lia) ltac:(unfold safe; lia) ltac:(by vm_compute))) eq_refl).
Defined.

(** * Editing *)

(** C12. Opening the edition form and sending it unchanged keeps the quota: the
    number shown for a quota of [z] bytes in any unit of the page is sent back
    as exactly [z] bytes. *)
Theorem edit_roundtrip u z :
  u ∈ units_list -> 0 <= z < 2 ^ 53 ->
  parse_field u (JNum (format_field u (JStr (dec z)))) = dec z.
Proof.
  intros Hu Hz. unfold parse_field. cbn [to_num].
  rewrite format_parse by (done || lia). by rewrite num_to_string_of_Z.
Qed.

Lemma edit_roundtrip_witness :
  parse_field "PB" (JNum (format_field "PB" (JStr (dec 1234567)))) = "1234567".
Proof. exact (edit_roundtrip "PB" 1234567 ltac:(set_solver) ltac:(lia)). Defined.

(** The quota texts the page sends for audio and video. *)
Definition sent_quota (o : option string) : option string :=
  match o with Some s => Some (if String.eqb s "NaN" then "0" else s) | None => None end.

Lemma query_params_clean k (a x : option string) d :
  let q := clean_quotas (Trio (of_field a) (of_field x) (JStr d)) in
  let p := query_params [("cspKey", JStr k); ("audioQuota", t_audio q);
                         ("videoQuota", t_video q); ("dataQuota", t_data q)] in
  p !! "cspKey" = Some k /\ p !! "audioQuota" = sent_quota a /\
  p !! "videoQuota" = sent_quota x /\ p !! "dataQuota" = Some d.
Proof.
  intros q p. subst q p. unfold query_params, clean_quotas. cbn [t_audio t_video t_data].
  destruct a as [a|], x as [x|]; cbn [of_field strict_eq sent_quota foldl];
    repeat destruct (String.eqb _ "NaN"); cbn [to_str foldl of_field];
    split_and!; by simplify_map_eq.
Qed.

(** C13. An edition reaches the database.  Typing [n] units in the form of a CSP
    and submitting it sends one request; the broker answers 200 and stores
    exactly [n] units of bytes as the data quota, 0 for an audio or video quota
    that was not a number, and changes nothing else. *)
Theorem edition_reaches_broker `{RedisLaws St} MD5 cfg iso rnd d i r (a x : option string) n
    (h : hash) (s : St) :
  filteringUnit d ∈ units_list -> 0 <= n -> n * unit_bytes (filteringUnit d) < 2 ^ 53 ->
  provs d !! i = Some r -> t_audio (quotas r) = of_field a -> t_video (quotas r) = of_field x ->
  hash_of (db2 (view_of s) (row_csp r)) = Some h ->
  exists d' p,
    submitChanges (input_quota (showEdit d i) (JNum (of_Z n))) i = Some (d', [ChangeQuotas p]) /\
    let req := {| rmethod := GET_; rpath := "/changeQuotas"; query := p; body := ∅;
                  credentials := None |} in
    let o := run (route MD5 cfg iso rnd req).2 s in
    o.1 = Resolved (Some (SendStatus 200)) /\
    view_of o.2 = put (sel 2 (view_of s)) (row_csp r)
      (VHash (<["dataQuota" := dec (n * unit_bytes (filteringUnit d))]>
        (<["videoQuota" := js_str (sent_quota x)]>
          (<["audioQuota" := js_str (sent_quota a)]> h)))).
Proof.
  intros Hu Hn Hb Hi Ha Hx Hh.
  unfold input_quota. cbn [showEdit cspToEdit provs filteringUnit]. rewrite Hi.
  unfold submitChanges. cbn [set_row provs].
  rewrite list_lookup_insert_eq by (by eapply lookup_lt_Some). cbn [mbind option_bind quotas row_csp].
  eexists _, _. split; [reflexivity|].
  rewrite parse_field_units, Ha, Hx by done.
  destruct (query_params_clean (row_csp r) a x (dec (n * unit_bytes (filteringUnit d))))
    as (Q1 & Q2 & Q3 & Q4).
  cbv zeta in Q1, Q2, Q3, Q4 |- *.
  unfold route. cbn [rmethod rpath].
  change (to_lower "/changeQuotas") with "/changequotas". cbn [String.eqb].
  unfold route_changeQuotas. cbn [query]. rewrite Q1, Q2, Q3, Q4. cbn [snd].
  by_wp. apply wp_settle. by eapply wp_updateCSPQuotas.
Qed.

Definition demo_acme : row :=
  listed_row (<["audioQuota" := "NaN"]> {["dataQuota" := "1000"]}) "prov:acme".

Definition demo_page : dash := Dash [demo_acme] "" (JNum (of_Z 1)) ∅ None false "MB".

Definition acme_view : view :=
  View 0 {[(2, "prov:acme") := VHash {["dataQuota" := "1000"]}]} ∅.

Lemma edition_reaches_broker_witness :
  exists d' p, submitChanges (input_quota (showEdit demo_page 0) (JNum (of_Z 3))) 0
    = Some (d', [ChangeQuotas p]) /\ p !! "dataQuota" = Some "3145728".
Proof.
  destruct (edition_reaches_broker (St := view) id {| LOGIN := "l"; PASSWD := "p" |} "t" (Fin 0)
    demo_page 0 demo_acme (Some "NaN") None 3 {["dataQuota" := "1000"]} acme_view
    ltac:(unfold demo_page, units_list; set_solver) ltac:(lia) ltac:(by vm_compute)
    eq_refl eq_refl eq_refl ltac:(by vm_compute)) as (d' & p & E & _ & V).
  exists d', p. split; [exact E|].
  assert (Ep : submitChanges (input_quota (showEdit demo_page 0) (JNum (of_Z 3))) 0
    = Some (d', [ChangeQuotas p])) by exact E.
  vm_compute in Ep. injection Ep as _ <-. by vm_compute.
Defined.

(** * Names *)

(** The name shown.  A CSP whose name has no colon is shown under that name;
    a name with a colon is cut there, so that different CSPs can be shown under
    one name. *)
Theorem name_shown name rest :
  str_all (fun c => negb (eqc c ":")) name = true ->
  cspfilter (Some (prov_key name)) = Some name /\
  cspfilter (Some (prov_key (name +:+ ":" +:+ rest))) = Some name.
Proof. intros Hn. by apply (cspfilter_prov name rest). Qed.

Lemma name_shown_witness :
  cspfilter (Some "prov:acme:eu") = Some "acme" /\ cspfilter (Some "prov:acme") = Some "acme".
Proof. destruct (name_shown "acme" "eu" eq_refl) as [H1 H2]. split; [exact H2|exact H1]. Defined.
