(* ===== verification/Agent.v ===== *)
(** The QoS agent (src/agent/src/agent/agent.js, started by src/agent/src/main.js):
    its state, one operation per method, and the event loop that runs its timers.

    A method returns the new state and the list of its effects, in order: lines
    on the console, HTTP requests, timers, the listening port.  Times, random
    numbers and the answers of remote hosts are arguments. *)
From S2P Require Import Prelude JsNum JsString JsVal JsObj Json.

(** * Log levels (src/agent/src/log/level.json) *)

Definition Debug : Z := 100.
Definition Information : Z := 200.
Definition Warning : Z := 300.
Definition Error : Z := 400.
Definition Fatal : Z := 500.

(** * State *)

(** [meanProbes] is an array of one sample at first and a Number afterwards. *)
Inductive mean := MeanArray (x : num) | MeanNum (x : num).

Record probe := Probe {
  agentAddress : string;
  lastProbes : list num;
  meanProbes : mean;
  lastSeen : Z;
}.

Record agent := Agent {
  applicationLogLevel : Z;
  turnUser : string;
  turnPass : string;
  ownId : string;
  servingAreaName : string;
  isAccessAgent : bool;
  brokerUrl : string;
  restPort : jsval;
  ownIp : string;
  isRegisteredAtBroker : bool;
  registerTimeout : Z;
  unsuccessfulRegisterTimeout : Z;
  probingTimeout : Z;
  maxProbes : nat;
  showStateTimeout : Z;
  turnAgentList : list string;
  turnProbes : list (string * probe);   (* own properties, in order of creation *)
}.

Inductive task := RegisterAgain | RunProbing | StatusReport | RunWatchDogs.

Inductive effect :=
  | ELog (line : string)
  | EGet (url : string)
  | EPost (url : string) (body : list (string * jsval))
  | ETimeout (ms : Z) (t : task)
  | EInterval (ms : Z) (t : task)
  | EListen (port : jsval).

(** * _validate and _log *)

(** What is validated: a primitive value, or an object with its own fields. *)
Inductive content := CVal (v : jsval) | CObj (fields : gmap string jsval).

(** The text [JSON.parse] reads. *)
Definition content_text (c : content) : string :=
  match c with CVal v => to_str v | CObj _ => "[object Object]" end.

(** Reading [resultCode]: [None] is the exception on [null] and [undefined]. *)
Definition resultCode (c : content) : option jsval :=
  match c with
  | CVal Undef | CVal Null => None
  | CVal _ => Some Undef
  | CObj f => Some (default Undef (f !! "resultCode"))
  end.

(** [v == 200]. *)
Definition equals_200 (v : jsval) : bool :=
  match v with Undef | Null => false | _ => eqn (to_num v) (of_Z 200) end.

Definition isJSON (c : content) : bool := json_valid (content_text c).

(** [None] is an exception. *)
Definition validate (what : string) (c : content) : option bool :=
  if String.eqb what "registerResponse" then
    if isJSON c then v ← resultCode c; Some (equals_200 v) else Some false
  else if String.eqb what "isJSON" then Some (isJSON c)
  else if String.eqb what "isUndefined" then
    Some (match c with CVal Undef | CVal Null => true | _ => false end)
  else Some true.

Definition level_name (lvl : Z) : option string :=
  if lvl =? Debug then Some "Debug"
  else if lvl =? Information then Some "Information"
  else if lvl =? Warning then Some "Warning"
  else if lvl =? Error then Some "Error"
  else if lvl =? Fatal then Some "Fatal"
  else None.

Definition log (threshold lvl : Z) (str : string) : list effect :=
  let str := if isJSON (CVal (JStr str)) then json_quote str else str in
  match level_name lvl with
  | Some name => if threshold <=? lvl then [ELog ("[" +:+ name +:+ "] " +:+ str)] else []
  | None => [ELog ("[Debug] " +:+ str)]
  end.

Definition log_ (a : agent) : Z -> string -> list effect := log (applicationLogLevel a).

(** * Random identifiers *)

Definition uuid_template : string := "xxxxxxxx-xxxx-4xxx-yxxx-xxxxxxxxxxxx".

(** The digit for one [x] or [y] of the template and the next [d]. *)
Definition uuid_digit (c : ascii) (d rnd : num) : string * num :=
  let r := to_int32 (rem (add d (mul rnd (of_Z 16))) (of_Z 16)) in
  (int_to_radix 16 (if eqc c "x" then r else Z.lor (Z.land r 3) 8), floor (div d (of_Z 16))).

Fixpoint uuid_go (t : string) (d : num) (rnds : list num) : string :=
  match t with
  | EmptyString => ""
  | String c t' =>
      if eqc c "x" || eqc c "y" then
        let '(s, d') := uuid_digit c d (default (Fin 0) (head rnds)) in
        s +:+ uuid_go t' d' (tail rnds)
      else String c (uuid_go t' d rnds)
  end.

(** [time] is [new Date().getTime()]; [rnds] are the values of [Math.random()]. *)
Definition generateUUID (time : Z) (rnds : list num) : string :=
  uuid_go uuid_template (of_Z time) rnds.

Definition randomInt (low high rnd : num) : num :=
  floor (add (mul rnd (sub high low)) low).

(** * The constructor *)

Definition new_agent (user pass own : string) : agent * list effect :=
  let a := Agent Information user pass own "XY" true "http://localhost:8667"
    (JNum (of_Z 10000)) "" true (1000 * 5000) (5 * 1000) (5 * 1000) 10 (10 * 1000)
    ["127.0.0.1:20000"; "127.0.0.1:20001"; "127.0.0.1:20002"; "127.0.0.1:20003";
     "127.0.0.1:20004"; "127.0.0.1:20005"; "127.0.0.1:20006"; "127.0.0.1:20007";
     "127.0.0.1:20008"] [] in
  (a, log_ a Information ("Running Agent: " +:+ own)).

(** * Registration *)

(** [servingArea] is read from a property the constructor does not set. *)
Definition registerAtBroker (a : agent) : list effect :=
  let url := brokerUrl a +:+ "/turn-servers-management/register/" in
  log_ a Debug ("Registering at Broker " +:+ url) ++
  [EPost url [("agentAddress", JStr (ownIp a +:+ ":" +:+ to_str (restPort a)));
              ("servingArea", Undef);
              ("action", JStr "register");
              ("isAccessAgent", JBool (isAccessAgent a))]].

(** The two callbacks are plain functions: [this] is [undefined] in them, so the
    first use of it throws and the agent is left as it was. *)
Definition register_answered (a : agent) : agent * list effect :=
  (a, [ELog ("The level debug: " +:+ dec Debug)]).
Definition register_failed (a : agent) : agent * list effect := (a, []).

(** * Probing *)

Definition ping_url (host own : string) (now : Z) : string :=
  "http://" +:+ host +:+ "/performance/ping/" +:+ own +:+ "/" +:+ dec now.

(** [t1] and [t2] are the two readings of the clock; [thrown] is the message of
    an exception thrown by [requestify.get], if any. *)
Definition callRemoteAgent (a : agent) (host : string) (t1 t2 : Z) (thrown : option string)
    : list effect :=
  log_ a Debug (" _callRemoteAgent: Calling the remote agent http://" +:+ host +:+
    "/performance/ping/" +:+ servingAreaName a +:+ "/" +:+ dec t1) ++
  match thrown with
  | None => [EGet (ping_url host (ownId a) t2)]
  | Some m => log_ a Error ("Catched error: " +:+ m)
  end.

(** One ping per known TURN agent; [clock] gives the successive readings. *)
Definition runProbing (a : agent) (clock : nat -> Z) : list effect :=
  concat (imap (fun i host => callRemoteAgent a host (clock (2 * i)%nat) (clock (2 * i + 1)%nat) None)
            (turnAgentList a)).

Definition with_probes (a : agent) (l : list (string * probe)) : agent :=
  Agent (applicationLogLevel a) (turnUser a) (turnPass a) (ownId a) (servingAreaName a)
    (isAccessAgent a) (brokerUrl a) (restPort a) (ownIp a) (isRegisteredAtBroker a)
    (registerTimeout a) (unsuccessfulRegisterTimeout a) (probingTimeout a) (maxProbes a)
    (showStateTimeout a) (turnAgentList a) l.

(** The samples after one more: when there are more than [maxProbes] the oldest
    goes first. *)
Definition push_probe (max : nat) (l : list num) (calc : num) : list num :=
  (if (max <? length l)%nat then tail l else l) ++ [calc].

Definition mean_of (l : list num) : num :=
  parseInt_num (div (foldl add (Fin 0) l) (of_Z (Z.of_nat (length l)))).

(** A key that plain objects inherit is not [undefined] and has no samples. *)
Definition storeProbe (a : agent) (agentId host : string) (calc : num) (now : Z)
    : agent * list effect :=
  let fx := log_ a Debug (" _storeProbe: storing the current probe " +:+ agentId +:+ ", " +:+
              host +:+ ", " +:+ num_to_string calc) in
  let entry :=
    match obj_get agentId (turnProbes a) with
    | None =>
        Probe host [calc] (if inherited agentId then MeanNum (mean_of [calc]) else MeanArray calc) now
    | Some p =>
        let l := push_probe (maxProbes a) (lastProbes p) calc in
        Probe host l (MeanNum (mean_of l)) now
    end in
  (with_probes a (obj_set agentId entry (turnProbes a)), fx).

(** The body of an answer to a ping. *)
Record ping_body := { reqTimestamp : jsval; agentId : jsval }.

(** [Math.round((now - parseInt(t)) / 1000)]. *)
Definition rtt (now : Z) (t : jsval) : num :=
  round (div (sub (of_Z now) (parseInt_val t)) (of_Z 1000)).

(** The answer to a ping of [host] arrives at [now] (microseconds); a [null] body
    makes the callback throw. *)
Definition ping_answered (a : agent) (host : string) (body : option ping_body) (now now_ms : Z)
    : agent * list effect :=
  match body with
  | None => (a, [])
  | Some b =>
      let calc := rtt now (reqTimestamp b) in
      let '(a', fx) := storeProbe a (to_str (agentId b)) host calc now_ms in
      (a', log_ a Debug (" _callRemoteAgent [" +:+ host +:+ ", " +:+ to_str (agentId b) +:+
             "] Response received,  RTT: " +:+ num_to_string calc +:+ "ms") ++ fx)
  end.

Definition ping_failed (a : agent) (host message : string) : list effect :=
  log_ a Error ("Error trying to ping the given agent address (" +:+ host +:+ " ): " +:+ message).

(** * The status report *)

Definition tab : string := String (chr 9) "".

Definition mean_text (m : mean) : string :=
  match m with MeanArray x | MeanNum x => num_to_string x end.

Definition statusReport (a : agent) (now : Z) : list effect :=
  log_ a Information "Current stored TURN Agents" ++
  concat (map (fun '(entry, p) =>
    let seen := parseInt_num (div (of_Z (now - lastSeen p)) (of_Z 1000)) in
    log_ a Information (entry +:+ tab +:+ agentAddress p +:+ tab +:+ "~" +:+
      mean_text (meanProbes p) +:+ "ms" +:+ tab +:+ "last seen before " +:+
      num_to_string seen +:+ "s")) (own_keys (turnProbes a))) ++
  log_ a Information "--------------------------".

(** * The watchdogs *)

Definition runWatchDogs (a : agent) : list effect :=
  log_ a Debug "_runWatchDogs called" ++
  if isRegisteredAtBroker a then
    log_ a Debug "Agent is registered at broker, setting timeout for re-registration" ++
    [ETimeout (registerTimeout a) RegisterAgain] ++
    (if isAccessAgent a
     then [EInterval (probingTimeout a) RunProbing; EInterval (showStateTimeout a) StatusReport]
     else [])
  else
    registerAtBroker a ++ [ETimeout (unsuccessfulRegisterTimeout a) RunWatchDogs].

Definition start (a : agent) : list effect := runWatchDogs a.

(** * The REST interface of a TURN agent *)

Inductive ping_response :=
  | Pong (reqTimestamp agentId : string)
  | BadTimestamp.

(** The handler of [/performance/ping/:requestingAgent/:reqTimestamp]: status,
    body and effects. *)
Definition ping_handler (a : agent) (requestingAgent reqTimestamp : string)
    : Z * ping_response * list effect :=
  if negb (isNaN (to_number reqTimestamp)) then
    (200, Pong reqTimestamp (ownId a),
     log_ a Debug ("Received successful ping request from " +:+ requestingAgent +:+
       ", responding accordingly"))
  else (400, BadTimestamp, []).

Definition startREST (a : agent) : list effect :=
  if isAccessAgent a then
    log_ a Debug "Running as Access Agent Service, no REST Interface will be started"
  else
    log_ a Debug "Starting the REST Interface for TURN Agents" ++ [EListen (restPort a)] ++
    log_ a Debug ("Running Agent at HTTP/REST Port: " +:+ to_str (restPort a)).

(** * initialize *)

Definition initialize (a : agent) (argv : list string) : agent * list effect :=
  let arg i := of_field (argv !! i) in
  let ip := match argv !! 2%nat with
            | Some s => if truthy (JStr s) then s else ownIp a
            | None => ownIp a
            end in
  let port := match argv !! 3%nat with
              | Some s => if truthy (JStr s) && negb (isNaN (to_number s)) then JStr s else restPort a
              | None => restPort a
              end in
  let access := match argv !! 4%nat with Some s => String.eqb s "access" | None => false end in
  let a' := Agent (applicationLogLevel a) (turnUser a) (turnPass a) (ownId a) (servingAreaName a)
    access (brokerUrl a) port ip (isRegisteredAtBroker a)
    (registerTimeout a) (unsuccessfulRegisterTimeout a) (probingTimeout a) (maxProbes a)
    (showStateTimeout a) (turnAgentList a) (turnProbes a) in
  (a', log_ a Debug ("Using the following IP Address: " +:+ to_str (arg 2%nat)) ++
       log_ a Debug ("Using the following port: " +:+ to_str (arg 3%nat)) ++
       log_ a Debug ("Agent type: " +:+ to_str (arg 4%nat)) ++ startREST a').

(** main.js: [new Agent()], [initialize()], [start()]. *)
Definition main (user pass own : string) (argv : list string) : agent * list effect :=
  let '(a, fx) := new_agent user pass own in
  let '(a', fx') := initialize a argv in
  (a', fx ++ fx' ++ start a').

(** * The event loop *)

Record timer := Timer { due : Z; what : task; every : option Z }.

(** The process: the agent, the clock (milliseconds), the pending timers, and how
    many registration requests, probing rounds and pings it has sent. *)
Record world := World {
  w_agent : agent;
  w_now : Z;
  w_timers : list timer;
  w_posts : nat;
  w_rounds : nat;
  w_pings : nat;
}.

Definition new_timers (now : Z) (fx : list effect) : list timer :=
  omap (fun e => match e with
                 | ETimeout ms t => Some (Timer (now + ms) t None)
                 | EInterval ms t => Some (Timer (now + ms) t (Some ms))
                 | _ => None
                 end) fx.

Definition is_post (e : effect) : bool := match e with EPost _ _ => true | _ => false end.
Definition is_get (e : effect) : bool := match e with EGet _ => true | _ => false end.
Definition count_posts (fx : list effect) : nat := length (filter (fun e => is_post e = true) fx).
Definition count_gets (fx : list effect) : nat := length (filter (fun e => is_get e = true) fx).

Definition unregister (a : agent) : agent :=
  Agent (applicationLogLevel a) (turnUser a) (turnPass a) (ownId a) (servingAreaName a)
    (isAccessAgent a) (brokerUrl a) (restPort a) (ownIp a) false
    (registerTimeout a) (unsuccessfulRegisterTimeout a) (probingTimeout a) (maxProbes a)
    (showStateTimeout a) (turnAgentList a) (turnProbes a).

(** The callbacks of the timers. *)
Definition run_task (a : agent) (t : task) (clock : nat -> Z) (now : Z) : agent * list effect :=
  match t with
  | RegisterAgain => (unregister a, registerAtBroker (unregister a))
  | RunProbing => (a, runProbing a clock)
  | StatusReport => (a, statusReport a now)
  | RunWatchDogs => (a, runWatchDogs a)
  end.

Definition again (t : timer) (now : Z) : list timer :=
  match every t with Some ms => [Timer (now + ms) (what t) (Some ms)] | None => [] end.

(** The world after a callback, which returned [r] at time [now]. *)
Definition after (w : world) (now : Z) (timers : list timer) (rounds : nat)
    (r : agent * list effect) : world :=
  World r.1 now (timers ++ new_timers now r.2) (w_posts w + count_posts r.2) rounds
    (w_pings w + count_gets r.2).

Definition count_round (t : timer) (n : nat) : nat :=
  match what t with RunProbing => S n | _ => n end.

(** Events: a timer whose time has come fires (possibly late), a ping is answered
    or fails, the registration is answered or fails. *)
Inductive wstep : world -> world -> Prop :=
  | w_timer w i t now clock :
      w_timers w !! i = Some t -> w_now w <= now -> due t <= now ->
      wstep w (after w now (delete i (w_timers w) ++ again t now) (count_round t (w_rounds w))
                 (run_task (w_agent w) (what t) clock now))
  | w_pong w host body now now_us :
      w_now w <= now ->
      wstep w (after w now (w_timers w) (w_rounds w)
                 (ping_answered (w_agent w) host body now_us now))
  | w_ping_failed w host m now :
      w_now w <= now ->
      wstep w (after w now (w_timers w) (w_rounds w)
                 (w_agent w, ping_failed (w_agent w) host m))
  | w_registered w now :
      w_now w <= now ->
      wstep w (after w now (w_timers w) (w_rounds w) (register_answered (w_agent w)))
  | w_not_registered w now :
      w_now w <= now ->
      wstep w (after w now (w_timers w) (w_rounds w) (register_failed (w_agent w))).

(** The process started at [now] with the command line [argv]. *)
Definition boot (user pass own : string) (argv : list string) (now : Z) : world :=
  let '(a, fx) := main user pass own argv in
  World a now (new_timers now fx) (count_posts fx) 0 (count_gets fx).
