(* ===== verification/AgentProps.v ===== *)
(** Properties of the QoS agent: the window of samples, the ping protocol between
    an access agent and a TURN agent, the identifiers, the registration and the
    cadence of the timers. *)
From S2P Require Import Prelude JsNum JsString JsVal JsObj Json Agent.

(** * Effects that schedule nothing *)

(** Effects of the log and of a ping. *)
Definition quiet (e : effect) : bool :=
  match e with ELog _ | EGet _ => true | _ => false end.

Lemma quiet_log th lvl s : forallb quiet (log th lvl s) = true.
Proof. unfold log. destruct (level_name lvl); [destruct (_ <=? _)|]; done. Qed.

Lemma forallb_concat {A} (p : A -> bool) (ls : list (list A)) :
  Forall (fun l => forallb p l = true) ls -> forallb p (concat ls) = true.
Proof. induction 1 as [|l ls Hl _ IH]; [done|]. cbn. by rewrite forallb_app, Hl. Qed.

Lemma quiet_timers now fx : forallb quiet fx = true -> new_timers now fx = [].
Proof.
  induction fx as [|e fx IH]; [done|]. cbn. rewrite andb_true_iff. intros [He Hf].
  destruct e; try done; by apply IH.
Qed.

Lemma quiet_posts fx : forallb quiet fx = true -> count_posts fx = 0%nat.
Proof.
  unfold count_posts. induction fx as [|e fx IH]; [done|]. cbn [forallb].
  rewrite andb_true_iff. intros [He Hf]. rewrite filter_cons_False; [by apply IH|]. by destruct e.
Qed.

Lemma new_timers_app now fx fx' : new_timers now (fx ++ fx') = new_timers now fx ++ new_timers now fx'.
Proof. unfold new_timers. apply omap_app. Qed.

Lemma count_posts_app fx fx' : count_posts (fx ++ fx') = (count_posts fx + count_posts fx')%nat.
Proof. unfold count_posts. by rewrite filter_app, length_app. Qed.

Lemma quiet_call a host t1 t2 th : forallb quiet (callRemoteAgent a host t1 t2 th) = true.
Proof.
  unfold callRemoteAgent, log_. rewrite forallb_app, quiet_log. cbn [andb].
  destruct th; [apply quiet_log|done].
Qed.

Lemma quiet_probing a clock : forallb quiet (runProbing a clock) = true.
Proof.
  unfold runProbing. apply forallb_concat, Forall_forall. intros l Hl.
  apply elem_of_lookup_imap in Hl as (i & host & -> & _). apply quiet_call.
Qed.

Lemma quiet_status a now : forallb quiet (statusReport a now) = true.
Proof.
  unfold statusReport, log_. rewrite !forallb_app, !quiet_log, forallb_concat; [done|].
  apply Forall_forall. intros l Hl. apply list_elem_of_fmap in Hl as ([k p] & -> & _).
  apply quiet_log.
Qed.

(** * The samples of one TURN agent *)

(** The last [n] elements. *)
Definition last_n {A} (n : nat) (l : list A) : list A := drop (length l - n) l.

Lemma tail_drop_S {A} n (l : list A) : tail (drop n l) = drop (S n) l.
Proof. revert n. induction l as [|x l IH]; intros [|n]; try done. apply IH. Qed.

Lemma push_probe_window max l calc :
  push_probe max (last_n (S max) l) calc = last_n (S max) (l ++ [calc]).
Proof.
  unfold push_probe, last_n. rewrite length_app, length_drop. cbn [length].
  destruct (Nat.ltb_spec max (length l - (length l - S max))).
  - rewrite tail_drop_S, drop_app_le by lia. do 2 f_equal. lia.
  - rewrite drop_app_le by lia. do 2 f_equal. lia.
Qed.

(** A sample from a host, received at a time. *)
Record sample := { s_agent : string; s_host : string; s_calc : num; s_time : Z }.

Definition store_all (a : agent) (l : list sample) : agent :=
  foldl (fun a s => (storeProbe a (s_agent s) (s_host s) (s_calc s) (s_time s)).1) a l.

(** The samples of agent [k]. *)
Definition of_agent (k : string) (l : list sample) : list sample :=
  filter (fun s => s_agent s = k) l.

(** What is stored for [k] after the samples [l] (a non-empty list for [k]). *)
Definition summary (max : nat) (k : string) (l : list sample) (p : probe) : Prop :=
  exists l' s, of_agent k l = l' ++ [s] /\
    agentAddress p = s_host s /\ lastSeen p = s_time s /\
    lastProbes p = last_n (S max) (map s_calc (l' ++ [s])) /\
    (l' <> [] -> meanProbes p = MeanNum (mean_of (lastProbes p))).

Lemma store_all_summary a l k :
  turnProbes a = [] -> inherited k = false ->
  match obj_get k (turnProbes (store_all a l)) with
  | None => of_agent k l = []
  | Some p => summary (maxProbes a) k l p
  end /\ maxProbes (store_all a l) = maxProbes a.
Proof.
  intros Ha Hk. induction l as [|s l [IH IHm]] using rev_ind.
  - cbn. by rewrite Ha.
  - unfold store_all. rewrite foldl_app. cbn [foldl]. fold (store_all a l).
    set (a1 := store_all a l) in *. unfold storeProbe. cbn [fst with_probes turnProbes maxProbes].
    split; [|done]. unfold summary, of_agent in *. rewrite filter_app.
    destruct (decide (s_agent s = k)) as [<-|Hne].
    + rewrite obj_get_set, filter_cons_True by done. cbn [filter list_filter].
      exists (of_agent (s_agent s) l), s. split; [done|].
      destruct (obj_get (s_agent s) (turnProbes a1)) as [p|].
      * destruct IH as (l' & s' & E & _ & _ & Hl & _). unfold of_agent in *. rewrite E.
        cbn [agentAddress lastSeen lastProbes meanProbes]. rewrite IHm, Hl.
        by rewrite push_probe_window, !map_app.
      * unfold of_agent. rewrite IH. cbn. split_and!; try done.
    + rewrite obj_get_set_ne, filter_cons_False by done. cbn [filter list_filter].
      by rewrite app_nil_r.
Qed.

(** C14. The window of samples.  For every agent that has answered, the store
    holds its last 11 round-trip times in order of arrival (one more than
    [maxProbes], since the oldest goes only when there are already more than
    [maxProbes]), the mean of exactly these, and the address and time of the last
    answer; an agent that has not answered has no entry. *)
Theorem probe_window user pass own k l :
  inherited k = false ->
  let a := store_all (new_agent user pass own).1 l in
  let samples := map s_calc (of_agent k l) in
  match obj_get k (turnProbes a) with
  | None => of_agent k l = []
  | Some p =>
      lastProbes p = last_n 11 samples /\
      (exists s, last (of_agent k l) = Some s /\ agentAddress p = s_host s /\
                 lastSeen p = s_time s) /\
      ((2 <= length samples)%nat -> meanProbes p = MeanNum (mean_of (last_n 11 samples)))
  end.
Proof.
  intros Hk a samples.
  destruct (store_all_summary (new_agent user pass own).1 l k eq_refl Hk) as [H _].
  fold a in H. destruct (obj_get k (turnProbes a)) as [p|]; [|done].
  destruct H as (l' & s & E & Ha & Ht & Hl & Hm). subst samples. rewrite E.
  change (maxProbes (new_agent user pass own).1) with 10%nat in Hl.
  split; [done|]. split.
  - exists s. by rewrite last_snoc.
  - intros Hlen. rewrite Hm, Hl; [done|]. intros ->. cbn in Hlen. lia.
Qed.

Definition demo_sample (n : Z) : sample :=
  {| s_agent := "turn1"; s_host := "h:1"; s_calc := of_Z n; s_time := n |}.

Lemma probe_window_witness :
  let a := store_all (new_agent "u" "p" "me").1 (map demo_sample (seqZ 1 14)) in
  exists p, obj_get "turn1" (turnProbes a) = Some p /\ lastProbes p = map of_Z (seqZ 4 11).
Proof.
  pose proof (probe_window "u" "p" "me" "turn1" (map demo_sample (seqZ 1 14)) ltac:(by vm_compute)) as H.
  cbv zeta in H |- *.
  destruct (obj_get "turn1" _) as [p|].
  2: { assert (L : length (of_agent "turn1" (map demo_sample (seqZ 1 14))) = 14%nat) by (by vm_compute).
       rewrite H in L. discriminate L. }
  exists p. split; [reflexivity|]. destruct H as [-> _]. by vm_compute.
Defined.

(** * Round-trip times *)

Lemma sub_of_Z a b : 0 <= b <= a -> a <= 2 ^ 53 -> sub (of_Z a) (of_Z b) = Fin ((a - b) * scale).
Proof.
  intros Hb Ha. pose proof scale_pos as Hs. unfold sub.
  rewrite (of_Z_exact a), (of_Z_exact b) by lia. cbn [neg].
  destruct (Z.eqb_spec (b * scale) 0) as [E|E]; cbn [add].
  - assert (b = 0) as -> by nia. by rewrite Z.sub_0_r.
  - replace (a * scale + - (b * scale)) with ((a - b) * scale) by ring.
    change (of_ratio ((a - b) * scale) 1) with (of_Z (a - b)). apply of_Z_exact. lia.
Qed.

(** [Math.round(d / 1000)] for an integer [d], halves up. *)
Lemma round_thousandths d :
  0 <= d <= 2 ^ 50 -> round (div (Fin (d * scale)) (of_Z 1000)) = of_Z ((2 * d + 1000) / 2000).
Proof.
  intros Hd. pose proof scale_pos as Hs. set (r := (2 * d + 1000) / 2000).
  assert (Hr : 2000 * r <= 2 * d + 1000 < 2000 * r + 2000) by
    (pose proof (Z.div_mod (2 * d + 1000) 2000 ltac:(lia));
     pose proof (Z.mod_pos_bound (2 * d + 1000) 2000 ltac:(lia)); lia).
  assert (Hr' : 0 <= r <= 2 ^ 42) by lia.
  rewrite (of_Z_exact 1000), (of_Z_exact r) by lia.
  destruct (Z.eq_dec d 0) as [->|Hd0].
  { assert (r = 0) as -> by lia. by vm_compute. }
  rewrite div_Fin by nia. rewrite of_ratio_scale by lia.
  set (u := 2 ^ 1064). assert (Hu : scale = 1024 * u) by (by vm_compute).
  assert (0 < u) by (by vm_compute).
  set (lo := if r =? 0 then u else (1024 * r - 512) * u).
  assert (Ex : forall m, 0 <= m <= 2 ^ 53 -> of_ratio (m * u) 1 = Fin (m * u)).
  { intros m Hm. pose proof (of_ratio_exact m 1064 1 ltac:(lia) ltac:(lia) ltac:(lia)) as E.
    rewrite Z.mul_1_r in E. apply E. rewrite Z.abs_eq by lia.
    apply Z.le_lt_trans with (2 ^ 53 * 2 ^ 1064); [nia|by vm_compute]. }
  destruct (of_ratio_between (d * scale) 1000 lo ((1024 * r + 511) * u)) as (m & -> & Hm).
  - lia.
  - unfold lo. destruct (Z.eqb_spec r 0); nia.
  - apply Z.lt_le_trans with (2 ^ 53 * u); [nia|by vm_compute].
  - unfold lo. rewrite Hu. destruct (Z.eqb_spec r 0); split; nia.
  - unfold lo. destruct (Z.eqb_spec r 0); [|apply Ex; lia].
    replace u with (1 * u) by ring. by apply Ex.
  - apply Ex. lia.
  - cbn [round].
    assert (E : (2 * m + scale) / (2 * scale) = r).
    { symmetry. apply (Z.div_unique _ _ r (2 * m + scale - 2 * scale * r)); [|lia].
      left. unfold lo in Hm. rewrite Hu. destruct (Z.eqb_spec r 0); nia. }
    rewrite E. assert ((m <? 0) = false) as ->.
    { apply Z.ltb_ge. unfold lo in Hm. destruct (Z.eqb_spec r 0); nia. }
    by rewrite andb_false_r.
Qed.

Lemma rtt_exact now t :
  0 <= t <= now -> now <= 2 ^ 53 -> now - t <= 2 ^ 50 ->
  rtt now (JStr (dec t)) = of_Z ((2 * (now - t) + 1000) / 2000).
Proof.
  intros Ht Hn Hd. unfold rtt, parseInt_val. cbn [to_str].
  rewrite parseInt_dec, sub_of_Z by lia. apply round_thousandths. lia.
Qed.

(** The ping protocol.  A TURN agent [b] pinged by an access agent [a] at
    time [t] (microseconds) answers 200 with the same time and its own identity;
    when the answer is in at [now], [a] has stored for [b] the elapsed time
    rounded to the nearest millisecond, at the address it pinged, and nothing
    else of its state has changed. *)
Theorem ping_roundtrip a b host t now now_ms :
  0 <= t <= now -> now <= 2 ^ 53 -> now - t <= 2 ^ 50 ->
  obj_get (ownId b) (turnProbes a) = None -> inherited (ownId b) = false ->
  (ping_handler b (ownId a) (dec t)).1 = (200, Pong (dec t) (ownId b)) /\
  let body := {| reqTimestamp := JStr (dec t); agentId := JStr (ownId b) |} in
  let a' := (ping_answered a host (Some body) now now_ms).1 in
  let ms := of_Z ((2 * (now - t) + 1000) / 2000) in
  obj_get (ownId b) (turnProbes a') = Some (Probe host [ms] (MeanArray ms) now_ms) /\
  (forall k, k <> ownId b -> obj_get k (turnProbes a') = obj_get k (turnProbes a)) /\
  a' = with_probes a (turnProbes a').
Proof.
  intros Ht Hn Hd Hnone Hinh. unfold ping_handler. rewrite to_number_dec by lia.
  assert (isNaN (of_Z t) = false) as -> by (by rewrite of_Z_exact by lia).
  split; [done|].
  cbn [ping_answered reqTimestamp agentId to_str]. rewrite rtt_exact by done.
  unfold storeProbe. rewrite Hnone, Hinh. cbn [fst with_probes turnProbes].
  split; [by rewrite obj_get_set|]. split; [|done].
  intros k Hk. by rewrite obj_get_set_ne.
Qed.

Lemma ping_roundtrip_witness :
  let a := (new_agent "u" "p" "access-1").1 in
  let b := (new_agent "u" "p" "turn-1").1 in
  obj_get "turn-1" (turnProbes (ping_answered a "10.0.0.9:20000"
    (Some {| reqTimestamp := JStr (dec 1000000); agentId := JStr "turn-1" |}) 1012500 1700).1)
    = Some (Probe "10.0.0.9:20000" [of_Z 13] (MeanArray (of_Z 13)) 1700).
Proof.
  destruct (ping_roundtrip (new_agent "u" "p" "access-1").1
    (new_agent "u" "p" "turn-1").1 "10.0.0.9:20000" 1000000 1012500 1700
    ltac:(lia) ltac:(lia) ltac:(lia) eq_refl ltac:(by vm_compute)) as (_ & H & _).
  change ((2 * (1012500 - 1000000) + 1000) / 2000) with 13 in H. exact H.
Defined.

(** * Identifiers *)

(** A ratio of non-negative integers below a representable bound. *)
Lemma of_ratio_upto p q hi :
  0 < q -> 0 <= p <= hi * q -> hi < limit -> of_ratio hi 1 = Fin hi ->
  exists m, of_ratio p q = Fin m /\ 0 <= m <= hi.
Proof.
  intros Hq Hp Hl Eh.
  pose proof (of_ratio_mono 0 1 p q ltac:(lia) Hq ltac:(lia)) as L.
  pose proof (of_ratio_mono p q hi 1 Hq ltac:(lia) ltac:(lia)) as U.
  change (of_ratio 0 1) with (Fin 0) in L. rewrite Eh in U.
  apply len_ord in L as (a & b & Ha & Hb & Hab), U as (b' & c & Hb' & Hc & Hbc).
  change (ord (Fin 0)) with (Some 0) in Ha. change (ord (Fin hi)) with (Some hi) in Hc.
  assert (b' = b) as -> by congruence. assert (a = 0) as -> by congruence.
  assert (c = hi) as -> by congruence.
  assert (Hnz : of_ratio p q <> NegZero).
  { unfold of_ratio. rewrite (proj2 (Z.ltb_ge p 0)) by lia.
    destruct (limit <=? _); [done|]. by destruct (_ =? 0). }
  pose proof limit_pos. destruct (of_ratio p q) as [|[]| |k]; [discriminate Hb| | |done|].
  - change (ord (Inf true)) with (Some (- limit)) in Hb. assert (b = - limit) by congruence. lia.
  - change (ord (Inf false)) with (Some limit) in Hb. assert (b = limit) by congruence. lia.
  - change (ord (Fin k)) with (Some k) in Hb. assert (b = k) as -> by congruence. by exists k.
Qed.

Lemma floor_div_16 k :
  0 <= k <= 2 ^ 53 * scale ->
  exists k', floor (div (Fin k) (of_Z 16)) = Fin k' /\ 0 <= k' <= 2 ^ 53 * scale.
Proof.
  intros Hk. pose proof scale_pos as Hs. rewrite of_Z_exact by lia.
  destruct (Z.eq_dec k 0) as [->|Hk0]; [exists 0; split; [by vm_compute|lia]|].
  rewrite div_Fin by lia. rewrite of_ratio_scale by lia.
  destruct (of_ratio_upto k 16 (2 ^ 53 * scale)) as (m & -> & Hm);
    [lia|lia|by vm_compute|by vm_compute|].
  exists (m / scale * scale). split; [done|].
  pose proof (Z.mul_div_le m scale Hs). pose proof (Z.div_pos m scale). nia.
Qed.

Lemma uuid_residue k rnd :
  0 <= k <= 2 ^ 53 * scale -> random_value rnd ->
  0 <= to_int32 (rem (add (Fin k) (mul rnd (of_Z 16))) (of_Z 16)) < 16.
Proof.
  intros Hk Hr. pose proof scale_pos as Hs.
  destruct (mul_random 16 rnd ltac:(lia) Hr) as (j & -> & Hj). cbn [add].
  destruct (of_ratio_upto (k + j) 1 (2 ^ 54 * scale)) as (m & -> & Hm);
    [lia|lia|by vm_compute|by vm_compute|].
  rewrite of_Z_exact by lia. cbn [rem is_zero units is_neg].
  rewrite (proj2 (Z.eqb_neq (16 * scale) 0)) by lia.
  destruct (Z.eqb_spec m 0) as [->|Hm0]; [by vm_compute|].
  pose proof (Z.rem_bound_pos m (16 * scale) ltac:(lia) ltac:(lia)) as Hb.
  destruct (Z.eqb_spec (Z.rem m (16 * scale)) 0).
  { rewrite (proj2 (Z.ltb_ge m 0)) by lia. by vm_compute. }
  set (r := Z.rem m (16 * scale)) in *. unfold to_int32, trunc_Z.
  assert (Hq : 0 <= Z.quot r scale < 16).
  { split; [apply Z.quot_pos; lia|]. apply Z.quot_lt_upper_bound; lia. }
  rewrite Z.mod_small by (split; [lia|apply Z.lt_trans with 16; [lia|by vm_compute]]).
  rewrite (proj2 (Z.ltb_lt (Z.quot r scale) (2 ^ 31))); [done|].
  apply Z.lt_trans with 16; [lia|by vm_compute].
Qed.

(** A version-4 UUID: what may stand at each position of the template. *)
Definition hex_digit (c : ascii) : bool := is_digit 16 c && negb (in_range "A" "F" c).
Definition variant_digit (c : ascii) : bool := eqc c "8" || eqc c "9" || eqc c "a" || eqc c "b".

Fixpoint follows (template s : string) : bool :=
  match template, s with
  | EmptyString, EmptyString => true
  | String t template', String c s' =>
      (if eqc t "x" then hex_digit c else if eqc t "y" then variant_digit c else eqc c t) &&
      follows template' s'
  | _, _ => false
  end.

Lemma hex_text r :
  0 <= r < 16 ->
  exists c, int_to_radix 16 r = String c "" /\ hex_digit c = true /\
    exists c', int_to_radix 16 (Z.lor (Z.land r 3) 8) = String c' "" /\ variant_digit c' = true.
Proof.
  intros Hr.
  pose proof (range_test 16 (fun r =>
    match int_to_radix 16 r, int_to_radix 16 (Z.lor (Z.land r 3) 8) with
    | String c EmptyString, String c' EmptyString => hex_digit c && variant_digit c'
    | _, _ => false
    end) ltac:(by vm_compute) r Hr) as T. cbv beta in T.
  destruct (int_to_radix 16 r) as [|c [|]]; try done.
  destruct (int_to_radix 16 (Z.lor _ _)) as [|c' [|]]; try done.
  apply andb_true_iff in T as [T1 T2]. exists c. split; [done|]. split; [done|]. by exists c'.
Qed.

Lemma uuid_go_follows t k rnds :
  0 <= k <= 2 ^ 53 * scale -> Forall random_value rnds ->
  follows t (uuid_go t (Fin k) rnds) = true.
Proof.
  revert k rnds. induction t as [|c t IH]; intros k rnds Hk Hr; [done|]. cbn [uuid_go].
  assert (Hrnd : random_value (default (Fin 0) (head rnds))).
  { destruct Hr; [|done]. exists 0. by vm_compute. }
  assert (Hr' : Forall random_value (tail rnds)) by (by destruct Hr).
  destruct (eqc c "x" || eqc c "y") eqn:Ec.
  - unfold uuid_digit. pose proof (uuid_residue k _ Hk Hrnd) as Hres.
    destruct (floor_div_16 k Hk) as (k' & -> & Hk').
    destruct (hex_text _ Hres) as (x & E1 & H1 & x' & E2 & H2).
    destruct (eqc c "x") eqn:Ex.
    + rewrite E1. change (String x "" +:+ ?s) with (String x s). cbn [follows].
      by rewrite Ex, H1, IH.
    + cbn [orb] in Ec. rewrite E2. change (String x' "" +:+ ?s) with (String x' s).
      cbn [follows]. by rewrite Ex, Ec, H2, IH.
  - apply orb_false_iff in Ec as [E1 E2]. cbn [follows]. rewrite E1, E2, IH by done.
    unfold eqc. by rewrite Stdlib.Strings.Ascii.eqb_refl.
Qed.

(** C16. Identifiers are well formed.  Whatever the time (in milliseconds) and the
    random numbers, [_generateUUID] returns 36 characters in the layout of a
    version-4 UUID: lower-case hexadecimal digits, the version digit 4, a variant
    digit among 8, 9, a and b. *)
Theorem uuid_well_formed time rnds :
  0 <= time <= 2 ^ 53 -> Forall random_value rnds ->
  follows uuid_template (generateUUID time rnds) = true /\
  String.length (generateUUID time rnds) = 36%nat.
Proof.
  intros Ht Hr. pose proof scale_pos.
  assert (F : follows uuid_template (generateUUID time rnds) = true).
  { unfold generateUUID. rewrite of_Z_exact by lia. apply uuid_go_follows; [nia|done]. }
  split; [done|]. revert F. generalize (generateUUID time rnds).
  assert (G : forall t s, follows t s = true -> String.length s = String.length t).
  { intros t. induction t as [|c t IH]; intros [|x s]; try done. cbn.
    rewrite andb_true_iff. intros [_ Hf]. by rewrite (IH s). }
  intros s Hs. by rewrite (G _ _ Hs).
Qed.

Lemma uuid_well_formed_witness :
  follows uuid_template (generateUUID 1456789012345 [Fin (2 ^ 1073); Fin 0]) = true.
Proof.
  refine (proj1 (uuid_well_formed 1456789012345 [Fin (2 ^ 1073); Fin 0] ltac:(lia) _)).
  repeat constructor; [exists (2 ^ 1073)|exists 0]; by vm_compute.
Defined.

(** * The event loop *)

Lemma count_gets_app fx fx' : count_gets (fx ++ fx') = (count_gets fx + count_gets fx')%nat.
Proof. unfold count_gets. by rewrite filter_app, length_app. Qed.

Lemma log_gets th lvl s : count_gets (log th lvl s) = 0%nat.
Proof. unfold log, count_gets. destruct (level_name lvl); [destruct (_ <=? _)|]; done. Qed.

Lemma gets_imap {A} (f : nat -> A -> list effect) l :
  (forall i x, count_gets (f i x) = 1%nat) -> count_gets (concat (imap f l)) = length l.
Proof.
  revert f. induction l as [|x l IH]; intros f Hf; [done|].
  cbn [imap concat length]. rewrite count_gets_app, Hf, IH; [done|]. intros i y. apply Hf.
Qed.

Lemma probing_gets a clock : count_gets (runProbing a clock) = length (turnAgentList a).
Proof.
  apply gets_imap. intros i host. unfold callRemoteAgent, log_.
  by rewrite count_gets_app, log_gets.
Qed.

Lemma status_gets a now : count_gets (statusReport a now) = 0%nat.
Proof.
  unfold statusReport, log_. rewrite !count_gets_app, !log_gets.
  induction (own_keys (turnProbes a)) as [|[k p] l IH]; [done|].
  cbn [map concat]. by rewrite !count_gets_app, log_gets.
Qed.

(** The parts of the state the timers depend on. *)
Definition setup (a : agent) : bool * Z * Z * nat :=
  (isAccessAgent a, probingTimeout a, showStateTimeout a, length (turnAgentList a)).

Definition registration (access : bool) : bool * Z * Z * nat := (access, 5000, 10000, 9%nat).

(** The timers left to run: the registration to come, if any, and the intervals of
    an access agent. *)
Definition pending (access : bool) (reg : option Z) (dp ds : Z) : list timer :=
  match reg with Some d => [Timer d RegisterAgain None] | None => [] end ++
  (if access then [Timer dp RunProbing (Some 5000); Timer ds StatusReport (Some 10000)] else []).

(** The invariant of the process started at [t0]. *)
Definition running (access : bool) (t0 : Z) (w : world) : Prop :=
  setup (w_agent w) = registration access /\
  exists reg dp ds,
    w_timers w ≡ₚ pending access reg dp ds /\
    isRegisteredAtBroker (w_agent w) = bool_decide (is_Some reg) /\
    w_posts w = (match reg with Some _ => 0 | None => 1 end)%nat /\
    (w_pings w = 9 * w_rounds w)%nat /\
    (if access then t0 + 5000 * (Z.of_nat (w_rounds w) + 1) <= dp <= w_now w + 5000
     else w_rounds w = 0%nat).

Lemma boot_access argv :
  isAccessAgent (main "" "" "" argv).1 = bool_decide (argv !! 4%nat = Some "access").
Proof.
  cbn. destruct (argv !! 4%nat) as [s|]; [|done].
  destruct (String.eqb_spec s "access") as [->|Hne]; [done|].
  symmetry. apply bool_decide_eq_false. congruence.
Qed.

Lemma new_timers_boot user pass own argv t0 :
  let access := bool_decide (argv !! 4%nat = Some "access") in
  new_timers t0 (main user pass own argv).2
    = pending access (Some (t0 + 5000000)) (t0 + 5000) (t0 + 10000) /\
  count_posts (main user pass own argv).2 = 0%nat /\
  count_gets (main user pass own argv).2 = 0%nat.
Proof.
  cbn zeta. rewrite <- boot_access. unfold main. cbn [new_agent].
  set (acc := match argv !! 4%nat with Some s => String.eqb s "access" | None => false end).
  unfold initialize, start, runWatchDogs, startREST. cbn [snd fst applicationLogLevel isAccessAgent
    isRegisteredAtBroker registerTimeout probingTimeout showStateTimeout]. fold acc.
  unfold log_. cbn [applicationLogLevel].
  assert (E : forall lvl s fx, 
    new_timers t0 (log Information lvl s ++ fx) = new_timers t0 fx /\
    count_posts (log Information lvl s ++ fx) = count_posts fx /\
    count_gets (log Information lvl s ++ fx) = count_gets fx).
  { intros lvl s fx.
    rewrite new_timers_app, count_posts_app, count_gets_app, log_gets,
      (quiet_timers _ _ (quiet_log _ _ _)), (quiet_posts _ (quiet_log _ _ _)). done. }
  revert E. generalize (log Information). intros lg E.
  assert (E1 := fun lvl s fx => proj1 (E lvl s fx)).
  assert (E2 := fun lvl s fx => proj1 (proj2 (E lvl s fx))).
  assert (E3 := fun lvl s fx => proj2 (proj2 (E lvl s fx))).
  assert (F1 := fun lvl s => E1 lvl s []). assert (F2 := fun lvl s => E2 lvl s []).
  assert (F3 := fun lvl s => E3 lvl s []).
  setoid_rewrite app_nil_r in F1. setoid_rewrite app_nil_r in F2. setoid_rewrite app_nil_r in F3.
  destruct acc; rewrite ?new_timers_app, ?count_posts_app, ?count_gets_app, ?F1, ?F2, ?F3;
    (split; [|split]); reflexivity.
Qed.

Lemma boot_running user pass own argv t0 :
  running (bool_decide (argv !! 4%nat = Some "access")) t0 (boot user pass own argv t0).
Proof.
  destruct (new_timers_boot user pass own argv t0) as (Ht & Hp & Hg). cbv zeta in Ht.
  unfold boot. destruct (main user pass own argv) as [a fx] eqn:E. cbn [snd] in *.
  assert (Ea : a = (main user pass own argv).1) by (by rewrite E). 
  split.
  - cbn [w_agent]. rewrite Ea, <- boot_access. done.
  - exists (Some (t0 + 5000000)), (t0 + 5000), (t0 + 10000). cbn [w_agent w_timers w_now w_posts w_rounds w_pings].
    rewrite Ht, Hp, Hg. split_and!; try done; [by rewrite Ea|].
    destruct (bool_decide _); [lia|done].
Qed.

(** A callback that schedules nothing and keeps the setup. *)
Definition harmless (a : agent) (r : agent * list effect) : Prop :=
  forallb quiet r.2 = true /\ count_gets r.2 = 0%nat /\ setup r.1 = setup a /\
  isRegisteredAtBroker r.1 = isRegisteredAtBroker a.

Lemma harmless_pong a host body us now : harmless a (ping_answered a host body us now).
Proof.
  unfold harmless, ping_answered, storeProbe, log_. destruct body as [b|]; [|done]. cbn [fst snd].
  by rewrite forallb_app, count_gets_app, !quiet_log, !log_gets.
Qed.

Lemma running_harmless access t0 w now r :
  running access t0 w -> w_now w <= now -> harmless (w_agent w) r ->
  running access t0 (after w now (w_timers w) (w_rounds w) r).
Proof.
  intros (Hs & reg & dp & ds & Ht & Hr & Hp & Hg & Hc) Hnow (Hq & Hq2 & Hset & Hreg).
  split; [by cbn [after w_agent]; rewrite Hset|].
  exists reg, dp, ds. cbn [after w_agent w_timers w_posts w_pings w_rounds w_now].
  rewrite quiet_timers, quiet_posts, Hq2, app_nil_r, !Nat.add_0_r by done.
  split_and!; try done; [by rewrite Hreg|]. destruct access; [lia|done].
Qed.

(** Which timer fired, and what is left of the others. *)
Lemma fired access reg dp ds l i t :
  l ≡ₚ pending access reg dp ds -> l !! i = Some t ->
  (exists d, reg = Some d /\ t = Timer d RegisterAgain None /\
             delete i l ≡ₚ pending access None dp ds) \/
  (access = true /\ t = Timer dp RunProbing (Some 5000) /\
     forall dp', delete i l ++ [Timer dp' RunProbing (Some 5000)] ≡ₚ pending access reg dp' ds) \/
  (access = true /\ t = Timer ds StatusReport (Some 10000) /\
     forall ds', delete i l ++ [Timer ds' StatusReport (Some 10000)] ≡ₚ pending access reg dp ds').
Proof.
  intros Hl Hi. pose proof (list_elem_of_lookup_2 _ _ _ Hi) as Hin. rewrite Hl in Hin.
  assert (D : pending access reg dp ds ≡ₚ t :: delete i l)
    by (rewrite <- Hl; by apply delete_Permutation).
  assert (R : forall rest, t :: rest ≡ₚ pending access reg dp ds -> delete i l ≡ₚ rest).
  { intros rest E. symmetry. apply (Permutation_cons_inv (a := t)). by rewrite E. }
  unfold pending in *. destruct reg as [d|], access; cbn [app] in *;
    rewrite ?elem_of_cons, ?elem_of_nil in Hin.
  - destruct Hin as [->|[->|[->|[]]]].
    + left. exists d. split_and!; [done|done|]. by apply R.
    + right; left. split; [done|]. split; [done|]. intros dp'.
      rewrite (R [Timer d RegisterAgain None; Timer ds StatusReport (Some 10000)]);
        solve_Permutation.
    + right; right. split; [done|]. split; [done|]. intros ds'.
      rewrite (R [Timer d RegisterAgain None; Timer dp RunProbing (Some 5000)]);
        solve_Permutation.
  - destruct Hin as [->|[]]. left. exists d. split_and!; [done|done|]. by apply R.
  - destruct Hin as [->|[->|[]]].
    + right; left. split; [done|]. split; [done|]. intros dp'.
      rewrite (R [Timer ds StatusReport (Some 10000)]); solve_Permutation.
    + right; right. split; [done|]. split; [done|]. intros ds'.
      rewrite (R [Timer dp RunProbing (Some 5000)]); solve_Permutation.
  - done.
Qed.

Lemma registerAtBroker_effects a now :
  new_timers now (registerAtBroker a) = [] /\ count_posts (registerAtBroker a) = 1%nat /\
  count_gets (registerAtBroker a) = 0%nat.
Proof.
  unfold registerAtBroker, log_.
  rewrite new_timers_app, count_posts_app, count_gets_app, log_gets,
    (quiet_timers _ _ (quiet_log _ _ _)), (quiet_posts _ (quiet_log _ _ _)). done.
Qed.

Lemma running_timer access t0 w i t now clock :
  running access t0 w -> w_timers w !! i = Some t -> w_now w <= now -> due t <= now ->
  running access t0 (after w now (delete i (w_timers w) ++ again t now) (count_round t (w_rounds w))
                       (run_task (w_agent w) (what t) clock now)).
Proof.
  intros (Hs & reg & dp & ds & Ht & Hr & Hp & Hg & Hc) Hi Hnow Hdue.
  destruct (fired access reg dp ds _ i t Ht Hi) as [(d & -> & -> & Hd)|[(-> & -> & Hd)|(-> & -> & Hd)]];
    cbn [due] in Hdue; cbn [run_task what again every count_round];
    (split; [exact Hs|]).
  - destruct (registerAtBroker_effects (unregister (w_agent w)) now) as (E1 & E2 & E3).
    exists None, dp, ds. cbn [after w_agent w_timers w_posts w_pings w_rounds w_now fst snd].
    rewrite E1, E2, E3, Hp, !app_nil_r, Nat.add_0_r. split_and!; try done.
    destruct access; [lia|done].
  - exists reg, (now + 5000), ds.
    cbn [after w_agent w_timers w_posts w_pings w_rounds w_now fst snd].
    pose proof (quiet_probing (w_agent w) clock) as Q.
    rewrite (quiet_timers _ _ Q), (quiet_posts _ Q), probing_gets, app_nil_r, Nat.add_0_r.
    injection Hs as _ _ _ Hlen. rewrite Hlen. split_and!; try done; [lia|lia].
  - exists reg, dp, (now + 10000).
    cbn [after w_agent w_timers w_posts w_pings w_rounds w_now fst snd].
    pose proof (quiet_status (w_agent w) now) as Q.
    rewrite (quiet_timers _ _ Q), (quiet_posts _ Q), status_gets, app_nil_r, !Nat.add_0_r.
    split_and!; try done; lia.
Qed.

Lemma running_step access t0 w w' : wstep w w' -> running access t0 w -> running access t0 w'.
Proof.
  intros H Hr. destruct H.
  - by apply running_timer.
  - apply running_harmless; [done|done|apply harmless_pong].
  - apply running_harmless; [done|done|]. unfold harmless, ping_failed, log_. cbn [fst snd].
    by rewrite quiet_log, log_gets.
  - by apply running_harmless.
  - by apply running_harmless.
Qed.

Lemma running_reachable access t0 w w' :
  rtc wstep w w' -> running access t0 w -> running access t0 w'.
Proof. induction 1; eauto using running_step. Qed.

(** C17. The agent registers at most once.  Whatever the command line, the timing
    of the timers and the answers of the broker and of the TURN agents, at most
    one registration request is ever sent; once it has been sent the agent counts
    as not registered for ever, and no timer is left that would register again. *)
Theorem registers_at_most_once user pass own argv t0 w :
  rtc wstep (boot user pass own argv t0) w ->
  (w_posts w <= 1)%nat /\
  (isRegisteredAtBroker (w_agent w) = true <-> w_posts w = 0%nat) /\
  (w_posts w = 1%nat ->
     forall t, t ∈ w_timers w -> what t <> RegisterAgain /\ what t <> RunWatchDogs).
Proof.
  intros Hreach.
  destruct (running_reachable _ t0 _ _ Hreach (boot_running user pass own argv t0))
    as (_ & reg & dp & ds & Ht & Hr & Hp & _).
  rewrite Hr, Hp. destruct reg as [d|]; (split; [lia|]); (split; [done|]); [done|].
  intros _ t Hin. rewrite Ht in Hin. unfold pending in Hin. cbn [app] in Hin.
  destruct (bool_decide _); rewrite ?elem_of_cons, ?elem_of_nil in Hin.
  - by destruct Hin as [->|[->|[]]].
  - done.
Qed.

Lemma registers_at_most_once_witness :
  exists w, rtc wstep (boot "u" "p" "me" [] 0) w /\ w_posts w = 1%nat /\
    isRegisteredAtBroker (w_agent w) = false.
Proof.
  set (w0 := boot "u" "p" "me" [] 0).
  assert (S : rtc wstep w0 (after w0 5000000
    (delete 0%nat (w_timers w0) ++ again (Timer 5000000 RegisterAgain None) 5000000)
    (count_round (Timer 5000000 RegisterAgain None) (w_rounds w0))
    (run_task (w_agent w0) RegisterAgain (fun _ => 0) 5000000))).
  { apply rtc_once.
    apply (w_timer w0 0 (Timer 5000000 RegisterAgain None) 5000000 (fun _ => 0)); by vm_compute. }
  destruct (registers_at_most_once "u" "p" "me" [] 0 _ S) as (_ & H & _).
  eexists. split; [exact S|]. split; [by vm_compute|].
  apply not_true_iff_false. intros E. apply H in E. vm_compute in E. discriminate E.
Defined.

(** C18. The cadence of the probing.  An access agent always has its next round
    of pings scheduled, at most 5 s ahead; [n] rounds take at least [5 n]
    seconds, and each sends one ping to each of the 9 TURN agents.  A TURN agent
    sends none. *)
Theorem probing_cadence user pass own argv t0 w :
  rtc wstep (boot user pass own argv t0) w ->
  if bool_decide (argv !! 4%nat = Some "access") then
    (exists dp, Timer dp RunProbing (Some 5000) ∈ w_timers w /\ dp <= w_now w + 5000) /\
    5000 * Z.of_nat (w_rounds w) <= w_now w - t0 /\
    w_pings w = (9 * w_rounds w)%nat
  else w_pings w = 0%nat.
Proof.
  intros Hreach.
  destruct (running_reachable _ t0 _ _ Hreach (boot_running user pass own argv t0))
    as (_ & reg & dp & ds & Ht & _ & _ & Hg & Hc).
  destruct (bool_decide _); [|lia].
  split; [|lia]. exists dp. split; [|lia].
  rewrite Ht. unfold pending. rewrite elem_of_app. right. apply elem_of_cons. by left.
Qed.

Lemma probing_cadence_witness :
  exists dp, Timer dp RunProbing (Some 5000)
    ∈ w_timers (boot "u" "p" "me" ["node"; "main.js"; "10.0.0.1"; "10000"; "access"] 7).
Proof.
  destruct (probing_cadence "u" "p" "me" ["node"; "main.js"; "10.0.0.1"; "10000"; "access"] 7 _
    (rtc_refl _ _)) as ((dp & H & _) & _).
  exists dp. exact H.
Defined.

(** * Validation *)

(** No registration answer is ever accepted: for whatever content, validating
    it as a registration response never returns [true], since an object does not
    read as JSON text and a JSON text has no result code. *)
Theorem register_response_never_valid c : validate "registerResponse" c <> Some true.
Proof.
  unfold validate. cbn [String.eqb]. change (String.eqb "registerResponse" "registerResponse") with true.
  destruct c as [v|f].
  - destruct (isJSON (CVal v)); [|done]. by destruct v.
  - assert (isJSON (CObj f) = false) as -> by (by vm_compute). done.
Qed.
