(* ===== verification/Network.v ===== *)
(** Agents that probe each other: access agents and TURN agents on machines of their own,
    with the pings and the answers that are under way between them.

    Every machine has its own clock; a ping is a request of the agent's HTTP client, which
    the REST interface at its address answers if it takes the path, and any request or
    answer may be lost.  The agents are those of [Agent], started by main.js. *)
From S2P Require Import Prelude JsNum JsString JsVal JsObj Json Agent.

(** * Addresses *)

(** An address [http://host/segment/...] by its host and its segments. *)
Definition url_parts (url : string) : option (string * list string) :=
  rest ← drop_prefix "http://" url;
  match split "/" rest with host :: segments => Some (host, segments) | [] => None end.

(** The route [/performance/ping/:requestingAgent/:reqTimestamp], a parameter being one
    segment that is not empty; the router does not tell cases apart, and nothing in a ping
    needs decoding. *)
Definition ping_route (segments : list string) : option (string * string) :=
  match segments with
  | [a; b; requestingAgent; reqTimestamp] =>
      if String.eqb (to_lower a) "performance" && String.eqb (to_lower b) "ping" &&
         negb (String.eqb requestingAgent "") && negb (String.eqb reqTimestamp "")
      then Some (requestingAgent, reqTimestamp) else None
  | _ => None
  end.

(** * Machines *)

(** An agent, what its clock (microseconds) is ahead of the common time, and the address
    of its REST interface if it has one. *)
Record node := Node { n_agent : agent; n_offset : Z; n_address : option string }.

(** The port an agent listens on. *)
Definition listening (fx : list effect) : option jsval :=
  head (omap (fun e => match e with EListen port => Some port | _ => None end) fx).

(** main.js on a machine whose address is [ip]. *)
Definition boot_node (ip : string) (offset : Z) (user pass own : string) (argv : list string) : node :=
  let '(a, fx) := main user pass own argv in
  Node a offset (port ← listening fx; Some (ip +:+ ":" +:+ to_str port)).

Definition with_agent (n : node) (a : agent) : node := Node a (n_offset n) (n_address n).

(** * Messages *)

(** A request under way: the machine that sent it, the address its callback was made for,
    and when it left (common time). *)
Record flight := Flight { f_client : nat; f_host : string; f_url : string; f_sent : Z }.

(** A ping that has come back: whose, to which address, from which agent; when it left and
    returned (common time), and the date it was stored with. *)
Record pong := { p_client : nat; p_host : string; p_agent : string; p_sent : Z; p_recv : Z; p_date : Z }.

Record network := Network {
  now : Z;
  machines : list node;
  requests : list flight;
  answers : list (flight * Z * ping_response);
  completed : list pong;
}.

Definition gets (fx : list effect) : list string :=
  omap (fun e => match e with EGet url => Some url | _ => None end) fx.

(** The requests of a round of probes of machine [i]. *)
Definition flights (i : nat) (n : node) (clock : nat -> Z) : list flight :=
  imap (fun k '(host, url) => Flight i host url (clock (2 * k + 1)%nat - n_offset n))
    (zip (turnAgentList (n_agent n)) (gets (runProbing (n_agent n) clock))).

(** What the machine at the address of a request answers. *)
Definition serve_ping (ms : list node) (url : string) : option (Z * ping_response) :=
  '(host, segments) ← url_parts url;
  '(requestingAgent, reqTimestamp) ← ping_route segments;
  n ← list_find (fun n => n_address n = Some host) ms;
  Some (ping_handler (n_agent n.2) requestingAgent reqTimestamp).1.

(** A machine that starts a round, a machine that answers a request, an answer that comes
    back ([requestify] takes a status of 200 for a success and the others for failures), a
    message that is lost, another timer of a machine, time that passes. *)
Inductive nstep : network -> network -> Prop :=
  | n_probe w i n clock t :
      machines w !! i = Some n -> isAccessAgent (n_agent n) = true ->
      (forall k, now w <= clock k - n_offset n <= t) ->
      nstep w (Network t (machines w) (requests w ++ flights i n clock) (answers w) (completed w))
  | n_serve w j f status resp :
      requests w !! j = Some f -> serve_ping (machines w) (f_url f) = Some (status, resp) ->
      nstep w (Network (now w) (machines w) (delete j (requests w))
                 (answers w ++ [(f, status, resp)]) (completed w))
  | n_pong w j f ts id n date :
      answers w !! j = Some (f, 200, Pong ts id) -> machines w !! f_client f = Some n ->
      nstep w (Network (now w)
                 (<[f_client f := with_agent n (ping_answered (n_agent n) (f_host f)
                      (Some {| reqTimestamp := JStr ts; agentId := JStr id |})
                      (now w + n_offset n) date).1]> (machines w))
                 (requests w) (delete j (answers w))
                 (completed w ++ [{| p_client := f_client f; p_host := f_host f; p_agent := id;
                                     p_sent := f_sent f; p_recv := now w; p_date := date |}]))
  | n_lost_request w j :
      nstep w (Network (now w) (machines w) (delete j (requests w)) (answers w) (completed w))
  | n_lost_answer w j :
      nstep w (Network (now w) (machines w) (requests w) (delete j (answers w)) (completed w))
  | n_task w i n t clock date :
      machines w !! i = Some n -> t <> RunProbing ->
      nstep w (Network (now w) (<[i := with_agent n (run_task (n_agent n) t clock date).1]> (machines w))
                 (requests w) (answers w) (completed w))
  | n_wait w t :
      now w <= t ->
      nstep w (Network t (machines w) (requests w) (answers w) (completed w)).

(** A network at its start. *)
Definition started (t : Z) (ms : list node) : network := Network t ms [] [] [].
