(* ===== verification/NetworkProps.v ===== *)
(** What the agents of a network know of each other. *)
From S2P Require Import Prelude JsNum JsString JsVal JsObj Json Agent AgentProps Network.

Definition no_slash (s : string) : bool := str_all (fun c => negb (eqc c "/")) s.

(** A machine whose agent was started by main.js, with an identifier that is one segment
    (as [_generateUUID] makes them). *)
Definition booted (n : node) : Prop :=
  exists ip offset user pass own argv,
    n = boot_node ip offset user pass own argv /\ no_slash own = true /\ own <> "".

(** * The requests of a round *)

Lemma gets_app fx fx' : gets (fx ++ fx') = gets fx ++ gets fx'.
Proof. apply omap_app. Qed.

Lemma gets_log th lvl s : gets (log th lvl s) = [].
Proof. unfold log. by repeat case_match. Qed.

Lemma gets_imap_concat {A} (F : nat -> A -> list effect) (u : nat -> A -> string) (l : list A) :
  (forall i x, gets (F i x) = [u i x]) -> gets (concat (imap F l)) = imap u l.
Proof.
  revert F u. induction l as [|x l IH]; intros F u H; [done|].
  cbn [imap concat]. rewrite gets_app, H. cbn [app]. f_equal. apply IH. intros i y. apply H.
Qed.

Lemma probing_urls a clock :
  gets (runProbing a clock) = imap (fun i host => ping_url host (ownId a) (clock (2 * i + 1)%nat)) (turnAgentList a).
Proof.
  apply gets_imap_concat. intros i host. unfold callRemoteAgent, log_.
  by rewrite gets_app, gets_log.
Qed.

Lemma flights_spec i n clock f :
  f ∈ flights i n clock ->
  exists k host, turnAgentList (n_agent n) !! k = Some host /\
    f = Flight i host (ping_url host (ownId (n_agent n)) (clock (2 * k + 1)%nat))
          (clock (2 * k + 1)%nat - n_offset n).
Proof.
  unfold flights. intros [k Hk]%list_elem_of_lookup.
  rewrite list_lookup_imap in Hk.
  destruct (zip _ _ !! k) as [[host url]|] eqn:Hz; [|done]. injection Hk as <-.
  apply lookup_zip_Some in Hz as [Hh Hu]. rewrite probing_urls, list_lookup_imap, Hh in Hu.
  injection Hu as <-. by exists k, host.
Qed.

(** * The way of a ping *)

Lemma digits_no_slash t : 0 <= t -> no_slash (dec t) = true.
Proof.
  intros Ht. rewrite dec_nonneg by done. eapply str_all_impl; [|apply digits_plain].
  intros c Hc. destruct (eqc c "/") eqn:E; [|done]. apply Stdlib.Strings.Ascii.eqb_eq in E as ->.
  by vm_compute in Hc.
Qed.

Lemma ping_url_parts host own t :
  no_slash host = true -> no_slash own = true -> 0 <= t ->
  url_parts (ping_url host own t) = Some (host, ["performance"; "ping"; own; dec t]).
Proof.
  intros Hh Ho Ht. unfold url_parts, ping_url. rewrite drop_prefix_app. cbn [mbind option_bind].
  unfold split.
  change ("/performance/ping/" +:+ own +:+ "/" +:+ dec t)
    with (String "/" ("performance" +:+ String "/" ("ping" +:+ String "/" (own +:+ String "/" (dec t))))).
  rewrite split_go_sep by done. rewrite split_go_sep by done. rewrite split_go_sep by done.
  rewrite split_go_sep by done. by rewrite split_go_no_sep by (by apply digits_no_slash).
Qed.

Lemma served ms host own t status resp :
  no_slash host = true -> no_slash own = true -> own <> "" -> 0 <= t ->
  serve_ping ms (ping_url host own t) = Some (status, resp) ->
  exists i n, ms !! i = Some n /\ n_address n = Some host /\
    (status, resp) = (ping_handler (n_agent n) own (dec t)).1.
Proof.
  intros Hh Ho Hne Ht. unfold serve_ping. rewrite ping_url_parts by done. cbn [mbind option_bind ping_route].
  destruct (String.eqb_spec own "") as [|_]; [done|].
  destruct (digits_nonempty t Ht) as (c & s & Ed). rewrite <- dec_nonneg in Ed by done.
  destruct (String.eqb_spec (dec t) "") as [E|_]; [by rewrite Ed in E|]. cbn [negb andb String.eqb].
  change (to_lower "performance") with "performance". change (to_lower "ping") with "ping".
  rewrite !String.eqb_refl. cbn [andb mbind option_bind].
  destruct (list_find _ ms) as [[i n]|] eqn:Hf; [|done].
  apply list_find_Some in Hf as (Hi & Ha & _). intros [= <-]. by exists i, n.
Qed.

(** A TURN agent echoes the time and adds who it is. *)
Lemma pong_of a own t status ts id :
  0 <= t <= 2 ^ 53 -> (status, Pong ts id) = (ping_handler a own (dec t)).1 -> ts = dec t /\ id = ownId a.
Proof.
  intros Ht. unfold ping_handler. rewrite to_number_dec by lia.
  assert (isNaN (of_Z t) = false) as -> by (by rewrite of_Z_exact by lia). by intros [= _ -> ->].
Qed.

(** * What stays of a machine *)

(** Only the samples and the registration of an agent change. *)
Definition same_machine (n0 n : node) : Prop :=
  n_offset n = n_offset n0 /\ n_address n = n_address n0 /\
  ownId (n_agent n) = ownId (n_agent n0) /\
  turnAgentList (n_agent n) = turnAgentList (n_agent n0) /\
  maxProbes (n_agent n) = maxProbes (n_agent n0).

Lemma booted_fresh n :
  booted n -> turnProbes (n_agent n) = [] /\ maxProbes (n_agent n) = 10%nat /\
    no_slash (ownId (n_agent n)) = true /\ ownId (n_agent n) <> "" /\
    Forall (fun h => no_slash h = true) (turnAgentList (n_agent n)).
Proof.
  intros (ip & offset & user & pass & own & argv & -> & Hs & Hne). cbn.
  split_and!; try done. by repeat constructor.
Qed.

Lemma task_keeps n t clock date : same_machine n (with_agent n (run_task (n_agent n) t clock date).1) /\
  turnProbes (run_task (n_agent n) t clock date).1 = turnProbes (n_agent n).
Proof. by destruct t. Qed.

Lemma same_machine_trans n0 n n' : same_machine n0 n -> same_machine n n' -> same_machine n0 n'.
Proof. intros (?&?&?&?&?) (?&?&?&?&?). split_and!; congruence. Qed.

Lemma ping_answered_probes n host ts id now date :
  same_machine n (with_agent n (ping_answered (n_agent n) host
      (Some {| reqTimestamp := JStr ts; agentId := JStr id |}) now date).1) /\
  (ping_answered (n_agent n) host (Some {| reqTimestamp := JStr ts; agentId := JStr id |}) now date).1 =
    (storeProbe (n_agent n) id host (rtt now (JStr ts)) date).1.
Proof. done. Qed.

Lemma storeProbe_ext a a' id host calc date :
  turnProbes a = turnProbes a' -> maxProbes a = maxProbes a' ->
  turnProbes (storeProbe a id host calc date).1 = turnProbes (storeProbe a' id host calc date).1.
Proof. intros E1 E2. unfold storeProbe. cbn. by rewrite E1, E2. Qed.

Lemma store_all_max a l : maxProbes (store_all a l) = maxProbes a.
Proof. induction l as [|s l IH] using rev_ind; [done|]. unfold store_all. by rewrite foldl_app. Qed.

(** * The invariant *)

(** The time of a ping in milliseconds, to the nearest. *)
Definition elapsed (c : pong) : num := of_Z ((2 * (p_recv c - p_sent c) + 1000) / 2000).

Definition sample_of (c : pong) : sample :=
  {| s_agent := p_agent c; s_host := p_host c; s_calc := elapsed c; s_time := p_date c |}.

Definition pings_of (i : nat) (l : list pong) : list pong := filter (fun c => p_client c = i) l.

Section network.
Variable t0 : Z.
Variable ms : list node.
Hypothesis all_booted : Forall booted ms.

(** A machine with this identifier answers at this address. *)
Definition answers_at (host id : string) : Prop :=
  exists m, m ∈ ms /\ n_address m = Some host /\ ownId (n_agent m) = id.

Definition flight_ok (w : network) (f : flight) : Prop :=
  exists n, ms !! f_client f = Some n /\ f_host f ∈ turnAgentList (n_agent n) /\
    f_url f = ping_url (f_host f) (ownId (n_agent n)) (f_sent f + n_offset n) /\
    t0 <= f_sent f <= now w.

Definition answer_ok (w : network) (x : flight * Z * ping_response) : Prop :=
  flight_ok w x.1.1 /\
  forall n ts id, ms !! f_client x.1.1 = Some n -> x.2 = Pong ts id ->
    ts = dec (f_sent x.1.1 + n_offset n) /\ answers_at (f_host x.1.1) id.

Definition pong_ok (w : network) (c : pong) : Prop :=
  p_sent c <= p_recv c <= now w /\ answers_at (p_host c) (p_agent c).

Definition machine_ok (w : network) (i : nat) (n0 n : node) : Prop :=
  same_machine n0 n /\
  turnProbes (n_agent n) = turnProbes (store_all (n_agent n0) (map sample_of (pings_of i (completed w)))).

Record invariant (w : network) : Prop := {
  inv_time : t0 <= now w;
  inv_machines : forall i, match ms !! i, machines w !! i with
                           | Some n0, Some n => machine_ok w i n0 n
                           | None, None => True
                           | _, _ => False
                           end;
  inv_requests : Forall (flight_ok w) (requests w);
  inv_answers : Forall (answer_ok w) (answers w);
  inv_completed : Forall (pong_ok w) (completed w);
}.

(** The clocks stay in the range of exact integers, and the run is no longer than 2^50
    microseconds (35 years). *)
Definition in_range (w : network) : Prop :=
  now w - t0 <= 2 ^ 50 /\
  forall n, n ∈ ms -> 0 <= t0 + n_offset n /\ now w + n_offset n <= 2 ^ 53.

Lemma step_time w w' : nstep w w' -> now w <= now w'.
Proof.
  destruct 1 as [w i n clock t _ _ Hc| | | | | |]; cbn; try lia.
  specialize (Hc 0%nat). lia.
Qed.

Lemma in_range_before w w' : nstep w w' -> in_range w' -> in_range w.
Proof.
  intros Ht%step_time [H1 H2]. split; [lia|]. intros n Hn. specialize (H2 n Hn). lia.
Qed.

Lemma invariant_start : invariant (started t0 ms).
Proof.
  split; cbn; [lia| |constructor..]. intros i. destruct (ms !! i) as [n|] eqn:Hn; [|done].
  split; [done|]. cbn. done.
Qed.

Lemma flight_ok_mono w w' f : now w <= now w' -> flight_ok w f -> flight_ok w' f.
Proof. intros Ht (n & H1 & H2 & H3 & H4). exists n. split_and!; try done; lia. Qed.

Lemma answer_ok_mono w w' x : now w <= now w' -> answer_ok w x -> answer_ok w' x.
Proof. intros Ht [H1 H2]. split; [by eapply flight_ok_mono|done]. Qed.

Lemma pong_ok_mono w w' c : now w <= now w' -> pong_ok w c -> pong_ok w' c.
Proof. intros Ht [H1 H2]. split; [lia|done]. Qed.

(** The messages of a later state that were there before. *)
Lemma Forall_mono {A} (P : network -> A -> Prop) w w' l l' :
  (forall x, now w <= now w' -> P w x -> P w' x) -> now w <= now w' -> Forall (P w) l -> l' ⊆ l ->
  Forall (P w') l'.
Proof.
  intros HP Ht Hl Hsub. apply Forall_forall. intros x Hx. apply HP; [done|].
  eapply Forall_forall; [exact Hl|]. by apply Hsub.
Qed.

Lemma delete_subseteq {A} i (l : list A) : delete i l ⊆ l.
Proof. intros x Hx. eapply elem_of_submseteq; [exact Hx|]. apply sublist_submseteq, sublist_delete. Qed.

(** A step that leaves the machines and the completed pings as they are. *)
Lemma invariant_messages w w' :
  invariant w -> now w <= now w' -> machines w' = machines w -> completed w' = completed w ->
  Forall (flight_ok w') (requests w') -> Forall (answer_ok w') (answers w') -> invariant w'.
Proof.
  intros [I1 I2 I3 I4 I5] Ht Em Ec Hr Ha. split; [lia| |done|done|].
  - intros i. specialize (I2 i). rewrite Em. unfold machine_ok in *. by rewrite Ec.
  - rewrite Ec. by eapply (Forall_mono pong_ok w); [intros x; apply pong_ok_mono| | |].
Qed.

Lemma inv_machine w i n :
  invariant w -> machines w !! i = Some n -> exists n0, ms !! i = Some n0 /\ machine_ok w i n0 n.
Proof.
  intros I Hn. pose proof (inv_machines _ I i) as H. rewrite Hn in H.
  destruct (ms !! i) as [n0|]; [by exists n0|done].
Qed.

Lemma booted_at i n : ms !! i = Some n -> booted n.
Proof. intros H. by eapply Forall_lookup_1. Qed.

Lemma machine_in i n : ms !! i = Some n -> n ∈ ms.
Proof. intros H. by eapply list_elem_of_lookup_2. Qed.

Lemma probe_keeps w i n clock t :
  invariant w -> machines w !! i = Some n -> (forall k, now w <= clock k - n_offset n <= t) ->
  invariant (Network t (machines w) (requests w ++ flights i n clock) (answers w) (completed w)).
Proof.
  intros I Hn Hc. assert (Ht : now w <= t) by (specialize (Hc 0%nat); lia).
  pose proof (inv_time _ I) as I1.
  destruct (inv_machine _ _ _ I Hn) as (n0 & Hn0 & (Eo & _ & Ei & El & _) & _).
  apply (invariant_messages w); [done|done|done|done|cbn [requests]|cbn [answers]].
  - apply Forall_app. split.
    + by eapply (Forall_mono flight_ok w); [intros x; apply flight_ok_mono|done|apply (inv_requests _ I)|].
    + apply Forall_forall. intros f Hf. apply flights_spec in Hf as (k & host & Hk & ->).
      exists n0. cbn [f_client f_host f_url f_sent now]. rewrite <- El, <- Ei, <- Eo.
      specialize (Hc (2 * k + 1)%nat). split_and!; [done|by eapply list_elem_of_lookup_2| |lia|lia].
      f_equal. lia.
  - by eapply (Forall_mono answer_ok w); [intros x; apply answer_ok_mono|done|apply (inv_answers _ I)|].
Qed.

Lemma serve_keeps w j f status resp :
  invariant w -> in_range w -> requests w !! j = Some f ->
  serve_ping (machines w) (f_url f) = Some (status, resp) ->
  invariant (Network (now w) (machines w) (delete j (requests w)) (answers w ++ [(f, status, resp)]) (completed w)).
Proof.
  intros I [R1 R2] Hf Hs.
  pose proof (Forall_lookup_1 _ _ _ _ (inv_requests _ I) Hf) as Hok.
  pose proof Hok as (n & Hn & Hh & Eu & Ht).
  destruct (booted_fresh n (booted_at _ _ Hn)) as (_ & _ & Hs1 & Hs2 & Hl).
  specialize (R2 n (machine_in _ _ Hn)).
  rewrite Eu in Hs. apply served in Hs as (i & m & Hi & Ha & E);
    [|by eapply (proj1 (Forall_forall _ _) Hl)|done|done|lia].
  apply (invariant_messages w); [done|cbn; lia|done|done|cbn [requests]|cbn [answers]].
  - eapply (Forall_mono flight_ok w); [intros x; apply flight_ok_mono|cbn; lia|apply (inv_requests _ I)|apply delete_subseteq].
  - apply Forall_app. split.
    + by eapply (Forall_mono answer_ok w); [intros x; apply answer_ok_mono|cbn; lia|apply (inv_answers _ I)|].
    + constructor; [|constructor]. split; [exact Hok|]. cbn [fst snd].
      intros n' ts id Hn' ->. rewrite Hn in Hn'. injection Hn' as <-.
      destruct (pong_of _ _ (f_sent f + n_offset n) _ _ _ ltac:(lia) E) as [-> ->]. split; [done|].
      destruct (inv_machine _ _ _ I Hi) as (m0 & Hm0 & (_ & Ea & Ei & _) & _).
      exists m0. split; [by eapply machine_in|]. by rewrite <- Ea, <- Ei.
Qed.

Lemma pings_of_snoc i l c :
  pings_of i (l ++ [c]) = pings_of i l ++ (if decide (p_client c = i) then [c] else []).
Proof. unfold pings_of. by rewrite filter_app. Qed.

Lemma pong_keeps w j f ts id n date :
  invariant w -> in_range w -> answers w !! j = Some (f, 200, Pong ts id) -> machines w !! f_client f = Some n ->
  invariant (Network (now w)
    (<[f_client f := with_agent n (ping_answered (n_agent n) (f_host f)
         (Some {| reqTimestamp := JStr ts; agentId := JStr id |}) (now w + n_offset n) date).1]> (machines w))
    (requests w) (delete j (answers w))
    (completed w ++ [{| p_client := f_client f; p_host := f_host f; p_agent := id;
                        p_sent := f_sent f; p_recv := now w; p_date := date |}])).
Proof.
  intros I [R1 R2] Hj Hn. pose proof I as [I1 I2 I3 I4 I5].
  destruct (Forall_lookup_1 _ _ _ _ I4 Hj) as [(n0 & Hn0 & Hh & Eu & Ht) Hp]. cbn [fst snd] in *.
  destruct (Hp n0 ts id Hn0 eq_refl) as [-> Hat]. specialize (R2 n0 (machine_in _ _ Hn0)).
  destruct (inv_machine _ _ _ I Hn) as (n0' & Hn0' & Hsame & Epr). rewrite Hn0 in Hn0'. injection Hn0' as <-.
  destruct (ping_answered_probes n (f_host f) (dec (f_sent f + n_offset n0)) id (now w + n_offset n) date) as [Hk ->].
  pose proof Hsame as (Eo & _ & _ & _ & Em).
  split; cbn [now machines requests answers completed]; [done|..].
  - intros i. destruct (decide (i = f_client f)) as [->|Hne].
    + rewrite Hn0, list_lookup_insert_eq by (by eapply lookup_lt_Some).
      split; [exact (same_machine_trans _ _ _ Hsame Hk)|]. cbn [with_agent n_agent completed].
      rewrite pings_of_snoc, decide_True, map_app by done. cbn [map].
      unfold store_all. rewrite foldl_app. cbn [foldl]. fold (store_all (n_agent n0)
        (map sample_of (pings_of (f_client f) (completed w)))).
      unfold sample_of at 2, elapsed. cbn [s_agent s_host s_calc s_time p_agent p_host p_recv p_sent p_date].
      rewrite rtt_exact by lia.
      replace (now w + n_offset n - (f_sent f + n_offset n0)) with (now w - f_sent f) by lia.
      apply storeProbe_ext; [done|]. by rewrite store_all_max.
    + rewrite list_lookup_insert_ne by done. specialize (I2 i).
      destruct (ms !! i), (machines w !! i); try done. destruct I2 as [Hs Ep]. split; [done|].
      cbn [completed]. by rewrite pings_of_snoc, decide_False, app_nil_r by (cbn; congruence).
  - by eapply (Forall_mono flight_ok w); [intros x; apply flight_ok_mono|cbn; lia|exact I3|].
  - eapply (Forall_mono answer_ok w); [intros x; apply answer_ok_mono|cbn; lia|exact I4|apply delete_subseteq].
  - apply Forall_app. split.
    + by eapply (Forall_mono pong_ok w); [intros x; apply pong_ok_mono|cbn; lia|exact I5|].
    + constructor; [|constructor]. split; [cbn; lia|done].
Qed.

Lemma task_keeps_invariant w i n t clock date :
  invariant w -> machines w !! i = Some n ->
  invariant (Network (now w) (<[i := with_agent n (run_task (n_agent n) t clock date).1]> (machines w))
               (requests w) (answers w) (completed w)).
Proof.
  intros I Hn. pose proof I as [I1 I2 I3 I4 I5].
  split; cbn [now machines requests answers completed]; [done| |done|done|done].
  intros i'. specialize (I2 i'). destruct (decide (i' = i)) as [->|Hne].
  - rewrite list_lookup_insert_eq by (by eapply lookup_lt_Some). rewrite Hn in I2.
    destruct (ms !! i) as [n0|]; [|done]. destruct I2 as [Hs Ep].
    destruct (task_keeps n t clock date) as [Hk Ek]. split; [by eapply same_machine_trans|].
    cbn [with_agent n_agent completed]. by rewrite Ek.
  - by rewrite list_lookup_insert_ne.
Qed.

Lemma invariant_step w w' : nstep w w' -> in_range w' -> invariant w -> invariant w'.
Proof.
  intros Hs Hr I. pose proof (in_range_before _ _ Hs Hr) as Hr0.
  destruct Hs as [w i n clock t Hn _ Hc|w j f st resp Hf Hs|w j f ts id n date Hj Hn|w j|w j|w i n t clock date Hn _|w t Ht].
  - by apply probe_keeps.
  - by eapply serve_keeps.
  - by eapply pong_keeps.
  - apply (invariant_messages w); [done|cbn; lia|done|done|cbn [requests]|apply (inv_answers _ I)].
    eapply (Forall_mono flight_ok w); [intros x; apply flight_ok_mono|cbn; lia|apply (inv_requests _ I)|apply delete_subseteq].
  - apply (invariant_messages w); [done|cbn; lia|done|done|apply (inv_requests _ I)|cbn [answers]].
    eapply (Forall_mono answer_ok w); [intros x; apply answer_ok_mono|cbn; lia|apply (inv_answers _ I)|apply delete_subseteq].
  - by apply task_keeps_invariant.
  - apply (invariant_messages w); [done|done|done|done|cbn [requests]|cbn [answers]].
    + by eapply (Forall_mono flight_ok w); [intros x; apply flight_ok_mono|done|apply (inv_requests _ I)|].
    + by eapply (Forall_mono answer_ok w); [intros x; apply answer_ok_mono|done|apply (inv_answers _ I)|].
Qed.

Lemma invariant_reachable w : rtc nstep (started t0 ms) w -> in_range w -> invariant w.
Proof.
  revert w. apply (rtc_ind_r (fun w => in_range w -> invariant w)).
  - intros _. apply invariant_start.
  - intros w w' _ Hs IH Hr. eapply invariant_step; [done|done|]. apply IH. by eapply in_range_before.
Qed.
End network.

Lemma of_agent_samples k l :
  of_agent k (map sample_of l) = map sample_of (filter (fun c => p_agent c = k) l).
Proof.
  unfold of_agent. induction l as [|c l IH]; [done|]. cbn [map].
  destruct (decide (p_agent c = k)).
  - rewrite !filter_cons_True by done. cbn [map]. by rewrite IH.
  - by rewrite !filter_cons_False by done.
Qed.

(** C15. What an agent knows of another one, in any run of a network of agents with clocks
    of their own, in which requests and answers may be delayed, overtaken and lost: the
    samples stored under an identifier are the last 11 times that pings to machines of
    that identifier took, in milliseconds to the nearest, in the order the answers came
    in; their address is the one the last of these pings was sent to. *)
Theorem network_probes t0 ms w i n k :
  Forall booted ms -> rtc nstep (started t0 ms) w -> in_range t0 ms w ->
  machines w !! i = Some n -> inherited k = false ->
  let pings := filter (fun c => p_agent c = k) (pings_of i (completed w)) in
  Forall (fun c => p_sent c <= p_recv c /\
    exists m, m ∈ ms /\ n_address m = Some (p_host c) /\ ownId (n_agent m) = k) pings /\
  match obj_get k (turnProbes (n_agent n)) with
  | None => pings = []
  | Some p => lastProbes p = last_n 11 (map elapsed pings) /\
      exists c, last pings = Some c /\ agentAddress p = p_host c /\ lastSeen p = p_date c
  end.
Proof.
  intros Hb Hw Hr Hn Hk pings.
  pose proof (invariant_reachable t0 ms Hb w Hw Hr) as I. split.
  - apply Forall_forall. intros c Hc. apply list_elem_of_filter in Hc as [<- Hc].
    apply list_elem_of_filter in Hc as [_ Hc].
    destruct (proj1 (Forall_forall _ _) (inv_completed _ _ _ I) c Hc) as [H1 H2]. split; [lia|done].
  - destruct (inv_machine _ _ _ _ _ I Hn) as (n0 & Hn0 & _ & Ep).
    destruct (booted_fresh n0) as (E0 & Em & _). { by eapply Forall_lookup_1. }
    destruct (store_all_summary _ (map sample_of (pings_of i (completed w))) k E0 Hk) as [H _].
    rewrite Em, <- Ep in H.
    destruct (obj_get k (turnProbes (n_agent n))) as [p|].
    + destruct H as (l & s & E & Ha & Ht & Hl & _). rewrite of_agent_samples in E. fold pings in E.
      rewrite <- E, map_map in Hl.
      split; [exact Hl|].
      apply (f_equal last) in E. rewrite last_snoc in E.
      change (map sample_of pings) with (sample_of <$> pings) in E. rewrite (fmap_last sample_of pings) in E.
      destruct (last pings) as [c|]; [|done]. injection E as <-. by exists c.
    + rewrite of_agent_samples in H. fold pings in H. by destruct pings.
Qed.

(** Two machines: an access agent whose clock is an hour ahead, and a TURN agent. *)
Definition demo_access : node :=
  boot_node "127.0.0.1" 3600000000 "u" "p" "access-1" ["node"; "agent"; "127.0.0.1"; "10000"; "access"].
Definition demo_turn : node :=
  boot_node "127.0.0.1" 0 "u" "p" "turn-1" ["node"; "agent"; "127.0.0.1"; "20000"; "turn"].
Definition demo_machines : list node := [demo_access; demo_turn].

Lemma demo_booted : Forall booted demo_machines.
Proof.
  apply Forall_cons; split; [|apply Forall_cons; split; [|done]].
  all: eexists _, _, _, _, _, _; split; [reflexivity|done].
Qed.

(** A round of the first; its request to the second is answered 12.5 ms later. *)
Lemma demo_network : exists w n,
  rtc nstep (started 1000 demo_machines) w /\ now w = 13500 /\ machines w !! 0%nat = Some n /\
  completed w = [{| p_client := 0; p_host := "127.0.0.1:20000"; p_agent := "turn-1";
                    p_sent := 1000; p_recv := 13500; p_date := 7 |}].
Proof.
  eexists _, _. split.
  - eapply rtc_l.
    { apply (n_probe _ 0 demo_access (fun _ => 3600001000) 1000); [reflexivity|reflexivity|].
      intros k. change (n_offset demo_access) with 3600000000. cbn [now started]. lia. }
    eapply rtc_l; [eapply (n_serve _ 0); [reflexivity|]; vm_compute; reflexivity|].
    eapply rtc_l; [apply (n_wait _ 13500); cbn [now]; lia|].
    eapply rtc_l; [eapply (n_pong _ 0 _ _ _ _ 7); reflexivity|].
    apply rtc_refl.
  - split; [reflexivity|]. split; reflexivity.
Qed.

Lemma network_probes_witness : exists w n p,
  rtc nstep (started 1000 demo_machines) w /\ machines w !! 0%nat = Some n /\
  obj_get "turn-1" (turnProbes (n_agent n)) = Some p /\
  lastProbes p = [of_Z 13] /\ agentAddress p = "127.0.0.1:20000".
Proof.
  destruct demo_network as (w & n & Hw & Ht & Hn & Hc).
  assert (Hr : in_range 1000 demo_machines w).
  { unfold in_range. rewrite Ht. split; [lia|].
    intros m Hm. apply elem_of_cons in Hm as [->|Hm]; [by vm_compute|].
    apply elem_of_cons in Hm as [->|Hm]; [by vm_compute|]. by apply elem_of_nil in Hm. }
  pose proof (network_probes 1000 demo_machines w 0 n "turn-1" demo_booted Hw Hr Hn ltac:(by vm_compute)) as [_ H].
  rewrite Hc in H. destruct (obj_get "turn-1" (turnProbes (n_agent n))) as [p|] eqn:Ep.
  - destruct H as (Hl & c & [= <-] & Ha & _). exists w, n, p.
    split; [exact Hw|]. split; [exact Hn|]. split; [exact Ep|]. split; [|exact Ha].
    rewrite Hl. by vm_compute.
  - by vm_compute in H.
Defined.
