(* ===== verification/Lhcb.v ===== *)
(** The client library of the last-hop connectivity broker
    (src/lhcb/lhcb_lib_js/lhcb.js): brokers and clients share WebSockets, and
    each socket has one [onmessage] slot.

    Objects live in a store and refer to each other by number, so that several
    clients can share one broker, and a broker its socket, as in the code.  The
    browser opens and closes sockets and delivers messages. *)
From S2P Require Import Prelude JsNum JsString JsVal Json.

(** * JSON requests *)

(** [JSON.stringify] of a primitive; [None] where it gives [undefined]. *)
Definition stringify (v : jsval) : option string :=
  match v with
  | Undef => None
  | Null => Some "null"
  | JBool b => Some (if b then "true" else "false")
  | JNum x => Some (if isFinite x then num_to_string x else "null")
  | JStr s => Some (json_quote s)
  end.

Fixpoint join (l : list string) : string :=
  match l with
  | [] => ""
  | [s] => s
  | s :: l' => s +:+ "," +:+ join l'
  end.

(** An object; the properties whose value is [undefined] are left out. *)
Definition json_object (l : list (string * option string)) : string :=
  "{" +:+ join (omap (fun '(k, v) => match v with
                                    | Some s => Some (json_quote k +:+ ":" +:+ s)
                                    | None => None
                                    end) l) +:+ "}".

Definition call_value (funcName : jsval) (args : option string) : option string :=
  Some (json_object [("name", stringify funcName); ("args", args)]).

Definition read_request (client : option jsval) : string :=
  json_object [("type", stringify (JStr "read")); ("client", v ← client; stringify v)].

Definition execute_request (client : option jsval) (funcName : jsval) (args : option string) : string :=
  json_object [("type", stringify (JStr "execute")); ("client", v ← client; stringify v);
               ("value", call_value funcName args)].

Definition info_request (mid : Z) : string :=
  json_object [("type", stringify (JStr "execute")); ("mid", stringify (JNum (of_Z mid)));
               ("value", Some (json_object [("name", stringify (JStr "getBrokerInfo"))]))].

(** * The store *)

(** A received message after [JSON.parse]: its text and the properties the
    library reads ([value.name], [value.host], [value.port] when there is a
    [value]). *)
Record response := {
  r_text : string;
  r_type : jsval;
  r_value : option (jsval * jsval * jsval);
}.

Inductive promise := PPending | PResolved (r : response) | PRejected.

(** What the [onmessage] and [onopen] slots hold. *)
Inductive on_msg := ResolvePromise (p : nat) | BrokerInfo (client : nat).
Inductive on_open_ := BrokerReady (broker : nat) | SendInfo (jsonRequest : string).

Inductive ready_state := CONNECTING | OPEN | CLOSED.
#[export] Instance ready_state_eq_dec : EqDecision ready_state.
Proof. solve_decision. Defined.

Record socket := Socket {
  url : string;
  readyState : ready_state;
  onmessage : option on_msg;
  onopen : option on_open_;
  sent : list string;
}.

Record broker := Broker { b_ready : bool; b_ws : nat }.

Record client := Client {
  c_ready : bool;
  c_broker : option nat;
  c_name : jsval;
  c_localWs : option nat;
}.

Record store := Store {
  sockets : list socket;
  brokers : list broker;
  clients : list client;
  promises : list promise;
  mid : Z;
}.

Definition empty_store : store := Store [] [] [] [] 0.

Definition set_socket (st : store) (s : nat) (x : socket) : store :=
  Store (<[s := x]> (sockets st)) (brokers st) (clients st) (promises st) (mid st).
Definition set_client (st : store) (c : nat) (x : client) : store :=
  Store (sockets st) (brokers st) (<[c := x]> (clients st)) (promises st) (mid st).
Definition set_promise (st : store) (p : nat) (x : promise) : store :=
  Store (sockets st) (brokers st) (clients st) (<[p := x]> (promises st)) (mid st).

(** A promise settles once. *)
Definition settle_promise (st : store) (p : nat) (x : promise) : store :=
  match promises st !! p with
  | Some PPending => set_promise st p x
  | _ => st
  end.

(** * Constructors *)

Definition ws_url (host port : string) : string := "wss://" +:+ host +:+ ":" +:+ port +:+ "/ws".

(** The addresses the browser's constructor [WebSocket] takes; on any other one it throws
    a SyntaxError.  The one address the library writes out is taken. *)
Class Addresses := {
  ws_accepts : string -> bool;
  local_accepted : ws_accepts (ws_url "localhost" "9443") = true;
}.

(** [new LHCBClient(broker, name)]: without a broker or without a name the client
    connects to the local service and asks it for both. *)
Definition new_client (st : store) (brk : option nat) (name : jsval) : nat * store :=
  let c := length (clients st) in
  match brk, truthy name with
  | Some b, true =>
      (c, Store (sockets st) (brokers st) (clients st ++ [Client true (Some b) name None])
            (promises st) (mid st))
  | _, _ =>
      let s := length (sockets st) in
      (c, Store (sockets st ++ [Socket (ws_url "localhost" "9443") CONNECTING
                   (Some (BrokerInfo c)) (Some (SendInfo (info_request (mid st)))) []])
            (brokers st) (clients st ++ [Client false None Undef (Some s)])
            (promises st) (mid st + 1))
  end.

Section addresses.
Context {addresses : Addresses}.

(** [new LHCBBroker(host, port)]: its number and the store; [None] is the exception of
    [new WebSocket], after which nothing refers to the object it was made for. *)
Definition new_broker (st : store) (host port : string) : option (nat * store) :=
  let b := length (brokers st) in
  let s := length (sockets st) in
  if ws_accepts (ws_url host port) then
    Some (b, Store (sockets st ++ [Socket (ws_url host port) CONNECTING None (Some (BrokerReady b)) []])
               (brokers st ++ [Broker false s]) (clients st) (promises st) (mid st))
  else None.

(** [LHCB.getBroker]. *)
Definition getBroker := new_broker.

(** The [onmessage] of a local client: on a response it learns its name and connects to
    its broker; when that throws it has the name only. *)
Definition broker_info (st : store) (c : nat) (r : response) : store :=
  if strict_eq (r_type r) (JStr "response") then
    match r_value r, clients st !! c with
    | Some (name, host, port), Some x =>
        match new_broker st (to_str host) (to_str port) with
        | Some (b, st') => set_client st' c (Client true (Some b) name (c_localWs x))
        | None => set_client st c (Client (c_ready x) (c_broker x) name (c_localWs x))
        end
    | _, _ => st
    end
  else st.

(** A message; [None] is a text [JSON.parse] rejects. *)
Definition socket_message (st : store) (s : nat) (m : option response) : store :=
  match sockets st !! s, m with
  | Some x, Some r =>
      match onmessage x with
      | Some (ResolvePromise p) => settle_promise st p (PResolved r)
      | Some (BrokerInfo c) => broker_info st c r
      | None => st
      end
  | _, _ => st
  end.
End addresses.

(** [LHCB.getLocalClient], [LHCBBroker.getRemoteClient]. *)
Definition getLocalClient (st : store) : nat * store := new_client st None Undef.
Definition getRemoteClient (st : store) (b : nat) (name : jsval) : nat * store :=
  new_client st (Some b) name.

(** Addresses of letters, digits, dots and hyphens, with a port of at most four digits. *)
Definition plain_address (url : string) : bool :=
  match drop_prefix "wss://" url with
  | Some r =>
      match split ":" r with
      | [host; rest] =>
          match split "/" rest with
          | [port; path] =>
              String.eqb path "ws" && negb (String.eqb host "") && negb (String.eqb port "") &&
              str_all (fun c => in_range "a" "z" c || in_range "A" "Z" c || in_range "0" "9" c ||
                                eqc c "." || eqc c "-") host &&
              str_all (in_range "0" "9") port && (String.length port <=? 4)%nat
          | _ => false
          end
      | _ => false
      end
  | None => false
  end.

Definition plain_addresses : Addresses := {| ws_accepts := plain_address; local_accepted := eq_refl |}.

(** * Requests *)

(** The body of the four [new Promise] blocks: the slot of the socket is taken
    over, then the request is sent.  [send] throws on a connecting socket, which
    rejects the promise, and does nothing on a closed one.  Returns the number of
    the promise. *)
Definition request (st : store) (s : nat) (jsonRequest : string) : option (nat * store) :=
  x ← sockets st !! s;
  let p := length (promises st) in
  let x' := Socket (url x) (readyState x) (Some (ResolvePromise p)) (onopen x)
              (if decide (readyState x = OPEN) then sent x ++ [jsonRequest] else sent x) in
  let state := if decide (readyState x = CONNECTING) then PRejected else PPending in
  Some (p, Store (<[s := x']> (sockets st)) (brokers st) (clients st)
             (promises st ++ [state]) (mid st)).

Definition broker_read (st : store) (b : nat) (name : jsval) : option (nat * store) :=
  x ← brokers st !! b; request st (b_ws x) (read_request (Some name)).

Definition broker_execute (st : store) (b : nat) (name funcName : jsval) (args : option string)
    : option (nat * store) :=
  x ← brokers st !! b; request st (b_ws x) (execute_request (Some name) funcName args).

Definition is_open (st : store) (s : nat) : bool :=
  match sockets st !! s with Some x => bool_decide (readyState x = OPEN) | None => false end.

(** [client.read()] and [client.execute()]: through the local socket when it is
    open, otherwise through the broker; [None] is the exception when there is no
    broker yet. *)
Definition client_read (st : store) (c : nat) : option (nat * store) :=
  x ← clients st !! c;
  match c_localWs x with
  | Some s => if is_open st s then request st s (read_request None)
              else b ← c_broker x; broker_read st b (c_name x)
  | None => b ← c_broker x; broker_read st b (c_name x)
  end.

Definition client_execute (st : store) (c : nat) (funcName : jsval) (args : option string)
    : option (nat * store) :=
  x ← clients st !! c;
  match c_localWs x with
  | Some s => if is_open st s then request st s (execute_request None funcName args)
              else b ← c_broker x; broker_execute st b (c_name x) funcName args
  | None => b ← c_broker x; broker_execute st b (c_name x) funcName args
  end.

Definition broker_isReady (st : store) (b : nat) : bool :=
  match brokers st !! b with Some x => b_ready x | None => false end.
Definition client_isReady (st : store) (c : nat) : bool :=
  match clients st !! c with Some x => c_ready x | None => false end.

(** * Events of a socket *)

Definition socket_opens (st : store) (s : nat) : store :=
  match sockets st !! s with
  | Some x =>
      match onopen x with
      | Some (BrokerReady b) =>
          let st1 := set_socket st s (Socket (url x) OPEN (onmessage x) (onopen x) (sent x)) in
          match brokers st !! b with
          | Some k => Store (sockets st1) (<[b := Broker true (b_ws k)]> (brokers st1))
                        (clients st1) (promises st1) (mid st1)
          | None => st1
          end
      | Some (SendInfo req) =>
          set_socket st s (Socket (url x) OPEN (onmessage x) (onopen x) (sent x ++ [req]))
      | None => set_socket st s (Socket (url x) OPEN (onmessage x) (onopen x) (sent x))
      end
  | None => st
  end.

Definition socket_closes (st : store) (s : nat) : store :=
  match sockets st !! s with
  | Some x => set_socket st s (Socket (url x) CLOSED (onmessage x) (onopen x) (sent x))
  | None => st
  end.

(** * Logger *)

(** The methods of [obj] the logger wraps: every function among the own
    properties of its prototype ([methods] pairs each name with whether its value
    is a function that is not [obj]). *)
Definition logger_wraps (methods : list (string * bool)) : list string :=
  omap (fun '(n, f) => if (f : bool) then Some n else None) methods.

Inductive severity := LogD | LogL | LogI | LogW | LogE.

(** The first argument as printed: [d] uses the name; the others read a property
    [prefix] that is never set. *)
Definition logger_text (name : string) (sev : severity) (msg : string) : string :=
  match sev with
  | LogD => name +:+ ": " +:+ msg
  | _ => "undefined" +:+ msg
  end.
