(* ===== verification/LhcbProps.v ===== *)
(** Properties of the connectivity library: which message answers which request
    on a shared socket, and how a local client becomes ready. *)
From S2P Require Import Prelude JsNum JsString JsVal Json Lhcb.

(** * One socket *)

(** What happens on one socket: a request takes the slot over, a message comes
    in. *)
Inductive traffic_event := Issue (jsonRequest : string) | Deliver (m : option response).

Section props.
Context {addresses : Addresses}.

Definition socket_step (s : nat) (st : store) (e : traffic_event) : store :=
  match e with
  | Issue j => match request st s j with Some (_, st') => st' | None => st end
  | Deliver m => socket_message st s m
  end.

Definition socket_run (s : nat) (st : store) (es : list traffic_event) : store :=
  foldl (socket_step s) st es.

(** The slot of socket [s] and its state. *)
Definition slot (st : store) (s : nat) : option on_msg := x ← sockets st !! s; onmessage x.
Definition opened (st : store) (s : nat) : Prop :=
  exists x, sockets st !! s = Some x /\ readyState x = OPEN.

Lemma request_open st s j :
  opened st s ->
  exists st', request st s j = Some (length (promises st), st') /\ opened st' s /\
    slot st' s = Some (ResolvePromise (length (promises st))) /\
    promises st' = promises st ++ [PPending] /\ clients st' = clients st.
Proof.
  intros (x & Hx & Ho). unfold request. rewrite Hx. cbn [mbind option_bind].
  rewrite Ho, decide_True, decide_False by done. eexists. split; [done|].
  unfold opened, slot. cbn [sockets promises clients].
  rewrite list_lookup_insert_eq by (by eapply lookup_lt_Some).
  split; [by eexists|]. done.
Qed.

Lemma settle_promise_frame st p x :
  sockets (settle_promise st p x) = sockets st /\ clients (settle_promise st p x) = clients st /\
  length (promises (settle_promise st p x)) = length (promises st).
Proof.
  unfold settle_promise. destruct (promises st !! p) as [[]|]; try done.
  cbn [set_promise sockets clients promises]. by rewrite length_insert.
Qed.

Lemma message_resolves st s p m :
  slot st s = Some (ResolvePromise p) ->
  socket_message st s m = match m with Some r => settle_promise st p (PResolved r) | None => st end.
Proof.
  unfold slot, socket_message. destruct (sockets st !! s) as [x|]; [|done].
  cbn [mbind option_bind]. intros ->. by destruct m.
Qed.

(** Once a request has taken the slot over, promises before it and the clients
    are not touched any more. *)
Lemma taken_over s es st q :
  opened st s -> slot st s = Some (ResolvePromise q) -> (q < length (promises st))%nat ->
  opened (socket_run s st es) s /\
  clients (socket_run s st es) = clients st /\
  (exists q', slot (socket_run s st es) s = Some (ResolvePromise q')) /\
  (forall p, (p < q)%nat -> promises (socket_run s st es) !! p = promises st !! p).
Proof.
  revert st q. induction es as [|e es IH]; intros st q Ho Hs Hq.
  - cbn. eauto.
  - cbn [socket_run foldl]. fold (socket_run s (socket_step s st e) es). destruct e as [j|m].
    + cbn [socket_step]. destruct (request_open st s j Ho) as (st' & -> & Ho' & Hs' & Hp & Hc).
      destruct (IH st' _ Ho' Hs') as (H1 & H2 & H3 & H4).
      { rewrite Hp, length_app. cbn. lia. }
      split_and!; [done|by rewrite H2|done|].
      intros p Hpq. rewrite H4 by lia. by rewrite Hp, lookup_app_l by lia.
    + cbn [socket_step]. rewrite (message_resolves _ _ _ _ Hs). destruct m as [r|].
      * destruct (settle_promise_frame st q (PResolved r)) as (E1 & E2 & E3).
        set (st' := settle_promise st q (PResolved r)) in *.
        destruct (IH st' q) as (H1 & H2 & H3 & H4).
        { unfold opened. by rewrite E1. } { unfold slot. by rewrite E1. } { by rewrite E3. }
        split_and!; [done|by rewrite H2|done|].
        intros p Hpq. rewrite H4 by done. unfold st', settle_promise.
        destruct (promises st !! q) as [[]|]; try done. cbn [set_promise promises].
        by rewrite list_lookup_insert_ne by lia.
      * by apply (IH st q).
Qed.

(** The first message that is JSON. *)
Fixpoint first_valid (ms : list (option response)) : option response :=
  match ms with
  | [] => None
  | Some r :: _ => Some r
  | None :: ms' => first_valid ms'
  end.

Lemma deliver_all s st p ms :
  slot st s = Some (ResolvePromise p) -> opened st s -> promises st !! p = Some PPending ->
  let st' := socket_run s st (map Deliver ms) in
  promises st' !! p = Some (match first_valid ms with Some r => PResolved r | None => PPending end)
  /\ slot st' s = Some (ResolvePromise p) /\ opened st' s /\
  length (promises st') = length (promises st).
Proof.
  assert (Settled : forall ms st r, slot st s = Some (ResolvePromise p) ->
    promises st !! p = Some (PResolved r) -> socket_run s st (map Deliver ms) = st).
  { intros ms'. induction ms' as [|m ms' IH]; intros st' r Hs Hp; [done|].
    cbn [map socket_run foldl socket_step]. rewrite (message_resolves _ _ _ _ Hs).
    assert (match m with Some r0 => settle_promise st' p (PResolved r0) | None => st' end = st') as ->.
    { destruct m; [|done]. unfold settle_promise. by rewrite Hp. }
    by eapply IH. }
  revert st. induction ms as [|m ms IH]; intros st Hs Ho Hp; [done|].
  cbn [map socket_run foldl socket_step]. fold (socket_run s).
  rewrite (message_resolves _ _ _ _ Hs). destruct m as [r|]; [|by apply IH].
  cbn [first_valid]. destruct (settle_promise_frame st p (PResolved r)) as (E1 & E2 & E3).
  assert (Hr : promises (settle_promise st p (PResolved r)) !! p = Some (PResolved r)).
  { unfold settle_promise. rewrite Hp. cbn [set_promise promises].
    apply list_lookup_insert_eq. by eapply lookup_lt_Some. }
  assert (Hs' : slot (settle_promise st p (PResolved r)) s = Some (ResolvePromise p))
    by (unfold slot; by rewrite E1).
  fold (socket_run s (settle_promise st p (PResolved r)) (map Deliver ms)).
  rewrite (Settled ms _ r Hs' Hr). split_and!; [done|done| |done].
  unfold opened. by rewrite E1.
Qed.

Lemma socket_run_cons s st e es :
  socket_run s st (e :: es) = socket_run s (socket_step s st e) es.
Proof. done. Qed.

Lemma socket_run_app s st es es' :
  socket_run s st (es ++ es') = socket_run s (socket_run s st es) es'.
Proof. apply foldl_app. Qed.

(** C19. What answers a request.  On an open socket the promise of a request is
    settled by the first well-formed message that arrives before the next request
    of anyone who shares the socket, whatever the message answers; when none
    does, the promise stays pending for ever, whatever arrives afterwards. *)
Theorem request_answer s st j ms rest :
  opened st s -> (rest = [] \/ exists j' es, rest = Issue j' :: es) ->
  promises (socket_run s st (Issue j :: map Deliver ms ++ rest)) !! length (promises st)
    = Some (match first_valid ms with Some r => PResolved r | None => PPending end).
Proof.
  intros Ho Hrest. destruct (request_open st s j Ho) as (st1 & E & Ho1 & Hs1 & Hp1 & _).
  rewrite socket_run_cons, socket_run_app. cbn [socket_step]. rewrite E.
  set (p := length (promises st)) in *.
  assert (Hpend : promises st1 !! p = Some PPending).
  { rewrite Hp1. unfold p. by rewrite lookup_app_r, Nat.sub_diag by lia. }
  destruct (deliver_all s st1 p ms Hs1 Ho1 Hpend) as (H1 & H2 & H3 & H4).
  set (st2 := socket_run s st1 (map Deliver ms)) in *.
  destruct Hrest as [->|(j' & es & ->)]; [done|].
  destruct (request_open st2 s j' H3) as (st3 & E3 & Ho3 & Hs3 & Hp3 & _).
  rewrite socket_run_cons. cbn [socket_step]. rewrite E3.
  destruct (taken_over s es st3 _ Ho3 Hs3) as (_ & _ & _ & F).
  { rewrite Hp3, length_app. cbn. lia. }
  assert (Hpl : (p < length (promises st2))%nat).
  { rewrite H4, Hp1, length_app. cbn. unfold p. lia. }
  rewrite F by done. by rewrite Hp3, lookup_app_l by done.
Qed.

(** * Clients that share a broker *)

Lemma client_read_remote st c b x y :
  clients st !! c = Some x -> c_localWs x = None -> c_broker x = Some b -> brokers st !! b = Some y ->
  client_read st c = request st (b_ws y) (read_request (Some (c_name x))).
Proof.
  intros Hc Hl Hb Hy. unfold client_read. rewrite Hc. cbn [mbind option_bind]. rewrite Hl, Hb.
  cbn [mbind option_bind]. unfold broker_read. by rewrite Hy.
Qed.

(** Overlapping reads mix the clients up.  When two clients of one broker
    read one after the other, the broker's answer to the first is delivered as
    the answer to the second, and the read of the first client never settles,
    whatever is received or sent on the socket afterwards. *)
Theorem overlapping_reads st c1 c2 b x1 x2 y r1 es :
  clients st !! c1 = Some x1 -> c_localWs x1 = None -> c_broker x1 = Some b ->
  clients st !! c2 = Some x2 -> c_localWs x2 = None -> c_broker x2 = Some b ->
  brokers st !! b = Some y -> opened st (b_ws y) ->
  exists p1 st1 p2 st2,
    client_read st c1 = Some (p1, st1) /\ client_read st1 c2 = Some (p2, st2) /\
    let after := socket_run (b_ws y) (socket_message st2 (b_ws y) (Some r1)) es in
    promises (socket_message st2 (b_ws y) (Some r1)) !! p2 = Some (PResolved r1) /\
    promises after !! p1 = Some PPending.
Proof.
  intros Hc1 Hl1 Hb1 Hc2 Hl2 Hb2 Hy Ho. set (s := b_ws y) in *.
  rewrite (client_read_remote st c1 b x1 y) by done. fold s.
  destruct (request_open st s (read_request (Some (c_name x1))) Ho)
    as (st1 & E1 & Ho1 & Hs1 & Hp1 & Hcl1).
  assert (Hb' : brokers st1 = brokers st).
  { unfold request in E1. destruct (sockets st !! s); [|done]. cbn in E1. by injection E1 as <-. }
  exists (length (promises st)), st1.
  rewrite (client_read_remote st1 c2 b x2 y) by (by rewrite ?Hcl1, ?Hb'). fold s.
  destruct (request_open st1 s (read_request (Some (c_name x2))) Ho1)
    as (st2 & E2 & Ho2 & Hs2 & Hp2 & _).
  exists (length (promises st1)), st2. split; [done|]. split; [done|]. cbv zeta.
  assert (Hpend : promises st2 !! length (promises st1) = Some PPending).
  { by rewrite Hp2, lookup_app_r, Nat.sub_diag by lia. }
  split.
  - rewrite (message_resolves _ _ _ _ Hs2). unfold settle_promise. rewrite Hpend.
    cbn [set_promise promises]. apply list_lookup_insert_eq. by eapply lookup_lt_Some.
  - change (socket_run s (socket_message st2 s (Some r1)) es) with
      (socket_run s st2 (Deliver (Some r1) :: es)).
    destruct (taken_over s (Deliver (Some r1) :: es) st2 _ Ho2 Hs2) as (_ & _ & _ & F).
    { rewrite Hp2, length_app. cbn. lia. }
    rewrite F by (rewrite Hp1, length_app; cbn; lia).
    rewrite Hp2, lookup_app_l by (rewrite Hp1, length_app; cbn; lia).
    by rewrite Hp1, lookup_app_r, Nat.sub_diag by lia.
Qed.

(** * Readiness of a local client *)

Lemma lookup_snoc {A} (l : list A) x : (l ++ [x]) !! length l = Some x.
Proof. by rewrite lookup_app_r, Nat.sub_diag by lia. Qed.

(** The socket of a client created without a broker. *)
Lemma local_client st :
  let '(c, st') := getLocalClient st in
  let s := length (sockets st) in
  clients st' !! c = Some (Client false None Undef (Some s)) /\
  sockets st' !! s = Some (Socket (ws_url "localhost" "9443") CONNECTING (Some (BrokerInfo c))
                            (Some (SendInfo (info_request (mid st)))) []) /\
  client_read st' c = None /\ forall f args, client_execute st' c f args = None.
Proof.
  unfold getLocalClient, new_client. cbn [truthy clients sockets]. rewrite !lookup_snoc.
  split; [done|]. split; [done|].
  unfold client_read, client_execute, is_open. cbn [clients sockets]. rewrite lookup_snoc.
  cbn [mbind option_bind c_localWs]. by rewrite lookup_snoc.
Qed.

(** Messages that are no response leave a local client waiting. *)
Definition no_response (m : option response) : Prop :=
  match m with Some r => strict_eq (r_type r) (JStr "response") = false | None => True end.

Lemma waits_for_response s st c ms :
  slot st s = Some (BrokerInfo c) -> Forall no_response ms -> socket_run s st (map Deliver ms) = st.
Proof.
  intros Hs Hms. induction Hms as [|m ms Hm _ IH]; [done|].
  cbn [map]. rewrite socket_run_cons. cbn [socket_step]. enough (socket_message st s m = st) as -> by done.
  unfold slot in Hs. unfold socket_message. destruct (sockets st !! s) as [x|]; [|done].
  cbn [mbind option_bind] in Hs. destruct m as [r|]; [|done]. rewrite Hs.
  unfold broker_info. cbn in Hm. by rewrite Hm.
Qed.

(** C20. A local client becomes ready only if nobody uses it too early.  While its socket
    is connecting a read or an execute throws and changes nothing.  Once the socket has
    opened, and whatever else arrives before, an answer to its information request gives
    it its name; if the browser takes the address of the answer the client is ready, with
    a broker on a new socket, and if not the exception leaves it without a broker and not
    ready.  But a request issued on the open socket before that answer takes the only
    message slot, and the client is then never ready, whatever messages arrive and
    whatever it sends. *)
Theorem local_client_readiness st r name host port ms j es :
  r_type r = JStr "response" -> r_value r = Some (name, host, port) -> Forall no_response ms ->
  let '(c, st0) := getLocalClient st in
  let s := length (sockets st) in
  let st1 := socket_opens st0 s in
  (client_read st0 c = None /\ forall f args, client_execute st0 c f args = None) /\
  client_isReady st1 c = false /\
  (let st2 := socket_run s st1 (map Deliver (ms ++ [Some r])) in
   if ws_accepts (ws_url (to_str host) (to_str port)) then
     exists b, clients st2 !! c = Some (Client true (Some b) name (Some s)) /\
       option_map b_ready (brokers st2 !! b) = Some false /\
       exists k, sockets st2 !! k = Some (Socket (ws_url (to_str host) (to_str port)) CONNECTING None
                                            (Some (BrokerReady b)) [])
   else clients st2 !! c = Some (Client false None name (Some s)) /\
        sockets st2 = sockets st1 /\ brokers st2 = brokers st1) /\
  client_isReady (socket_run s st1 (map Deliver ms ++ Issue j :: es)) c = false.
Proof.
  intros Ht Hv Hms. pose proof (local_client st) as L. destruct (getLocalClient st) as [c st0].
  cbv zeta in L |- *. set (s := length (sockets st)) in *. destruct L as (Hc & Hs & Hr & He).
  assert (E1 : socket_opens st0 s = set_socket st0 s (Socket (ws_url "localhost" "9443") OPEN
    (Some (BrokerInfo c)) (Some (SendInfo (info_request (mid st)))) [info_request (mid st)])).
  { unfold socket_opens. by rewrite Hs. }
  set (st1 := socket_opens st0 s) in *.
  assert (Hc1 : clients st1 !! c = Some (Client false None Undef (Some s))) by (by rewrite E1).
  assert (Hs1 : sockets st1 !! s = Some (Socket (ws_url "localhost" "9443") OPEN
    (Some (BrokerInfo c)) (Some (SendInfo (info_request (mid st)))) [info_request (mid st)])).
  { rewrite E1. cbn [set_socket sockets]. apply list_lookup_insert_eq. by eapply lookup_lt_Some. }
  assert (Hsl : slot st1 s = Some (BrokerInfo c)) by (unfold slot; by rewrite Hs1).
  rewrite map_app, !socket_run_app, (waits_for_response s st1 c ms Hsl Hms).
  split; [by split|]. split; [unfold client_isReady; by rewrite Hc1|]. split.
  - cbn [map]. rewrite socket_run_cons. cbn [socket_step].
    change (socket_run s ?x []) with x.
    unfold socket_message. rewrite Hs1. cbn [onmessage]. unfold broker_info.
    rewrite Ht, Hv, Hc1. change (strict_eq (JStr "response") (JStr "response")) with true.
    unfold new_broker. destruct (ws_accepts _).
    + exists (length (brokers st1)). cbn [set_client clients brokers sockets c_localWs].
      rewrite list_lookup_insert_eq by (by eapply lookup_lt_Some). rewrite lookup_snoc.
      split; [done|]. split; [done|]. exists (length (sockets st1)). by rewrite lookup_snoc.
    + cbn [set_client clients brokers sockets c_localWs c_ready c_broker].
      rewrite list_lookup_insert_eq by (by eapply lookup_lt_Some). done.
  - assert (Ho : opened st1 s) by (eexists; split; [exact Hs1|done]).
    destruct (request_open st1 s j Ho) as (st2 & E2 & Ho2 & Hs2 & Hp2 & Hc2).
    rewrite socket_run_cons. cbn [socket_step]. rewrite E2.
    destruct (taken_over s es st2 _ Ho2 Hs2) as (_ & F & _).
    { rewrite Hp2, length_app. cbn. lia. }
    unfold client_isReady. by rewrite F, Hc2, Hc1.
Qed.
End props.

(** * Concrete runs *)

#[local] Existing Instance plain_addresses.

Definition demo_response (text : string) : response :=
  {| r_text := text; r_type := JStr "response"; r_value := None |}.

(** A broker whose socket is open and two of its remote clients. *)
Definition demo_store : store :=
  let st := match new_broker empty_store "example.org" "8443" with Some (_, st) => st | None => empty_store end in
  let st := (getRemoteClient st 0 (JStr "alice")).2 in
  socket_opens (getRemoteClient st 0 (JStr "bob")).2 0.

Lemma demo_open : opened demo_store 0.
Proof. eexists. split; reflexivity. Qed.

Lemma request_answer_witness :
  promises (socket_run 0 demo_store [Issue "a"; Issue "b"; Deliver (Some (demo_response "for a"))])
    !! 0%nat = Some PPending.
Proof.
  exact (request_answer 0 demo_store "a" [] [Issue "b"; Deliver (Some (demo_response "for a"))]
    demo_open (or_intror (ex_intro _ "b" (ex_intro _ _ eq_refl)))).
Defined.

Lemma overlapping_reads_witness :
  exists p1 st1 p2 st2,
    client_read demo_store 0 = Some (p1, st1) /\ client_read st1 1 = Some (p2, st2) /\
    promises (socket_message st2 0 (Some (demo_response "alice's data"))) !! p2
      = Some (PResolved (demo_response "alice's data")).
Proof.
  destruct (overlapping_reads demo_store 0 1 0 _ _ _ (demo_response "alice's data") []
    eq_refl eq_refl eq_refl eq_refl eq_refl eq_refl eq_refl demo_open)
    as (p1 & st1 & p2 & st2 & H1 & H2 & H3 & _).
  exists p1, st1, p2, st2. split; [exact H1|]. split; [exact H2|exact H3].
Defined.

Definition demo_info : response :=
  {| r_text := "info"; r_type := JStr "response";
     r_value := Some (JStr "alice", JStr "example.org", JStr "8443") |}.

(** An answer without a host and a port. *)
Definition demo_bad_info : response :=
  {| r_text := "info"; r_type := JStr "response"; r_value := Some (JStr "alice", Undef, Undef) |}.

Lemma local_client_readiness_witness :
  let '(c, st0) := getLocalClient empty_store in
  let st1 := socket_opens st0 0 in
  client_isReady (socket_run 0 st1 [Deliver None; Deliver (Some demo_info)]) c = true /\
  client_isReady (socket_run 0 st1 [Deliver (Some demo_bad_info)]) c = false /\
  client_isReady (socket_run 0 st1 [Issue "r"; Deliver (Some demo_info)]) c = false.
Proof.
  destruct (local_client_readiness empty_store demo_info (JStr "alice") (JStr "example.org") (JStr "8443")
    [None] "r" [Deliver (Some demo_info)] eq_refl eq_refl ltac:(by repeat constructor))
    as (_ & _ & (b & Hb & _) & _).
  destruct (local_client_readiness empty_store demo_bad_info (JStr "alice") Undef Undef
    [] "r" [Deliver (Some demo_info)] eq_refl eq_refl ltac:(constructor))
    as (_ & _ & (Hb' & _) & Hn).
  set (ready := fun o : option client => match o with Some x => c_ready x | None => false end).
  split; [exact (f_equal ready Hb)|]. split; [exact (f_equal ready Hb')|exact Hn].
Defined.
