(* ===== verification/LhcbCompiled.v ===== *)
(** The compiled client library of the last-hop connectivity broker,
    src/lhcb/lhcb_lib_js/lhcb.compiled.js: the four classes the way the transpiler
    writes them, with the logger that wraps the methods of every object and what is
    printed on the console.

    An object of the library holds the functions the logger put on it besides its
    fields; a call looks the function up on the object, then on the prototype, and runs
    the wrappers it finds around the method.  What the sockets hold are closures: the
    object they were made for and the text of the request. *)
From S2P Require Import Prelude Lists JsNum JsString JsVal JsObj Json Lhcb Babel.

(** * Classes *)

Inductive cls := LHCB | LHCBBroker | LHCBClient.

Definition cls_name (c : cls) : string :=
  match c with LHCB => "LHCB" | LHCBBroker => "LHCBBroker" | LHCBClient => "LHCBClient" end.

(** A function: a constructor, a method of a prototype, or what a logger put in the place
    of one ([self.name], the name of the method, the method). *)
Inductive fn :=
  | Class_ (c : cls)
  | Method (c : cls) (m : string)
  | Wrapper (self name : string) (method : fn).

#[export] Instance cls_eq_dec : EqDecision cls.
Proof. solve_decision. Defined.
#[export] Instance fn_eq_dec : EqDecision fn.
Proof. solve_decision. Defined.

(** The property [name] of a function; one assigned to a property has none. *)
Definition fn_name (f : fn) : string :=
  match f with Class_ c => cls_name c | Method _ m => m | Wrapper _ _ _ => "" end.

(** The keys of the tables given to [_createClass]. *)
Definition methods (c : cls) : list string :=
  match c with
  | LHCB => ["getBroker"; "getLocalClient"]
  | LHCBBroker => ["isReady"; "read"; "execute"; "getRemoteClient"]
  | LHCBClient => ["isReady"; "read"; "execute"; "getBroker"; "getName"]
  end.

Definition compiled_class (c : cls) : option (constructor fn) :=
  _createClass (function_object (Class_ c))
    (Some (map (fun m => Prop_ m (Method c m) None) (methods c))) None.

Definition prototype_of (c : cls) : list (string * descriptor fn) :=
  match compiled_class c with Some k => prototype k | None => [] end.

(** [obj[name]], for the functions: own properties, then the prototype's. *)
Definition member (c : cls) (own : list (string * fn)) (name : string) : option fn :=
  match obj_get name own with
  | Some f => Some f
  | None => match obj_get name (prototype_of c) with Some d => Some (d_value d) | None => None end
  end.

(** [obj[name] = f]: an error if only the prototype has it and it is not writable. *)
Definition set_member (c : cls) (name : string) (f : fn) : eff (list (string * fn)) unit := fun own =>
  match obj_get name own, obj_get name (prototype_of c) with
  | None, Some d => if d_writable d then Some (Normal tt, obj_set name f own) else Some (Abrupt TypeError, own)
  | _, _ => Some (Normal tt, obj_set name f own)
  end.

(** * The logger *)

(** [_loop]: what is no function is skipped; everything on these objects that has a name
    of the prototype is one. *)
Definition wrap_method (c : cls) (self : string) (name : string) : eff (list (string * fn)) unit := fun own =>
  match member c own name with
  | Some method => set_member c name (Wrapper self name method) own
  | None => Some (Normal tt, own)
  end.

(** [new Logger(obj)]: its [name]; the object gets its wrappers. *)
Definition new_Logger (c : cls) : eff (list (string * fn)) string := fun own =>
  match member c own "constructor" with
  | None => Some (Abrupt TypeError, own)
  | Some f =>
      let names := (prototype_of c).*1 in
      match expanded (mret tt) array_next None (element (wrap_method c (fn_name f)))
              (S (length names)) (names, own) with
      | Some (Normal _, (_, own')) => Some (Normal (fn_name f), own')
      | Some (Abrupt e, (_, own')) => Some (Abrupt e, own')
      | None => None
      end
  end.

(** What a console shows: values, objects by their number, the [arguments] of a call, the
    JSON text of a response with its indentation. *)
Inductive shown :=
  | SVal (v : jsval)
  | SJson (text : option string)
  | SBroker (b : nat)
  | SSocket (s : nat)
  | SResponse (r : response)
  | SArgs (l : list shown).

Record line := Line { l_sev : severity; l_shown : list shown }.

(** [Logger.d], [l], [i], [w], [e]; [prefix] is a property no logger has. *)
Definition logger_line (name : string) (sev : severity) (msg : string) (args : list shown) : line :=
  Line sev (SVal (JStr (match sev with
                        | LogD => name +:+ ": " +:+ msg
                        | _ => to_str Undef +:+ msg
                        end)) :: args).

(** * State *)

Inductive ref := RLib | RBroker (b : nat) | RClient (c : nat).

(** The closures in the slots of a socket. *)
Inductive on_message := OnResponse (this : ref) (jsonRequest : string) (resolve : nat)
  | OnBrokerInfo (this : nat) (jsonRequest : string).
Inductive on_open := OnOpenReady (this : nat) | OnOpenSend (this : nat) (jsonRequest : string).

Record websocket := WebSocket {
  ws_address : string;
  ws_readyState : ready_state;
  ws_onmessage : option on_message;
  ws_onopen : option on_open;
  ws_sent : list string;
}.

(** Own functions, the name of the logger [this.l], the fields. *)
Record lib_obj := LibObj { lib_own : list (string * fn); lib_l : string }.
Record broker_obj := BrokerObj {
  b_own : list (string * fn); b_l : string; bo_ready : bool; bo_ws : nat }.
Record client_obj := ClientObj {
  c_own : list (string * fn); c_l : string; co_ready : bool; co_broker : option nat;
  co_name : jsval; co_localWs : option nat }.

Record cstore := CStore {
  lib : lib_obj;
  websockets : list websocket;
  broker_objs : list broker_obj;
  client_objs : list client_obj;
  settled : list promise;
  cmid : Z;
  console : list line;
}.

Notation lib_eff := (eff cstore).

Definition with_lib (x : lib_obj) (st : cstore) : cstore :=
  CStore x (websockets st) (broker_objs st) (client_objs st) (settled st) (cmid st) (console st).
Definition with_websockets (l : list websocket) (st : cstore) : cstore :=
  CStore (lib st) l (broker_objs st) (client_objs st) (settled st) (cmid st) (console st).
Definition with_brokers (l : list broker_obj) (st : cstore) : cstore :=
  CStore (lib st) (websockets st) l (client_objs st) (settled st) (cmid st) (console st).
Definition with_clients (l : list client_obj) (st : cstore) : cstore :=
  CStore (lib st) (websockets st) (broker_objs st) l (settled st) (cmid st) (console st).
Definition with_settled (l : list promise) (st : cstore) : cstore :=
  CStore (lib st) (websockets st) (broker_objs st) (client_objs st) l (cmid st) (console st).
Definition with_cmid (m : Z) (st : cstore) : cstore :=
  CStore (lib st) (websockets st) (broker_objs st) (client_objs st) (settled st) m (console st).
Definition print (l : line) : lib_eff unit := modify (fun st =>
  CStore (lib st) (websockets st) (broker_objs st) (client_objs st) (settled st) (cmid st)
    (console st ++ [l])).

(** The element of a list, or the error of a property of [undefined]. *)
Definition nth_of {A} (f : cstore -> list A) (i : nat) : lib_eff A :=
  st ← get_state; match f st !! i with Some x => mret x | None => throw TypeError end.

Definition alter_broker (b : nat) (g : broker_obj -> broker_obj) : lib_eff unit :=
  modify (fun st => with_brokers (alter g b (broker_objs st)) st).
Definition alter_client (c : nat) (g : client_obj -> client_obj) : lib_eff unit :=
  modify (fun st => with_clients (alter g c (client_objs st)) st).
Definition alter_socket (s : nat) (g : websocket -> websocket) : lib_eff unit :=
  modify (fun st => with_websockets (alter g s (websockets st)) st).

(** The own functions and the logger of an object. *)
Definition members_of (this : ref) : lib_eff (list (string * fn)) :=
  match this with
  | RLib => st ← get_state; mret (lib_own (lib st))
  | RBroker b => x ← nth_of broker_objs b; mret (b_own x)
  | RClient c => x ← nth_of client_objs c; mret (c_own x)
  end.
Definition logger_of (this : ref) : lib_eff string :=
  match this with
  | RLib => st ← get_state; mret (lib_l (lib st))
  | RBroker b => x ← nth_of broker_objs b; mret (b_l x)
  | RClient c => x ← nth_of client_objs c; mret (c_l x)
  end.
Definition set_logger (this : ref) (own : list (string * fn)) (l : string) : lib_eff unit :=
  match this with
  | RLib => modify (with_lib (LibObj own l))
  | RBroker b => alter_broker b (fun x => BrokerObj own l (bo_ready x) (bo_ws x))
  | RClient c => alter_client c (fun x => ClientObj own l (co_ready x) (co_broker x) (co_name x) (co_localWs x))
  end.
Definition cls_of (this : ref) : cls :=
  match this with RLib => LHCB | RBroker _ => LHCBBroker | RClient _ => LHCBClient end.

(** [this.l = new Logger(this)]. *)
Definition make_logger (this : ref) : lib_eff unit :=
  own ← members_of this;
  match new_Logger (cls_of this) own with
  | Some (Normal self, own') => set_logger this own' self
  | Some (Abrupt e, _) => throw e
  | None => no_fuel
  end.

(** [this.l.d(msg, ...args)]. *)
Definition log_d (this : ref) (msg : string) (args : list shown) : lib_eff unit :=
  name ← logger_of this; print (logger_line name LogD msg args).

(** * Sockets and promises *)

(** [new WebSocket(url)]: a SyntaxError for an address the browser does not take. *)
Definition new_WebSocket `{Addresses} (address : string) : lib_eff nat :=
  st ← get_state;
  if ws_accepts address then
    modify (with_websockets (websockets st ++ [WebSocket address CONNECTING None None []])) ;;
    mret (length (websockets st))
  else throw (Thrown (JStr "SyntaxError")).

Definition set_onmessage (s : nat) (h : on_message) : lib_eff unit :=
  alter_socket s (fun x => WebSocket (ws_address x) (ws_readyState x) (Some h) (ws_onopen x) (ws_sent x)).
Definition set_onopen (s : nat) (h : on_open) : lib_eff unit :=
  alter_socket s (fun x => WebSocket (ws_address x) (ws_readyState x) (ws_onmessage x) (Some h) (ws_sent x)).
Definition set_readyState (s : nat) (r : ready_state) : lib_eff unit :=
  alter_socket s (fun x => WebSocket (ws_address x) r (ws_onmessage x) (ws_onopen x) (ws_sent x)).

(** [ws.send(text)]: an InvalidStateError while connecting, nothing once closed. *)
Definition send (s : nat) (text : string) : lib_eff unit :=
  x ← nth_of websockets s;
  match ws_readyState x with
  | CONNECTING => throw (Thrown (JStr "InvalidStateError"))
  | OPEN => alter_socket s (fun x => WebSocket (ws_address x) (ws_readyState x) (ws_onmessage x)
                                       (ws_onopen x) (ws_sent x ++ [text]))
  | CLOSED => mret tt
  end.

(** A promise settles once. *)
Definition settle_with (p : nat) (v : promise) : lib_eff unit := modify (fun st =>
  match settled st !! p with
  | Some PPending => with_settled (<[p := v]> (settled st)) st
  | _ => st
  end).

(** [new Promise(executor)]: an exception of the executor rejects the promise. *)
Definition new_Promise (executor : nat -> lib_eff unit) : lib_eff nat :=
  st ← get_state;
  let p := length (settled st) in
  modify (with_settled (settled st ++ [PPending])) ;;
  try_catch (executor p) (fun _ => settle_with p PRejected) ;;
  mret p.

(** The executors of the four requests; [ws] is [this.ws] or [this.localWs]. *)
Definition run_request (this : ref) (ws : nat) (what jsonRequest : string) : lib_eff nat :=
  new_Promise (fun p =>
    log_d this ("Running '" +:+ what +:+ "' Promise") [] ;;
    set_onmessage ws (OnResponse this jsonRequest p) ;;
    log_d this "Sending request:" [SVal (JStr jsonRequest)] ;;
    send ws jsonRequest).

(** * Constructors *)

(** [new LHCB()] on the object of the script. *)
Definition LHCB_body : lib_eff unit :=
  _classCallCheck true ;;
  make_logger RLib ;;
  log_d RLib "Creating new LHCB Lib from:" [SArgs []].

Section addresses.
Context {addresses : Addresses}.

(** The constructor of a broker, on the object [b]. *)
Definition LHCBBroker_body (b : nat) (host port : jsval) : lib_eff unit :=
  _classCallCheck true ;;
  make_logger (RBroker b) ;;
  log_d (RBroker b) "Creating new LHCB Broker from:" [SArgs [SVal host; SVal port]] ;;
  ws ← new_WebSocket ("wss://" +:+ to_str host +:+ ":" +:+ to_str port +:+ "/ws");
  alter_broker b (fun x => BrokerObj (b_own x) (b_l x) (bo_ready x) ws) ;;
  set_onopen ws (OnOpenReady b) ;;
  log_d (RBroker b) "Created WebSocket:" [SSocket ws] ;;
  alter_broker b (fun x => BrokerObj (b_own x) (b_l x) false (bo_ws x)).

(** [new LHCBBroker(host, port)]: the fields of the fresh object are read only after the
    constructor has set them.  When the constructor throws nothing refers to the object,
    and its number is free again. *)
Definition new_LHCBBroker (host port : jsval) : lib_eff nat :=
  st ← get_state;
  let b := length (broker_objs st) in
  modify (with_brokers (broker_objs st ++ [BrokerObj [] "" false 0])) ;;
  try_catch (LHCBBroker_body b host port ;; mret b)
    (fun e => modify (fun st' => with_brokers (take b (broker_objs st')) st') ;; throw e).

(** The constructor of a client, on the object [c]; [args] are its arguments. *)
Definition LHCBClient_body (c : nat) (args : list shown) (broker : option nat) (name : jsval)
    : lib_eff unit :=
  _classCallCheck true ;;
  make_logger (RClient c) ;;
  log_d (RClient c) "Creating new LHCB Client from:" [SArgs args] ;;
  alter_client c (fun x => ClientObj (c_own x) (c_l x) false (co_broker x) (co_name x) (co_localWs x)) ;;
  match broker, truthy name with
  | Some b, true =>
      log_d (RClient c) "Broker and Name specified, communicating exclusively through Broker" [] ;;
      alter_client c (fun x => ClientObj (c_own x) (c_l x) true (Some b) name (co_localWs x))
  | _, _ =>
      log_d (RClient c) "Unspecified Broker or Name, trying to connect locally AND get BrokerInfo" [] ;;
      ws ← new_WebSocket "wss://localhost:9443/ws";
      st ← get_state;
      modify (with_cmid (cmid st + 1)) ;;
      let jsonRequest := json_object
        [("type", stringify (JStr "execute")); ("mid", stringify (JNum (of_Z (cmid st))));
         ("value", Some (json_object [("name", stringify (JStr "getBrokerInfo"))]))] in
      set_onmessage ws (OnBrokerInfo c jsonRequest) ;;
      set_onopen ws (OnOpenSend c jsonRequest) ;;
      alter_client c (fun x => ClientObj (c_own x) (c_l x) (co_ready x) (co_broker x) (co_name x) (Some ws))
  end.

Definition new_LHCBClient (args : list shown) (broker : option nat) (name : jsval) : lib_eff nat :=
  st ← get_state;
  let c := length (client_objs st) in
  modify (with_clients (client_objs st ++ [ClientObj [] "" false None Undef None])) ;;
  LHCBClient_body c args broker name ;;
  mret c.

(** * Calls *)

Inductive value :=
  | VUndef | VBool (b : bool) | VVal (v : jsval) | VPromise (p : nat) | VBroker (b : nat) | VClient (c : nat).

(** A call of a function of an object: what is printed, from the outermost wrapper to the
    last, and the function they wrap. *)
Fixpoint apply_fn (f : fn) (args : list shown) (run : fn -> lib_eff value) : lib_eff value :=
  match f with
  | Wrapper self name method =>
      print (Line LogD [SVal (JStr (self +:+ "." +:+ name +:+ "():")); SArgs args]) ;;
      apply_fn method args run
  | _ => run f
  end.

(** [obj[name](...args)]. *)
Definition call_method (this : ref) (name : string) (args : list shown) (run : lib_eff value) : lib_eff value :=
  own ← members_of this;
  match member (cls_of this) own name with
  | Some f => apply_fn f args (fun _ => run)
  | None => throw TypeError
  end.

(** The calls of a broker with their arguments; the constructor is among the functions of
    an object. *)
Inductive broker_call :=
  | B_isReady
  | B_read (name : jsval)
  | B_execute (client funcName : jsval) (args : option string)
  | B_getRemoteClient (name : jsval)
  | B_constructor (host port : jsval).

Definition broker_call_name (k : broker_call) : string :=
  match k with
  | B_isReady => "isReady" | B_read _ => "read" | B_execute _ _ _ => "execute"
  | B_getRemoteClient _ => "getRemoteClient" | B_constructor _ _ => "constructor"
  end.

Definition broker_call_args (k : broker_call) : list shown :=
  match k with
  | B_isReady => []
  | B_read name => [SVal name]
  | B_execute client funcName args => [SVal client; SVal funcName; SJson args]
  | B_getRemoteClient name => [SVal name]
  | B_constructor host port => [SVal host; SVal port]
  end.

Definition broker_method (b : nat) (k : broker_call) : lib_eff value :=
  match k with
  | B_isReady => x ← nth_of broker_objs b; mret (VBool (bo_ready x))
  | B_read name =>
      x ← nth_of broker_objs b;
      let jsonRequest := json_object [("type", stringify (JStr "read")); ("client", stringify name)] in
      p ← run_request (RBroker b) (bo_ws x) "read" jsonRequest; mret (VPromise p)
  | B_execute client funcName args =>
      x ← nth_of broker_objs b;
      let jsonRequest := json_object
        [("type", stringify (JStr "execute")); ("client", stringify client);
         ("value", Some (json_object [("name", stringify funcName); ("args", args)]))] in
      p ← run_request (RBroker b) (bo_ws x) "execute" jsonRequest; mret (VPromise p)
  | B_getRemoteClient name =>
      c ← new_LHCBClient [SBroker b; SVal name] (Some b) name; mret (VClient c)
  | B_constructor host port => LHCBBroker_body b host port ;; mret VUndef
  end.

Definition call_broker (b : nat) (k : broker_call) : lib_eff value :=
  call_method (RBroker b) (broker_call_name k) (broker_call_args k) (broker_method b k).

Inductive client_call :=
  | C_isReady
  | C_read
  | C_execute (funcName : jsval) (args : option string)
  | C_getBroker
  | C_getName
  | C_constructor (broker : option nat) (name : jsval).

Definition client_call_name (k : client_call) : string :=
  match k with
  | C_isReady => "isReady" | C_read => "read" | C_execute _ _ => "execute"
  | C_getBroker => "getBroker" | C_getName => "getName" | C_constructor _ _ => "constructor"
  end.

Definition shown_broker (b : option nat) : shown :=
  match b with Some b => SBroker b | None => SVal Undef end.

Definition client_call_args (k : client_call) : list shown :=
  match k with
  | C_execute funcName args => [SVal funcName; SJson args]
  | C_constructor broker name => [shown_broker broker; SVal name]
  | _ => []
  end.

(** [this.localWs && this.localWs.readyState == WebSocket.OPEN]. *)
Definition local_open (x : client_obj) : lib_eff (option nat) :=
  match co_localWs x with
  | None => mret None
  | Some s =>
      w ← nth_of websockets s;
      mret (if decide (ws_readyState w = OPEN) then Some s else None)
  end.

(** [this.broker.<method>(...)]. *)
Definition via_broker (x : client_obj) (k : broker_call) : lib_eff value :=
  match co_broker x with Some b => call_broker b k | None => throw TypeError end.

Definition client_method (c : nat) (k : client_call) : lib_eff value :=
  x ← nth_of client_objs c;
  match k with
  | C_isReady => mret (VBool (co_ready x))
  | C_read =>
      l ← local_open x;
      match l with
      | Some s =>
          log_d (RClient c) "Local WebSocket is open, reading locally..." [] ;;
          p ← run_request (RClient c) s "read" (json_object [("type", stringify (JStr "read"))]);
          mret (VPromise p)
      | None =>
          log_d (RClient c) "No local WebSocket connection to LHCB Client -> Reading via Broker..." [] ;;
          via_broker x (B_read (co_name x))
      end
  | C_execute funcName args =>
      l ← local_open x;
      match l with
      | Some s =>
          log_d (RClient c) "Local WebSocket is open, executing locally..." [] ;;
          p ← run_request (RClient c) s "execute" (json_object
            [("type", stringify (JStr "execute"));
             ("value", Some (json_object [("name", stringify funcName); ("args", args)]))]);
          mret (VPromise p)
      | None =>
          log_d (RClient c) "No local WebSocket connection to LHCB Client -> Executing via Broker..." [] ;;
          via_broker x (B_execute (co_name x) funcName args)
      end
  | C_getBroker => mret (match co_broker x with Some b => VBroker b | None => VUndef end)
  | C_getName => mret (VVal (co_name x))
  | C_constructor broker name =>
      LHCBClient_body c [shown_broker broker; SVal name] broker name ;; mret VUndef
  end.

Definition call_client (c : nat) (k : client_call) : lib_eff value :=
  call_method (RClient c) (client_call_name k) (client_call_args k) (client_method c k).

Inductive lib_call := L_getBroker (host port : jsval) | L_getLocalClient | L_constructor.

Definition lib_call_name (k : lib_call) : string :=
  match k with
  | L_getBroker _ _ => "getBroker" | L_getLocalClient => "getLocalClient" | L_constructor => "constructor"
  end.
Definition lib_call_args (k : lib_call) : list shown :=
  match k with L_getBroker host port => [SVal host; SVal port] | _ => [] end.

Definition lib_method (k : lib_call) : lib_eff value :=
  match k with
  | L_getBroker host port => b ← new_LHCBBroker host port; mret (VBroker b)
  | L_getLocalClient => c ← new_LHCBClient [] None Undef; mret (VClient c)
  | L_constructor => LHCB_body ;; mret VUndef
  end.

Definition call_lib (k : lib_call) : lib_eff value :=
  call_method RLib (lib_call_name k) (lib_call_args k) (lib_method k).

(** * Events *)

Definition run_onopen (s : nat) (h : on_open) : lib_eff unit :=
  match h with
  | OnOpenReady b =>
      log_d (RBroker b) "WebSocket open" [] ;;
      alter_broker b (fun x => BrokerObj (b_own x) (b_l x) true (bo_ws x))
  | OnOpenSend c jsonRequest =>
      log_d (RClient c) "WebSocket open" [] ;;
      log_d (RClient c) "Sending request:" [SVal (JStr jsonRequest)] ;;
      send s jsonRequest
  end.

(** [msg] after [JSON.parse], which throws on [None]. *)
Definition run_onmessage (h : on_message) (msg : option response) : lib_eff unit :=
  match msg with
  | None => throw (Thrown (JStr "SyntaxError"))
  | Some r =>
      match h with
      | OnResponse this jsonRequest p =>
          log_d this ("Got response for " +:+ jsonRequest +:+ ":") [SResponse r] ;;
          settle_with p (PResolved r)
      | OnBrokerInfo c jsonRequest =>
          log_d (RClient c) ("Got response for " +:+ jsonRequest +:+ ":") [SResponse r] ;;
          if strict_eq (r_type r) (JStr "response") then
            match r_value r with
            | None => throw TypeError
            | Some (name, host, port) =>
                alter_client c (fun x => ClientObj (c_own x) (c_l x) (co_ready x) (co_broker x) name (co_localWs x)) ;;
                b ← new_LHCBBroker host port;
                alter_client c (fun x => ClientObj (c_own x) (c_l x) (co_ready x) (Some b) (co_name x) (co_localWs x)) ;;
                alter_client c (fun x => ClientObj (c_own x) (c_l x) true (co_broker x) (co_name x) (co_localWs x))
            end
          else mret tt
      end
  end.

(** The browser reports what a handler throws. *)
Definition dispatch (m : lib_eff unit) : lib_eff unit := try_catch m (fun _ => mret tt).

Definition opens (s : nat) : lib_eff unit := dispatch (
  x ← nth_of websockets s;
  set_readyState s OPEN ;;
  match ws_onopen x with Some h => run_onopen s h | None => mret tt end).

Definition closes (s : nat) : lib_eff unit := set_readyState s CLOSED.

Definition message (s : nat) (msg : option response) : lib_eff unit := dispatch (
  x ← nth_of websockets s;
  match ws_onmessage x with Some h => run_onmessage h msg | None => mret tt end).

End addresses.

(** * The script *)

(** The names of a page: what scripts declare with [let] and [class], and the properties
    of [window], which hold what is declared with [var] and [function]. *)
Inductive global := GClass (name : string) | GHelper (name : string) | GNumber (n : Z) | GLibrary.
Record globals := Globals { declared : list (string * global); window : list (string * global) }.

(** A name of a script: declarations come before properties of [window]. *)
Definition resolve_name (g : globals) (name : string) : option global :=
  match obj_get name (declared g) with Some x => Some x | None => obj_get name (window g) end.

(** lhcb.js: its declarations, then [window.LHCB = new LHCB()]. *)
Definition load_source (g : globals) : globals :=
  let decl := foldl (fun o '(k, v) => obj_set k v o) (declared g)
    [("mid", GNumber 0); ("LHCB", GClass "LHCB"); ("LHCBBroker", GClass "LHCBBroker");
     ("LHCBClient", GClass "LHCBClient"); ("Logger", GClass "Logger")] in
  Globals decl (obj_set "LHCB" GLibrary (window g)).

(** lhcb.compiled.js. *)
Definition load_compiled (g : globals) : globals :=
  let props := foldl (fun o '(k, v) => obj_set k v o) (window g)
    [("_classCallCheck", GHelper "_classCallCheck"); ("_createClass", GHelper "_createClass");
     ("mid", GNumber 0); ("LHCB", GClass "LHCB"); ("LHCBBroker", GClass "LHCBBroker");
     ("LHCBClient", GClass "LHCBClient"); ("Logger", GClass "Logger")] in
  Globals (declared g) (obj_set "LHCB" GLibrary props).

(** The state of the library when the script has run. *)
Definition blank : cstore := CStore (LibObj [] "") [] [] [] [] 0 [].

Definition loaded : option cstore :=
  match LHCB_body blank with Some (Normal _, st) => Some st | _ => None end.
