(* ===== verification/LhcbCompiledProps.v ===== *)
(** The compiled library does what its source does, the console aside; where the two part
    is the constructor the logger leaves on every object. *)
From S2P Require Import Prelude Lists JsNum JsString JsVal JsObj Json Lhcb Babel BabelProps LhcbCompiled.

Section props.
Context {addresses : Addresses}.

(** * The source, operation by operation *)

Inductive op :=
  | OLib (k : lib_call)
  | OBroker (b : nat) (k : broker_call)
  | OClient (c : nat) (k : client_call)
  | OOpens (s : nat)
  | OCloses (s : nat)
  | OMessage (s : nat) (m : option response).

Definition promised (r : option (nat * store)) (st : store) : completion value * store :=
  match r with Some (p, st') => (Normal (VPromise p), st') | None => (Abrupt TypeError, st) end.

Definition source_broker (b : nat) (k : broker_call) (st : store) : completion value * store :=
  match brokers st !! b with
  | None => (Abrupt TypeError, st)
  | Some x =>
      match k with
      | B_isReady => (Normal (VBool (broker_isReady st b)), st)
      | B_read name => promised (broker_read st b name) st
      | B_execute client f args => promised (broker_execute st b client f args) st
      | B_getRemoteClient name => let '(c, st') := getRemoteClient st b name in (Normal (VClient c), st')
      | B_constructor _ _ => (Abrupt TypeError, st)
      end
  end.

Definition source_client (c : nat) (k : client_call) (st : store) : completion value * store :=
  match clients st !! c with
  | None => (Abrupt TypeError, st)
  | Some x =>
      match k with
      | C_isReady => (Normal (VBool (client_isReady st c)), st)
      | C_read => promised (client_read st c) st
      | C_execute f args => promised (client_execute st c f args) st
      | C_getBroker => (Normal (match c_broker x with Some b => VBroker b | None => VUndef end), st)
      | C_getName => (Normal (VVal (c_name x)), st)
      | C_constructor _ _ => (Abrupt TypeError, st)
      end
  end.

(** A class of the source is an error without [new]. *)
Definition source_step (o : op) (st : store) : completion value * store :=
  match o with
  | OLib (L_getBroker host port) =>
      match Lhcb.getBroker st (to_str host) (to_str port) with
      | Some (b, st') => (Normal (VBroker b), st')
      | None => (Abrupt (Thrown (JStr "SyntaxError")), st)
      end
  | OLib L_getLocalClient => let '(c, st') := getLocalClient st in (Normal (VClient c), st')
  | OLib L_constructor => (Abrupt TypeError, st)
  | OBroker b k => source_broker b k st
  | OClient c k => source_client c k st
  | OOpens s => (Normal VUndef, socket_opens st s)
  | OCloses s => (Normal VUndef, socket_closes st s)
  | OMessage s m => (Normal VUndef, socket_message st s m)
  end.

Definition compiled_step (o : op) : lib_eff value :=
  match o with
  | OLib k => call_lib k
  | OBroker b k => call_broker b k
  | OClient c k => call_client c k
  | OOpens s => opens s ;; mret VUndef
  | OCloses s => closes s ;; mret VUndef
  | OMessage s m => message s m ;; mret VUndef
  end.

(** Every completion in order, and the state at the end. *)
Fixpoint compiled_run (os : list op) (st : cstore) : option (list (completion value) * cstore) :=
  match os with
  | [] => Some ([], st)
  | o :: os' =>
      match compiled_step o st with
      | Some (r, st') =>
          match compiled_run os' st' with Some (rs, st'') => Some (r :: rs, st'') | None => None end
      | None => None
      end
  end.

Fixpoint source_run (os : list op) (st : store) : list (completion value) * store :=
  match os with
  | [] => ([], st)
  | o :: os' =>
      let '(r, st') := source_step o st in
      let '(rs, st'') := source_run os' st' in (r :: rs, st'')
  end.

(** Not a call of the constructor an object carries. *)
Definition ordinary (o : op) : bool :=
  match o with
  | OLib L_constructor | OBroker _ (B_constructor _ _) | OClient _ (C_constructor _ _) => false
  | _ => true
  end.

(** * What the source knows of a state *)

Definition erase_message (h : on_message) : on_msg :=
  match h with OnResponse _ _ p => ResolvePromise p | OnBrokerInfo c _ => BrokerInfo c end.
Definition erase_open (h : on_open) : on_open_ :=
  match h with OnOpenReady b => BrokerReady b | OnOpenSend _ j => SendInfo j end.
Definition erase_socket (x : websocket) : socket :=
  Socket (ws_address x) (ws_readyState x) (option_map erase_message (ws_onmessage x))
    (option_map erase_open (ws_onopen x)) (ws_sent x).
Definition erase_broker (x : broker_obj) : broker := Broker (bo_ready x) (bo_ws x).
Definition erase_client (x : client_obj) : client :=
  Client (co_ready x) (co_broker x) (co_name x) (co_localWs x).

Definition erase (st : cstore) : store :=
  Store (map erase_socket (websockets st)) (map erase_broker (broker_objs st))
    (map erase_client (client_objs st)) (settled st) (cmid st).

(** * Objects with their wrappers *)

(** The functions the logger puts on an object. *)
Definition logged (c : cls) : list (string * fn) :=
  ("constructor", Wrapper (cls_name c) "constructor" (Class_ c)) ::
  map (fun m => (m, Wrapper (cls_name c) m (Method c m))) (methods c).

Lemma new_Logger_fresh c : new_Logger c [] = Some (Normal (cls_name c), logged c).
Proof. destruct c; vm_compute; reflexivity. Qed.

Definition call_line (c : cls) (name : string) (args : list shown) : line :=
  Line LogD [SVal (JStr (cls_name c +:+ "." +:+ name +:+ "():")); SArgs args].

Lemma member_logged c name :
  name ∈ methods c -> member c (logged c) name = Some (Wrapper (cls_name c) name (Method c name)).
Proof.
  intros H. destruct c; cbn [methods] in H.
  all: repeat (apply elem_of_cons in H as [->|H]; [reflexivity|]); by apply elem_of_nil in H.
Qed.

Definition add_lines (st : cstore) (l : list line) : cstore :=
  CStore (lib st) (websockets st) (broker_objs st) (client_objs st) (settled st) (cmid st) (console st ++ l).

Lemma call_logged this name args run own st :
  members_of this st = Some (Normal own, st) -> own = logged (cls_of this) -> name ∈ methods (cls_of this) ->
  call_method this name args run st = run (add_lines st [call_line (cls_of this) name args]).
Proof.
  intros Hm -> Hn. unfold call_method, mbind, eff_bind. rewrite Hm, member_logged by done.
  cbn [apply_fn]. done.
Qed.

(** References of the closures are to objects that exist. *)
Definition ref_ok (nb nc : nat) (r : ref) : Prop :=
  match r with RLib => False | RBroker b => (b < nb)%nat | RClient c => (c < nc)%nat end.
Definition message_ok (nb nc : nat) (h : on_message) : Prop :=
  match h with OnResponse r _ _ => ref_ok nb nc r | OnBrokerInfo c _ => (c < nc)%nat end.
Definition open_ok (nb nc : nat) (h : on_open) : Prop :=
  match h with OnOpenReady b => (b < nb)%nat | OnOpenSend c _ => (c < nc)%nat end.
Definition socket_ok (nb nc : nat) (x : websocket) : Prop :=
  (forall h, ws_onmessage x = Some h -> message_ok nb nc h) /\
  (forall h, ws_onopen x = Some h -> open_ok nb nc h).
Definition broker_ok (ns : nat) (x : broker_obj) : Prop :=
  b_own x = logged LHCBBroker /\ b_l x = "LHCBBroker" /\ (bo_ws x < ns)%nat.
Definition client_ok (ns : nat) (x : client_obj) : Prop :=
  c_own x = logged LHCBClient /\ c_l x = "LHCBClient" /\
  (forall s, co_localWs x = Some s -> (s < ns)%nat).

Record wf (st : cstore) : Prop := {
  wf_lib : lib st = LibObj (logged LHCB) "LHCB";
  wf_sockets : Forall (socket_ok (length (broker_objs st)) (length (client_objs st))) (websockets st);
  wf_brokers : Forall (broker_ok (length (websockets st))) (broker_objs st);
  wf_clients : Forall (client_ok (length (websockets st))) (client_objs st);
}.

Lemma ref_ok_mono nb nc nb' nc' r : (nb <= nb')%nat -> (nc <= nc')%nat -> ref_ok nb nc r -> ref_ok nb' nc' r.
Proof. destruct r; cbn; lia. Qed.

Lemma socket_ok_mono nb nc nb' nc' x :
  (nb <= nb')%nat -> (nc <= nc')%nat -> socket_ok nb nc x -> socket_ok nb' nc' x.
Proof.
  intros Hb Hc [Hm Ho]. split; intros h E.
  - specialize (Hm h E). destruct h as [r j p|c j]; cbn in *; [by eapply ref_ok_mono|lia].
  - specialize (Ho h E). destruct h; cbn in *; lia.
Qed.

Lemma broker_ok_mono ns ns' x : (ns <= ns')%nat -> broker_ok ns x -> broker_ok ns' x.
Proof. intros H (?&?&?). split_and!; try done. lia. Qed.

Lemma client_ok_mono ns ns' x : (ns <= ns')%nat -> client_ok ns x -> client_ok ns' x.
Proof. intros H (?&?&Hs). split_and!; try done. intros s E. specialize (Hs s E). lia. Qed.

(** * Single steps *)

Ltac run_lib :=
  unfold set_logger; cbv beta iota;
  unfold set_onmessage, set_onopen, set_readyState, nth_of, alter_broker, alter_client, alter_socket,
    print, with_lib, with_websockets, with_brokers, with_clients, with_settled, with_cmid,
    add_lines;
  run_eff;
  cbn [lib websockets broker_objs client_objs settled cmid console].

Lemma alter_is_insert {A} (f : A -> A) i (l : list A) x :
  l !! i = Some x -> alter f i l = <[i := f x]> l.
Proof.
  revert i. induction l as [|y l IH]; intros [|i] H; [done|done|by injection H as ->|].
  cbn. f_equal. by apply IH.
Qed.

Lemma alter_beyond {A} (f : A -> A) i (l : list A) : l !! i = None -> alter f i l = l.
Proof. revert i. induction l as [|y l IH]; intros [|i] H; [done..|]. cbn. f_equal. by apply IH. Qed.

Lemma alter_last {A} (f : A -> A) (l : list A) x : alter f (length l) (l ++ [x]) = l ++ [f x].
Proof. induction l as [|y l IH]; [done|]. cbn. f_equal. apply IH. Qed.

Lemma lookup_last {A} (l : list A) x : (l ++ [x]) !! length l = Some x.
Proof. by rewrite lookup_app_r, Nat.sub_diag by lia. Qed.

Lemma add_lines_app st l l' : add_lines (add_lines st l) l' = add_lines st (l ++ l').
Proof. unfold add_lines. cbn. by rewrite <- app_assoc. Qed.

Lemma erase_lines st l : erase (add_lines st l) = erase st.
Proof. done. Qed.

Lemma wf_lines st l : wf st -> wf (add_lines st l).
Proof. by intros []. Qed.

(** The logger of [this] is there. *)
Definition named (this : ref) (st : cstore) (n : string) : Prop := logger_of this st = Some (Normal n, st).

Lemma log_named this msg args st n :
  named this st n -> log_d this msg args st = Some (Normal tt, add_lines st [logger_line n LogD msg args]).
Proof. unfold named, log_d, mbind, eff_bind. by intros ->. Qed.

Lemma named_ext this st st' n :
  lib st' = lib st -> broker_objs st' = broker_objs st -> client_objs st' = client_objs st ->
  named this st n -> named this st' n.
Proof.
  intros E1 E2 E3. unfold named. destruct this; cbn [logger_of]; run_lib; rewrite ?E1, ?E2, ?E3.
  - by intros [= <-].
  - destruct (_ !! _); [by intros [= <-]|done].
  - destruct (_ !! _); [by intros [= <-]|done].
Qed.

Lemma wf_named st this :
  wf st -> ref_ok (length (broker_objs st)) (length (client_objs st)) this ->
  named this st (cls_name (cls_of this)).
Proof.
  intros [_ _ Hb Hc]. unfold named. destruct this as [|b|c]; cbn [ref_ok logger_of cls_of cls_name]; [done|..].
  all: intros Hr; apply lookup_lt_is_Some_2 in Hr as [x Hx]; run_lib; rewrite Hx.
  - by rewrite (proj1 (proj2 (Forall_lookup_1 _ _ _ _ Hb Hx))).
  - by rewrite (proj1 (proj2 (Forall_lookup_1 _ _ _ _ Hc Hx))).
Qed.

Definition request_lines (n what j : string) : list line :=
  [logger_line n LogD ("Running '" +:+ what +:+ "' Promise") [];
   logger_line n LogD "Sending request:" [SVal (JStr j)]].

(** A request takes the slot of the socket over and makes a new promise. *)
Lemma run_request_spec this s what j st n x :
  named this st n -> websockets st !! s = Some x ->
  run_request this s what j st = Some (Normal (length (settled st)),
    CStore (lib st)
      (<[s := WebSocket (ws_address x) (ws_readyState x) (Some (OnResponse this j (length (settled st))))
                (ws_onopen x) (if decide (ws_readyState x = OPEN) then ws_sent x ++ [j] else ws_sent x)]>
         (websockets st))
      (broker_objs st) (client_objs st)
      (settled st ++ [if decide (ws_readyState x = CONNECTING) then PRejected else PPending])
      (cmid st) (console st ++ request_lines n what j)).
Proof.
  intros Hn Hx. unfold run_request, new_Promise.
  assert (Hlt := lookup_lt_Some _ _ _ Hx).
  unfold try_catch, mbind at 1 2 3, eff_bind at 1 2 3, get_state, modify.
  unfold mbind, eff_bind.
  rewrite (log_named _ _ _ _ n) by (by eapply named_ext; [..|exact Hn]).
  unfold set_onmessage at 1, alter_socket at 1, modify at 1.
  rewrite (log_named _ _ _ _ n) by (by eapply named_ext; [..|exact Hn]).
  unfold send. run_lib. rewrite (alter_is_insert _ _ _ _ Hx), list_lookup_insert_eq by done.
  cbn [ws_readyState]. destruct (ws_readyState x) eqn:Hr.
  - unfold settle_with. run_lib. rewrite lookup_last. run_lib. cbn [ws_readyState ws_address ws_onopen ws_sent].
    rewrite insert_app_r_alt, Nat.sub_diag by lia. rewrite <- app_assoc. done.
  - run_lib. rewrite (alter_is_insert _ _ _ _ (list_lookup_insert_eq _ _ _ Hlt)), list_insert_insert_eq.
    cbn [ws_address ws_readyState ws_onmessage ws_onopen ws_sent]. by rewrite <- app_assoc.
  - run_lib. rewrite <- app_assoc. done.
Qed.

(** * New objects *)

Lemma make_logger_fresh this st :
  members_of this st = Some (Normal [], st) ->
  make_logger this st = set_logger this (logged (cls_of this)) (cls_name (cls_of this)) st.
Proof. unfold make_logger, mbind, eff_bind. intros ->. by rewrite new_Logger_fresh. Qed.

Lemma named_broker st bs x :
  broker_objs st = bs ++ [x] -> named (RBroker (length bs)) st (b_l x).
Proof. unfold named. cbn [logger_of]. run_lib. intros ->. by rewrite lookup_last. Qed.

Lemma named_client st cs x :
  client_objs st = cs ++ [x] -> named (RClient (length cs)) st (c_l x).
Proof. unfold named. cbn [logger_of]. run_lib. intros ->. by rewrite lookup_last. Qed.

Definition broker_line (host port : jsval) : line :=
  logger_line "LHCBBroker" LogD "Creating new LHCB Broker from:" [SArgs [SVal host; SVal port]].

Definition broker_lines (host port : jsval) (ws : nat) : list line :=
  [broker_line host port;
   logger_line "LHCBBroker" LogD "Created WebSocket:" [SSocket ws]].

Definition fresh_broker_socket (b : nat) (host port : jsval) : websocket :=
  WebSocket (ws_url (to_str host) (to_str port)) CONNECTING None (Some (OnOpenReady b)) [].

(** A broker whose address the browser takes, and one whose constructor throws. *)
Lemma new_LHCBBroker_spec host port lb ws bs cs ps m con :
  new_LHCBBroker host port (CStore lb ws bs cs ps m con) = Some (
    if ws_accepts (ws_url (to_str host) (to_str port)) then
      (Normal (length bs),
       CStore lb (ws ++ [fresh_broker_socket (length bs) host port])
         (bs ++ [BrokerObj (logged LHCBBroker) "LHCBBroker" false (length ws)])
         cs ps m (con ++ broker_lines host port (length ws)))
    else
      (Abrupt (Thrown (JStr "SyntaxError")),
       CStore lb ws bs cs ps m (con ++ [broker_line host port]))).
Proof.
  unfold new_LHCBBroker, LHCBBroker_body, _classCallCheck, new_WebSocket. run_lib.
  rewrite make_logger_fresh by (cbn [members_of]; run_lib; by rewrite lookup_last).
  cbn [cls_of cls_name]. run_lib. rewrite alter_last.
  erewrite log_named by (by eapply named_broker). run_lib.
  change ("wss://" +:+ to_str host +:+ ":" +:+ to_str port +:+ "/ws") with (ws_url (to_str host) (to_str port)).
  destruct (ws_accepts _).
  - run_lib. rewrite !alter_last. cbn [b_own b_l bo_ready bo_ws].
    erewrite log_named by (by eapply named_broker). run_lib. rewrite alter_last.
    cbn [b_own b_l bo_ready bo_ws ws_address ws_readyState ws_onmessage ws_onopen ws_sent].
    by rewrite <- app_assoc.
  - run_lib. by rewrite take_app_length.
Qed.

Definition remote_lines (args : list shown) : list line :=
  [logger_line "LHCBClient" LogD "Creating new LHCB Client from:" [SArgs args];
   logger_line "LHCBClient" LogD "Broker and Name specified, communicating exclusively through Broker" []].

Definition local_lines (args : list shown) : list line :=
  [logger_line "LHCBClient" LogD "Creating new LHCB Client from:" [SArgs args];
   logger_line "LHCBClient" LogD
     "Unspecified Broker or Name, trying to connect locally AND get BrokerInfo" []].

Definition fresh_local_socket (c : nat) (m : Z) : websocket :=
  WebSocket (ws_url "localhost" "9443") CONNECTING (Some (OnBrokerInfo c (info_request m)))
    (Some (OnOpenSend c (info_request m))) [].

Lemma new_LHCBClient_spec args brk name lb ws bs cs ps m con :
  new_LHCBClient args brk name (CStore lb ws bs cs ps m con) = Some (Normal (length cs),
    match brk, truthy name with
    | Some b, true =>
        CStore lb ws bs (cs ++ [ClientObj (logged LHCBClient) "LHCBClient" true (Some b) name None])
          ps m (con ++ remote_lines args)
    | _, _ =>
        CStore lb (ws ++ [fresh_local_socket (length cs) m]) bs
          (cs ++ [ClientObj (logged LHCBClient) "LHCBClient" false None Undef (Some (length ws))])
          ps (m + 1) (con ++ local_lines args)
    end).
Proof.
  unfold new_LHCBClient, LHCBClient_body, _classCallCheck, new_WebSocket. run_lib.
  rewrite make_logger_fresh by (cbn [members_of]; run_lib; by rewrite lookup_last).
  cbn [cls_of cls_name]. run_lib. rewrite alter_last.
  erewrite log_named by (by eapply named_client). run_lib. rewrite alter_last.
  cbn [c_own c_l co_ready co_broker co_name co_localWs].
  destruct brk as [b|]; [destruct (truthy name)|].
  all: run_lib; erewrite log_named by (by eapply named_client); run_lib.
  1: by rewrite alter_last, <- app_assoc.
  all: change "wss://localhost:9443/ws" with (ws_url "localhost" "9443"); rewrite local_accepted; run_lib.
  all: rewrite alter_last; cbn [ws_address ws_readyState ws_onmessage ws_onopen ws_sent].
  all: by rewrite !alter_last, <- app_assoc.
Qed.

(** * The invariant and the erasure of the new states *)

Lemma wf_grow lb ws bs cs ps m con ws1 bs1 cs1 ps' m' con' :
  wf (CStore lb ws bs cs ps m con) ->
  Forall (socket_ok (length (bs ++ bs1)) (length (cs ++ cs1))) ws1 ->
  Forall (broker_ok (length (ws ++ ws1))) bs1 -> Forall (client_ok (length (ws ++ ws1))) cs1 ->
  wf (CStore lb (ws ++ ws1) (bs ++ bs1) (cs ++ cs1) ps' m' con').
Proof.
  intros [Hl Hs Hb Hc] Hs1 Hb1 Hc1. cbn [lib websockets broker_objs client_objs] in *.
  split; cbn [lib websockets broker_objs client_objs]; [done|..]; apply Forall_app; split; try done.
  - eapply Forall_impl; [exact Hs|]. intros x. apply socket_ok_mono; rewrite length_app; lia.
  - eapply Forall_impl; [exact Hb|]. intros x. apply broker_ok_mono; rewrite length_app; lia.
  - eapply Forall_impl; [exact Hc|]. intros x. apply client_ok_mono; rewrite length_app; lia.
Qed.

Lemma wf_same lb ws bs cs ps m con ps' m' con' :
  wf (CStore lb ws bs cs ps m con) -> wf (CStore lb ws bs cs ps' m' con').
Proof. by intros []. Qed.

Lemma wf_socket lb ws bs cs ps m con ps' m' con' s x :
  wf (CStore lb ws bs cs ps m con) -> socket_ok (length bs) (length cs) x ->
  wf (CStore lb (<[s := x]> ws) bs cs ps' m' con').
Proof.
  intros [Hl Hs Hb Hc] Hx. cbn [lib websockets broker_objs client_objs] in *.
  split; cbn [lib websockets broker_objs client_objs]; rewrite ?length_insert; try done.
  by apply Forall_insert.
Qed.

Lemma wf_broker lb ws bs cs ps m con ps' m' con' b x :
  wf (CStore lb ws bs cs ps m con) -> broker_ok (length ws) x ->
  wf (CStore lb ws (<[b := x]> bs) cs ps' m' con').
Proof.
  intros [Hl Hs Hb Hc] Hx. cbn [lib websockets broker_objs client_objs] in *.
  split; cbn [lib websockets broker_objs client_objs]; rewrite ?length_insert; try done.
  by apply Forall_insert.
Qed.

Lemma wf_client lb ws bs cs ps m con ps' m' con' c x :
  wf (CStore lb ws bs cs ps m con) -> client_ok (length ws) x ->
  wf (CStore lb ws bs (<[c := x]> cs) ps' m' con').
Proof.
  intros [Hl Hs Hb Hc] Hx. cbn [lib websockets broker_objs client_objs] in *.
  split; cbn [lib websockets broker_objs client_objs]; rewrite ?length_insert; try done.
  by apply Forall_insert.
Qed.

Lemma map_insert {A B} (f : A -> B) i x (l : list A) : map f (<[i := x]> l) = <[i := f x]> (map f l).
Proof. exact (list_fmap_insert f l i x). Qed.

Lemma lookup_map {A B} (f : A -> B) (l : list A) i : map f l !! i = option_map f (l !! i).
Proof. exact (list_lookup_fmap f l i). Qed.

Ltac erased :=
  unfold erase;
  cbn [sockets brokers clients promises mid websockets broker_objs client_objs settled cmid].

Lemma new_LHCBBroker_wf host port lb ws bs cs ps m con :
  wf (CStore lb ws bs cs ps m con) ->
  wf (CStore lb (ws ++ [fresh_broker_socket (length bs) host port])
        (bs ++ [BrokerObj (logged LHCBBroker) "LHCBBroker" false (length ws)])
        cs ps m (con ++ broker_lines host port (length ws))).
Proof.
  intros W. rewrite <- (app_nil_r cs). eapply wf_grow; [exact W|..]; [|repeat constructor|constructor].
  - constructor; [|constructor]. split; cbn; [done|]. intros h [= <-]. cbn. rewrite length_app. cbn. lia.
  - cbn. rewrite length_app. cbn. lia.
Qed.

Lemma new_LHCBBroker_simulates host port st :
  wf st -> exists r st' l,
    new_LHCBBroker host port st = Some (r, st') /\ wf st' /\ console st' = console st ++ l /\
    match new_broker (erase st) (to_str host) (to_str port) with
    | Some (b, s') => r = Normal b /\ s' = erase st'
    | None => r = Abrupt (Thrown (JStr "SyntaxError")) /\ erase st' = erase st
    end.
Proof.
  destruct st as [lb ws bs cs ps m con]. intros W. unfold new_broker.
  rewrite new_LHCBBroker_spec. destruct (ws_accepts _).
  - eexists _, _, _. split; [done|]. split; [by apply new_LHCBBroker_wf|]. split; [done|].
    erased. by rewrite !map_app, !length_map.
  - eexists _, _, _. split; [done|]. split; [by eapply wf_same|]. by split.
Qed.

Lemma new_LHCBClient_simulates args brk name st :
  wf st -> exists c st' l,
    new_LHCBClient args brk name st = Some (Normal c, st') /\ wf st' /\ console st' = console st ++ l /\
    new_client (erase st) brk name = (c, erase st').
Proof.
  destruct st as [lb ws bs cs ps m con]. intros W.
  rewrite new_LHCBClient_spec. unfold new_client. erased. rewrite !length_map.
  destruct brk as [b|]; [destruct (truthy name) eqn:Hn|].
  1: { eexists _, _, _. split; [done|]. split; [|split; [done|erased; by rewrite map_app]].
       rewrite <- (app_nil_r ws), <- (app_nil_r bs). eapply wf_grow; [exact W|constructor..|].
       constructor; [|done]. split_and!; [done..|]. by intros s [=]. }
  all: eexists _, _, _; split; [done|]; split; [|split; [done|erased; by rewrite !map_app]].
  all: rewrite <- (app_nil_r bs); eapply wf_grow; [exact W|..|constructor|].
  all: constructor; [|constructor].
  all: split; cbn; repeat split; intros ? [= <-]; cbn; rewrite length_app; cbn; lia.
Qed.

Lemma run_request_simulates this s what j st :
  wf st -> ref_ok (length (broker_objs st)) (length (client_objs st)) this -> (s < length (websockets st))%nat ->
  exists p st' l,
    run_request this s what j st = Some (Normal p, st') /\ wf st' /\ console st' = console st ++ l /\
    request (erase st) s j = Some (p, erase st').
Proof.
  intros W Hr Hs. apply lookup_lt_is_Some_2 in Hs as [x Hx].
  pose proof (Forall_lookup_1 _ _ _ _ (wf_sockets _ W) Hx) as [_ Hxo].
  rewrite (run_request_spec _ _ _ _ _ _ _ (wf_named _ _ W Hr) Hx).
  destruct st as [lb ws bs cs ps m con]. cbn [websockets broker_objs client_objs] in *.
  eexists _, _, _. split; [done|]. split; [|split; [done|]].
  - eapply wf_socket; [exact W|]. split; cbn; [|done]. by intros h [= <-].
  - unfold request. erased.
    rewrite lookup_map, Hx. cbn [option_map mbind option_bind]. by rewrite map_insert.
Qed.

(** * Calls *)

(** [m] from [st] does what [f] does on the erased state, keeps the invariant, and prints
    [pre] first. *)
Definition sim (m : lib_eff value) (f : store -> completion value * store) (pre : list line) (st : cstore) : Prop :=
  exists r st' l, m st = Some (r, st') /\ wf st' /\ console st' = console st ++ pre ++ l /\
    f (erase st) = (r, erase st').

Lemma sim_line m f st ln pre :
  sim m f pre (add_lines st [ln]) -> sim (fun st => m (add_lines st [ln])) f (ln :: pre) st.
Proof.
  intros (r & st' & l & H1 & H2 & H3 & H4). exists r, st', l. split_and!; try done.
  rewrite H3. cbn. by rewrite <- !app_assoc.
Qed.

Lemma sim_ext m m' f f' pre st :
  m st = m' st -> f (erase st) = f' (erase st) -> sim m' f' pre st -> sim m f pre st.
Proof. intros Em Ef (r & st' & l & H). exists r, st', l. by rewrite Em, Ef. Qed.

Lemma sim_ret v f st : wf st -> f (erase st) = (Normal v, erase st) -> sim (mret v) f [] st.
Proof. intros W E. exists (Normal v), st, []. split_and!; try done. by rewrite app_nil_r. Qed.

Lemma sim_throw e f st : wf st -> f (erase st) = (Abrupt e, erase st) -> sim (throw e) f [] st.
Proof. intros W E. exists (Abrupt e), st, []. split_and!; try done. by rewrite app_nil_r. Qed.

Lemma members_broker st b x :
  broker_objs st !! b = Some x -> members_of (RBroker b) st = Some (Normal (b_own x), st).
Proof. intros H. cbn [members_of]. run_lib. by rewrite H. Qed.

Lemma members_client st c x :
  client_objs st !! c = Some x -> members_of (RClient c) st = Some (Normal (c_own x), st).
Proof. intros H. cbn [members_of]. run_lib. by rewrite H. Qed.

Lemma sim_call this name args run f st :
  wf st -> this = RLib \/ ref_ok (length (broker_objs st)) (length (client_objs st)) this ->
  name ∈ methods (cls_of this) ->
  sim run f [] (add_lines st [call_line (cls_of this) name args]) ->
  sim (call_method this name args run) f [call_line (cls_of this) name args] st.
Proof.
  intros W Hr Hn H.
  assert (M : members_of this st = Some (Normal (logged (cls_of this)), st)).
  { destruct W as [Wl _ Wb Wc]. destruct this as [|b|c].
    - unfold members_of. run_lib. by rewrite Wl.
    - destruct Hr as [|Hr]; [done|]. apply lookup_lt_is_Some_2 in Hr as [x Hx].
      by rewrite (members_broker _ _ _ Hx), (proj1 (Forall_lookup_1 _ _ _ _ Wb Hx)).
    - destruct Hr as [|Hr]; [done|]. apply lookup_lt_is_Some_2 in Hr as [x Hx].
      by rewrite (members_client _ _ _ Hx), (proj1 (Forall_lookup_1 _ _ _ _ Wc Hx)). }
  eapply sim_ext; [|reflexivity|eapply sim_line; exact H].
  by rewrite (call_logged _ _ _ _ _ _ M eq_refl Hn).
Qed.

(** The request of a method, and the promise it returns. *)
Lemma sim_request this s what j st f :
  wf st -> ref_ok (length (broker_objs st)) (length (client_objs st)) this -> (s < length (websockets st))%nat ->
  f (erase st) = promised (request (erase st) s j) (erase st) ->
  sim (p ← run_request this s what j; mret (VPromise p)) f [] st.
Proof.
  intros W Hr Hs Hf. destruct (run_request_simulates this s what j st W Hr Hs) as (p & st' & l & E & W' & Ec & Es).
  exists (Normal (VPromise p)), st', l. unfold mbind, eff_bind. rewrite E, Hf, Es. by split_and!.
Qed.

Lemma sim_new_client args brk name st f :
  wf st -> (forall st0, f st0 = let '(c, st1) := new_client st0 brk name in (Normal (VClient c), st1)) ->
  sim (c ← new_LHCBClient args brk name; mret (VClient c)) f [] st.
Proof.
  intros W Hf. destruct (new_LHCBClient_simulates args brk name st W) as (c & st' & l & E & W' & Ec & Es).
  exists (Normal (VClient c)), st', l. unfold mbind, eff_bind. rewrite E, Hf, Es. by split_and!.
Qed.

Lemma erased_broker st b : brokers (erase st) !! b = option_map erase_broker (broker_objs st !! b).
Proof. apply lookup_map. Qed.

Lemma erased_client st c : clients (erase st) !! c = option_map erase_client (client_objs st !! c).
Proof. apply lookup_map. Qed.

Lemma sim_broker_method st b x k f :
  wf st -> broker_objs st !! b = Some x -> ordinary (OBroker b k) = true ->
  (forall st0, f st0 = source_broker b k st0) -> sim (broker_method b k) f [] st.
Proof.
  intros W Hx Ho Hf. pose proof (lookup_lt_Some _ _ _ Hx) as Hlt.
  destruct (Forall_lookup_1 _ _ _ _ (wf_brokers _ W) Hx) as (_ & _ & Hws).
  assert (E := erased_broker st b). rewrite Hx in E. cbn [option_map] in E.
  assert (N : forall m, (y ← nth_of broker_objs b; m y) st = (m x : lib_eff value) st).
  { intros m. run_lib. by rewrite Hx. }
  destruct k as [|name|cl fn args|name|]; [..|done]; cbn [broker_method].
  - eapply sim_ext; [apply (N (fun y => mret (VBool (bo_ready y))))|apply Hf|].
    apply sim_ret; [done|]. unfold source_broker, broker_isReady. by rewrite E.
  - eapply sim_ext; [apply N|apply Hf|]. apply sim_request; try done.
    unfold source_broker, broker_read. rewrite E. reflexivity.
  - eapply sim_ext; [apply N|apply Hf|]. apply sim_request; try done.
    unfold source_broker, broker_execute. rewrite E. reflexivity.
  - eapply sim_ext; [reflexivity|apply Hf|].
    eapply sim_ext; [reflexivity| |apply (sim_new_client _ _ _ _ (fun st0 =>
      let '(c, st1) := new_client st0 (Some b) name in (Normal (VClient c), st1)) W); done].
    unfold source_broker. by rewrite E.
Qed.

Lemma broker_call_is_method k : ordinary (OBroker 0 k) = true -> broker_call_name k ∈ methods LHCBBroker.
Proof. by destruct k; intros; cbn; set_solver. Qed.

Lemma sim_call_broker st b x k f :
  wf st -> broker_objs st !! b = Some x -> ordinary (OBroker b k) = true ->
  (forall st0, f st0 = source_broker b k st0) ->
  sim (call_broker b k) f [call_line LHCBBroker (broker_call_name k) (broker_call_args k)] st.
Proof.
  intros W Hx Ho Hf. apply (sim_call (RBroker b)); [done| |by apply broker_call_is_method|].
  - right. by eapply lookup_lt_Some.
  - eapply sim_broker_method; [by apply wf_lines|exact Hx|done|done].
Qed.

(** A call of an object that does not exist. *)
Lemma call_missing_broker st b name args run :
  broker_objs st !! b = None -> call_method (RBroker b) name args run st = Some (Abrupt TypeError, st).
Proof. intros H. unfold call_method. cbn [members_of]. run_lib. by rewrite H. Qed.

Lemma call_missing_client st c name args run :
  client_objs st !! c = None -> call_method (RClient c) name args run st = Some (Abrupt TypeError, st).
Proof. intros H. unfold call_method. cbn [members_of]. run_lib. by rewrite H. Qed.

(** ** Clients *)

Lemma sim_more m f pre st ln : sim m f pre (add_lines st [ln]) -> sim (fun st => m (add_lines st [ln])) f [] st.
Proof.
  intros H. destruct (sim_line _ _ _ _ _ H) as (r & st' & l & H1 & H2 & H3 & H4).
  exists r, st', ((ln :: pre) ++ l). by split_and!.
Qed.

(** A line of the client's own logger comes first. *)
Lemma sim_log c msg args m f pre st :
  wf st -> (c < length (client_objs st))%nat ->
  sim m f pre (add_lines st [logger_line "LHCBClient" LogD msg args]) ->
  sim (log_d (RClient c) msg args ;; m) f [] st.
Proof.
  intros W Hc H. eapply sim_ext; [|reflexivity|apply (sim_more _ _ _ _ _ H)].
  unfold mbind, eff_bind. by rewrite (log_named _ _ _ _ _ (wf_named _ (RClient c) W Hc)).
Qed.

(** The requests of a client, [k] through its broker. *)
Lemma sim_client_request st c x what msg1 msg2 j k f (g : store -> nat -> option (nat * store)) :
  wf st -> client_objs st !! c = Some x -> ordinary (OBroker 0 k) = true ->
  (forall st0 b y, brokers st0 !! b = Some y -> promised (g st0 b) st0 = source_broker b k st0) ->
  (forall st0 b, brokers st0 !! b = None -> g st0 b = None) ->
  f (erase st) = promised (y ← clients (erase st) !! c;
    match c_localWs y with
    | Some s => if is_open (erase st) s then request (erase st) s j
                else b ← c_broker y; g (erase st) b
    | None => b ← c_broker y; g (erase st) b
    end) (erase st) ->
  sim (l ← local_open x;
       match l with
       | Some s => log_d (RClient c) msg1 [] ;; p ← run_request (RClient c) s what j; mret (VPromise p)
       | None => log_d (RClient c) msg2 [] ;; via_broker x k
       end) f [] st.
Proof.
  intros W Hx Ho Hg Hg0 Hf. pose proof (lookup_lt_Some _ _ _ Hx) as Hlt.
  destruct (Forall_lookup_1 _ _ _ _ (wf_clients _ W) Hx) as (_ & _ & Hws).
  rewrite erased_client, Hx in Hf. cbn [option_map mbind option_bind erase_client c_localWs c_broker] in Hf.
  assert (B : f (erase st) = promised (b ← co_broker x; g (erase st) b) (erase st) ->
              sim (log_d (RClient c) msg2 [] ;; via_broker x k) f [] st).
  { intros Hf'. unfold via_broker. destruct (co_broker x) as [b|].
    - cbn [mbind option_bind] in Hf'. destruct (broker_objs st !! b) as [y|] eqn:Hy.
      + eapply sim_ext; [reflexivity| |eapply (sim_log _ _ _ _ (source_broker b k) _ _ W Hlt)].
        * rewrite Hf'. apply (Hg _ _ (erase_broker y)). by rewrite erased_broker, Hy.
        * eapply sim_call_broker; [by apply wf_lines|exact Hy| |done]. by destruct k.
      + eapply (sim_log _ _ _ _ _ [] _ W Hlt). eapply sim_ext; [|reflexivity|apply sim_throw].
        * by apply (call_missing_broker (add_lines st _)).
        * by apply wf_lines.
        * rewrite erase_lines, Hf', Hg0; [done|]. by rewrite erased_broker, Hy.
    - eapply (sim_log _ _ _ _ _ [] _ W Hlt). apply sim_throw; [by apply wf_lines|].
      by rewrite erase_lines, Hf'. }
  destruct (co_localWs x) as [s|] eqn:Hl.
  2: { eapply sim_ext; [|reflexivity|by apply B]. unfold local_open. rewrite Hl. reflexivity. }
  destruct (lookup_lt_is_Some_2 _ _ (Hws s eq_refl)) as [w Hw].
  assert (Hopen : is_open (erase st) s = bool_decide (ws_readyState w = OPEN)).
  { unfold is_open. erased. by rewrite lookup_map, Hw. }
  rewrite Hopen in Hf.
  assert (L : local_open x st = Some (Normal (if decide (ws_readyState w = OPEN) then Some s else None), st)).
  { unfold local_open. rewrite Hl. run_lib. by rewrite Hw. }
  case_decide as Hr.
  - rewrite bool_decide_eq_true_2 in Hf by done.
    eapply (sim_ext _ (log_d (RClient c) msg1 [] ;;
                       p ← run_request (RClient c) s what j; mret (VPromise p)) f f); [|done|].
    { unfold mbind at 1, eff_bind at 1. by rewrite L. }
    eapply (sim_log c msg1 [] _ f [] st W Hlt).
    apply sim_request; [by apply wf_lines|done|by apply (Hws s)|by rewrite erase_lines].
  - rewrite bool_decide_eq_false_2 in Hf by done.
    eapply sim_ext; [|reflexivity|by apply B]. unfold mbind at 1, eff_bind at 1. by rewrite L.
Qed.

Lemma sim_client_method st c x k f :
  wf st -> client_objs st !! c = Some x -> ordinary (OClient c k) = true ->
  (forall st0, f st0 = source_client c k st0) -> sim (client_method c k) f [] st.
Proof.
  intros W Hx Ho Hf.
  assert (E := erased_client st c). rewrite Hx in E. cbn [option_map] in E.
  eapply sim_ext; [unfold client_method; run_lib; rewrite Hx; reflexivity|apply Hf|].
  change (fun s : cstore => ?g s) with g.
  destruct k as [| |fn args| | |]; [..|done].
  - apply sim_ret; [done|]. unfold source_client, client_isReady. by rewrite E.
  - eapply (sim_client_request _ _ _ _ _ _ _ _ _ (fun st0 b => broker_read st0 b (co_name x)) W Hx).
    + done.
    + intros st0 b y Hy. unfold source_broker. by rewrite Hy.
    + intros st0 b Hy. unfold broker_read. by rewrite Hy.
    + unfold source_client, client_read. rewrite E. reflexivity.
  - eapply (sim_client_request _ _ _ _ _ _ _ _ _ (fun st0 b => broker_execute st0 b (co_name x) fn args) W Hx).
    + done.
    + intros st0 b y Hy. unfold source_broker. by rewrite Hy.
    + intros st0 b Hy. unfold broker_execute. by rewrite Hy.
    + unfold source_client, client_execute. rewrite E. reflexivity.
  - apply sim_ret; [done|]. unfold source_client. by rewrite E.
  - apply sim_ret; [done|]. unfold source_client. by rewrite E.
Qed.

(** * Events *)

(** An event handler, which leaves the source's state behind. *)
Definition sim_unit (m : lib_eff unit) (g : store -> store) (st : cstore) : Prop :=
  exists st' l, m st = Some (Normal tt, st') /\ wf st' /\ console st' = console st ++ l /\
    g (erase st) = erase st'.

Lemma sim_event m g st :
  sim_unit m g st -> sim (m ;; mret VUndef) (fun s => (Normal VUndef, g s)) [] st.
Proof.
  intros (st' & l & E & W & Ec & Es). exists (Normal VUndef), st', l.
  unfold mbind, eff_bind. rewrite E, Es. by split_and!.
Qed.

Lemma sim_unit_same m g st : wf st -> m st = Some (Normal tt, st) -> g (erase st) = erase st -> sim_unit m g st.
Proof. intros W E Eg. exists st, []. split_and!; try done. by rewrite app_nil_r. Qed.

Lemma erased_socket st s : sockets (erase st) !! s = option_map erase_socket (websockets st !! s).
Proof. apply lookup_map. Qed.

Lemma closes_simulates s st : wf st -> sim_unit (closes s) (fun st0 => socket_closes st0 s) st.
Proof.
  intros W. assert (E := erased_socket st s). destruct (websockets st !! s) as [x|] eqn:Hx.
  - destruct st as [lb ws bs cs ps m con]. cbn [websockets] in Hx.
    eexists _, []. unfold closes. run_lib. rewrite (alter_is_insert _ _ _ _ Hx).
    split; [done|]. split_and!; [|by rewrite app_nil_r|].
    + eapply wf_socket; [exact W|]. exact (Forall_lookup_1 _ _ _ _ (wf_sockets _ W) Hx).
    + unfold socket_closes. rewrite E. cbn [option_map]. unfold set_socket. erased. by rewrite map_insert.
  - apply sim_unit_same; [done| |unfold socket_closes; by rewrite E].
    unfold closes. run_lib. destruct st as [lb ws bs cs ps m con]. cbn in Hx |- *.
    by rewrite alter_beyond.
Qed.

Lemma opens_simulates s st : wf st -> sim_unit (opens s) (fun st0 => socket_opens st0 s) st.
Proof.
  intros W. assert (E := erased_socket st s). destruct (websockets st !! s) as [x|] eqn:Hx.
  2: { apply sim_unit_same; [done| |unfold socket_opens; by rewrite E].
       unfold opens, dispatch. run_lib. by rewrite Hx. }
  assert (Hlt := lookup_lt_Some _ _ _ Hx).
  pose proof (Forall_lookup_1 _ _ _ _ (wf_sockets _ W) Hx) as Hok. pose proof Hok as [_ Hopen].
  unfold sim_unit, socket_opens. rewrite E. cbn [option_map erase_socket onopen url onmessage sent readyState].
  unfold opens, dispatch. destruct st as [lb ws bs cs ps m con]. cbn [websockets broker_objs client_objs] in *.
  run_lib. rewrite Hx. cbv iota beta. rewrite (alter_is_insert _ _ _ _ Hx).
  assert (Hok' : forall o, ws_onopen x = o ->
    socket_ok (length bs) (length cs) (WebSocket (ws_address x) OPEN (ws_onmessage x) o (ws_sent x)))
    by (intros o <-; exact Hok).
  destruct (ws_onopen x) as [[b|c j]|] eqn:Ho; specialize (Hok' _ eq_refl); cbn [option_map erase_open].
  - specialize (Hopen _ eq_refl). cbn in Hopen. apply lookup_lt_is_Some_2 in Hopen as [y Hy].
    unfold run_onopen. run_lib.
    rewrite (log_named _ _ _ _ "LHCBBroker") by
      (apply (wf_named (CStore lb (<[s:=_]> ws) bs cs ps m con) (RBroker b));
       [eapply wf_socket; [exact W|exact Hok']|by eapply lookup_lt_Some]).
    run_lib. rewrite (alter_is_insert _ _ _ _ Hy). eexists _, _. split; [done|].
    split; [|split; [done|]].
    + eapply (wf_broker _ _ _ _ ps m con); [eapply wf_socket; [exact W|exact Hok']|]. rewrite length_insert.
      exact (Forall_lookup_1 _ _ _ _ (wf_brokers _ W) Hy).
    + erased. rewrite lookup_map, Hy. unfold set_socket. cbn [option_map erase_broker b_ws].
      erased. by rewrite !map_insert.
  - specialize (Hopen _ eq_refl). cbn in Hopen. unfold run_onopen. run_lib.
    rewrite (log_named _ _ _ _ "LHCBClient") by
      (apply (wf_named (CStore lb (<[s:=_]> ws) bs cs ps m con) (RClient c)); [eapply wf_socket; [exact W|exact Hok']|done]).
    rewrite (log_named _ _ _ _ "LHCBClient") by
      (apply (wf_named (add_lines (CStore lb (<[s:=_]> ws) bs cs ps m con) _) (RClient c));
       [apply wf_lines; eapply wf_socket; [exact W|exact Hok']|done]).
    unfold send. run_lib. rewrite list_lookup_insert_eq by done. cbn [ws_readyState]. run_lib.
    rewrite (alter_is_insert _ _ _ _ (list_lookup_insert_eq _ _ _ Hlt)), list_insert_insert_eq.
    cbn [ws_address ws_readyState ws_onmessage ws_onopen ws_sent].
    eexists _, _. split; [done|]. split; [|split; [by rewrite <- app_assoc|]].
    + eapply wf_socket; [exact W|exact Hok'].
    + unfold set_socket. erased. rewrite map_insert. unfold erase_socket at 2. cbn. done.
  - run_lib. eexists _, []. split; [done|]. split_and!; [eapply wf_socket; [exact W|exact Hok']|by rewrite app_nil_r|].
    unfold set_socket. erased. rewrite map_insert. unfold erase_socket at 2. cbn. done.
Qed.

Lemma message_simulates s msg st : wf st -> sim_unit (message s msg) (fun st0 => socket_message st0 s msg) st.
Proof.
  intros W. assert (E := erased_socket st s). unfold message, dispatch.
  destruct (websockets st !! s) as [x|] eqn:Hx.
  2: { apply sim_unit_same; [done| |unfold socket_message; by rewrite E]. run_lib. by rewrite Hx. }
  destruct (Forall_lookup_1 _ _ _ _ (wf_sockets _ W) Hx) as [Hm _].
  unfold sim_unit, socket_message. rewrite E. cbn [option_map erase_socket onmessage].
  run_lib. rewrite Hx. cbv iota beta.
  destruct (ws_onmessage x) as [h|]; cbn [option_map].
  2: { eexists _, []. run_lib. split; [done|]. rewrite app_nil_r. split_and!; [done..|]. by destruct msg. }
  specialize (Hm h eq_refl). destruct msg as [r|]; cbn [run_onmessage].
  2: { eexists _, []. run_lib. split; [done|]. by rewrite app_nil_r. }
  destruct h as [this j p|c j]; cbn [erase_message message_ok] in *.
  - run_lib. rewrite (log_named _ _ _ _ _ (wf_named _ _ W Hm)). unfold settle_with, settle_promise.
    destruct st as [lb ws bs cs ps m con]. run_lib. erased.
    destruct (ps !! p) as [[]|]; run_lib.
    all: eexists _, _; split; [done|]; split_and!; [by eapply wf_same|done|done].
  - unfold broker_info. apply lookup_lt_is_Some_2 in Hm as [y Hy].
    rewrite erased_client, Hy. cbn [option_map].
    run_lib. rewrite (log_named _ _ _ _ _ (wf_named _ (RClient c) W (lookup_lt_Some _ _ _ Hy))).
    destruct (strict_eq (r_type r) (JStr "response")).
    2: { eexists _, _. split; [done|]. split_and!; [by apply wf_lines|done|done]. }
    destruct (r_value r) as [[[name host] port]|].
    2: { eexists _, _. split; [done|]. split_and!; [by apply wf_lines|done|done]. }
    destruct st as [lb ws bs cs ps m con]. cbn [websockets broker_objs client_objs] in *.
    assert (Hlt := lookup_lt_Some _ _ _ Hy).
    run_lib. rewrite (alter_is_insert _ _ _ _ Hy), new_LHCBBroker_spec. unfold new_broker.
    destruct (ws_accepts _); run_lib.
    2: { eexists _, _. split; [done|]. split; [|split; [by rewrite <- app_assoc|]].
         - eapply wf_client; [exact W|]. exact (Forall_lookup_1 _ _ _ _ (wf_clients _ W) Hy).
         - unfold set_client. erased. by rewrite map_insert. }
    rewrite (alter_is_insert _ _ _ _ (list_lookup_insert_eq _ _ _ Hlt)), list_insert_insert_eq.
    rewrite (alter_is_insert _ _ _ _ (list_lookup_insert_eq _ _ _ Hlt)), list_insert_insert_eq.
    cbn [c_own c_l co_ready co_broker co_name co_localWs].
    eexists _, _. split; [done|]. split; [|split; [by rewrite <- app_assoc|]].
    + pose proof (new_LHCBBroker_wf host port lb ws bs cs ps m con W) as W'.
      eapply wf_client; [exact W'|]. apply (client_ok_mono (length ws)); [rewrite length_app; lia|].
      exact (Forall_lookup_1 _ _ _ _ (wf_clients _ W) Hy).
    + unfold set_client. erased. by rewrite !map_app, !map_insert, !length_map.
Qed.

(** * Runs *)

(** The line of the wrapper of a call. *)
Definition op_lines (o : op) (st : cstore) : list line :=
  match o with
  | OLib k => [call_line LHCB (lib_call_name k) (lib_call_args k)]
  | OBroker b k =>
      if broker_objs st !! b then [call_line LHCBBroker (broker_call_name k) (broker_call_args k)] else []
  | OClient c k =>
      if client_objs st !! c then [call_line LHCBClient (client_call_name k) (client_call_args k)] else []
  | _ => []
  end.

Lemma sim_lib_method k st :
  wf st -> ordinary (OLib k) = true -> sim (lib_method k) (source_step (OLib k)) [] st.
Proof.
  intros W Ho. destruct k as [host port| |]; [..|done]; cbn [lib_method].
  - destruct (new_LHCBBroker_simulates host port st W) as (r & st' & l & E & W' & Ec & Es).
    unfold sim, mbind, eff_bind. rewrite E.
    destruct (new_broker _ _ _) as [[b s']|] eqn:En; destruct Es as [-> Es]; eexists _, st', l;
      (split; [done|]; split_and!; [done|done|]); cbn [source_step]; unfold getBroker; rewrite En; by rewrite Es.
  - by apply sim_new_client.
Qed.

Lemma step_simulates o st :
  wf st -> ordinary o = true -> sim (compiled_step o) (source_step o) (op_lines o st) st.
Proof.
  intros W Ho. destruct o as [k|b k|c k|s|s|s m]; cbn [compiled_step op_lines].
  - apply (sim_call RLib); [done|by left| |].
    + destruct k; [cbn; set_solver..|done].
    + apply sim_lib_method; [by apply wf_lines|done].
  - destruct (broker_objs st !! b) as [x|] eqn:Hx.
    + by eapply sim_call_broker.
    + eapply (sim_ext _ (throw TypeError)); [by apply call_missing_broker|reflexivity|].
      apply sim_throw; [done|]. cbn [source_step]. unfold source_broker. by rewrite erased_broker, Hx.
  - destruct (client_objs st !! c) as [x|] eqn:Hx.
    + apply (sim_call (RClient c)); [done|right; by eapply lookup_lt_Some| |].
      * destruct k; [cbn; set_solver..|done].
      * eapply sim_client_method; [by apply wf_lines|exact Hx|done|done].
    + eapply (sim_ext _ (throw TypeError)); [by apply call_missing_client|reflexivity|].
      apply sim_throw; [done|]. cbn [source_step]. unfold source_client. by rewrite erased_client, Hx.
  - apply (sim_event _ (fun st0 => socket_opens st0 s)), opens_simulates, W.
  - apply (sim_event _ (fun st0 => socket_closes st0 s)), closes_simulates, W.
  - apply (sim_event _ (fun st0 => socket_message st0 s m)), message_simulates, W.
Qed.

(** The state the script leaves. *)
Definition loaded_state : cstore :=
  CStore (LibObj (logged LHCB) "LHCB") [] [] [] [] 0
    [logger_line "LHCB" LogD "Creating new LHCB Lib from:" [SArgs []]].

Lemma loaded_is : loaded = Some loaded_state.
Proof. vm_compute. reflexivity. Qed.

Lemma wf_loaded : wf loaded_state.
Proof. split; cbn; [done|constructor..]. Qed.

Lemma run_simulates os st :
  wf st -> forallb ordinary os = true ->
  exists rs st', compiled_run os st = Some (rs, st') /\ wf st' /\ source_run os (erase st) = (rs, erase st').
Proof.
  revert st. induction os as [|o os IH]; intros st W; cbn [forallb compiled_run source_run].
  { intros _. by exists [], st. }
  intros [Ho Hos]%andb_prop. destruct (step_simulates o st W Ho) as (r & st1 & l & E & W1 & _ & Es).
  destruct (IH st1 W1 Hos) as (rs & st2 & E2 & W2 & Es2).
  exists (r :: rs), st2. by rewrite E, E2, Es, Es2.
Qed.

(** C21. The compiled library refines the source: whatever a page calls and whatever the
    sockets do, the constructors the objects carry apart, every call of the compiled
    library returns or throws what the one of the source does, and the sockets, brokers,
    clients and promises stay the same. *)
Theorem compiled_refines_source os :
  forallb ordinary os = true ->
  exists st0 rs st', loaded = Some st0 /\ compiled_run os st0 = Some (rs, st') /\
    source_run os empty_store = (rs, erase st').
Proof.
  intros Hos. destruct (run_simulates os loaded_state wf_loaded Hos) as (rs & st' & E & _ & Es).
  exists loaded_state, rs, st'. by rewrite loaded_is, E.
Qed.

(** Every call of a method prints one line before everything else: the class, the
    method and the arguments; after any calls and events, those of the constructors an
    object carries apart. *)
Theorem call_prints_first os o st0 rs st :
  forallb ordinary os = true -> ordinary o = true ->
  loaded = Some st0 -> compiled_run os st0 = Some (rs, st) ->
  exists r st' l, compiled_step o st = Some (r, st') /\ console st' = console st ++ op_lines o st ++ l.
Proof.
  intros Hos Ho E0 E. rewrite loaded_is in E0. injection E0 as <-.
  destruct (run_simulates os loaded_state wf_loaded Hos) as (rs' & st1 & E' & W & _).
  rewrite E in E'. injection E' as <- <-.
  destruct (step_simulates o st W Ho) as (r & st' & l & H1 & _ & H2 & _). by exists r, st', l.
Qed.

(** * The constructor an object carries *)






End props.

(** * Concrete runs *)

#[local] Existing Instance plain_addresses.

Lemma compiled_refines_source_witness :
  exists st0 rs st', loaded = Some st0 /\
    compiled_run [OLib (L_getBroker (JStr "h") (JStr "8443")); OBroker 0 (B_getRemoteClient (JStr "bob"));
                  OOpens 0; OClient 0 C_read; OLib L_getLocalClient; OClient 1 C_read; OLib (L_getBroker Undef Undef)] st0 = Some (rs, st') /\
    rs = [Normal (VBroker 0); Normal (VClient 0); Normal VUndef; Normal (VPromise 0);
          Normal (VClient 1); Abrupt TypeError; Abrupt (Thrown (JStr "SyntaxError"))].
Proof.
  destruct (compiled_refines_source
    [OLib (L_getBroker (JStr "h") (JStr "8443")); OBroker 0 (B_getRemoteClient (JStr "bob"));
     OOpens 0; OClient 0 C_read; OLib L_getLocalClient; OClient 1 C_read; OLib (L_getBroker Undef Undef)] eq_refl)
    as (st0 & rs & st' & E0 & E & Es).
  exists st0, rs, st'. split; [done|]. split; [done|].
  vm_compute in Es. injection Es as <- _. reflexivity.
Defined.

Definition demo_ops : list op := [OLib (L_getBroker (JStr "h") (JStr "8443")); OOpens 0].

Definition demo_state : cstore :=
  match compiled_run demo_ops loaded_state with Some (_, st) => st | None => loaded_state end.

Lemma demo_run : compiled_run demo_ops loaded_state = Some ([Normal (VBroker 0); Normal VUndef], demo_state).
Proof. vm_compute. reflexivity. Qed.

Lemma call_prints_first_witness :
  exists r st' l, compiled_step (OBroker 0 (B_read (JStr "bob"))) demo_state = Some (r, st') /\
    console st' = console demo_state ++ [call_line LHCBBroker "read" [SVal (JStr "bob")]] ++ l.
Proof.
  exact (call_prints_first demo_ops (OBroker 0 (B_read (JStr "bob"))) loaded_state _ demo_state
           eq_refl eq_refl loaded_is demo_run).
Defined.


(** * The name of the library *)

(** [window.LHCB] is the library whichever script is loaded; the name [LHCB] alone is the
    library in a page of the compiled script, and the class, which has no [getBroker], in
    a page of the source. *)
Theorem library_name g :
  obj_get "LHCB" (window (load_source g)) = Some GLibrary /\
  obj_get "LHCB" (window (load_compiled g)) = Some GLibrary /\
  resolve_name (load_source g) "LHCB" = Some (GClass "LHCB") /\
  (obj_get "LHCB" (declared g) = None -> resolve_name (load_compiled g) "LHCB" = Some GLibrary).
Proof.
  unfold resolve_name, load_source, load_compiled. cbn [declared window foldl].
  rewrite !obj_get_set. split; [done|]. split; [done|]. split; [|by intros ->].
  rewrite !(obj_get_set_ne _ "LHCB") by done. by rewrite obj_get_set.
Qed.
