(* ===== verification/Signalling.v ===== *)
(** The signalling server of the WebRTC example
    (src/broker/appWebRTC/appWebRTC.js): rooms of at most two sockets and the
    relay of messages inside a room.

    The room adapter of socket.io is not in the repository: it is the interface
    [Adapter], with its documented behaviour as laws; the map of rooms closes the
    file as an instance. *)
From S2P Require Import Prelude.

(** * The adapter *)

Class Adapter (A : Type) := {
  rooms : A -> string -> gset string;     (* the sockets in a room *)
  join : A -> string -> string -> A;      (* socket, room *)
  leave : A -> string -> string -> A;
  leave_all : A -> string -> A;
}.

Class AdapterLaws (A : Type) `{Adapter A} : Prop := {
  rooms_join a s r r' :
    rooms (join a s r) r' = if decide (r' = r) then {[s]} ∪ rooms a r' else rooms a r';
  rooms_leave a s r r' :
    rooms (leave a s r) r' = if decide (r' = r) then rooms a r' ∖ {[s]} else rooms a r';
  rooms_leave_all a s r : rooms (leave_all a s) r = rooms a r ∖ {[s]};
}.

(** * The handlers *)

(** Packets the server emits: to one socket, to a room, to a room but for one
    socket.  [M] is the type of the messages it relays. *)
Inductive packet (M : Type) :=
  | Created (room : string)
  | Joined (room : string)
  | Full (room : string)
  | Join (room : string)
  | Message (m : M).
Arguments Created {M} room.
Arguments Joined {M} room.
Arguments Full {M} room.
Arguments Join {M} room.
Arguments Message {M} m.

#[export] Instance packet_eq_dec `{EqDecision M} : EqDecision (packet M).
Proof. solve_decision. Defined.

Section server.
Context `{AdapterLaws A} {M : Type}.

(** What is emitted, with the sockets that receive it. *)
Definition emission : Type := gset string * packet M.

(** [connection]: the adapter puts a socket in a room named after it. *)
Definition on_connection (a : A) (id : string) : A := join a id id.

(** ['message']: relayed to the others of the room named in it. *)
Definition on_message (a : A) (id room : string) (msg : M) : A * list emission :=
(a, [(rooms a room ∖ {[id]}, Message msg)]).

(** [adapter.rooms[room]] is [undefined] for a room without sockets. *)
Definition on_create_or_join (a : A) (id room : string) : A * list emission :=
let socketroom := rooms a room in
if decide (socketroom = ∅) then
  (join a id room, [({[id]}, Created room)])
else if (size socketroom <? 2)%nat then
  (join a id room, [(socketroom, Join room); ({[id]}, Joined room)])
else (a, [({[id]}, Full room)]).

Definition on_bye (a : A) (id room : string) : A := leave a id room.

(** What a socket does. *)
Inductive action :=
| Connect (id : string)
| CreateOrJoin (id room : string)
| Send (id room : string) (msg : M)
| Bye (id room : string)
| Disconnect (id : string).

Definition serve_action (a : A) (e : action) : A * list emission :=
match e with
| Connect id => (on_connection a id, [])
| CreateOrJoin id room => on_create_or_join a id room
| Send id room msg => on_message a id room msg
| Bye id room => (on_bye a id room, [])
| Disconnect id => (leave_all a id, [])
end.

(** A step of the server: socket ids are fresh, nobody is in a room of that name. *)
Inductive server_step : A -> A -> Prop :=
| server_step_intro a e :
    match e with Connect id => rooms a id = ∅ | _ => True end ->
    server_step a (serve_action a e).1.

(** * Capacity *)

Definition at_most_two (a : A) : Prop := forall r, (size (rooms a r) <= 2)%nat.

Lemma size_add (x : string) (X : gset string) : (size ({[x]} ∪ X) <= S (size X))%nat.
Proof.
pose proof (size_union_alt {[x]} X) as E. rewrite size_singleton in E.
pose proof (subseteq_size (X ∖ {[x]}) X ltac:(set_solver)). lia.
Qed.

Lemma size_remove (x : string) (X : gset string) : (size (X ∖ {[x]}) <= size X)%nat.
Proof. apply subseteq_size. set_solver. Qed.

Lemma join_capacity a id r :
at_most_two a -> (size (rooms a r) < 2)%nat -> at_most_two (join a id r).
Proof.
intros Ha Hr r'. rewrite rooms_join. case_decide as E; [subst|done].
pose proof (size_add id (rooms a r)). lia.
Qed.

Lemma server_step_capacity a a' : server_step a a' -> at_most_two a -> at_most_two a'.
Proof.
intros Hs Ha. destruct Hs as [a e Hok]. destruct e as [id|id r|id r m|id r|id]; cbn.
- apply join_capacity; [done|]. rewrite Hok, size_empty. lia.
- unfold on_create_or_join. destruct (decide (rooms a r = ∅)) as [E|E].
  + apply join_capacity; [done|]. rewrite E, size_empty. lia.
  + destruct (Nat.ltb_spec (size (rooms a r)) 2); [by apply join_capacity|done].
- done.
- intros r'. unfold on_bye. rewrite rooms_leave. case_decide as E; [|apply Ha].
  pose proof (size_remove id (rooms a r')). specialize (Ha r'). lia.
- intros r'. rewrite rooms_leave_all. pose proof (size_remove id (rooms a r')).
  specialize (Ha r'). lia.
Qed.
End server.
Arguments action M : clear implicits.
Arguments server_step A {_} M.

(** * An instance *)

Abbreviation room_map := (gmap string (gset string)).

#[export] Instance MapAdapter : Adapter room_map := {
  rooms a r := default ∅ (a !! r);
  join a s r := <[r := {[s]} ∪ default ∅ (a !! r)]> a;
  leave a s r := <[r := default ∅ (a !! r) ∖ {[s]}]> a;
  leave_all a s := (fun X : gset string => X ∖ {[s]}) <$> a;
}.

#[export] Instance MapAdapter_laws : AdapterLaws room_map.
Proof.
  split; [intros a s r r'|intros a s r r'|intros a s r];
    unfold rooms, join, leave, leave_all, MapAdapter.
  - case_decide as E; [subst r'; by rewrite lookup_insert_eq|by rewrite lookup_insert_ne].
  - case_decide as E; [subst r'; by rewrite lookup_insert_eq|by rewrite lookup_insert_ne].
  - rewrite lookup_fmap. destruct (a !! r); cbn; set_solver.
Qed.

(** C24. A room never holds more than two sockets: whatever the sockets do, in any
    order, starting with no socket. *)
Theorem room_capacity `{AdapterLaws A} {M : Type} (a0 a : A) :
  (forall r, rooms a0 r = ∅) -> rtc (server_step A M) a0 a ->
  forall r, (size (rooms a r) <= 2)%nat.
Proof.
  intros He Hr. assert (Hc : at_most_two a0) by (intros r; rewrite He, size_empty; lia).
  clear He. induction Hr as [|a1 a2 a3 Hs _ IH]; [exact Hc|].
  apply IH. by eapply server_step_capacity.
Qed.

Lemma room_capacity_witness :
  exists a : room_map, rtc (server_step room_map string) ∅ a /\
    rooms a "r" = {["s1"]} ∪ ∅ /\ (size (rooms a "r") <= 2)%nat.
Proof.
  assert (R : rtc (server_step room_map string) ∅
    (serve_action (M := string) (∅ : room_map) (CreateOrJoin "s1" "r")).1).
  { apply rtc_once. by apply (server_step_intro (∅ : room_map) (CreateOrJoin "s1" "r")). }
  eexists. split; [exact R|]. split; [by apply (bool_decide_unpack _); vm_compute|].
  exact (room_capacity (M := string) (∅ : room_map) _
    (fun r => eq_trans (f_equal (default ∅) (lookup_empty r)) eq_refl) R "r").
Defined.

(** Joining.  The first socket of a room is told it created it; a second one
    is announced to the first, admitted and told so; with two sockets in the room
    the request changes nothing and is refused. *)
Theorem create_or_join_outcome `{AdapterLaws A} {M : Type} (a : A) id room :
  id ∉ rooms a room ->
  let '(a', out) := on_create_or_join (M := M) a id room in
  match size (rooms a room) with
  | 0%nat => rooms a' room = {[id]} /\ out = [({[id]}, Created room)]
  | 1%nat => size (rooms a' room) = 2%nat /\ id ∈ rooms a' room /\
             out = [(rooms a room, Join room); ({[id]}, Joined room)]
  | _ => a' = a /\ out = [({[id]}, Full room)]
  end /\
  forall r, r <> room -> rooms a' r = rooms a r.
Proof.
  intros Hid. unfold on_create_or_join.
  destruct (decide (rooms a room = ∅)) as [E|E].
  - rewrite E, size_empty. split; [split; [|done]|].
    + rewrite rooms_join, decide_True, E by done. set_solver.
    + intros r Hr. by rewrite rooms_join, decide_False.
  - assert (size (rooms a room) <> 0%nat) as Hz by (intros Hz; by apply E, leibniz_equiv, size_empty_iff).
    destruct (Nat.ltb_spec (size (rooms a room)) 2).
    + assert (size (rooms a room) = 1%nat) as E1 by lia. rewrite E1. split; [split_and!|].
      * rewrite rooms_join, decide_True, size_union, size_singleton, E1 by set_solver. done.
      * rewrite rooms_join, decide_True by done. set_solver.
      * done.
      * intros r Hr. by rewrite rooms_join, decide_False.
    + destruct (size (rooms a room)) as [|[|n]]; [lia|lia|]. done.
Qed.

Lemma create_or_join_outcome_witness :
  let a : room_map := {["r" := {["s1"]}]} in
  (on_create_or_join (M := string) a "s2" "r").2
    = [({["s1"]}, Join "r"); ({["s2"]}, Joined "r")].
Proof.
  pose proof (create_or_join_outcome (M := string) ({["r" := {["s1"]}]} : room_map) "s2" "r"
    ltac:(by apply (bool_decide_unpack _); vm_compute)) as T.
  destruct (on_create_or_join _ _ _) as [a' out].
  change (size (rooms ({["r" := {["s1"]}]} : room_map) "r")) with 1%nat in T.
  destruct T as [(_ & _ & ->) _]. by vm_compute.
Defined.
