(* ===== verification/RtcClient.v ===== *)
(** The page of the WebRTC example (src/broker/appWebRTC/public/js/main.js): the
    global variables of the page as a state, one operation per function and per
    event handler.

    A function may throw in the middle: [script] carries the state and the
    effects produced so far, and whether an exception stopped the rest.  The
    browser's objects are numbered; whether it can create a peer connection is an
    argument. *)
From S2P Require Import Prelude.

(** * Messages and effects *)

(** Messages the peers exchange through the signalling server. *)
Inductive message :=
  | GotUserMedia
  | ByeMsg
  | Description (offer : bool) (sdp : string)    (* type 'offer' or 'answer' *)
  | Candidate (label : Z) (id candidate : string)
  | OtherMsg (type : string).

(** The configuration the broker's TURN server gives. *)
Record turn_config := {
  urls : string; username : string; credential : string; iceTransportPolicy : string;
}.

Inductive effect :=
  | ConnectSocket
  | GetUserMedia
  | EmitCreateOrJoin (room : string)
  | EmitBye (room : string)
  | EmitMessage (m : message) (room : string)
  | NewPeerConnection (pc : nat) (cfg : option turn_config)
  | AddStream (pc : nat) (stream : nat)
  | CreateOffer (pc : nat)
  | CreateAnswer (pc : nat)
  | SetLocalDescription (pc : nat) (offer : bool) (sdp : string)
  | SetRemoteDescription (pc : nat) (offer : bool) (sdp : string)
  | AddIceCandidate (pc : nat) (label : Z) (candidate : string)
  | ClosePc (pc : nat)
  | LocalVideo (stream : nat)
  | RemoteVideo (stream : option nat)
  | Alert (text : string).

#[export] Instance message_eq_dec : EqDecision message.
Proof. solve_decision. Defined.
#[export] Instance turn_config_eq_dec : EqDecision turn_config.
Proof. solve_decision. Defined.
#[export] Instance effect_eq_dec : EqDecision effect.
Proof. solve_decision. Defined.

(** * State *)

(** [localStream] is [null] until the media are there; [isChannelReady] is
    [undefined] until a peer is in the room (both read as false); [pc] is
    [undefined] at first and [null] after a call. *)
Record page := Page {
  room : string;
  localStream : option nat;
  remoteStream : option nat;
  isChannelReady : bool;
  isInitiator : bool;
  isStarted : bool;
  pc : option nat;
  next_pc : nat;           (* peer connections the browser has created *)
}.

#[export] Instance page_eq_dec : EqDecision page.
Proof. solve_decision. Defined.

Definition page_init (room : string) : page := Page room None None false false false None 0.

(** * Scripts *)

Record result := Result { r_page : page; r_effects : list effect; r_thrown : bool }.

Definition script : Type := page -> result.

Definition skip : script := fun p => Result p [] false.
Definition throw : script := fun p => Result p [] true.
Definition emit (e : effect) : script := fun p => Result p [e] false.
Definition modify (f : page -> page) : script := fun p => Result (f p) [] false.
Definition ask (f : page -> script) : script := fun p => f p p.

(** Sequence: what follows an exception is not run. *)
Definition andthen (a b : script) : script := fun p =>
  let r := a p in
  if r_thrown r then r
  else let r' := b (r_page r) in
       Result (r_page r') (r_effects r ++ r_effects r') (r_thrown r').

Notation "a ;; b" := (andthen a b) (at level 100, b at level 200, right associativity) : broker_scope.

(** A method call on [pc]: an exception on [undefined] and [null]. *)
Definition on_pc (f : nat -> effect) : script :=
  ask (fun p => match pc p with Some n => emit (f n) | None => throw end).

Definition set_started (b : bool) (p : page) : page :=
  Page (room p) (localStream p) (remoteStream p) (isChannelReady p) (isInitiator p) b (pc p) (next_pc p).
Definition set_initiator (b : bool) (p : page) : page :=
  Page (room p) (localStream p) (remoteStream p) (isChannelReady p) b (isStarted p) (pc p) (next_pc p).
Definition set_ready (p : page) : page :=
  Page (room p) (localStream p) (remoteStream p) true (isInitiator p) (isStarted p) (pc p) (next_pc p).
Definition set_local (s : nat) (p : page) : page :=
  Page (room p) (Some s) (remoteStream p) (isChannelReady p) (isInitiator p) (isStarted p) (pc p) (next_pc p).
Definition set_remote (s : nat) (p : page) : page :=
  Page (room p) (localStream p) (Some s) (isChannelReady p) (isInitiator p) (isStarted p) (pc p) (next_pc p).
Definition set_pc (o : option nat) (p : page) : page :=
  Page (room p) (localStream p) (remoteStream p) (isChannelReady p) (isInitiator p) (isStarted p) o (next_pc p).
Definition made_pc (p : page) : page :=
  Page (room p) (localStream p) (remoteStream p) (isChannelReady p) (isInitiator p) (isStarted p)
    (Some (next_pc p)) (S (next_pc p)).

(** * The functions of the page *)

Definition sendMessage (m : message) : script := ask (fun p => emit (EmitMessage m (room p))).

Section browser.
(** Does [new peerConnection(...)] succeed? *)
Variable can_connect : bool.

Definition createPeerConnection (cfg : option turn_config) : script :=
if can_connect then
  ask (fun p => emit (NewPeerConnection (next_pc p) cfg)) ;; modify made_pc
else emit (Alert "Cannot create RTCPeerConnection object.").

Definition doCall : script := on_pc CreateOffer.
Definition doAnswer : script := on_pc CreateAnswer.

(** [pc.addStream(null)] throws. *)
Definition addLocalStream : script :=
ask (fun p => match pc p, localStream p with
              | Some n, Some s => emit (AddStream n s)
              | _, _ => throw
              end).

(** The test [typeof localStream != 'undefined'] holds of [null] too. *)
Definition maybeStart (cfg : option turn_config) : script :=
ask (fun p =>
  if negb (isStarted p) && isChannelReady p then
    createPeerConnection cfg ;; addLocalStream ;; modify (set_started true) ;;
    ask (fun p => if isInitiator p then doCall else skip)
  else skip).

Definition handleUserMedia (stream : nat) : script :=
emit (LocalVideo stream) ;; modify (set_local stream) ;; sendMessage GotUserMedia ;;
ask (fun p => if isInitiator p then maybeStart None else skip).

Definition handleIceCandidate (c : option (Z * string * string)) : script :=
match c with
| Some (label, id, candidate) => sendMessage (Candidate label id candidate)
| None => skip
end.

(** The handler names a variable [e] that does not exist. *)
Definition handleCreateOfferError : script := throw.
Definition createAnswerFailed : script := skip.

Definition setLocalAndSendMessage (offer : bool) (sdp : string) : script :=
on_pc (fun n => SetLocalDescription n offer sdp) ;; sendMessage (Description offer sdp).

Definition handleRemoteStreamAdded (stream : nat) : script :=
emit (RemoteVideo (Some stream)) ;; modify (set_remote stream).
Definition handleRemoteStreamRemoved : script := skip.

Definition stop : script :=
modify (set_started false) ;; on_pc ClosePc ;; modify (set_pc None).

Definition hangup : script := stop ;; sendMessage ByeMsg.

Definition handleRemoteHangup : script :=
emit (RemoteVideo None) ;; stop ;; modify (set_initiator true).

(** * startupBehavior *)

(** What runs at once. *)
Definition startupBehavior : script :=
emit ConnectSocket ;; emit GetUserMedia ;;
ask (fun p => if String.eqb (room p) "" then skip else emit (EmitCreateOrJoin (room p))).

Definition on_created : script := modify (set_initiator true).
Definition on_full : script := skip.
Definition on_join : script := modify set_ready.
Definition on_joined : script := modify set_ready.

(** The ['message'] handler; [cfg] is the configuration the page was started
  with. *)
Definition on_message (cfg : option turn_config) (m : message) : script :=
ask (fun p =>
  match m with
  | GotUserMedia => maybeStart cfg
  | Description true sdp =>
      (if negb (isInitiator p) && negb (isStarted p) then maybeStart None else skip) ;;
      on_pc (fun n => SetRemoteDescription n true sdp) ;; doAnswer
  | Description false sdp =>
      if isStarted p then on_pc (fun n => SetRemoteDescription n false sdp) else skip
  | Candidate label _ candidate =>
      if isStarted p then on_pc (fun n => AddIceCandidate n label candidate) else skip
  | ByeMsg => if isStarted p then handleRemoteHangup else skip
  | OtherMsg _ => skip
  end).

Definition onbeforeunload : script :=
ask (fun p => emit (EmitBye (room p))) ;; sendMessage ByeMsg.
End browser.

(** * The page as a state machine *)

(** Events of the page: the user, the browser and the signalling server. *)
Inductive event :=
  | Media (stream : nat)
  | MediaError
  | RoomCreated | RoomFull | PeerJoins | RoomJoined
  | Receive (m : message)
  | IceCandidate (c : option (Z * string * string))
  | DescriptionReady (offer : bool) (sdp : string)
  | OfferFailed | AnswerFailed
  | RemoteAdded (stream : nat) | RemoteRemoved
  | HangUp
  | Unload.

#[export] Instance event_eq_dec : EqDecision event.
Proof. solve_decision. Defined.

Definition react (cfg : option turn_config) (can_connect : bool) (e : event) : script :=
  match e with
  | Media s => handleUserMedia can_connect s
  | MediaError => skip
  | RoomCreated => on_created
  | RoomFull => on_full
  | PeerJoins => on_join
  | RoomJoined => on_joined
  | Receive m => on_message can_connect cfg m
  | IceCandidate c => handleIceCandidate c
  | DescriptionReady offer sdp => setLocalAndSendMessage offer sdp
  | OfferFailed => handleCreateOfferError
  | AnswerFailed => createAnswerFailed
  | RemoteAdded s => handleRemoteStreamAdded s
  | RemoteRemoved => handleRemoteStreamRemoved
  | HangUp => hangup
  | Unload => onbeforeunload
  end.

(** The TURN request at start: the configuration from the answers of the broker
    ([getAppropriateTurn], then [getCredentials]); without them the page starts
    with none. *)
Definition configuration (turn : option (string * string)) (credentials : option (string * string))
    : option (option turn_config) :=
  match turn with
  | None => Some None
  | Some (server, _) =>
      match credentials with
      | None => None
      | Some (user, pass) =>
          Some (Some {| urls := "turn:" +:+ server; username := user; credential := pass;
                        iceTransportPolicy := "relay" |})
      end
  end.

Definition page_step (cfg : option turn_config) (p : page) (ev : bool * event) : page :=
  r_page (react cfg ev.1 ev.2 p).

Definition page_run (cfg : option turn_config) (p : page) (evs : list (bool * event)) : page :=
  foldl (page_step cfg) p evs.
