(* ===== verification/RtcProps.v ===== *)
(** Properties of the WebRTC page: what a started call guarantees, and
    which connections go through the broker's TURN server. *)
From S2P Require Import Prelude RtcClient.

(** Run a script whose state is a constructor. *)
Ltac run_script :=
  repeat (progress (cbn [react handleUserMedia on_message maybeStart createPeerConnection
    addLocalStream doCall doAnswer handleIceCandidate setLocalAndSendMessage handleRemoteStreamAdded
    stop hangup handleRemoteHangup on_created on_full on_join on_joined onbeforeunload sendMessage
    on_pc emit modify ask andthen skip throw handleCreateOfferError createAnswerFailed
    handleRemoteStreamRemoved
    set_started set_initiator set_ready set_local set_remote set_pc made_pc
    room localStream remoteStream isChannelReady isInitiator isStarted pc next_pc
    r_page r_effects r_thrown negb andb app] in *)).

(** A started page has its media and the last connection it created; the page
    never keeps an older connection. *)
Definition consistent (p : page) : Prop :=
  (isStarted p = true -> is_Some (pc p) /\ is_Some (localStream p)) /\
  (forall n, pc p = Some n -> S n = next_pc p).

Lemma consistent_init room : consistent (page_init room).
Proof. by split. Qed.

(** Case analysis on the fields of the page that the scripts test. *)
Ltac split_page p :=
  destruct p as [rm [ls|] rs [] [] [] [pn|] np].

Lemma consistent_step cfg p ev : consistent p -> consistent (page_step cfg p ev).
Proof.
  destruct ev as [ok e]. unfold page_step, consistent. cbn [fst snd].
  intros [H1 H2].
  assert (H2' : match pc p with Some n => S n = next_pc p | None => True end).
  { destruct (pc p); [by apply H2|done]. }
  clear H2. destruct e as [s| | | | | |m|[[[lb id] ca]|]|[]  sdp| | |s| | |];
    try destruct m as [| |[] sdp|lb id ca|ty];
    destruct ok; split_page p; run_script;
    (split; [intros Hs; try discriminate Hs; try (destruct (H1 eq_refl) as [[? ?] [? ?]]); eauto; try done
            |intros n Hn; simplify_eq; try done; try lia]).
Qed.

Lemma consistent_run cfg p evs : consistent p -> consistent (page_run cfg p evs).
Proof.
  revert p. induction evs as [|ev evs IH]; intros p Hp; [done|].
  cbn. by apply IH, consistent_step.
Qed.

(** C25. A started call is sound.  In every state the page can reach, being
    started means that the local media are there and that the current connection
    exists and is the last one created; then an answer, a candidate and a bye
    from the peer are handled without an exception, on that connection. *)
Theorem started_call room cfg evs :
  let p := page_run cfg (page_init room) evs in
  isStarted p = true ->
  exists n s, pc p = Some n /\ localStream p = Some s /\ S n = next_pc p /\
    forall ok sdp label id cand,
      react cfg ok (Receive (Description false sdp)) p
        = Result p [SetRemoteDescription n false sdp] false /\
      react cfg ok (Receive (Candidate label id cand)) p
        = Result p [AddIceCandidate n label cand] false /\
      r_thrown (react cfg ok (Receive ByeMsg) p) = false /\
      r_effects (react cfg ok (Receive ByeMsg) p) = [RemoteVideo None; ClosePc n] /\
      isStarted (r_page (react cfg ok (Receive ByeMsg) p)) = false.
Proof.
  intros p Hs. destruct (consistent_run cfg _ evs (consistent_init room)) as [H1 H2].
  fold p in H1, H2. destruct (H1 Hs) as [[n Hn] [s Hl]].
  exists n, s. split_and!; [done|done|by apply H2|].
  intros ok sdp label id cand. clear H1 H2. destruct p as [rm ls rs ch ini st pcn np].
  cbn in Hs, Hn, Hl. subst. by split_and!.
Qed.

Definition demo_cfg : turn_config :=
  {| urls := "turn:10.0.0.1:3478"; username := "u"; credential := "p"; iceTransportPolicy := "relay" |}.

Definition demo_call : list (bool * event) :=
  [(true, RoomCreated); (true, Media 1); (true, PeerJoins); (true, Receive GotUserMedia)].

Lemma started_call_witness :
  let p := page_run (Some demo_cfg) (page_init "r") demo_call in
  exists n s, pc p = Some n /\ localStream p = Some s /\
    react (Some demo_cfg) true (Receive (Description false "sdp")) p
      = Result p [SetRemoteDescription n false "sdp"] false.
Proof.
  destruct (started_call "r" (Some demo_cfg) demo_call eq_refl) as (n & s & H1 & H2 & _ & H).
  exists n, s. split; [exact H1|]. split; [exact H2|].
  exact (proj1 (H true "sdp" 0 "" "")).
Defined.

(** * The TURN server *)

(** The configuration of the connections a reaction creates. *)
Definition new_connections (fx : list effect) : list (option turn_config) :=
  omap (fun e => match e with NewPeerConnection _ c => Some c | _ => None end) fx.

(** C26. Only one road leads through TURN.  A connection is created with the
    broker's TURN configuration exactly when it is created on the peer's "got
    user media" message; one created because the local media arrive or because an
    offer arrives has no configuration, whatever the page was started with. *)
Theorem relay_only_on_got_user_media cfg ok ev p :
  let r := react cfg ok ev p in
  new_connections (r_effects r) = [] \/
  match ev with
  | Receive GotUserMedia => new_connections (r_effects r) = [cfg]
  | Media _ | Receive (Description true _) => new_connections (r_effects r) = [None]
  | _ => False
  end.
Proof.
  cbv zeta. destruct ev as [s| | | | | |m|[[[lb id] ca]|]|[]  sdp| | |s| | |];
    try destruct m as [| |[] sdp|lb id ca|ty];
    destruct ok; split_page p; run_script; cbn; auto.
Qed.

(** Starting without media.  Once the channel is ready, a "got user media"
    message that arrives before the local media passes the test meant to wait for
    them: a connection is created, adding the missing stream throws, the call is
    not started; and it happens again, with one more connection, for every
    further message. *)
Theorem early_start_leaks cfg p k :
  localStream p = None -> isChannelReady p = true -> isStarted p = false ->
  let q := page_run cfg p (repeat (true, Receive GotUserMedia) k) in
  isStarted q = false /\ next_pc q = (k + next_pc p)%nat /\ localStream q = None /\
  isChannelReady q = true /\
  r_thrown (react cfg true (Receive GotUserMedia) q) = true /\
  r_effects (react cfg true (Receive GotUserMedia) q) = [NewPeerConnection (next_pc q) cfg].
Proof.
  assert (One : forall p, localStream p = None -> isChannelReady p = true -> isStarted p = false ->
    let r := react cfg true (Receive GotUserMedia) p in
    r_thrown r = true /\ r_effects r = [NewPeerConnection (next_pc p) cfg] /\
    isStarted (r_page r) = false /\ next_pc (r_page r) = S (next_pc p) /\
    localStream (r_page r) = None /\ isChannelReady (r_page r) = true).
  { intros [rm ls rs ch ini st pcn np]. cbn [localStream isChannelReady isStarted].
    intros -> -> ->. by split_and!. }
  intros Hl Hc Hs q.
  assert (G : isStarted q = false /\ next_pc q = (k + next_pc p)%nat /\ localStream q = None /\
              isChannelReady q = true).
  { subst q. revert p Hl Hc Hs. induction k as [|k IH]; intros p Hl Hc Hs; [done|].
    destruct (One p Hl Hc Hs) as (_ & _ & H1 & H2 & H3 & H4).
    cbn [repeat page_run foldl]. destruct (IH _ H3 H4 H1) as (G1 & G2 & G3 & G4).
    split_and!; [done| |done|done].
    change (next_pc (page_run cfg (r_page (react cfg true (Receive GotUserMedia) p))
              (repeat (true, Receive GotUserMedia) k)) = S (k + next_pc p)).
    rewrite G2, H2. lia. }
  destruct G as (G1 & G2 & G3 & G4). destruct (One q G3 G4 G1) as (T & E & _).
  by split_and!.
Qed.

Lemma early_start_leaks_witness :
  let p := page_run None (page_init "r") [(true, RoomCreated); (true, PeerJoins)] in
  next_pc (page_run None p (repeat (true, Receive GotUserMedia) 3)) = 3%nat.
Proof.
  exact (proj1 (proj2 (early_start_leaks None
    (page_run None (page_init "r") [(true, RoomCreated); (true, PeerJoins)]) 3
    eq_refl eq_refl eq_refl))).
Defined.
