(* ===== verification/Call.v ===== *)
(** A call through the signalling server: two pages of the WebRTC example
    (public/js/main.js), their browsers and the server (appWebRTC.js), which exchange
    packets over two connections.  What a page emits waits until the server reads it,
    what the server emits waits until the page reads it, and what a page asks of its
    browser waits until the browser has done it; each of these may take its time. *)
From S2P Require Import Prelude Signalling RtcClient.

Inductive side := One | Two.
Definition other (i : side) : side := match i with One => Two | Two => One end.
#[export] Instance side_eq_dec : EqDecision side.
Proof. solve_decision. Defined.

(** What a browser has been asked for. *)
Inductive job :=
  | Load                                  (* run the script of the page *)
  | Capture                               (* getUserMedia *)
  | Describe (offer : bool) (pc : nat)    (* createOffer, createAnswer *)
  | Arrive.                               (* the stream of the peer, after its description *)

(** An event a page has handled: the local media it had then, and what came of it. *)
Record turn := Turn {
  t_media : option nat;
  t_event : event;
  t_effects : list effect;
  t_thrown : bool;
}.

(** A page with its browser and the two ends of its connection. *)
Record peer := Peer {
  p_page : page;
  p_up : list effect;                (* emitted, not read by the server *)
  p_down : list (packet message);    (* sent by the server, not read by the page *)
  p_jobs : list job;
  p_trace : list turn;               (* oldest first *)
}.

Record system (X : Type) := System { server : X; one : peer; two : peer }.
Arguments System {X} server one two.
Arguments server {X} s.
Arguments one {X} s.
Arguments two {X} s.

Definition peer_of {X} (s : system X) (i : side) : peer :=
  match i with One => one s | Two => two s end.
Definition set_peer {X} (i : side) (q : peer) (s : system X) : system X :=
  match i with
  | One => System (server s) q (two s)
  | Two => System (server s) (one s) q
  end.

(** * What the effects of a script start *)

Definition is_emission (e : effect) : bool :=
  match e with ConnectSocket | EmitCreateOrJoin _ | EmitBye _ | EmitMessage _ _ => true | _ => false end.

Definition asked (e : effect) : option job :=
  match e with
  | GetUserMedia => Some Capture
  | CreateOffer n => Some (Describe true n)
  | CreateAnswer n => Some (Describe false n)
  | SetRemoteDescription _ _ _ => Some Arrive
  | _ => None
  end.

Definition perform (r : result) (q : peer) : peer :=
  Peer (r_page r) (p_up q ++ filter is_emission (r_effects r)) (p_down q)
       (p_jobs q ++ omap asked (r_effects r)) (p_trace q).

(** The event a packet is to the page. *)
Definition event_of (pk : packet message) : event :=
  match pk with
  | Created _ => RoomCreated
  | Joined _ => RoomJoined
  | Full _ => RoomFull
  | Join _ => PeerJoins
  | Message m => Receive m
  end.

(** The action of a socket the server sees. *)
Definition action_of (id : string) (e : effect) : option (action message) :=
  match e with
  | ConnectSocket => Some (Connect id)
  | EmitCreateOrJoin room => Some (CreateOrJoin id room)
  | EmitMessage m room => Some (Send id room m)
  | EmitBye room => Some (Bye id room)
  | _ => None
  end.

Section system.
Context {X : Type}.
(** The server: what it becomes on an emission of a page, and what each page is sent. *)
Variable relay : X -> side -> effect -> X * (side -> list (packet message)).
(** The configuration a page is started with, the streams its browser makes of its media
    and of the peer's, and the descriptions it makes of a connection. *)
Variable cfg : side -> option turn_config.
Variables stream remote : side -> nat.
Variable sdp : side -> bool -> nat -> string.

(** A page handles an event. *)
Definition handle (i : side) (e : event) (q : peer) : peer :=
  let r := react (cfg i) true e (p_page q) in
  let q' := perform r q in
  Peer (p_page q') (p_up q') (p_down q') (p_jobs q')
       (p_trace q ++ [Turn (localStream (p_page q)) e (r_effects r) (r_thrown r)]).

Definition finish (i : side) (j : job) (q : peer) : peer :=
  match j with
  | Load => perform (startupBehavior (p_page q)) q
  | Capture => handle i (Media (stream i)) q
  | Describe offer n => handle i (DescriptionReady offer (sdp i offer n)) q
  | Arrive => handle i (RemoteAdded (remote i)) q
  end.

Definition send_to (l : list (packet message)) (q : peer) : peer :=
  Peer (p_page q) (p_up q) (p_down q ++ l) (p_jobs q) (p_trace q).

(** What can happen next. *)
Inductive choice :=
| Serve (i : side)               (* the server reads from the socket of a page *)
| Deliver (i : side)             (* a page reads from its socket *)
| Finish (i : side) (k : nat).   (* a browser has done something it was asked for *)

Definition exec (c : choice) (s : system X) : option (system X) :=
match c with
| Serve i =>
    let q := peer_of s i in
    match p_up q with
    | e :: up =>
        let s := set_peer i (Peer (p_page q) up (p_down q) (p_jobs q) (p_trace q)) s in
        let '(x, out) := relay (server s) i e in
        Some (System x (send_to (out One) (one s)) (send_to (out Two) (two s)))
    | [] => None
    end
| Deliver i =>
    let q := peer_of s i in
    match p_down q with
    | pk :: down =>
        Some (set_peer i (handle i (event_of pk)
                (Peer (p_page q) (p_up q) down (p_jobs q) (p_trace q))) s)
    | [] => None
    end
| Finish i k =>
    let q := peer_of s i in
    match p_jobs q !! k with
    | Some j =>
        Some (set_peer i (finish i j
                (Peer (p_page q) (p_up q) (p_down q) (delete k (p_jobs q)) (p_trace q))) s)
    | None => None
    end
end.

Inductive call_step : system X -> system X -> Prop :=
| call_step_intro c s s' : exec c s = Some s' -> call_step s s'.

Definition opened (room : string) : peer := Peer (page_init room) [] [] [Load] [].

(** Two pages for the same room that have not run yet. *)
Definition call_init (x : X) (room : string) : system X := System x (opened room) (opened room).
End system.

(** * The server of appWebRTC.js *)

Section signalling.
Context {A : Type} {adapter : Adapter A}.
Variable id : side -> string.

Definition received (i : side) (em : emission (M := message)) : list (packet message) :=
if decide (id i ∈ em.1) then [em.2] else [].

Definition signalling (a : A) (i : side) (e : effect) : A * (side -> list (packet message)) :=
match action_of (id i) e with
| Some act =>
    let '(a', out) := serve_action a act in (a', fun j => out ≫= received j)
| None => (a, fun _ => [])
end.
End signalling.

(** * The outcome of a call *)

(** Everything a page has done since it was started. *)
Definition effects_of (q : peer) : list effect := p_trace q ≫= t_effects.

Definition sets_remote (e : effect) : bool :=
  match e with SetRemoteDescription _ _ _ => true | _ => false end.

Section outcome.
Context {X : Type}.
Variable remote : side -> nat.
Variable sdp : side -> bool -> nat -> string.
Implicit Type s : system X.

(** The page [i] has called, and the two pages talk: each of their connections holds the
    description its own browser made and the one the peer's browser made, and each page
    shows the stream of the other. *)
Definition established (i : side) s : Prop :=
  let a := peer_of s i in
  let b := peer_of s (other i) in
  match pc (p_page a), pc (p_page b) with
  | Some m, Some n =>
      isStarted (p_page a) = true /\ isStarted (p_page b) = true /\
      SetLocalDescription m true (sdp i true m) ∈ effects_of a /\
      SetRemoteDescription n true (sdp i true m) ∈ effects_of b /\
      SetLocalDescription n false (sdp (other i) false n) ∈ effects_of b /\
      SetRemoteDescription m false (sdp (other i) false n) ∈ effects_of a /\
      remoteStream (p_page a) = Some (remote i) /\
      remoteStream (p_page b) = Some (remote (other i))
  | _, _ => False
  end.

(** The page [i] has called, and waits for an answer that never comes. *)
Definition unanswered (i : side) s : Prop :=
  let a := peer_of s i in
  let b := peer_of s (other i) in
  isStarted (p_page a) = true /\ isStarted (p_page b) = false /\
  Forall (fun e => sets_remote e = false) (effects_of a) /\
  Forall (fun e => sets_remote e = false) (effects_of b).

(** The page [i] has called, and what its offer found decides the call. *)
Definition decided (i : side) s : Prop :=
  isInitiator (p_page (peer_of s i)) = true /\
  isInitiator (p_page (peer_of s (other i))) = false /\
  match pc (p_page (peer_of s i)) with
  | Some m =>
      Exists (fun t => t_event t = Receive (Description true (sdp i true m)) /\
                match t_media t with
                | Some _ => t_thrown t = false /\ established i s
                | None => t_thrown t = true /\ unanswered i s
                end) (p_trace (peer_of s (other i)))
  | None => False
  end.

#[export] Instance established_dec i s : Decision (established i s).
Proof.
  unfold established. destruct (pc (p_page (peer_of s i))), (pc (p_page (peer_of s (other i))));
    apply _.
Defined.
#[export] Instance unanswered_dec i s : Decision (unanswered i s).
Proof. apply _. Defined.
#[export] Instance decided_dec i s : Decision (decided i s).
Proof.
  unfold decided. destruct (pc (p_page (peer_of s i))); [|apply _].
  repeat apply and_dec; try apply _. apply Exists_dec. intros t. destruct (t_media t); apply _.
Defined.
End outcome.
