(* ===== verification/Explore.v ===== *)
(** Exploration of a finite transition relation, level by level: the states that [k]
    steps reach, each once, until no state is left.  It decides what holds in every
    reachable state and bounds the length of every run. *)
From S2P Require Import Prelude.

Section explore.
Context {S : Type} {S_eq : EqDecision S}.
Variable succ : S -> list S.
Variable ok : S -> bool.

Fixpoint explore (n : nat) (front : list S) : bool :=
match front with
| [] => true
| _ =>
    match n with
    | O => false
    | Datatypes.S n =>
        if forallb ok front then explore n (remove_dups (flat_map succ front)) else false
    end
end.

Lemma explore_cons n x front :
  explore n (x :: front) = true ->
  exists m, n = Datatypes.S m /\ forallb ok (x :: front) = true /\
    explore m (remove_dups (flat_map succ (x :: front))) = true.
Proof.
  destruct n as [|m]; [done|]. cbn [explore]. destruct (forallb ok (x :: front)) eqn:E; [|done].
  by exists m.
Qed.

(** What the exploration has shown. *)
Lemma explore_sound (R : S -> S -> Prop) :
  (forall x y, R x y -> y ∈ succ x) ->
  forall n front, explore n front = true ->
  forall k x y, x ∈ front -> nsteps R k x y -> (k < n)%nat /\ ok y = true.
Proof.
  intros HR n front He k x y Hx Hs. revert n front He Hx.
  induction Hs as [x|k x z y Hz _ IH]; intros n front He Hx;
    (destruct front as [|x0 front]; [by apply not_elem_of_nil in Hx|]);
    apply explore_cons in He as (m & -> & Hok & He).
  - split; [lia|]. rewrite forallb_forall in Hok. by apply Hok, list_elem_of_In.
  - destruct (IH m _ He) as [Hk Hy]; [|split; [lia|exact Hy]].
    apply elem_of_remove_dups, list_elem_of_In, in_flat_map. exists x.
    split; [by apply list_elem_of_In|by apply list_elem_of_In, HR].
Qed.
End explore.
