(* ===== verification/CallProps.v ===== *)
(** The course of a call between two pages, for every order in which the server, the
    pages and the browsers get to work.

    The system of [Call] does not look into its texts: with short names for them, and the
    members of the room for the rooms of the server, it has finitely many states, which
    [explore] visits; every step of the system is a step of this one under other names. *)
From S2P Require Import Prelude Explore Signalling RtcClient Call RtcProps.

#[local] Instance job_eq_dec : EqDecision job. Proof. solve_decision. Defined.
#[local] Instance turn_eq_dec : EqDecision turn. Proof. solve_decision. Defined.
#[local] Instance peer_eq_dec : EqDecision peer. Proof. solve_decision. Defined.
#[local] Instance system_eq_dec : EqDecision (system (bool * bool)). Proof. solve_decision. Defined.

(** * The finite system *)

(** Which of the two sockets are in the room. *)
Definition is_in (i : side) (m : bool * bool) : bool := match i with One => m.1 | Two => m.2 end.
Definition put (i : side) (b : bool) (m : bool * bool) : bool * bool :=
  match i with One => (b, m.2) | Two => (m.1, b) end.

Definition when (b : bool) (pk : packet message) : list (packet message) := if b then [pk] else [].

Definition quick_relay (m : bool * bool) (i : side) (e : effect)
    : (bool * bool) * (side -> list (packet message)) :=
  let to_me pk j := when (bool_decide (j = i)) pk in
  match e with
  | EmitCreateOrJoin r =>
      match m with
      | (false, false) => (put i true m, to_me (Created r))
      | (true, true) => (m, to_me (Full r))
      | _ => (put i true m, fun j => when (is_in j m) (Join r) ++ to_me (Joined r) j)
      end
  | EmitMessage x _ => (m, fun j => when (if is_in j m then negb (bool_decide (j = i)) else false) (Message x))
  | EmitBye _ => (put i false m, fun _ => [])
  | _ => (m, fun _ => [])
  end.

Fixpoint tally (n : nat) : string := match n with O => "" | S n => String "I" (tally n) end.
Definition short_sdp (i : side) (offer : bool) (n : nat) : string :=
  String (if i is One then "1" else "2")%char
    (String (if offer then "o" else "a")%char (tally n)).
Definition short_cfg : turn_config :=
  {| urls := ""; username := ""; credential := ""; iceTransportPolicy := "" |}.

Definition quick_exec : choice -> system (bool * bool) -> option (system (bool * bool)) :=
  exec quick_relay (fun _ => Some short_cfg) (fun _ => 0%nat) (fun _ => 1%nat) short_sdp.

Definition choices {X} (s : system X) : list choice :=
  [Serve One; Serve Two; Deliver One; Deliver Two] ++
  map (Finish One) (seq 0 (length (p_jobs (one s)))) ++
  map (Finish Two) (seq 0 (length (p_jobs (two s)))).

Definition next_states (s : system (bool * bool)) : list (system (bool * bool)) :=
  omap (fun c => quick_exec c s) (choices s).

Definition quick_init : system (bool * bool) := call_init (false, false) "r".

(** In a final state the call is decided; the pages keep their room. *)
Definition acceptable (s : system (bool * bool)) : bool :=
  if decide (room (p_page (one s)) <> "" /\ room (p_page (two s)) <> "") then
    match next_states s with
    | [] => if decide (decided (fun _ => 1%nat) short_sdp One s) then true
            else if decide (decided (fun _ => 1%nat) short_sdp Two s) then true else false
    | _ => true
    end
  else false.

(** At most 23 steps, and then the call is decided. *)
Lemma quick_explored : explore next_states acceptable 24 [quick_init] = true.
Proof. vm_compute. reflexivity. Qed.

Lemma elem_of_choices {X} relay cfg stream remote sdp c (s s' : system X) :
  exec relay cfg stream remote sdp c s = Some s' -> c ∈ choices s.
Proof.
  unfold choices. rewrite !elem_of_app, !list_elem_of_fmap.
  destruct c as [[]|[]|i k]; intros H; [left; set_solver..|right].
  cbn [exec] in H. destruct (p_jobs (peer_of s i) !! k) eqn:E; [|done].
  apply lookup_lt_Some in E. destruct i; [left|right]; exists k;
    (split; [done|]; apply elem_of_seq; cbn in E; lia).
Qed.

Lemma elem_of_next_states s s' : (exists c, quick_exec c s = Some s') <-> s' ∈ next_states s.
Proof.
  unfold next_states. rewrite list_elem_of_omap. split.
  - intros [c Hc]. exists c. split; [by eapply elem_of_choices|done].
  - intros (c & _ & Hc). by exists c.
Qed.

(** * Other names *)

Section names.
Variable rm : string.
Variable cfg : side -> option turn_config.
Variables stream remote : side -> nat.
Variable sdp : side -> bool -> nat -> string.

Definition real_sdp (s : string) : string :=
  match s with
  | String c (String d s') =>
      sdp (if decide (c = "1"%char) then One else Two) (bool_decide (d = "o"%char))
          (String.length s')
  | _ => s
  end.

Lemma real_short i offer n : real_sdp (short_sdp i offer n) = sdp i offer n.
Proof.
  assert (L : String.length (tally n) = n) by (induction n as [|n IH]; cbn; congruence).
  destruct i, offer; cbn; by rewrite L.
Qed.

Definition real_cfg (i : side) (o : option turn_config) : option turn_config :=
  match o with Some _ => cfg i | None => None end.

Definition real_message (m : message) : message :=
  match m with Description offer s => Description offer (real_sdp s) | _ => m end.

Definition real_packet (pk : packet message) : packet message :=
  match pk with
  | Created _ => Created rm
  | Joined _ => Joined rm
  | Full _ => Full rm
  | Join _ => Join rm
  | Message m => Message (real_message m)
  end.

Definition real_effect (i : side) (e : effect) : effect :=
  match e with
  | EmitCreateOrJoin _ => EmitCreateOrJoin rm
  | EmitBye _ => EmitBye rm
  | EmitMessage m _ => EmitMessage (real_message m) rm
  | NewPeerConnection n c => NewPeerConnection n (real_cfg i c)
  | AddStream n _ => AddStream n (stream i)
  | SetLocalDescription n offer s => SetLocalDescription n offer (real_sdp s)
  | SetRemoteDescription n offer s => SetRemoteDescription n offer (real_sdp s)
  | LocalVideo _ => LocalVideo (stream i)
  | RemoteVideo o => RemoteVideo ((fun _ => remote i) <$> o)
  | _ => e
  end.

Definition real_event (i : side) (e : event) : event :=
  match e with
  | Media _ => Media (stream i)
  | Receive m => Receive (real_message m)
  | DescriptionReady offer s => DescriptionReady offer (real_sdp s)
  | RemoteAdded _ => RemoteAdded (remote i)
  | _ => e
  end.

Definition real_page (i : side) (p : page) : page :=
  Page rm ((fun _ => stream i) <$> localStream p) ((fun _ => remote i) <$> remoteStream p)
    (isChannelReady p) (isInitiator p) (isStarted p) (pc p) (next_pc p).

Definition real_turn (i : side) (t : turn) : turn :=
  Turn ((fun _ => stream i) <$> t_media t) (real_event i (t_event t))
    (real_effect i <$> t_effects t) (t_thrown t).

Definition real_peer (i : side) (q : peer) : peer :=
  Peer (real_page i (p_page q)) (real_effect i <$> p_up q) (real_packet <$> p_down q) (p_jobs q)
    (real_turn i <$> p_trace q).

Definition real_result (i : side) (r : result) : result :=
  Result (real_page i (r_page r)) (real_effect i <$> r_effects r) (r_thrown r).

(** The handlers do the same under other names. *)
Lemma react_real i e p :
  match e with IceCandidate _ | Unload | HangUp => False | _ => True end ->
  react (cfg i) true (real_event i e) (real_page i p) =
  real_result i (react (Some short_cfg) true e p).
Proof.
  intros He. destruct e as [s| | | | | |m|[[[lb id] ca]|]|[] s| | |s| | |]; try done;
    try destruct m as [| |[] s|lb id ca|ty]; destruct p as [? [?|] ? [] [] [] [?|] ?]; reflexivity.
Qed.

Lemma emissions_real i (l : list effect) :
  filter is_emission (real_effect i <$> l) = real_effect i <$> filter is_emission l.
Proof.
  induction l as [|e l IH]; [done|]. rewrite fmap_cons, !filter_cons, IH. by destruct e.
Qed.

Lemma asked_real i (l : list effect) : omap asked (real_effect i <$> l) = omap asked l.
Proof. induction l as [|e l IH]; [done|]. destruct e; cbn; congruence. Qed.

Lemma perform_real i r q :
  perform (real_result i r) (real_peer i q) = real_peer i (perform r q).
Proof. unfold perform, real_peer. cbn. by rewrite emissions_real, asked_real, fmap_app. Qed.

Lemma handle_real i e q :
  match e with IceCandidate _ | Unload | HangUp => False | _ => True end ->
  handle cfg i (real_event i e) (real_peer i q) =
  real_peer i (handle (fun _ => Some short_cfg) i e q).
Proof.
  intros He. unfold handle. cbn [p_page real_peer]. rewrite (react_real i e (p_page q) He), perform_real.
  unfold real_peer. cbn. by rewrite !fmap_app.
Qed.

Lemma deliver_real i pk q :
  handle cfg i (event_of (real_packet pk)) (real_peer i q) =
  real_peer i (handle (fun _ => Some short_cfg) i (event_of pk) q).
Proof.
  assert (E : event_of (real_packet pk) = real_event i (event_of pk)) by (by destruct pk).
  rewrite E. apply handle_real. by destruct pk.
Qed.

Lemma finish_real i j q :
  rm <> "" -> room (p_page q) <> "" ->
  finish cfg stream remote sdp i j (real_peer i q) =
  real_peer i (finish (fun _ => Some short_cfg) (fun _ => 0%nat) (fun _ => 1%nat) short_sdp i j q).
Proof.
  intros Hrm Hq. destruct j as [| |offer n|]; cbn [finish].
  - rewrite <- perform_real. f_equal. unfold startupBehavior, real_result. run_script.
    unfold ask. cbn [real_peer p_page real_page room].
    rewrite (proj2 (String.eqb_neq _ _) Hrm), (proj2 (String.eqb_neq _ _) Hq). reflexivity.
  - by rewrite <- handle_real.
  - rewrite <- handle_real by done. cbn [real_event]. by rewrite real_short.
  - by rewrite <- handle_real.
Qed.

Lemma send_to_real i l q :
  send_to (real_packet <$> l) (real_peer i q) = real_peer i (send_to l q).
Proof. unfold send_to, real_peer. cbn. by rewrite fmap_app. Qed.

(** * The server *)

Context {A : Type} {adapter : Adapter A} {laws : AdapterLaws A}.
Variable id : side -> string.
Hypothesis id_distinct : id One <> id Two.
Hypothesis id_no_room : forall i, id i <> rm.

Definition members (m : bool * bool) : gset string :=
  (if m.1 then {[id One]} else ∅) ∪ (if m.2 then {[id Two]} else ∅).

Lemma elem_of_members i m : id i ∈ members m <-> is_in i m = true.
Proof. destruct i, m as [[] []]; cbn; unfold members; cbn; set_solver. Qed.

Lemma members_put i b m :
  members (put i b m) = (if b then {[id i]} ∪ members m else members m ∖ {[id i]}).
Proof. destruct i, b, m as [[] []]; unfold members; cbn; set_solver. Qed.

Lemma size_members m : size (members m) = ((if m.1 then 1 else 0) + (if m.2 then 1 else 0))%nat.
Proof.
  destruct m as [[] []]; unfold members; cbn.
  - rewrite size_union, !size_singleton by set_solver. done.
  - by rewrite (right_id_L ∅ _), size_singleton.
  - by rewrite (left_id_L ∅ _), size_singleton.
  - by rewrite (left_id_L ∅ _), size_empty.
Qed.

Lemma received_to X pk j (b : bool) :
  (id j ∈ X <-> b = true) -> received id j (X, real_packet pk) = real_packet <$> when b pk.
Proof.
  intros HX. unfold received. cbn [fst snd]. destruct (decide (id j ∈ X)) as [Hj|Hj]; destruct b; try done.
  - by apply HX in Hj.
  - by destruct Hj; apply HX.
Qed.

Lemma id_inj i j : id i = id j <-> i = j.
Proof. destruct i, j; split; congruence. Qed.

Lemma members_empty m : members m = ∅ <-> m = (false, false).
Proof.
  split; [|intros ->; unfold members; cbn; set_solver].
  intros E. apply (f_equal size) in E. rewrite size_members, size_empty in E. by destruct m as [[] []].
Qed.

Lemma to_caller i j pk :
  received id j ({[id i]}, real_packet pk) = real_packet <$> when (bool_decide (j = i)) pk.
Proof. apply received_to. by rewrite elem_of_singleton, bool_decide_eq_true, id_inj. Qed.

Lemma create_or_join_real a m i r :
  rooms a rm = members m ->
  let '(a', out) := on_create_or_join a (id i) rm in
  let '(m', out') := quick_relay m i (EmitCreateOrJoin r) in
  rooms a' rm = members m' /\ forall j, out ≫= received id j = real_packet <$> out' j.
Proof.
  intros Hm. unfold on_create_or_join. rewrite Hm, size_members.
  destruct (decide (members m = ∅)) as [E|E].
  - apply members_empty in E as ->. cbn [quick_relay].
    split; [by rewrite rooms_join, decide_True, Hm, members_put by done|].
    intros j. rewrite bind_singleton. apply (to_caller i j (Created r)).
  - assert (Hne : m <> (false, false)) by (by intros ->; apply E, members_empty).
    assert (J : rooms (join a (id i) rm) rm = members (put i true m)).
    { by rewrite rooms_join, decide_True, Hm, members_put by done. }
    assert (B : forall j, [(members m, Join rm); ({[id i]}, Joined rm)] ≫= received id j =
      real_packet <$> when (is_in j m) (Join r) ++ when (bool_decide (j = i)) (Joined r)).
    { intros j. rewrite bind_cons, bind_singleton, fmap_app.
      f_equal; [apply (received_to _ (Join r)), elem_of_members|apply (to_caller i j (Joined r))]. }
    destruct m as [[] []]; try done; cbn [fst snd quick_relay Nat.add Nat.ltb Nat.leb];
      (split; [done|]); [|exact B..].
    intros j. rewrite bind_singleton. apply (to_caller i j (Full r)).
Qed.

(** The server serves the sockets of the pages as [quick_relay] serves the pages. *)
Lemma signalling_real a m i e :
  rooms a rm = members m ->
  rooms (signalling id a i (real_effect i e)).1 rm = members (quick_relay m i e).1 /\
  forall j, (signalling id a i (real_effect i e)).2 j = real_packet <$> (quick_relay m i e).2 j.
Proof.
  intros Hm. destruct e as [| |r|r|x r| | | | | | | | | | |]; try by split.
  - cbn. split; [|done]. unfold on_connection. rewrite rooms_join, decide_False; [done|].
    intros E. by apply (id_no_room i).
  - pose proof (create_or_join_real a m i r Hm) as C.
    unfold signalling. cbn [real_effect action_of serve_action].
    by destruct (on_create_or_join a (id i) rm), (quick_relay m i (EmitCreateOrJoin r)).
  - unfold signalling. cbn [real_effect action_of serve_action fst snd quick_relay]. split; [|done].
    by rewrite rooms_leave, decide_True, Hm, members_put by done.
  - unfold signalling. cbn [real_effect action_of serve_action Signalling.on_message fst snd quick_relay].
    split; [done|]. intros j. rewrite bind_singleton. apply (received_to _ (Message x)).
    rewrite Hm, elem_of_difference, elem_of_singleton, elem_of_members, id_inj.
    destruct (is_in j m); [|naive_solver]. by rewrite negb_true_iff, bool_decide_eq_false; tauto.
Qed.

(** * The systems run in step *)

Definition related (s : system A) (c : system (bool * bool)) : Prop :=
  rooms (server s) rm = members (server c) /\
  one s = real_peer One (one c) /\ two s = real_peer Two (two c).

Lemma related_peer s c i : related s c -> peer_of s i = real_peer i (peer_of c i).
Proof. intros (_ & H1 & H2). by destruct i. Qed.

Lemma related_set s c i q :
  related s c -> related (set_peer i (real_peer i q) s) (set_peer i q c).
Proof. intros (Ha & H1 & H2). by destruct i. Qed.

Notation step := (call_step (signalling id) cfg stream remote sdp).
Notation quick_step := (fun c c' => exists ch, quick_exec ch c = Some c').

Hypothesis room_named : rm <> "".

Lemma exec_related ch s c :
  related s c -> acceptable c = true ->
  option_relation related (fun _ => False) (fun _ => False)
    (exec (signalling id) cfg stream remote sdp ch s) (quick_exec ch c).
Proof.
  intros Hr Hc. destruct ch as [i|i|i k]; cbn [exec quick_exec]; unfold quick_exec; cbn [exec];
    rewrite (related_peer s c i Hr).
  - destruct (peer_of c i) as [p [|e up] down jobs tr]; cbn; [done|].
    change (Peer (real_page i p) _ _ _ _) with (real_peer i (Peer p up down jobs tr)).
    pose proof (related_set s c i (Peer p up down jobs tr) Hr) as (Ha & H1 & H2).
    pose proof (signalling_real _ _ i e Ha) as [Ga Go].
    destruct (signalling _ _ _ _) as [a' out], (quick_relay _ _ _) as [m' out']. cbn in Ga, Go |- *.
    unfold related. cbn. by rewrite !Go, H1, H2, <- !send_to_real.
  - destruct (peer_of c i) as [p up [|pk down] jobs tr]; cbn; [done|].
    change (Peer (real_page i p) _ _ _ _) with (real_peer i (Peer p up down jobs tr)).
    rewrite deliver_real. by apply related_set.
  - destruct (peer_of c i) as [p up down jobs tr] eqn:E; cbn. destruct (jobs !! k) as [j|]; [|done].
    assert (Hp : room p <> "").
    { unfold acceptable in Hc. destruct (decide _) as [[R1 R2]|]; [|done].
      replace p with (p_page (peer_of c i)) by (by rewrite E). by destruct i. }
    change (Peer (real_page i p) _ _ _ _) with (real_peer i (Peer p up down (delete k jobs) tr)).
    rewrite (finish_real i j (Peer p up down (delete k jobs) tr) room_named Hp).
    by apply related_set.
Qed.

Lemma quick_run k c :
  nsteps quick_step k quick_init c -> (k < 24)%nat /\ acceptable c = true.
Proof.
  apply (explore_sound next_states acceptable quick_step (fun x y => proj1 (elem_of_next_states x y))
    24 [quick_init] quick_explored).
  by apply list_elem_of_singleton.
Qed.

Lemma run_related k s0 s :
  related s0 quick_init -> nsteps step k s0 s ->
  exists c, nsteps quick_step k quick_init c /\ related s c.
Proof.
  intros Hi. revert s. induction k as [|k IH]; intros s Hs.
  { inversion Hs; subst. exists quick_init. split; [constructor|done]. }
  apply nsteps_inv_r in Hs as (s1 & H1 & Hs1). destruct (IH _ H1) as (c1 & Hc1 & R1).
  destruct Hs1 as [ch s1 s Hch].
  pose proof (exec_related ch _ _ R1 (proj2 (quick_run _ _ Hc1))) as E. rewrite Hch in E.
  destruct (quick_exec ch c1) as [c|] eqn:Ec; [|done].
  exists c. split; [|done]. eapply nsteps_r; [exact Hc1|]. by exists ch.
Qed.

Lemma nf_related s c : related s c -> acceptable c = true -> nf step s -> next_states c = [].
Proof.
  intros Hr Hc Hn. apply elem_of_nil_inv. intros c' Hc'. apply elem_of_next_states in Hc' as [ch Hch].
  pose proof (exec_related ch _ _ Hr Hc) as E. rewrite Hch in E.
  destruct (exec _ _ _ _ _ ch s) as [s'|] eqn:Es; [|done].
  apply Hn. exists s'. by econstructor.
Qed.

(** * The outcome under other names *)

Lemma effects_real i q : effects_of (real_peer i q) = real_effect i <$> effects_of q.
Proof.
  unfold effects_of. cbn [p_trace real_peer]. induction (p_trace q) as [|t l IH]; [done|].
  by rewrite fmap_cons, !bind_cons, IH, fmap_app.
Qed.

Lemma effect_kept i q e : e ∈ effects_of q -> real_effect i e ∈ effects_of (real_peer i q).
Proof. rewrite effects_real. apply list_elem_of_fmap_2. Qed.

Lemma established_real i s c :
  related s c -> established (fun _ => 1%nat) short_sdp i c -> established remote sdp i s.
Proof.
  intros Hr. unfold established. rewrite !(related_peer s c _ Hr). cbn [p_page real_peer real_page pc].
  destruct (pc (p_page (peer_of c i))) as [m|], (pc (p_page (peer_of c (other i)))) as [n|]; try done.
  intros (H1 & H2 & H3 & H4 & H5 & H6 & H7 & H8).
  apply (effect_kept i) in H3, H6. apply (effect_kept (other i)) in H4, H5.
  cbn [real_effect] in H3, H4, H5, H6. rewrite !real_short in H3, H4, H5, H6.
  cbn. rewrite H7, H8. by split_and!.
Qed.

Lemma unanswered_real i s c : related s c -> unanswered i c -> unanswered i s.
Proof.
  intros Hr. unfold unanswered. rewrite !(related_peer s c _ Hr), !effects_real.
  intros (H1 & H2 & H3 & H4). split_and!; [done|done|apply Forall_fmap..];
    (eapply Forall_impl; [eassumption|]); by intros [].
Qed.

Lemma decided_real i s c :
  related s c -> decided (fun _ => 1%nat) short_sdp i c -> decided remote sdp i s.
Proof.
  intros Hr. unfold decided. rewrite !(related_peer s c _ Hr). cbn [p_page real_peer real_page].
  intros (H1 & H2 & H). split_and!; [done|done|]. cbn [pc real_page].
  destruct (pc (p_page (peer_of c i))) as [m|]; [|done].
  apply Exists_exists in H as (t & Ht & He & H). apply Exists_exists. exists (real_turn (other i) t).
  split; [by apply list_elem_of_fmap_2|]. split.
  - cbn [t_event real_turn]. rewrite He. cbn [real_event real_message]. by rewrite real_short.
  - cbn [t_media real_turn]. destruct (t_media t); cbn; destruct H as [? H];
      (split; [done|]); [by eapply established_real|by eapply unanswered_real].
Qed.

Lemma related_init a0 : rooms a0 rm = ∅ -> related (call_init a0 rm) quick_init.
Proof. intros Ha. split; [|done]. cbn. by rewrite Ha, (proj2 (members_empty (false, false))). Qed.

(** C27. The course of a call.  Two pages are opened for the same empty room, the browsers
    give them their media and make every description they are asked for, and the server,
    the pages and the browsers get to work in any order.  Every run ends, after
    at most 23 steps; and when nothing can happen any more, one page has called the other,
    and what its offer found has decided the call.  If the other page had its local media
    when the offer arrived, the call is established: both pages have started it, each
    connection holds both descriptions, its own and the other browser's, and each page
    shows the other's stream.  If the media came later, the handler of the offer threw,
    and the caller waits for ever: no page holds a description of the other. *)
Theorem call_setup (a0 : A) :
  rooms a0 rm = ∅ ->
  (forall k s, nsteps (call_step (signalling id) cfg stream remote sdp) k (call_init a0 rm) s ->
     (k <= 23)%nat) /\
  (forall s, rtc (call_step (signalling id) cfg stream remote sdp) (call_init a0 rm) s ->
     nf (call_step (signalling id) cfg stream remote sdp) s ->
     exists i, decided remote sdp i s).
Proof.
  intros Ha. apply related_init in Ha. split.
  - intros k s Hs. destruct (run_related _ _ _ Ha Hs) as (c & Hc & _). apply quick_run in Hc. lia.
  - intros s Hs Hn. apply rtc_nsteps in Hs as [k Hs].
    destruct (run_related _ _ _ Ha Hs) as (c & Hc & Hr). apply quick_run in Hc as [_ Hc].
    pose proof (nf_related _ _ Hr Hc Hn) as E. unfold acceptable in Hc. rewrite E in Hc.
    destruct (decide (_ /\ _)); [|done]. destruct (decide _) as [D|]; [|destruct (decide _) as [D|]; [|done]];
      eexists; by eapply decided_real.
Qed.
End names.

(** * Both outcomes happen *)

Definition socket_name (i : side) : string := match i with One => "s1" | Two => "s2" end.
Definition own_sdp (i : side) (offer : bool) (n : nat) : string :=
  match i with One => "v=0 one" | Two => "v=0 two" end.

Definition demo_exec : choice -> system room_map -> option (system room_map) :=
  exec (signalling socket_name) (fun _ => Some demo_cfg) (fun _ => 0%nat) (fun _ => 1%nat) own_sdp.

Definition demo_run (l : list choice) : option (system room_map) :=
  foldl (fun o c => o ≫= demo_exec c) (Some (call_init ∅ "r")) l.

(** Both pages join; then the media of the second one come in time, or late. *)
Definition both_join : list choice :=
  [Finish One 0; Serve One; Serve One; Finish Two 0; Serve Two; Serve Two; Deliver One; Deliver One;
   Deliver Two].
Definition in_time : list choice :=
  both_join ++ [Finish Two 0; Finish One 0; Finish One 0; Serve One; Serve One; Deliver Two; Deliver Two;
                Serve Two; Deliver One; Finish Two 0; Finish Two 0; Serve Two; Deliver One; Finish One 0].
Definition too_late : list choice :=
  both_join ++ [Finish One 0; Finish One 0; Serve One; Serve One; Deliver Two; Deliver Two;
                Finish Two 0; Serve Two; Deliver One].

Notation demo_step := (call_step (signalling socket_name) (fun _ => Some demo_cfg) (fun _ => 0%nat)
  (fun _ => 1%nat) own_sdp).

Lemma demo_run_steps l s : demo_run l = Some s -> rtc demo_step (call_init ∅ "r") s.
Proof.
  revert s. induction l as [|c l IH] using rev_ind; intros s Hs.
  { injection Hs as <-. constructor. }
  unfold demo_run in Hs. rewrite foldl_app in Hs. cbn in Hs.
  apply bind_Some in Hs as (s1 & Hs1 & Hs). eapply rtc_r; [by apply IH|]. by apply (call_step_intro _ _ _ _ _ c).
Qed.

Definition idle (q : peer) : bool :=
  match p_up q, p_down q, p_jobs q with [], [], [] => true | _, _, _ => false end.

Lemma idle_nf {X} relay cfg stream remote sdp (s : system X) :
  idle (one s) = true -> idle (two s) = true -> nf (call_step relay cfg stream remote sdp) s.
Proof.
  intros H1 H2 [s' Hs]. destruct Hs as [c s s' Hc].
  assert (Hi : forall i, idle (peer_of s i) = true) by (by intros []).
  destruct c as [i|i|i k]; specialize (Hi i); cbn in Hc; unfold idle in Hi;
    by destruct (p_up (peer_of s i)), (p_down (peer_of s i)), (p_jobs (peer_of s i)).
Qed.

Lemma call_setup_witness :
  exists s, demo_run in_time = Some s /\ exists i, decided (fun _ => 1%nat) own_sdp i s.
Proof.
  eexists. split; [vm_compute; reflexivity|].
  apply (call_setup "r" (fun _ => Some demo_cfg) (fun _ => 0%nat) (fun _ => 1%nat) own_sdp socket_name
    ltac:(done) ltac:(by intros []) ltac:(done) (∅ : room_map) ltac:(by vm_compute)).
  - apply (demo_run_steps in_time). vm_compute. reflexivity.
  - apply idle_nf; reflexivity.
Defined.

Lemma demo_outcome l (P : system room_map -> Prop) `{forall s, Decision (P s)} :
  (fun s => bool_decide (idle (one s) = true /\ idle (two s) = true /\ P s)) <$> demo_run l = Some true ->
  exists s, rtc demo_step (call_init ∅ "r") s /\ nf demo_step s /\ P s.
Proof.
  intros (s & Hs & Hd)%fmap_Some. symmetry in Hd. apply bool_decide_eq_true in Hd as (H1 & H2 & HP).
  exists s. split_and!; [by eapply demo_run_steps|by apply idle_nf|done].
Qed.

(** A call that is established, and one that is lost because the media of the page that
    is called come after the offer. *)
Lemma call_established :
  exists s, rtc demo_step (call_init ∅ "r") s /\ nf demo_step s /\
    established (fun _ => 1%nat) own_sdp One s.
Proof.
  apply (demo_outcome in_time (established (fun _ => 1%nat) own_sdp One)). vm_compute. reflexivity.
Qed.

Lemma call_lost :
  exists s, rtc demo_step (call_init ∅ "r") s /\ nf demo_step s /\
    (is_Some (localStream (p_page (one s))) /\ is_Some (localStream (p_page (two s))) /\ unanswered One s).
Proof.
  apply (demo_outcome too_late (fun s => is_Some (localStream (p_page (one s))) /\
    is_Some (localStream (p_page (two s))) /\ unanswered One s)). vm_compute. reflexivity.
Qed.
