(* ===== verification/Session.v ===== *)
(** A session of the WebRTC page with the broker: the two requests the page sends when
    it has loaded (src/broker/appWebRTC/public/js/main.js, the end of the file), what the
    broker does with them, and the configuration the page starts with. *)
From S2P Require Import Prelude JsNum JsString Regex Traffic Redis Async Dao Server RtcClient.

Definition CSPNAME : string := "reThinkTestCSP".
Definition CLIENTNAME : string := "RealTimeVideoCall".

(** [$.get(BROKERURL+"/getAppropriateTurn", ...)] and [$.get(BROKERURL+"/getCredentials", ...)]. *)
Definition turn_request (csp client : string) : request :=
  {| rmethod := GET_; rpath := "/getAppropriateTurn";
     query := <["cspId" := csp]> {["clientName" := client]}; body := ∅; credentials := None |}.

Definition credentials_request (clientId : string) : request :=
  {| rmethod := GET_; rpath := "/getCredentials"; query := {["clientId" := clientId]};
     body := ∅; credentials := None |}.

(** An element of a JSON array that may be [undefined], in a concatenation. *)
Definition json_text (o : option string) : string := default "null" o.

Section page.
Context `{Redis St}.
Variable MD5 : string -> string.
Variable cfg : config.
Variable static : string -> option response.

(** A request to the broker, to its answer; [iso] and [rnd] are the date and the random
    number the broker reads meanwhile. *)
Definition ask_broker (iso : string) (rnd : num) (req : request) (s : St) : option response * St :=
  let '(now, work) := serve MD5 cfg iso rnd static req in
  let '(o, s') := run work s in (final_response now o, s').

(** What the callbacks of the first request read of its answer: the server and the
    client id on success ([done]), nothing of an error status ([fail]). *)
Definition turn_answer (a : option response) : option (option (string * string)) :=
  match a with
  | Some (Json _ (JTurn url id)) => Some (Some (json_text url, id))
  | Some _ => Some None
  | None => None
  end.

Definition credentials_answer (a : option response) : option (string * string) :=
  match a with
  | Some (Json _ (JCredentials id password)) => Some (js_str id, password)
  | _ => None
  end.

(** The page from its load to [startupBehavior]: [None] while it has not started,
    otherwise the configuration it starts with, if any. *)
Definition load_page (csp client : string) (iso : string) (rnd rnd' : num) (s : St)
    : option (option turn_config) * St :=
  let '(a, s1) := ask_broker iso rnd (turn_request csp client) s in
  match turn_answer a with
  | None => (None, s1)
  | Some None => (configuration None None, s1)
  | Some (Some turn) =>
      let '(b, s2) := ask_broker iso rnd' (credentials_request turn.2) s1 in
      (configuration (Some turn) (credentials_answer b), s2)
  end.
End page.
