(* ===== verification/SessionProps.v ===== *)
(** The composition of the page, the broker and the TURN server: a client that the broker
    admits gets a server it can use, and its traffic is charged to its provider. *)
From S2P Require Import Prelude JsNum JsString Regex Traffic Redis Async Dao DaoSpec DaoProps PubSub PubSubProps Server RtcClient Session.

Section session.
Context `{RedisLaws St}.
Variable MD5 : string -> string.
Variable cfg : config.
Variable static : string -> option response.
Hypothesis no_file :
  static "/getAppropriateTurn" = None /\ static "/getCredentials" = None.

(** The first request, for a provisioned CSP. *)
Lemma ask_turn csp client iso rnd q d (s : St) :
  0 <= q <= 2 ^ 53 -> 0 <= d <= 2 ^ 53 -> random_value rnd ->
  provisioned (view_of s) csp q d -> servers_ok (view_of s) ->
  let id := client_id MD5 (Some csp) (Some client) iso in
  let r := ask_broker MD5 cfg static iso rnd (turn_request csp client) s in
  view_of r.2 = registered (view_of s) (Some csp) id /\
  if q <? d
  then r.1 = Some (Send 404 "Unable to get a turn server : data consumption exceeded")
  else exists url x, r.1 = Some (Json 200 (JTurn (Some url) id)) /\
         db2 (view_of s) ("turnservers:" +:+ url) = Some (VStr x).
Proof.
  intros Hq Hd Hr Hp Hs id r. subst r. unfold ask_broker, serve. cbn [rmethod served_as turn_request rpath].
  rewrite (proj1 no_file).
  change (route MD5 cfg iso rnd _) with (route_getAppropriateTurn MD5 iso rnd (turn_request csp client)).
  unfold route_getAppropriateTurn. cbn [query turn_request].
  change (<["cspId" := csp]> {["clientName" := client]} !! "cspId") with (Some csp).
  change (<["cspId" := csp]> {["clientName" := client]} !! "clientName") with (Some client).
  set (p := answering_or _ _ _).
  enough (G : view_of (run p s).2 = registered (view_of s) (Some csp) id /\
    (if q <? d
     then (run p s).1 = Resolved (Some (Send 404 "Unable to get a turn server : data consumption exceeded"))
     else exists url x, (run p s).1 = Resolved (Some (Json 200 (JTurn (Some url) id))) /\
            db2 (view_of s) ("turnservers:" +:+ url) = Some (VStr x))).
  { destruct (run p s) as [o s']. cbn [fst snd] in *. destruct G as [G1 G2]. split; [done|].
    destruct (q <? d); [by rewrite G2|]. destruct G2 as (url & x & -> & Hx). by exists url, x. }
  by_wp. apply wp_settle, wp_getAppropriateTurn. intros o Ha.
  pose proof (admission_gate MD5 csp (Some client) iso rnd q d _ o Hq Hd Hr Hp Hs Ha) as A.
  destruct (q <? d); [by rewrite A|]. destruct A as (url & x & -> & Hx).
  split; [done|]. by exists url, x.
Qed.

(** The second request, for a client id. *)
Lemma ask_credentials id iso rnd (s : St) :
  let pw := randomString 6 rnd in
  let r := ask_broker MD5 cfg static iso rnd (credentials_request id) s in
  r.1 = Some (Json 200 (JCredentials (Some id) pw)) /\
  data (view_of r.2) =
    <[(0, credentials_key id) := VStr (MD5 (id +:+ ":" +:+ REALM +:+ ":" +:+ pw))]> (data (view_of s)).
Proof.
  intros pw r. subst r. unfold ask_broker, serve. cbn [rmethod served_as credentials_request rpath].
  rewrite (proj2 no_file).
  change (route MD5 cfg iso rnd _) with (route_getCredentials MD5 rnd (credentials_request id)).
  unfold route_getCredentials. cbn [query credentials_request].
  change ({["clientId" := id]} !! "clientId") with (Some id).
  set (p := answering _ _).
  enough (G : (run p s).1 = Resolved (Some (Json 200 (JCredentials (Some id) pw))) /\
    data (view_of (run p s).2) =
      <[(0, credentials_key id) := VStr (MD5 (id +:+ ":" +:+ REALM +:+ ":" +:+ pw))]> (data (view_of s))).
  { destruct (run p s) as [o s']. cbn [fst snd] in *. by destruct G as [-> G]. }
  by_wp. by apply wp_settle, wp_getCredentials.
Qed.

Lemma provisioned_ext v v' csp q d :
  db2 v' (prov_key csp) = db2 v (prov_key csp) -> db2 v' (conso_key csp) = db2 v (conso_key csp) ->
  provisioned v csp q d -> provisioned v' csp q d.
Proof. unfold provisioned. by intros -> ->. Qed.

(** What the page starts with, and the data afterwards. *)
Lemma load_page_spec csp client iso rnd rnd' q d (s : St) :
  0 <= q <= 2 ^ 53 -> 0 <= d <= 2 ^ 53 -> random_value rnd ->
  provisioned (view_of s) csp q d -> servers_ok (view_of s) ->
  let id := client_id MD5 (Some csp) (Some client) iso in
  let pw := randomString 6 rnd' in
  let r := load_page MD5 cfg static csp client iso rnd rnd' s in
  db2 (view_of r.2) (user_key id) = Some (VStr csp) /\
  (forall k, k <> user_key id -> db2 (view_of r.2) k = db2 (view_of s) k) /\
  if q <? d then r.1 = Some None
  else
    data (view_of r.2) !! (0, credentials_key id)
      = Some (VStr (MD5 (id +:+ ":" +:+ REALM +:+ ":" +:+ pw))) /\
    exists url x,
      r.1 = Some (Some {| urls := "turn:" +:+ url; username := id; credential := pw;
                          iceTransportPolicy := "relay" |}) /\
      db2 (view_of s) ("turnservers:" +:+ url) = Some (VStr x).
Proof.
  intros Hq Hd Hr Hp Hs id pw r. subst r. unfold load_page.
  destruct (ask_turn csp client iso rnd q d s Hq Hd Hr Hp Hs) as [V A]. fold id in V, A.
  destruct (ask_broker _ _ _ _ _ (turn_request csp client) s) as [a s1]. cbn [fst snd] in V, A.
  assert (U : db2 (registered (view_of s) (Some csp) id) (user_key id) = Some (VStr csp)).
  { unfold db2, registered. cbn. apply lookup_insert_eq. }
  destruct (q <? d).
  - subst a. cbn. rewrite V. split_and!; [done| |done]. intros k Hk. by apply db2_registered.
  - destruct A as (url & x & -> & Hx). cbn [turn_answer snd].
    destruct (ask_credentials id iso rnd' s1) as [B D].
    destruct (ask_broker _ _ _ _ _ (credentials_request id) s1) as [b s2]. cbn [fst snd] in *.
    subst b. rewrite V in D. split_and!.
    + unfold db2 in *. rewrite D. by rewrite lookup_insert_ne.
    + intros k Hk. rewrite <- (db2_registered (view_of s) (Some csp) id k Hk).
      unfold db2. rewrite D. by rewrite lookup_insert_ne.
    + rewrite D. apply lookup_insert_eq.
    + exists url, x. by split.
Qed.
End session.

(** C10. A call from its page to the bill.  The page of a client whose CSP is within its
    quota starts with a relay-only configuration for a registered TURN server, under the
    client id it was given and a password whose digest the TURN server finds in database
    0.  However coturn then publishes the traffic of that client, Redis serves the
    subscriptions and delivers, once nothing is under way the reports the broker heard
    (all but the first ones of every allocation) are added, byte for byte, to the
    consumption of the CSP, and the next page of the CSP starts without a TURN server
    exactly when the total is above the quota. *)
Theorem session_accounted `{RedisLaws St} glob `{!GlobLaws glob} MD5 cfg static csp client iso rnd rnd' q d
    ip port events client2 iso2 rnd2 rnd2' (s : St) :
  static "/getAppropriateTurn" = None /\ static "/getCredentials" = None ->
  0 <= q <= 2 ^ 53 -> 0 <= d <= q -> random_value rnd -> random_value rnd2 ->
  provisioned (view_of s) csp q d -> servers_ok (view_of s) ->
  let id := client_id MD5 (Some csp) (Some client) iso in
  let pw := randomString 6 rnd' in
  let '(started, s1) := load_page MD5 cfg static csp client iso rnd rnd' s in
  let w := pubsub_run glob ip port REALM id events s1 in
  let charged := total_sent (heard (history w)) in
  segment ip = true -> segment port = true -> segment id = true -> inbox w = [] ->
  Forall (fun x => report_ok x.1) (history w) -> d + charged <= 2 ^ 53 ->
  (exists url x,
     started = Some (Some {| urls := "turn:" +:+ url; username := id; credential := pw;
                             iceTransportPolicy := "relay" |}) /\
     db2 (view_of s) ("turnservers:" +:+ url) = Some (VStr x)) /\
  data (view_of s1) !! (0, credentials_key id)
    = Some (VStr (MD5 (id +:+ ":" +:+ REALM +:+ ":" +:+ pw))) /\
  provisioned (view_of (database w)) csp q (d + charged) /\
  ((load_page MD5 cfg static csp client2 iso2 rnd2 rnd2' (database w)).1 = Some None <-> q < d + charged).
Proof.
  intros Hf Hq Hd Hr Hr2 Hp Hs id pw.
  pose proof (load_page_spec MD5 cfg static Hf csp client iso rnd rnd' q d s Hq ltac:(lia) Hr Hp Hs)
    as (U & K & A).
  fold id pw in U, K, A. destruct (load_page _ _ _ csp client _ _ _ _) as [started s1].
  cbn [fst snd] in *. rewrite (proj2 (Z.ltb_ge q d)) in A by lia. destruct A as [D A].
  set (w := pubsub_run glob ip port REALM id events s1). set (charged := total_sent (heard (history w))).
  intros Hip Hport Hid Hin Hok Hmax.
  pose proof (reports_handled glob ip port REALM id events s1 Hin) as Hdb. fold w in Hdb.
  apply heard_ok in Hok as Hl. pose proof (total_sent_nonneg _ Hl) as Ht. fold charged in Ht.
  assert (Hp1 : provisioned (view_of s1) csp q d).
  { apply (provisioned_ext (view_of s)); [by apply K..|done]. }
  destruct Hp1 as (h & c & Eh & Eq & Ec & Ed).
  destruct (handle_reports ip port REALM id csp c d (heard (history w)) s1 Hip Hport ltac:(by vm_compute)
    Hid U Ec Ed ltac:(lia) Hl ltac:(fold charged; lia)) as [Ha Hb].
  rewrite <- Hdb in Ha, Hb. fold charged in Ha. set (s2 := database w) in *.
  split; [done|]. split; [done|].
  assert (Hp2 : provisioned (view_of s2) csp q (d + charged)).
  { exists h, (<["data" := dec (d + charged)]> c). split_and!; [|done|done|].
    - by rewrite Hb by auto with broker.
    - by simplify_map_eq. }
  split; [done|].
  assert (Hs2 : servers_ok (view_of s2)).
  { apply (servers_ok_ext (view_of s)); [|done]. intros k [x ->]%has_prefix_iff.
    by rewrite Hb, K. }
  pose proof (load_page_spec MD5 cfg static Hf csp client2 iso2 rnd2 rnd2' q (d + charged) s2
    Hq ltac:(lia) Hr2 Hp2 Hs2) as (_ & _ & A2).
  destruct (load_page _ _ _ csp client2 _ _ _ _) as [started2 s3]. cbn [fst snd] in *.
  destruct (Z.ltb_spec q (d + charged)) as [Hlt|Hge]; [by split|].
  destruct A2 as (_ & url2 & x2 & -> & _). split; [done|lia].
Qed.

Definition no_static (path : string) : option response := None.

(** Two reports of one allocation; the second is published when the channel is subscribed
    to. *)
Definition session_events : list pevent :=
  [Publish (demo_report 40); Deliver; ServeSubscribe; Publish (demo_report 101); Deliver; Deliver].

(** What the connection sees does not depend on the database. *)
Lemma session_run `{Redis St} (s : St) :
  let w := pubsub_run star_match "10.0.0.1" "3478" REALM "hacme:ct" session_events s in
  history w = [(demo_report 40, false); (demo_report 101, true)] /\ inbox w = [].
Proof. split; vm_compute; reflexivity. Qed.

Lemma session_accounted_witness :
  let '(started, s1) := load_page demo_md5 {| LOGIN := "l"; PASSWD := "p" |} no_static
    "acme" "c" "t" demo_rnd demo_rnd demo_view in
  let w := pubsub_run star_match "10.0.0.1" "3478" REALM "hacme:ct" session_events s1 in
  provisioned (view_of (database w)) "acme" 1000 1001 /\
  (load_page demo_md5 {| LOGIN := "l"; PASSWD := "p" |} no_static "acme" "c" "t2" demo_rnd demo_rnd
     (database w)).1 = Some None.
Proof.
  pose proof (session_accounted (St := view) star_match demo_md5 {| LOGIN := "l"; PASSWD := "p" |} no_static
    "acme" "c" "t" demo_rnd demo_rnd 1000 900 "10.0.0.1" "3478" session_events
    "c" "t2" demo_rnd demo_rnd demo_view (conj eq_refl eq_refl) ltac:(lia) ltac:(lia) demo_random
    demo_random demo_provisioned demo_servers) as S.
  destruct (load_page _ _ _ _ _ _ _ _ demo_view) as [started s1]. cbv zeta in S.
  change (client_id demo_md5 (Some "acme") (Some "c") "t") with "hacme:ct" in S.
  destruct (session_run s1) as [Eh Ei]. rewrite Eh in S.
  specialize (S eq_refl eq_refl eq_refl Ei).
  cbn [heard omap list_omap snd fst total_sent foldr] in S.
  destruct S as (_ & _ & P & [_ B]).
  - repeat constructor; cbn; lia.
  - cbn. lia.
  - split; [exact P|]. apply B. cbn. lia.
Defined.
