(* ===== verification/ApiData.v ===== *)
(** The documentation of the broker's interface as the generator wrote it,
    src/broker/BrokerServer/public/apidoc/api_data.js and api_project.js: one entry
    per documented request. *)
From S2P Require Import Prelude JsNum JsString.

(** * Entries *)

Record field_doc := Field {
  fgroup : string;
  ftype : option string;
  foptional : bool;
  ffield : string;
  fdescription : string;
}.

Record example_doc := Example_ { xtitle : string; xcontent : string; xtype : string }.

(** The [header], [parameter], [success], [error] or [info] part of an entry. *)
Record block_doc := {
  fields : option (list (string * list field_doc));
  examples : option (list example_doc);
}.

(** [eid] is the property the viewer adds to an entry it compares. *)
Record entry := {
  etype : string;
  eurl : string;
  etitle : option string;
  ename : string;
  egroup : string;
  eheader : option block_doc;
  eparameter : option block_doc;
  esuccess : option block_doc;
  eerror : option block_doc;
  einfo : option block_doc;
  eversion : string;
  efilename : string;
  egroupTitle : option string;
  egroupDescription : option string;
  eid : option string;
}.

(** The project file; the parts that api_project.js does not have are what the
    viewer tests for. *)
Record bar_doc := { bar_title : option string; bar_content : option string }.
Record template_doc := {
  withCompare : option bool;
  withGenerator : option bool;
  forceLanguage : option string;
}.
Record generator_doc := { gname : string; gtime : string; gurl : string; gversion : string }.
Record project := {
  pname : string;
  pversion : string;
  pdescription : string;
  ptitle : option string;
  purl : option string;
  sampleUrl : bool;
  papidoc : string;
  porder : option (list string);
  pheader : option bar_doc;
  pfooter : option bar_doc;
  ptemplate : option template_doc;
  generator : generator_doc;
}.

(** A text with quotes and line ends, written with back quotes and bars. *)
Fixpoint text (s : string) : string :=
  match s with
  | EmptyString => ""
  | String c s' =>
      String (if eqc c "`" then chr 34 else if eqc c "|" then chr 10 else c) (text s')
  end.

(** * The data *)

Definition doc_deleteCSP : entry := {|
  etype := "delete";
  eurl := "/deleteCSP";
  etitle := Some "";
  ename := "deleteCSP";
  egroup := "Broker_Dashboard_REST_requests";
  eheader := None;
  eparameter := Some {|
      fields := Some [("Parameter", [
         Field "Parameter" (Some "String") false "cspKey"
           "<p>csp key in the database.</p>"])];
      examples := None |};
  esuccess := Some {|
      fields := Some [("Success 200", [
         Field "Success 200" (Some "int") false "return"
           "<p>1</p>"])];
      examples := None |};
  eerror := None;
  einfo := None;
  eversion := "0.0.0";
  efilename := "app/routes.js";
  egroupTitle := Some "Broker_Dashboard_REST_requests";
  egroupDescription := None;
  eid := None |}.

Definition doc_getCspConso_infos : entry := {|
  etype := "get";
  eurl := "/getCspConso";
  etitle := Some "";
  ename := "getCspConso";
  egroup := "Broker_Dashboard_REST_requests";
  eheader := None;
  eparameter := Some {|
      fields := Some [("Parameter", [
         Field "Parameter" (Some "String") false "cspkey"
           "<p>csp key in the database.</p>"])];
      examples := None |};
  esuccess := Some {|
      fields := Some [("Success 200", [
         Field "Success 200" (Some "Array[]") false "CspInfosArray"
           "<p>Array containing all csp registered in the base</p>";
         Field "Success 200" (Some "Object[]") false "CspInfosArray.0"
           "<p>array containing csp infos</p>";
         Field "Success 200" (Some "String") false "CspInfosArray.0.audioQuota"
           "<p>audio data quota.</p>";
         Field "Success 200" (Some "String") false "CspInfosArray.0.videoQuota"
           "<p>video data quota.</p>";
         Field "Success 200" (Some "String") false "CspInfosArray.0.dataQuota"
           "<p>datachannel quota.</p>";
         Field "Success 200" (Some "String") false "CspInfosArray.0.csp"
           "<p>csp name.</p>"])];
      examples := Some [
         Example_ "Success-Response:"
           (text " HTTP/1.1 200 OK|[|  {|  `videoQuota`:`12456231`,|  `audioQuota`:`59122313`,|" +:+
            text "  `dataQuota`:`05464314`,|  `csp`:`prov:csp1`|  },|  {|" +:+
            text "  `videoQuota`:`8010000`,|  `audioQuota`:`0`,|  `dataQuota`:`54652231546`,|" +:+
            text "  `csp`:`prov:csp2`|  }|]")
           "json"] |};
  eerror := None;
  einfo := None;
  eversion := "0.0.0";
  efilename := "app/routes.js";
  egroupTitle := Some "Broker_Dashboard_REST_requests";
  egroupDescription := None;
  eid := None |}.

Definition doc_getCspConso : entry := {|
  etype := "get";
  eurl := "/getCspConso";
  etitle := Some "";
  ename := "getCspConso";
  egroup := "Broker_Dashboard_REST_requests";
  eheader := None;
  eparameter := Some {|
      fields := Some [("Parameter", [
         Field "Parameter" (Some "String") false "cspkey"
           "<p>csp key in the database.</p>"])];
      examples := None |};
  esuccess := Some {|
      fields := Some [("Success 200", [
         Field "Success 200" (Some "Object[]") false "consumptions"
           "<p>Object containing data consumptions for the csp</p>";
         Field "Success 200" (Some "String") false "consumptions.video"
           "<p>video data consumption</p>";
         Field "Success 200" (Some "String") false "credentials.audio"
           "<p>audio data consumption.</p>";
         Field "Success 200" (Some "String") false "credentials.data"
           "<p>datachannel consumption.</p>"])];
      examples := Some [
         Example_ "Success-Response:"
           (text " HTTP/1.1 200 OK|{|  `video`:`12`,|  `audio`:`59122313`,|  `data`:`0`|}")
           "json"] |};
  eerror := None;
  einfo := None;
  eversion := "0.0.0";
  efilename := "app/routes.js";
  egroupTitle := Some "Broker_Dashboard_REST_requests";
  egroupDescription := None;
  eid := None |}.

Definition doc_provRequest : entry := {|
  etype := "post";
  eurl := "/provRequest";
  etitle := Some "";
  ename := "provRequest";
  egroup := "Broker_Dashboard_REST_requests";
  eheader := None;
  eparameter := Some {|
      fields := Some [("Parameter", [
         Field "Parameter" (Some "String") false "servicename"
           "<p>name of the csp.</p>";
         Field "Parameter" (Some "String") false "audio"
           "<p>audio quota.</p>";
         Field "Parameter" (Some "String") false "video"
           "<p>video quota.</p>";
         Field "Parameter" (Some "String") false "qdata"
           "<p>data quota.</p>"])];
      examples := None |};
  esuccess := None;
  eerror := None;
  einfo := None;
  eversion := "0.0.0";
  efilename := "app/routes.js";
  egroupTitle := Some "Broker_Dashboard_REST_requests";
  egroupDescription := None;
  eid := None |}.

Definition doc_getAppropriateTurn : entry := {|
  etype := "get";
  eurl := "/getAppropriateTurn";
  etitle := Some "";
  ename := "getAppropriateTurn";
  egroup := "Broker_REST_requests";
  eheader := None;
  eparameter := Some {|
      fields := Some [("Parameter", [
         Field "Parameter" (Some "String") false "cspId"
           "<p>id of the csp.</p>";
         Field "Parameter" (Some "String") false "clientName"
           "<p>clientName.</p>"])];
      examples := None |};
  esuccess := Some {|
      fields := Some [("Success 200", [
         Field "Success 200" (Some "Object[]") false "response"
           "<p>Array with turnurl and generated clientId.</p>";
         Field "Success 200" (Some "String") false "response[0]"
           "<p>turnurl</p>";
         Field "Success 200" (Some "String") false "response[1]"
           "<p>generated clientId.</p>"])];
      examples := Some [
         Example_ "Success-Response:"
           (text " HTTP/1.1 200 OK|[`172.16.52.90:4078`,`49e4f103f82f151fd5bc8272c5fb3cac`]")
           "json"] |};
  eerror := None;
  einfo := None;
  eversion := "0.0.0";
  efilename := "app/routes.js";
  egroupTitle := Some "Broker_REST_requests";
  egroupDescription := None;
  eid := None |}.

Definition doc_getCredentials : entry := {|
  etype := "get";
  eurl := "/getCredentials";
  etitle := Some "";
  ename := "getCredentials";
  egroup := "Broker_REST_requests";
  eheader := None;
  eparameter := Some {|
      fields := Some [("Parameter", [
         Field "Parameter" (Some "String") false "clientId"
           "<p>clientId.</p>"])];
      examples := None |};
  esuccess := Some {|
      fields := Some [("Success 200", [
         Field "Success 200" (Some "Object[]") false "credentials"
           "<p>Object containing user and password for the turn</p>";
         Field "Success 200" (Some "String") false "credentials.clientId"
           "<p>user for the turn. Note that it's the same clientId as params</p>";
         Field "Success 200" (Some "password") false "credentials.password"
           "<p>password for the turn.</p>"])];
      examples := Some [
         Example_ "Success-Response:"
           (text " HTTP/1.1 200 OK|{|  `clientId`:`8922cee50a54f7c8c9d15d5171622358`,|" +:+
            text "  `password`:`jSXdh`|}")
           "json"] |};
  eerror := None;
  einfo := None;
  eversion := "0.0.0";
  efilename := "app/routes.js";
  egroupTitle := Some "Broker_REST_requests";
  egroupDescription := None;
  eid := None |}.

Definition api : list entry :=
  [doc_deleteCSP; doc_getCspConso_infos; doc_getCspConso; doc_provRequest;
   doc_getAppropriateTurn; doc_getCredentials].

Definition api_project : project := {|
  pname := "broker";
  pversion := "1.0.0";
  pdescription := "";
  ptitle := None;
  purl := None;
  sampleUrl := false;
  papidoc := "0.2.0";
  porder := None;
  pheader := None;
  pfooter := None;
  ptemplate := None;
  generator := {| gname := "apidoc"; gtime := "2016-01-28T13:05:38.982Z";
                  gurl := "http://apidocjs.com"; gversion := "0.14.0" |} |}.
