(* ===== verification/Locale.v ===== *)
(** The texts of the documentation viewer in the reader's language:
    src/broker/BrokerServer/public/apidoc/locales.  A text is its UTF-8 bytes; the
    code only looks texts up and returns them. *)
From S2P Require Import Prelude JsNum JsString JsVal JsObj.

Abbreviation dict := (list (string * string)).

(** * The translations *)

Definition locale_de : list (string * dict) := [("de", [
  ("Allowed values:", "Erlaubte Werte:");
  ("Compare all with predecessor", "Vergleiche alle mit ihren Vorgängern");
  ("compare changes to:", "vergleiche Änderungen mit:");
  ("compared to", "verglichen mit");
  ("Default value:", "Standardwert:");
  ("Description", "Beschreibung");
  ("Field", "Feld");
  ("General", "Allgemein");
  ("Generated with", "Erstellt mit");
  ("Name", "Name");
  ("No response values.", "Keine Rückgabewerte.");
  ("optional", "optional");
  ("Parameter", "Parameter");
  ("Permission:", "Berechtigung:");
  ("Response", "Antwort");
  ("Send", "Senden");
  ("Send a Sample Request", "Eine Beispielanfrage senden");
  ("show up to version:", "zeige bis zur Version:");
  ("Size range:", "Größenbereich:");
  ("Type", "Typ");
  ("url", "url")])].

Definition locale_es : list (string * dict) := [("es", [
  ("Allowed values:", "Valores permitidos:");
  ("Compare all with predecessor", "Comparar todo con versión anterior");
  ("compare changes to:", "comparar cambios con:");
  ("compared to", "comparado con");
  ("Default value:", "Valor por defecto:");
  ("Description", "Descripción");
  ("Field", "Campo");
  ("General", "General");
  ("Generated with", "Generado con");
  ("Name", "Nombre");
  ("No response values.", "Sin valores en la respuesta.");
  ("optional", "opcional");
  ("Parameter", "Parámetro");
  ("Permission:", "Permisos:");
  ("Response", "Respuesta");
  ("Send", "Enviar");
  ("Send a Sample Request", "Enviar una petición de ejemplo");
  ("show up to version:", "mostrar a versión:");
  ("Size range:", "Tamaño de rango:");
  ("Type", "Tipo");
  ("url", "url")])].

Definition locale_fr : list (string * dict) := [("fr", [
  ("Allowed values:", "Valeurs autorisées :");
  ("Compare all with predecessor", "Tout comparer avec ...");
  ("compare changes to:", "comparer les changements à :");
  ("compared to", "comparer à");
  ("Default value:", "Valeur par défaut :");
  ("Description", "Description");
  ("Field", "Champ");
  ("General", "Général");
  ("Generated with", "Généré avec");
  ("Name", "Nom");
  ("No response values.", "Aucune valeur de réponse.");
  ("optional", "optionnel");
  ("Parameter", "Paramètre");
  ("Permission:", "Permission :");
  ("Response", "Réponse");
  ("Send", "Envoyer");
  ("Send a Sample Request", "Envoyer une requête représentative");
  ("show up to version:", "Montrer à partir de la version :");
  ("Size range:", "Ordre de grandeur :");
  ("Type", "Type");
  ("url", "url")])].

Definition locale_nl : list (string * dict) := [("nl", [
  ("Allowed values:", "Toegestane waarden:");
  ("Compare all with predecessor", "Vergelijk alle met voorgaande versie");
  ("compare changes to:", "vergelijk veranderingen met:");
  ("compared to", "vergelijk met");
  ("Default value:", "Standaard waarde:");
  ("Description", "Omschrijving");
  ("Field", "Veld");
  ("General", "Algemeen");
  ("Generated with", "Gegenereerd met");
  ("Name", "Naam");
  ("No response values.", "Geen response waardes.");
  ("optional", "optioneel");
  ("Parameter", "Parameter");
  ("Permission:", "Permissie:");
  ("Response", "Antwoorden");
  ("Send", "Sturen");
  ("Send a Sample Request", "Stuur een sample aanvragen");
  ("show up to version:", "toon tot en met versie:");
  ("Size range:", "Maatbereik:");
  ("Type", "Type");
  ("url", "url")])].

Definition locale_pl : list (string * dict) := [("pl", [
  ("Allowed values:", "Dozwolone wartości:");
  ("Compare all with predecessor", "Porównaj z poprzednimi wersjami");
  ("compare changes to:", "porównaj zmiany do:");
  ("compared to", "porównaj do:");
  ("Default value:", "Wartość domyślna:");
  ("Description", "Opis");
  ("Field", "Pole");
  ("General", "Generalnie");
  ("Generated with", "Wygenerowano z");
  ("Name", "Nazwa");
  ("No response values.", "Brak odpowiedzi.");
  ("optional", "opcjonalny");
  ("Parameter", "Parametr");
  ("Permission:", "Uprawnienia:");
  ("Response", "Odpowiedź");
  ("Send", "Wyślij");
  ("Send a Sample Request", "Wyślij przykładowe żądanie");
  ("show up to version:", "pokaż do wersji:");
  ("Size range:", "Zakres rozmiaru:");
  ("Type", "Typ");
  ("url", "url")])].

Definition locale_pt_br : list (string * dict) := [("pt_br", [
  ("Allowed values:", "Valores permitidos:");
  ("Compare all with predecessor", "Compare todos com antecessores");
  ("compare changes to:", "comparar alterações com:");
  ("compared to", "comparado com");
  ("Default value:", "Valor padrão:");
  ("Description", "Descrição");
  ("Field", "Campo");
  ("General", "Geral");
  ("Generated with", "Gerado com");
  ("Name", "Nome");
  ("No response values.", "Sem valores de resposta.");
  ("optional", "opcional");
  ("Parameter", "Parâmetro");
  ("Permission:", "Permissão:");
  ("Response", "Resposta");
  ("Send", "Enviar");
  ("Send a Sample Request", "Enviar um Exemplo de Pedido");
  ("show up to version:", "aparecer para a versão:");
  ("Size range:", "Faixa de tamanho:");
  ("Type", "Tipo");
  ("url", "url")])].

Definition locale_ru : list (string * dict) := [("ru", [
  ("Allowed values:", "Допустимые значения:");
  ("Compare all with predecessor", "Сравнить с предыдущей версией");
  ("compare changes to:", "сравнить с:");
  ("compared to", "в сравнении с");
  ("Default value:", "По умолчанию:");
  ("Description", "Описание");
  ("Field", "Название");
  ("General", "Общая информация");
  ("Generated with", "Сгенерировано с помощью");
  ("Name", "Название");
  ("No response values.", "Нет значений для ответа.");
  ("optional", "необязательный");
  ("Parameter", "Параметр");
  ("Permission:", "Разрешено:");
  ("Response", "Ответ");
  ("Send", "Отправить");
  ("Send a Sample Request", "Отправить тестовый запрос");
  ("show up to version:", "показать версию:");
  ("Size range:", "Ограничения:");
  ("Type", "Тип");
  ("url", "URL")])].

Definition locale_zh : list (string * dict) := [("zh", [
  ("Allowed values​​:", "允許值:");
  ("Compare all with predecessor", "預先比較所有");
  ("compare changes to:", "比較變更:");
  ("compared to", "對比");
  ("Default value:", "默認值:");
  ("Description", "描述");
  ("Field", "字段");
  ("General", "概括");
  ("Generated with", "生成工具");
  ("Name", "名稱");
  ("No response values​​.", "無對應資料.");
  ("optional", "選項");
  ("Parameter", "參數");
  ("Permission:", "允許:");
  ("Response", "回應");
  ("Send", "發送");
  ("Send a Sample Request", "發送試用需求");
  ("show up to version:", "顯示到版本:");
  ("Size range:", "尺寸範圍:");
  ("Type", "類型");
  ("url", "網址")])].

Definition locale_zh_cn : list (string * dict) := [("zh-cn", [
  ("Allowed values:", "允许值:");
  ("Compare all with predecessor", "与所有较早的比较");
  ("compare changes to:", "将当前版本与指定版本比较:");
  ("compared to", "相比于");
  ("Default value:", "默认值:");
  ("Description", "描述");
  ("Field", "字段");
  ("General", "概要");
  ("Generated with", "基于");
  ("Name", "名称");
  ("No response values.", "无返回值.");
  ("optional", "可选");
  ("Parameter", "参数");
  ("Permission:", "权限:");
  ("Response", "返回");
  ("Send", "发送");
  ("Send a Sample Request", "发送示例请求");
  ("show up to version:", "显示到指定版本:");
  ("Size range:", "取值范围:");
  ("Type", "类型");
  ("url", "网址")])].

(** * The choice of a language *)

Definition translations : list (list (string * dict)) :=
  [locale_de; locale_es; locale_fr; locale_nl; locale_pl; locale_pt_br; locale_ru;
   locale_zh; locale_zh_cn].

(** What a browser says of its language. *)
Record navigator := { nav_language : option string; nav_userLanguage : option string }.

(** [locales[k]]: a dictionary, an object every object inherits, or nothing. *)
Inductive lang_object := Dict (d : dict) | Builtin_object | Undefined_object.

Record locales_module := {
  langId : string;
  language : string;
  locales : list (string * dict);
  locale : lang_object;
}.

Definition lang_lookup (locales : list (string * dict)) (k : string) : lang_object :=
  match obj_get k locales with
  | Some d => Dict d
  | None => if inherited k then Builtin_object else Undefined_object
  end.

Definition lang_truthy (o : lang_object) : bool :=
  match o with Undefined_object => false | _ => true end.

(** The properties of every argument, later ones over earlier ones. *)
Definition merge_locales (arguments : list (list (string * dict))) : list (string * dict) :=
  foldl (fun locales arg => foldl (fun o '(property, d) => obj_set property d o) locales (own_keys arg))
        [] arguments.

Definition lang_id (nav : navigator) : option string :=
  match js_or (of_field (nav_language nav)) (of_field (nav_userLanguage nav)) with
  | JStr s => Some (replace_first "-" "_" (to_lower s))
  | _ => None
  end.

(** The module; [None] when the browser names no language and it throws. *)
Definition load_locales (arguments : list (list (string * dict))) (nav : navigator) :
    option locales_module :=
  langId ← lang_id nav;
  let language := String.substring 0 2 langId in
  let locales := merge_locales arguments in
  let locales := match obj_get "en" locales with
                 | Some _ => locales
                 | None => obj_set "en" [] locales
                 end in
  let at_id := lang_lookup locales langId in
  let language :=
    if negb (lang_truthy at_id) && negb (lang_truthy (lang_lookup locales language))
    then "en" else language in
  let locale := if lang_truthy at_id then at_id else lang_lookup locales language in
  Some {| langId := langId; language := language; locales := locales; locale := locale |}.

(** A looked-up text: its value, something a built-in object has under that name, or
    an exception (a property of [undefined]). *)
Inductive translated := Text (s : string) | Foreign | Throws.

Definition __ (m : locales_module) (text : string) : translated :=
  match locale m with
  | Dict d =>
      match obj_get text d with
      | Some s => Text s
      | None => if inherited text then Foreign else Text text
      end
  | Builtin_object => Foreign
  | Undefined_object => Throws
  end.

Definition setLanguage (m : locales_module) (language' : string) : locales_module :=
  {| langId := langId m; language := language m; locales := locales m;
     locale := lang_lookup (locales m) language' |}.
