(* ===== verification/LocaleProps.v ===== *)
(** Which language the documentation viewer speaks, and which texts it leaves in
    English. *)
From S2P Require Import Prelude JsNum JsString JsVal JsObj Locale.

(** The dictionaries of all the modules, by name. *)
Definition known : list (string * dict) := Eval vm_compute in merge_locales translations.

(** A language identifier is looked up as a whole, then by its first two letters;
    English has no dictionary. *)
Definition chosen (id : string) : lang_object :=
  match obj_get id known with
  | Some d => Dict d
  | None => if inherited id then Builtin_object
            else Dict (default [] (obj_get (String.substring 0 2 id) known))
  end.

Lemma merged : merge_locales translations = known.
Proof. by vm_compute. Qed.

Lemma length_substring_2 s : (String.length (String.substring 0 2 s) <= 2)%nat.
Proof. by destruct s as [|a [|b [|c s]]]; cbn; try lia. Qed.

Lemma inherited_long k : inherited k = true -> (3 <= String.length k)%nat.
Proof.
  unfold inherited. rewrite bool_decide_eq_true. intros H.
  repeat (apply elem_of_cons in H as [->|H]; [cbn; lia|]). by apply not_elem_of_nil in H.
Qed.

Lemma prefix_not_inherited s : inherited (String.substring 0 2 s) = false.
Proof.
  apply not_true_is_false. intros H%inherited_long. pose proof (length_substring_2 s). lia.
Qed.

(** With a dictionary for English added, as the module does. *)
Lemma lang_lookup_en k :
  lang_lookup (obj_set "en" [] known) k =
  if decide (k = "en") then Dict []
  else match obj_get k known with
       | Some d => Dict d
       | None => if inherited k then Builtin_object else Undefined_object
       end.
Proof.
  unfold lang_lookup. case_decide as Hk; [by subst|]. by rewrite obj_get_set_ne by congruence.
Qed.

Lemma load_locale nav m :
  load_locales translations nav = Some m ->
  lang_id nav = Some (langId m) /\ locale m = chosen (langId m).
Proof.
  unfold load_locales. destruct (lang_id nav) as [id|]; [|done]. cbn [mbind option_bind].
  rewrite merged. replace (obj_get "en" known) with (@None dict) by (by vm_compute).
  cbv zeta iota. pose proof lang_lookup_en as HL. revert HL.
  generalize (obj_set "en" [] known). intros L HL [= <-]. cbn [langId locale]. split; [done|].
  set (sub := String.substring 0 2 id).
  rewrite (HL id). unfold chosen. fold sub.
  destruct (decide (id = "en")) as [->|Hid]; [by vm_compute|].
  destruct (obj_get id known) as [d|]; [done|].
  destruct (inherited id); [done|]. cbn [lang_truthy negb andb].
  rewrite (HL sub).
  destruct (decide (sub = "en")) as [Hp|Hp].
  { cbn [lang_truthy negb]. rewrite HL, decide_True by done. rewrite Hp. by vm_compute. }
  unfold sub. rewrite prefix_not_inherited. fold sub.
  destruct (obj_get sub known) as [d|] eqn:Ep; cbn [lang_truthy negb]; rewrite HL; [|done].
  rewrite decide_False by done. by rewrite Ep.
Qed.

(** After [replace('-', '_')] a text with a dash has an underscore too. *)
Lemma replaced_dash s :
  str_all (fun c => negb (eqc c "-")) (replace_first "-" "_" s) = true \/
  str_all (fun c => negb (eqc c "_")) (replace_first "-" "_" s) = false.
Proof.
  induction s as [|c s IH]; [by left|]. cbn [replace_first drop_prefix].
  destruct (eqc "-" c) eqn:E; [by right|].
  assert (E' : eqc c "-" = false) by (unfold eqc in *; by rewrite Ascii.eqb_sym).
  cbn [str_all]. rewrite E'. destruct IH as [->| ->]; [by left|right].
  by rewrite andb_false_r.
Qed.

Lemma lang_id_not_zh_cn nav id_ : lang_id nav = Some id_ -> id_ <> "zh-cn".
Proof.
  unfold lang_id. destruct (js_or _ _) as [| | | |s]; try done. intros [= <-] H.
  destruct (replaced_dash (to_lower s)) as [E|E]; rewrite H in E; by vm_compute in E.
Qed.

(** The texts of the simplified Chinese dictionary. *)
Definition zh_cn_dict : dict := default [] (obj_get "zh-cn" known).

Lemma known_distinct k d : obj_get k known = Some d -> k <> "zh-cn" -> d <> zh_cn_dict.
Proof.
  intros E%obj_get_elem Hk. unfold known in E.
  repeat (apply elem_of_cons in E as [E|E]; [injection E as -> ->; by vm_compute|]).
  by apply not_elem_of_nil in E.
Qed.

Lemma chosen_not_zh_cn id_ : id_ <> "zh-cn" -> chosen id_ <> Dict zh_cn_dict.
Proof.
  intros Hne. unfold chosen. destruct (obj_get id_ known) as [d|] eqn:E.
  - intros [= H]. by apply (known_distinct _ _ E).
  - destruct (inherited id_); [done|].
    destruct (obj_get (String.substring 0 2 id_) known) as [d|] eqn:E2; [|by vm_compute].
    intros [= H]. apply (known_distinct _ _ E2); [|done].
    intros H2. pose proof (length_substring_2 id_) as Hl. rewrite H2 in Hl. cbn in Hl. lia.
Qed.

(** C35. For every browser the module loads with the dictionary of the whole language
    identifier, of its first two letters, or no dictionary, so that every text gets a
    translation or itself; the simplified Chinese dictionary, stored under a name with
    a dash, is never the one. *)
Theorem locale_selection nav m text :
  load_locales translations nav = Some m ->
  locale m = chosen (langId m) /\
  locale m <> Dict zh_cn_dict /\
  __ m text <> Throws /\
  (inherited (langId m) = false -> inherited text = false ->
   exists d, locale m = Dict d /\ __ m text = Text (default text (obj_get text d))).
Proof.
  intros H. destruct (load_locale _ _ H) as [Hid Hl]. split; [done|]. rewrite Hl.
  split; [apply chosen_not_zh_cn; by apply (lang_id_not_zh_cn nav)|].
  unfold __. rewrite Hl. unfold chosen.
  destruct (obj_get (langId m) known) as [d|]; [|destruct (inherited (langId m))].
  - split; [destruct (obj_get text d), (inherited text); done|].
    intros _ Ht. exists d. split; [done|]. destruct (obj_get text d); [done|]. by rewrite Ht.
  - done.
  - set (d := default [] _). split; [destruct (obj_get text d), (inherited text); done|].
    intros _ Ht. exists d. split; [done|]. destruct (obj_get text d); [done|]. by rewrite Ht.
Qed.

(** A browser in China gets the texts of zh.js, whose keys for two of the texts hold
    zero-width spaces: those texts stay in English. *)
Definition chinese : navigator := {| nav_language := Some "zh-CN"; nav_userLanguage := None |}.

Lemma locale_selection_witness :
  exists m, load_locales translations chinese = Some m /\ langId m = "zh_cn" /\
    locale m <> Dict zh_cn_dict /\ __ m "Allowed values:" <> Throws /\
    __ m "Allowed values:" = Text "Allowed values:".
Proof.
  exists (default {| langId := ""; language := ""; locales := []; locale := Undefined_object |}
            (load_locales translations chinese)).
  assert (E : load_locales translations chinese =
    Some (default {| langId := ""; language := ""; locales := []; locale := Undefined_object |}
            (load_locales translations chinese))) by (by vm_compute).
  destruct (locale_selection chinese _ "Allowed values:" E) as (_ & H & H' & _).
  split; [exact E|]. split; [by vm_compute|]. split; [exact H|]. split; [exact H'|]. by vm_compute.
Defined.

(** A language that the project file forces and no module defines makes every
    translation throw; a defined one is used whatever the browser says. *)
Lemma forced_language m l text :
  __ (setLanguage m l) text = Throws <-> obj_get l (locales m) = None /\ inherited l = false.
Proof.
  unfold __, setLanguage, lang_lookup. cbn [locale locales].
  destruct (obj_get l (locales m)) as [d|].
  - split; [|by intros []]. destruct (obj_get text d), (inherited text); done.
  - destruct (inherited l); [by split; [|intros []]|]. by split.
Qed.
