(* ===== verification/ApiDataProps.v ===== *)
(** The documentation of the interface against the router: which of its entries
    tell a client what it needs to know. *)
From S2P Require Import Prelude JsNum JsString JsVal Regex Traffic Redis Async Dao Server ApiData.

(** The request an entry documents. *)
Definition meth_of (type : string) : option meth :=
  if String.eqb type "get" then Some GET_
  else if String.eqb type "post" then Some POST_
  else if String.eqb type "delete" then Some DELETE_
  else if String.eqb type "put" then Some PUT_
  else None.

Definition is_request_of (e : entry) (req : request) : Prop :=
  meth_of (etype e) = Some (rmethod req) /\ rpath req = eurl e.

(** The names of the parameters it lists. *)
Definition documented (e : entry) : list string :=
  match eparameter e with
  | Some b => ffield <$> concat (default [] (fields b)).*2
  | None => []
  end.

Definition only_documented (e : entry) (req : request) : Prop :=
  forall k v, query req !! k = Some v \/ body req !! k = Some v -> k ∈ documented e.

Definition same_documented (e : entry) (r r' : request) : Prop :=
  forall k, k ∈ documented e -> query r !! k = query r' !! k /\ body r !! k = body r' !! k.

Ltac by_entries :=
  repeat match goal with
         | H : _ ∈ _ :: _ |- _ => apply elem_of_cons in H as [->|H]
         | H : _ ∈ [] |- _ => by apply not_elem_of_nil in H
         end.

Section docs.
Variable MD5 : string -> string.
Variable cfg : config.
Variable iso : string.
Variable rnd : num.
Implicit Types (r : request).

(** The handler that an entry's request reaches. *)
Lemma route_deleteCSP_doc r :
  is_request_of doc_deleteCSP r -> route MD5 cfg iso rnd r = route_deleteCSP r.
Proof. intros [[= Hm] Hp]. unfold route, route_path. by rewrite <- Hm, Hp. Qed.

Lemma route_getCspConso_doc e r :
  eurl e = "/getCspConso" -> etype e = "get" -> is_request_of e r ->
  route MD5 cfg iso rnd r = route_getCspConso r.
Proof.
  intros Hu Ht [Hm Hp]. rewrite Ht in Hm. rewrite Hu in Hp. injection Hm as Hm.
  unfold route, route_path. by rewrite <- Hm, Hp.
Qed.

Lemma route_provRequest_doc r :
  is_request_of doc_provRequest r -> route MD5 cfg iso rnd r = provRequest r.
Proof. intros [[= Hm] Hp]. unfold route, route_path. by rewrite <- Hm, Hp. Qed.

Lemma route_getAppropriateTurn_doc r :
  is_request_of doc_getAppropriateTurn r ->
  route MD5 cfg iso rnd r = route_getAppropriateTurn MD5 iso rnd r.
Proof. intros [[= Hm] Hp]. unfold route, route_path. by rewrite <- Hm, Hp. Qed.

Lemma route_getCredentials_doc r :
  is_request_of doc_getCredentials r ->
  route MD5 cfg iso rnd r = route_getCredentials MD5 rnd r.
Proof. intros [[= Hm] Hp]. unfold route, route_path. by rewrite <- Hm, Hp. Qed.

Ltac listed_param := apply list_elem_of_In; vm_compute; intuition.

(** C36. Every entry of the documentation names a request the router handles, and,
    the deletion apart, lists every parameter its handler depends on: two requests
    that agree on the documented parameters get the same reaction. *)
Theorem documentation_complete e r r' :
  e ∈ api -> is_request_of e r -> is_request_of e r' ->
  (route MD5 cfg iso rnd r).1 <> Some NextRoute /\
  (eurl e <> "/deleteCSP" -> same_documented e r r' ->
   route MD5 cfg iso rnd r = route MD5 cfg iso rnd r').
Proof.
  intros He Hr Hr'. unfold api in He. by_entries.
  - rewrite route_deleteCSP_doc by done. unfold route_deleteCSP. split; [|done].
    by destruct (query r !! "cspkey").
  - rewrite !(route_getCspConso_doc doc_getCspConso_infos) by done. split; [done|].
    intros _ H. unfold route_getCspConso. by rewrite (proj1 (H "cspkey" ltac:(listed_param))).
  - rewrite !(route_getCspConso_doc doc_getCspConso) by done. split; [done|].
    intros _ H. unfold route_getCspConso. by rewrite (proj1 (H "cspkey" ltac:(listed_param))).
  - rewrite !route_provRequest_doc by done. split; [done|].
    intros _ H. unfold provRequest, form_of.
    rewrite (proj2 (H "servicename" ltac:(listed_param))), (proj2 (H "audio" ltac:(listed_param))),
      (proj2 (H "video" ltac:(listed_param))), (proj2 (H "qdata" ltac:(listed_param))).
    by destruct (registerCSP _ _).
  - rewrite !route_getAppropriateTurn_doc by done. split; [done|].
    intros _ H. unfold route_getAppropriateTurn.
    by rewrite (proj1 (H "cspId" ltac:(listed_param))), (proj1 (H "clientName" ltac:(listed_param))).
  - rewrite !route_getCredentials_doc by done. split; [done|].
    intros _ H. unfold route_getCredentials.
    by rewrite (proj1 (H "clientId" ltac:(listed_param))).
Qed.

(** A client that deletes a CSP the way the documentation says is never
    answered, and no command is sent to the database: the entry lists [cspKey] and
    the handler reads [cspkey]. *)
Theorem documented_delete_unanswered `{Redis St} r (s : St) :
  is_request_of doc_deleteCSP r -> only_documented doc_deleteCSP r ->
  let x := route MD5 cfg iso rnd r in
  x.1 = None /\ run x.2 s = (Resolved None, s).
Proof.
  intros Hr Hd x. subst x. rewrite route_deleteCSP_doc by done. unfold route_deleteCSP.
  destruct (query r !! "cspkey") as [v|] eqn:E; [|done].
  specialize (Hd _ _ (or_introl E)). by_entries. apply list_elem_of_In in Hd.
  vm_compute in Hd. by destruct Hd as [|[]].
Qed.
End docs.

(** * Witnesses *)

Lemma documentation_complete_witness :
  let q x := {| rmethod := GET_; rpath := "/getCspConso";
                query := {["cspkey" := "prov:a"; "debug" := x]};
                body := ∅; credentials := None |} in
  route id {| LOGIN := "l"; PASSWD := "p" |} "t" (Fin 0) (q "1") =
  route id {| LOGIN := "l"; PASSWD := "p" |} "t" (Fin 0) (q "2").
Proof.
  intros q.
  refine (proj2 (documentation_complete id {| LOGIN := "l"; PASSWD := "p" |} "t" (Fin 0)
    doc_getCspConso (q "1") (q "2") _ _ _) _ _).
  - unfold api. do 2 right. left.
  - by split.
  - by split.
  - done.
  - intros k Hk. apply list_elem_of_In in Hk. vm_compute in Hk.
    destruct Hk as [<-|[]]. split; by vm_compute.
Defined.

Definition documented_delete : request :=
  {| rmethod := DELETE_; rpath := "/deleteCSP"; query := {["cspKey" := "prov:a"]};
     body := ∅; credentials := None |}.

Lemma documented_delete_unanswered_witness :
  run (route id {| LOGIN := "l"; PASSWD := "p" |} "t" (Fin 0) documented_delete).2 (View 2 ∅ ∅) =
  (Resolved None, View 2 ∅ ∅).
Proof.
  refine (proj2 (documented_delete_unanswered (St := view) id {| LOGIN := "l"; PASSWD := "p" |}
    "t" (Fin 0) documented_delete (View 2 ∅ ∅) _ _)).
  - by split.
  - intros k v [H|H]; cbn in H; [|done].
    apply lookup_singleton_Some in H as [<- _]. apply list_elem_of_In. vm_compute. by left.
Defined.
