(* ===== verification/ApiDoc.v ===== *)
(** The documentation viewer, src/broker/BrokerServer/public/apidoc/main.js: how it
    orders the entries of [ApiData], builds the navigation and the articles, and what
    the version menus do to the page.

    Entries are shared: the page, the groups and the version menus refer to the same
    objects, which the code changes (a prefix before [url], an [id]), so entries live
    in a list and everything else holds positions in it.  The document is the part the
    scripts read and write: per section its articles with their attributes and
    classes, and the items of the navigation.  Group and entry names are used in
    selectors; they are taken to hold no quotes or selector syntax. *)
From S2P Require Import Prelude JsNum JsString JsVal JsObj Locale ApiData.

(** * Ordering *)

(** Default order of [Array.prototype.sort] on strings. *)
Definition str_le (a b : string) : Prop := str_lt b a = false.
#[export] Instance str_le_dec a b : Decision (str_le a b).
Proof. unfold str_le. apply _. Defined.
Definition sort_strings (l : list string) : list string := merge_sort str_le l.

Definition opt_truthy (o : option string) : bool := truthy (of_field o).

(** [results.indexOf(element) === -1] decides whether an element is appended. *)
Definition append_new (results : list string) (element : string) : list string :=
  if bool_decide (element ∈ results) then results else results ++ [element].

Definition sortByOrder (elements order : list string) (splitBy : option string) : list string :=
  let results := concat (map (fun name =>
    match splitBy with
    | Some sep => filter (fun element => split_str sep element !! 1%nat = Some name) elements
    | None => map (fun _ => name) (filter (fun key => key = name) elements)
    end) order) in
  foldl append_new results elements.

Definition custom_order (p : project) (l : list string) (splitBy : option string) : list string :=
  match porder p with Some order => sortByOrder l order splitBy | None => l end.

(** * Grouping *)

Abbreviation ref := nat.
Abbreviation obj V := (list (string * V)).

Definition with_refs (es : list entry) : list (ref * entry) := imap pair es.

Definition apiByGroup (es : list entry) : obj (list (ref * entry)) :=
  groupBy (fun x => egroup x.2) (with_refs es).

Definition apiByGroupAndName (es : list entry) : obj (obj (list (ref * entry))) :=
  foldl (fun o '(index, entries) => obj_set index (groupBy (fun x => ename x.2) entries) o)
        [] (own_keys (apiByGroup es)).

(** The separator keeps the name behind the title. *)
Definition marker : string := "#~#".

(** Titles of one group, from the first entry of every name.  The code also lowers
    the title and replaces its umlauts, and drops the result. *)
Definition group_titles (groupEntries : obj (list (ref * entry))) : list string :=
  omap (fun '(titleName, entries) =>
    match entries with
    | (_, e) :: _ => title ← etitle e; Some (title +:+ marker +:+ titleName)
    | [] => None
    end) (own_keys groupEntries).

(** The entries a title stands for; [None] when the name behind the marker is not a
    name of the group and the code reads [forEach] of [undefined]. *)
Definition titled_entries (groupEntries : obj (list (ref * entry))) (name : string) :
    option (list ref) :=
  match split_str marker name !! 1%nat with
  | Some key => match obj_get key groupEntries with
                | Some entries => Some (map fst entries)
                | None => None
                end
  | None => None
  end.

Definition ordered_group (p : project) (groupEntries : obj (list (ref * entry))) :
    option (list ref) :=
  let titles := sort_strings (group_titles groupEntries) in
  let titles := custom_order p titles (Some marker) in
  @concat _ <$> mapM (titled_entries groupEntries) titles.

(** All the entries: the value of [api] after the transformation. *)
Definition newList (p : project) (es : list entry) : option (list ref) :=
  @concat _ <$> mapM (fun x => ordered_group p x.2) (own_keys (apiByGroupAndName es)).

(** * Group and version lists *)

Section viewer.
(** The package semver: which texts are versions, and their order. *)
Variable semver_valid : string -> bool.
Variable semver_compare : string -> string -> comparison.
(** The module of [Locale], after [setLanguage]. *)
Variable language_module : locales_module.
Variable p : project.

Definition apiGroups (api : list entry) : list string :=
  let names := keys (foldl (fun o e => obj_set (egroup e) tt o) [] api) in
  custom_order p (sort_strings names) None.

Definition group_title (e : entry) : string :=
  if opt_truthy (egroupTitle e) then default "" (egroupTitle e) else egroup e.

Definition apiGroupTitles (api : list entry) : obj string :=
  foldl (fun o e => obj_set (egroup e) (group_title e) o) [] api.

Definition version_le (a b : string) : Prop := semver_compare a b <> Gt.
#[local] Instance version_le_dec a b : Decision (version_le a b).
Proof. unfold version_le. apply _. Defined.

(** Highest version first; the comparison throws on a text that is no version. *)
Definition apiVersions (api : list entry) : option (list string) :=
  let names := keys (foldl (fun o e => obj_set (eversion e) tt o) [(pversion p, tt)] api) in
  if (2 <=? length names)%nat && negb (forallb semver_valid names) then None
  else Some (rev (merge_sort version_le names)).

(** * Navigation *)

Record nav_entry := {
  n_group : string;
  n_title : option translated;
  n_header : bool;
  n_fixed : bool;
  n_hidden : bool;
  n_name : option string;
  n_type : option string;
  n_version : option string;
}.

Definition nav_header (group : string) (title : option translated) (fixed : bool) : nav_entry :=
  {| n_group := group; n_title := title; n_header := true; n_fixed := fixed; n_hidden := false;
     n_name := None; n_type := None; n_version := None |}.

Definition nav_item (group : string) (hidden : bool) (e : entry) : nav_entry :=
  {| n_group := group; n_title := Text <$> etitle e; n_header := false; n_fixed := false;
     n_hidden := hidden; n_name := Some (ename e); n_type := Some (etype e);
     n_version := Some (eversion e) |}.

(** The submenu of a group: an entry with the name of the entry before is hidden. *)
Fixpoint submenu (group oldName : string) (api : list entry) : list nav_entry :=
  match api with
  | [] => []
  | e :: api' =>
      if String.eqb (egroup e) group then
        nav_item group (String.eqb oldName (ename e)) e :: submenu group (ename e) api'
      else submenu group oldName api'
  end.

Definition group_nav (api : list entry) (group : string) : list nav_entry :=
  nav_header group (Text <$> obj_get group (apiGroupTitles api)) false :: submenu group "" api.

Definition nav_top : option (list nav_entry) :=
  match pheader p with
  | None => Some []
  | Some h =>
      match bar_title h with
      | Some title => Some [nav_header "_" (Some (Text title)) true]
      | None =>
          match __ language_module "General" with
          | Throws => None
          | title => Some [nav_header "_" (Some title) true]
          end
      end
  end.

Definition nav_bottom : list nav_entry :=
  match pfooter p with
  | Some {| bar_title := Some title |} => [nav_header "_footer" (Some (Text title)) true]
  | _ => []
  end.

Definition nav (api : list entry) : option (list nav_entry) :=
  match nav_top with
  | Some top => Some (top ++ concat (map (group_nav api) (apiGroups api)) ++ nav_bottom)
  | None => None
  end.

Definition page_title : string :=
  if opt_truthy (ptitle p) then default "" (ptitle p)
  else "apiDoc: " +:+ pname p +:+ " - " +:+ pversion p.

(** * The document *)

(** An item of the navigation with its attributes and classes. *)
Record li := {
  li_group : string;
  li_name : option string;
  li_version : option string;
  li_header : bool;
  li_fixed : bool;
  li_hide : bool;
  li_new : bool;
  li_modified : bool;
}.

(** What an article was rendered from. *)
Record article_fields := {
  f_article : option entry;
  f_compare : option entry;
  f_hidden : bool;
  f_versions : list string;
  f_id : option string;
  f_hasTypeInHeader : option bool;
  f_hasTypeInParameter : option bool;
  f_hasTypeInError : option bool;
  f_hasTypeInSuccess : option bool;
  f_hasTypeInInfo : option bool;
}.

(** An article of the document: its identity (a fresh number for every element the
    templates produce, below [next_node]), its [data-] attributes, the text of the
    version button, the class [hide] and the fields its text shows. *)
Record article := {
  a_node : nat;
  a_group : string;
  a_name : string;
  a_version : string;
  a_compare : option string;
  a_shown : string;
  a_hide : bool;
  a_fields : article_fields;
}.

Record section := { s_group : string; s_hide : bool; s_articles : list article }.

Record page := {
  entries : list entry;
  api_list : list ref;
  groups : list string;
  articleVersions : obj (obj (list string));
  main_version : string;
  sidenav : list li;
  sections : list section;
  next_node : nat;
}.

(** ** Rendering *)

(** [_hasTypeInFields]: some item of some group of fields has a type. *)
Definition hasTypeInFields (fields : obj (list field_doc)) : bool :=
  foldl (fun result '(_, items) =>
           if existsb (fun item => opt_truthy (ftype item)) items then true else result)
        false (own_keys fields).

Definition hasType (part : option block_doc) : option bool :=
  match part with
  | Some {| fields := Some fs |} => Some (hasTypeInFields fs)
  | _ => None
  end.

Definition entry_id (e : entry) : string :=
  replace_char "." "_" (egroup e +:+ "-" +:+ ename e +:+ "-" +:+ eversion e).

(** The text of [undefined + '-' + undefined + '-' + undefined]. *)
Definition no_id : string := "undefined-undefined-undefined".

Definition id_of (e : option entry) : string :=
  match e with Some e => entry_id e | None => no_id end.

(** [addArticleSettings]; [{}] stands for an entry that is not found. *)
Definition addArticleSettings (e : option entry) (hidden : bool) (versions : list string) :
    article_fields :=
  {| f_article := e; f_compare := None; f_hidden := hidden; f_versions := versions;
     f_id := Some (id_of e);
     f_hasTypeInHeader := e ≫= fun e => hasType (eheader e);
     f_hasTypeInParameter := e ≫= fun e => hasType (eparameter e);
     f_hasTypeInError := e ≫= fun e => hasType (eerror e);
     f_hasTypeInSuccess := e ≫= fun e => hasType (esuccess e);
     f_hasTypeInInfo := e ≫= fun e => hasType (einfo e) |}.

Definition attr (f : entry -> string) (e : option entry) : string :=
  match e with Some e => f e | None => "" end.

(** The templates template-article and template-compare-article of index.html. *)
Definition templateArticle (node : nat) (f : article_fields) : article :=
  let e := f_article f in
  {| a_node := node; a_group := attr egroup e; a_name := attr ename e;
     a_version := attr eversion e; a_compare := None;
     a_shown := escape_html (attr eversion e); a_hide := f_hidden f; a_fields := f |}.

Definition templateCompareArticle (node : nat) (f : article_fields) : article :=
  let e := f_article f in
  {| a_node := node; a_group := attr egroup e; a_name := attr ename e;
     a_version := attr eversion e; a_compare := Some (attr eversion (f_compare f));
     a_shown := escape_html (attr eversion (f_compare f)); a_hide := false; a_fields := f |}.

(** [articleVersions[group][name]], an own property. *)
Definition versions_of (av : obj (obj (list string))) (group name : string) :
    option (list string) :=
  match obj_get group av with Some o => obj_get name o | None => None end.

(** One version pushed to the list of a name; a name that every object inherits is
    found without a list behind it, and [push] throws. *)
Definition push_version (av : obj (obj (list string))) (group name version : string) :
    option (obj (obj (list string))) :=
  match obj_get group av with
  | None => None
  | Some o =>
      match obj_get name o with
      | Some l => Some (obj_set group (obj_set name (l ++ [version]) o) av)
      | None => if inherited name then None
                else Some (obj_set group (obj_set name [version] o) av)
      end
  end.

Definition same_key (a b : entry) : bool :=
  String.eqb (egroup a) (egroup b) && String.eqb (ename a) (ename b).

(** The versions of all the entries with the name of [e]. *)
Definition determine_versions (api : list entry) (e : entry) (av : obj (obj (list string))) :
    option (obj (obj (list string))) :=
  foldl (fun av v => match av with
                     | Some av => if same_key e v
                                  then push_version av (egroup v) (ename v) (eversion v)
                                  else Some av
                     | None => None
                     end) (Some av) api.

(** Entries read through their references; a reference is always valid. *)
Definition deref (es : list entry) (l : list ref) : list entry := omap (fun i => es !! i) l.

Definition set_url (e : entry) (url : string) : entry :=
  Build_entry (etype e) url (etitle e) (ename e) (egroup e) (eheader e) (eparameter e)
    (esuccess e) (eerror e) (einfo e) (eversion e) (efilename e) (egroupTitle e)
    (egroupDescription e) (eid e).

Definition set_id (e : entry) (id : string) : entry :=
  Build_entry (etype e) (eurl e) (etitle e) (ename e) (egroup e) (eheader e) (eparameter e)
    (esuccess e) (eerror e) (einfo e) (eversion e) (efilename e) (egroupTitle e)
    (egroupDescription e) (Some id).

(** The prefix of the project before the URL of an entry. *)
Definition prefix_url (e : entry) : entry :=
  match purl p with
  | Some url => if String.eqb url "" then e else set_url e (url +:+ eurl e)
  | None => e
  end.

(** The loop that renders the articles of a group. *)
Record rendering := {
  r_entries : list entry;
  r_versions : obj (obj (list string));
  r_articles : list article;
  r_oldName : string;
  r_title : string;
  r_description : string;
  r_node : nat;
}.

Definition render_entry (api : list ref) (group : string) (r : rendering) (i : ref) :
    option rendering :=
  match r_entries r !! i with
  | None => Some r
  | Some e =>
      if String.eqb group (egroup e) then
        let first := negb (String.eqb (r_oldName r) (ename e)) in
        match (if first then determine_versions (deref (r_entries r) api) e (r_versions r)
               else Some (r_versions r)) with
        | None => None
        | Some av =>
            let e' := prefix_url e in
            let versions := default [] (versions_of av (egroup e) (ename e)) in
            let fields := addArticleSettings (Some e') (negb first) versions in
            Some {| r_entries := <[i := e']> (r_entries r);
                    r_versions := av;
                    r_articles := r_articles r ++ [templateArticle (r_node r) fields];
                    r_oldName := ename e;
                    r_title := if opt_truthy (egroupTitle e) then default "" (egroupTitle e)
                               else r_title r;
                    r_description := if opt_truthy (egroupDescription e)
                                     then default "" (egroupDescription e) else r_description r;
                    r_node := S (r_node r) |}
        end
      else Some r
  end.

Definition option_foldl {A B} (f : A -> B -> option A) : option A -> list B -> option A :=
  foldl (fun a b => match a with Some a => f a b | None => None end).

Definition render_group (api : list ref) (st : list entry * obj (obj (list string)) * nat * list section)
    (group : string) : option (list entry * obj (obj (list string)) * nat * list section) :=
  let '(es, av, node, secs) := st in
  match option_foldl (render_entry api group)
          (Some {| r_entries := es; r_versions := obj_set group [] av; r_articles := [];
                   r_oldName := ""; r_title := group; r_description := ""; r_node := node |}) api with
  | Some r => Some (r_entries r, r_versions r, r_node r,
                    secs ++ [{| s_group := group; s_hide := false; s_articles := r_articles r |}])
  | None => None
  end.

(** template-sidenav leaves out an item without a title. *)
Definition nav_shown (n : nav_entry) : bool :=
  match n_title n with Some (Text "") | None => false | _ => true end.

Definition nav_li (n : nav_entry) : li :=
  {| li_group := n_group n; li_name := n_name n; li_version := n_version n;
     li_header := n_header n; li_fixed := n_fixed n;
     li_hide := if n_header n then false else n_hidden n;
     li_new := false; li_modified := false |}.

Definition templateSidenav (nav : list nav_entry) : list li :=
  map nav_li (filter (fun n => nav_shown n = true) nav).

(** ** The version menus *)

Definition upd_li (f : li -> bool) (g : li -> li) (l : list li) : list li :=
  map (fun x => if f x then g x else x) l.

Definition li_set_new (b : bool) (x : li) : li :=
  Build_li (li_group x) (li_name x) (li_version x) (li_header x) (li_fixed x) (li_hide x) b
    (li_modified x).
Definition li_set_hide (b : bool) (x : li) : li :=
  Build_li (li_group x) (li_name x) (li_version x) (li_header x) (li_fixed x) b (li_new x)
    (li_modified x).
Definition li_set_modified (b : bool) (x : li) : li :=
  Build_li (li_group x) (li_name x) (li_version x) (li_header x) (li_fixed x) (li_hide x)
    (li_new x) b.

Definition upd_sidenav (pg : page) (l : list li) : page :=
  Build_page (entries pg) (api_list pg) (groups pg) (articleVersions pg) (main_version pg) l
    (sections pg) (next_node pg).
Definition upd_sections (pg : page) (l : list section) : page :=
  Build_page (entries pg) (api_list pg) (groups pg) (articleVersions pg) (main_version pg)
    (sidenav pg) l (next_node pg).

(** Selectors [[data-group='..'][data-name='..'][data-version='..']] with the values
    [.data] gave, which read as the attributes do. *)
Definition attr_is (text : option string) (v : jsval) : bool :=
  bool_decide (text = Some (to_str v)).

Definition li_is (group name : jsval) (x : li) : bool :=
  attr_is (Some (li_group x)) group && attr_is (li_name x) name.

Definition template_withCompare : bool :=
  match ptemplate p with
  | Some t => default true (withCompare t)
  | None => true
  end.

(** The class [is-new]: an item of the main version that is the last of its group
    and name.  [jQuery] reads the group and the name of the item with [.data]; a
    header has no name. *)
Definition li_key_is (x y : li) : bool :=
  String.eqb (li_group x) (li_group y) &&
  match li_name x with
  | Some n => bool_decide (li_name y = Some n)
  | None => bool_decide (li_name y = Some "undefined")
  end.

Fixpoint mark_new (version : string) (l : list li) : list li :=
  match l with
  | [] => []
  | x :: l' =>
      (if bool_decide (li_version x = Some version) && negb (existsb (li_key_is x) l')
       then li_set_new true x else x) :: mark_new version l'
  end.

Definition initDynamic (pg : page) : page :=
  let cleared := map (li_set_new false) (sidenav pg) in
  upd_sidenav pg (if template_withCompare then mark_new (main_version pg) cleared else cleared).

Definition art_set_hide (b : bool) (a : article) : article :=
  Build_article (a_node a) (a_group a) (a_name a) (a_version a) (a_compare a) (a_shown a) b
    (a_fields a).
Definition art_set_shown (s : string) (a : article) : article :=
  Build_article (a_node a) (a_group a) (a_name a) (a_version a) (a_compare a) s (a_hide a)
    (a_fields a).

Definition map_articles (f : article -> article) (l : list section) : list section :=
  map (fun s => Build_section (s_group s) (s_hide s) (map f (s_articles s))) l.

Definition all_articles (l : list section) : list article := concat (map s_articles l).

(** [:visible]: neither the article nor its section is hidden. *)
Definition visible_articles (l : list section) : list article :=
  concat (map (fun s => if s_hide s then [] else filter (fun a => a_hide a = false) (s_articles s)) l).

Definition article_is (group name : jsval) (a : article) : bool :=
  attr_is (Some (a_group a)) group && attr_is (Some (a_name a)) name.

(** The first loop of the main version menu: the first article of a name, in document
    order, that is not above the selected version is shown. *)
Definition show_article (selected : string) (pg : page) (a : article) : page :=
  let group := data_attr (a_group a) in
  let name := data_attr (a_name a) in
  let version := data_attr (a_version a) in
  if js_le version (JStr selected) &&
     negb (existsb (article_is group name) (visible_articles (sections pg)))
  then
    let secs := map_articles (fun b =>
      if article_is group name b && attr_is (Some (a_version b)) version
      then art_set_hide false b else b) (sections pg) in
    let nav1 := upd_li (fun x => li_is group name x && attr_is (li_version x) version)
                  (li_set_hide false) (sidenav pg) in
    let nav2 := upd_li (fun x => li_header x && attr_is (Some (li_group x)) group)
                  (li_set_hide false) nav1 in
    upd_sections (upd_sidenav pg nav2) secs
  else pg.

(** The second loop: a section shows itself when one of its articles is visible. *)
Definition show_section (l : list section) (a : article) : list section :=
  let group := to_str (data_attr (a_group a)) in
  let shown := map (fun s => if String.eqb (s_group s) group
                             then Build_section (s_group s) false (s_articles s) else s) l in
  let some_visible := existsb (fun s => String.eqb (s_group s) group &&
                        existsb (fun a => negb (a_hide a)) (s_articles s)) shown in
  map (fun s => if String.eqb (s_group s) group
                then Build_section (s_group s) (negb some_visible) (s_articles s) else s) shown.

(** A click on an entry of the main version menu. *)
Definition select_version (pg : page) (selected : string) : page :=
  let pg := Build_page (entries pg) (api_list pg) (groups pg) (articleVersions pg) selected
              (sidenav pg) (sections pg) (next_node pg) in
  let pg := upd_sections pg (map_articles (art_set_hide true) (sections pg)) in
  let pg := upd_sidenav pg (upd_li (fun x => negb (li_fixed x)) (li_set_hide true) (sidenav pg)) in
  let arts := all_articles (sections pg) in
  let pg := foldl (show_article selected) pg arts in
  let pg := upd_sections pg (foldl show_section (sections pg) arts) in
  initDynamic pg.

(** Every article of the node list is replaced by what [f] makes of it. *)
Definition replace_articles (f : article -> option article) (l : list section) : list section :=
  map_articles (fun a => default a (f a)) l.

(** The entries of a group and name, through their references. *)
Definition named_refs (pg : page) (group name : string) : option (list ref) :=
  match obj_get group (apiByGroupAndName (entries pg)) with
  | Some o => match obj_get name o with Some l => Some (map fst l) | None => None end
  | None => None
  end.

(** The last entry whose version is [v], as [$.each] leaves it. *)
Definition find_version (es : list entry) (l : list ref) (v : jsval) : option ref :=
  foldl (fun found i => match es !! i with
                        | Some e => if strict_eq (JStr (eversion e)) v then Some i else found
                        | None => found
                        end) None l.

(** [resetArticle]: the visible articles of the name are rendered afresh from the entry
    with the given version. *)
Definition resetArticle (pg : page) (group name version : jsval) : option page :=
  let g := to_str group in let n := to_str name in
  match named_refs pg g n, obj_get g (articleVersions pg) with
  | Some l, Some _ =>
      let e := find_version (entries pg) l version ≫= fun i => entries pg !! i in
      let fields := addArticleSettings e false (default [] (versions_of (articleVersions pg) g n)) in
      let roots := filter (fun a => article_is group name a = true) (visible_articles (sections pg)) in
      let secs := replace_articles (fun a =>
        if bool_decide (a_node a ∈ map a_node roots)
        then Some (templateArticle (next_node pg + a_node a) fields) else None) (sections pg) in
      let nav := upd_li (fun x => li_is group name x && attr_is (li_version x) version)
                   (li_set_modified false) (sidenav pg) in
      Some (Build_page (entries pg) (api_list pg) (groups pg) (articleVersions pg)
              (main_version pg) nav secs (next_node pg + next_node pg))
  | _, _ => None
  end.

(** [$.each] over a missing group or name throws; so does reading its versions. *)
Definition either (a b : option bool) : option bool :=
  match a with Some true => a | _ => match b with Some _ => b | None => a end end.

Definition compare_fields (source compare : option entry) (versions : list string) : article_fields :=
  let part f := either (source ≫= fun e => hasType (f e)) (compare ≫= fun e => hasType (f e)) in
  {| f_article := source; f_compare := compare; f_hidden := false; f_versions := versions;
     f_id := None; f_hasTypeInHeader := None;
     f_hasTypeInParameter := part eparameter; f_hasTypeInError := part eerror;
     f_hasTypeInSuccess := part esuccess; f_hasTypeInInfo := part einfo |}.

Definition assign_id (es : list entry) (i : option ref) : list entry :=
  match i with
  | Some i => match es !! i with Some e => <[i := set_id e (entry_id e)]> es | None => es end
  | None => es
  end.

(** A click on a version of an article, or a click that [trigger] makes; [root] is the
    article around the clicked item, which may have left the document meanwhile.  The
    second component tells whether an exception stopped the handler. *)
Definition changeVersionCompareTo (pg : page) (root : article) (selectedVersion : string) :
    page * bool :=
  let currentVersion := a_shown root in
  let pg := upd_sections pg (map_articles (fun a =>
    if Nat.eqb (a_node a) (a_node root) then art_set_shown selectedVersion a else a) (sections pg)) in
  let group := data_attr (a_group root) in
  let name := data_attr (a_name root) in
  let version := data_attr (a_version root) in
  let compareVersion := match a_compare root with Some c => data_attr c | None => Undef end in
  let g := to_str group in let n := to_str name in
  if strict_eq compareVersion (JStr selectedVersion) then (pg, false)
  else if negb (truthy compareVersion) && loose_eq version (JStr selectedVersion) then (pg, false)
  else
    match (if truthy compareVersion
           then match versions_of (articleVersions pg) g n with
                | Some l => Some (bool_decide (head l = Some selectedVersion))
                | None => None
                end
           else Some false) with
    | None => (pg, true)
    | Some highest =>
        if highest || strict_eq version (JStr selectedVersion) then
          match resetArticle pg group name version with
          | Some pg => (initDynamic pg, false)
          | None => (pg, true)
          end
        else
          match named_refs pg g n, obj_get g (articleVersions pg) with
          | Some l, Some _ =>
              let source := find_version (entries pg) l version in
              let compare := find_version (entries pg) l (JStr selectedVersion) in
              let es := assign_id (assign_id (entries pg) source) compare in
              let fields := compare_fields (source ≫= fun i => es !! i) (compare ≫= fun i => es !! i)
                              (default [] (versions_of (articleVersions pg) g n)) in
              let content := templateCompareArticle (next_node pg + a_node root) fields in
              let secs := replace_articles (fun a =>
                if Nat.eqb (a_node a) (a_node root) then Some content else None) (sections pg) in
              let nav := upd_li (fun x => li_is group name x && bool_decide (li_version x = Some currentVersion))
                           (li_set_modified true) (sidenav pg) in
              (initDynamic (Build_page es (api_list pg) (groups pg) (articleVersions pg)
                 (main_version pg) nav secs (next_node pg + next_node pg)), false)
          | _, _ => (pg, true)
          end
    end.

(** The versions the menu of an article offers. *)
Definition menu (a : article) : list string :=
  match a_compare a with
  | Some _ => map escape_html (f_versions (a_fields a))
  | None => if template_withCompare then map escape_html (f_versions (a_fields a)) else []
  end.

(** [changeAllVersionCompareTo]: every visible article with a menu is compared with
    the first lower version of its menu.  An exception in a triggered click ends it. *)
Definition predecessor (a : article) : option string :=
  head (filter (fun v => js_lt (JStr v) (data_attr (a_version a)) = true) (menu a)).

Definition changeAllVersionCompareTo (pg : page) : page * bool :=
  let '(pg, threw) := foldl (fun '(pg, threw) a =>
    if threw : bool then (pg, true)
    else match predecessor a with
         | Some v => changeVersionCompareTo pg a v
         | None => (pg, false)
         end) (pg, false) (visible_articles (sections pg)) in
  if threw then (pg, true) else (initDynamic pg, false).

(** A click of the user on version [v] of the article with this identity. *)
Definition click_version (pg : page) (node : nat) (v : string) : page * bool :=
  match head (filter (fun a => a_node a = node) (all_articles (sections pg))) with
  | Some root => if bool_decide (v ∈ menu root) then changeVersionCompareTo pg root v else (pg, false)
  | None => (pg, false)
  end.

(** What the reader does; the handlers keep the page they leave when they throw. *)
Inductive page_event :=
  | MainVersion (v : string)
  | ArticleVersion (node : nat) (v : string)
  | CompareAll.

Definition on_event (pg : page) (ev : page_event) : page :=
  match ev with
  | MainVersion v => select_version pg v
  | ArticleVersion node v => (click_version pg node v).1
  | CompareAll => (changeAllVersionCompareTo pg).1
  end.

(** ** Parameters of the address *)

(** The character class of [$.urlParam] was written with HTML entities. *)
Definition param_start (c : ascii) : bool :=
  bool_decide (c ∈ ["?"; "&"; "a"; "m"; "p"; ";"]%char).
Definition param_end (c : ascii) : bool :=
  bool_decide (c ∈ ["&"; "a"; "m"; "p"; ";"; "#"]%char).

Fixpoint take_until (stop : ascii -> bool) (s : string) : string :=
  match s with
  | String c s' => if stop c then "" else String c (take_until stop s')
  | EmptyString => ""
  end.

(** The leftmost match of the pattern; an empty value counts as none. *)
Fixpoint urlParam (name href : string) : option string :=
  match href with
  | EmptyString => None
  | String c s' =>
      match (if param_start c then drop_prefix (name +:+ "=") s' else None) with
      | Some r => let v := take_until param_end r in if String.eqb v "" then None else Some v
      | None => urlParam name s'
      end
  end.

(** ** The page when it has loaded *)

Definition boot (es : list entry) (href : string) : option (page * bool) :=
  match newList p es with
  | None => None
  | Some api =>
      let listed := deref es api in
      match apiVersions listed, nav listed with
      | Some _, Some n =>
          match option_foldl (render_group api) (Some (es, [], 0%nat, [])) (apiGroups listed) with
          | Some (es', av, node, secs) =>
              let pg := initDynamic
                {| entries := es'; api_list := api; groups := apiGroups listed;
                   articleVersions := av; main_version := escape_html (pversion p);
                   sidenav := templateSidenav n; sections := secs; next_node := node |} in
              Some (match urlParam "compare" href with
                    | Some _ => if template_withCompare then changeAllVersionCompareTo pg else (pg, false)
                    | None => (pg, false)
                    end)
          | None => None
          end
      | _, _ => None
      end
  end.
End viewer.
