(* ===== verification/ApiDocProps.v ===== *)
(** What the documentation viewer guarantees: the order of the entries, the articles
    the version menus show, the comparison of versions. *)
From S2P Require Import Prelude Lists JsNum JsString JsVal JsObj Locale ApiData ApiDoc.

(** * The custom order *)

(** What an element is compared by. *)
Definition order_key (splitBy : option string) (element : string) : option string :=
  match splitBy with
  | Some sep => split_str sep element !! 1%nat
  | None => Some element
  end.

Definition picked (elements order : list string) (splitBy : option string) : list string :=
  concat (map (fun name => filter (fun e => order_key splitBy e = Some name) elements) order).

Lemma append_new_spec l r :
  NoDup l -> foldl append_new r l = r ++ filter (fun e => ~ e ∈ r) l.
Proof.
  revert r. induction l as [|x l IH]; intros r HN; cbn [foldl]; [by rewrite app_nil_r|].
  apply NoDup_cons in HN as [Hx HN]. rewrite IH by done. unfold append_new.
  rewrite filter_cons. case_bool_decide as Hr; [by rewrite decide_False by auto|].
  rewrite decide_True by done. rewrite <- app_assoc. cbn. do 2 f_equal.
  apply filter_ext_in. intros y Hy. rewrite elem_of_app, list_elem_of_singleton.
  split; [tauto|]. intros Hn [?| ->]; [tauto|done].
Qed.

Lemma filter_name (elements : list string) name :
  map (fun _ => name) (filter (fun key => key = name) elements) =
  filter (fun e => order_key None e = Some name) elements.
Proof.
  induction elements as [|e l IH]; [done|]. rewrite !filter_cons. cbn [order_key].
  destruct (decide (e = name)) as [->|Hne].
  - rewrite decide_True by done. cbn. by rewrite IH.
  - rewrite decide_False by congruence. by rewrite IH.
Qed.

Lemma picked_eq elements order splitBy :
  concat (map (fun name =>
    match splitBy with
    | Some sep => filter (fun element => split_str sep element !! 1%nat = Some name) elements
    | None => map (fun _ => name) (filter (fun key => key = name) elements)
    end) order) = picked elements order splitBy.
Proof. unfold picked. f_equal. apply map_ext. intros name. destruct splitBy; [done|apply filter_name]. Qed.

Lemma sortByOrder_eq elements order splitBy :
  NoDup elements ->
  sortByOrder elements order splitBy =
  picked elements order splitBy ++ filter (fun e => ~ e ∈ picked elements order splitBy) elements.
Proof. intros HN. unfold sortByOrder. rewrite picked_eq. by apply append_new_spec. Qed.

Lemma elem_picked e elements order splitBy :
  e ∈ picked elements order splitBy <->
  e ∈ elements /\ exists name, order_key splitBy e = Some name /\ name ∈ order.
Proof.
  unfold picked. rewrite elem_concat. split.
  - intros (l & (name & -> & Hn)%list_elem_of_fmap & (Hk & He)%list_elem_of_filter). eauto.
  - intros (He & name & Hk & Hn). exists (filter (fun e => order_key splitBy e = Some name) elements).
    split; [apply list_elem_of_fmap; eauto|by apply list_elem_of_filter].
Qed.

Lemma sortByOrder_Permutation elements order splitBy :
  NoDup elements -> NoDup order -> sortByOrder elements order splitBy ≡ₚ elements.
Proof.
  intros HN HO. rewrite sortByOrder_eq by done.
  rewrite (filter_complement_Permutation (fun e => e ∈ picked elements order splitBy)); [done| |done|].
  - apply (NoDup_concat_keyed (order_key splitBy)); [done| |].
    + intros k. by apply NoDup_filter.
    + intros k x Hx. by apply list_elem_of_filter in Hx as [? _].
  - intros x. rewrite elem_picked. tauto.
Qed.

Definition in_order (order : list string) (splitBy : option string) (e : string) : bool :=
  match order_key splitBy e with Some name => bool_decide (name ∈ order) | None => false end.

Lemma elem_picked_in_order e elements order splitBy :
  e ∈ elements -> e ∈ picked elements order splitBy <-> in_order order splitBy e = true.
Proof.
  intros He. rewrite elem_picked. unfold in_order. split.
  - intros (_ & name & -> & Hn). by apply bool_decide_eq_true.
  - destruct (order_key splitBy e) as [name|]; [|done]. intros H%bool_decide_eq_true. eauto.
Qed.

(** The custom order puts the elements whose name it lists first, in its order and
    otherwise as they were, then the others as they were; nothing is lost, and nothing
    is repeated unless the order itself repeats a name. *)
Theorem sortByOrder_stable elements order splitBy :
  NoDup elements ->
  sortByOrder elements order splitBy =
    concat (map (fun name => filter (fun e => order_key splitBy e = Some name) elements) order) ++
    filter (fun e => in_order order splitBy e = false) elements /\
  (NoDup order -> sortByOrder elements order splitBy ≡ₚ elements).
Proof.
  intros HN. split; [|by apply sortByOrder_Permutation].
  rewrite sortByOrder_eq by done. unfold picked. f_equal. apply filter_ext_in.
  intros e He. rewrite <- not_true_iff_false, <- (elem_picked_in_order e elements) by done.
  unfold picked. tauto.
Qed.

Lemma sortByOrder_stable_witness :
  sortByOrder ["get#~#a"; "get#~#b"; "post#~#c"] ["c"; "a"] (Some marker) ≡ₚ
    ["get#~#a"; "get#~#b"; "post#~#c"].
Proof.
  refine (proj2 (sortByOrder_stable ["get#~#a"; "get#~#b"; "post#~#c"] ["c"; "a"] (Some marker) _) _);
    apply (bool_decide_eq_true _); by vm_compute.
Defined.

(** * The order of the entries *)

(** A text without the character the marker begins with. *)
Definition unmarked (s : string) : bool := str_all (fun c => negb (eqc c "#")) s.

Lemma split_unmarked cur s : unmarked s = true -> split_str_go marker 0 cur s = [String.rev cur +:+ s].
Proof.
  revert cur. induction s as [|c s IH]; intros cur H; cbn [split_str_go].
  - by rewrite string_app_nil_r.
  - unfold unmarked in H. cbn [str_all] in H. apply andb_true_iff in H as [Hc H].
    assert (has_prefix marker (String c s) = false) as ->.
    { unfold has_prefix, marker. cbn [drop_prefix]. unfold eqc in *.
      rewrite Ascii.eqb_sym. by destruct (Ascii.eqb c "#"). }
    rewrite IH by done. rewrite rev_cons. by rewrite <- string_app_assoc.
Qed.

Lemma split_marked cur t n :
  unmarked t = true -> unmarked n = true ->
  split_str_go marker 0 cur (t +:+ marker +:+ n) = [String.rev cur +:+ t; n].
Proof.
  intros Ht Hn. revert cur. induction t as [|c t IH]; intros cur.
  - rewrite string_app_nil_l, string_app_nil_r.
    transitivity (String.rev cur :: split_str_go marker 0 "" n); [reflexivity|].
    rewrite split_unmarked by done. by rewrite string_app_nil_l.
  - unfold unmarked in Ht. cbn [str_all] in Ht. apply andb_true_iff in Ht as [Hc Ht].
    rewrite string_app_cons. cbn [split_str_go].
    assert (has_prefix marker (String c (t +:+ marker +:+ n)) = false) as ->.
    { unfold has_prefix, marker. cbn [drop_prefix]. unfold eqc in *.
      rewrite Ascii.eqb_sym. by destruct (Ascii.eqb c "#"). }
    rewrite IH by done. rewrite rev_cons, <- string_app_assoc. done.
Qed.

Lemma marked_key t n :
  unmarked t = true -> unmarked n = true -> split_str marker (t +:+ marker +:+ n) !! 1%nat = Some n.
Proof. intros Ht Hn. unfold split_str. by rewrite split_marked. Qed.

(** An object built by one assignment per property of another. *)
Lemma foldl_obj_set {A B} (f : A -> B) (l : list (string * A)) (o : list (string * B)) :
  NoDup (o.*1 ++ l.*1) ->
  foldl (fun o '(k, v) => obj_set k (f v) o) o l = o ++ map (fun '(k, v) => (k, f v)) l.
Proof.
  revert o. induction l as [|[k v] l IH]; intros o HN; cbn; [by rewrite app_nil_r|].
  rewrite obj_set_fresh.
  - rewrite IH.
    + by rewrite <- app_assoc.
    + rewrite fmap_app, <- app_assoc. done.
  - apply obj_get_None. intros Hk. apply NoDup_app in HN as (_ & H & _).
    apply (H k Hk). cbn. left.
Qed.

Section ordering.
Variable p : project.
Hypothesis order_NoDup : forall order, porder p = Some order -> NoDup order.

Lemma custom_order_Permutation l splitBy : NoDup l -> custom_order p l splitBy ≡ₚ l.
Proof.
  intros HN. unfold custom_order. destruct (porder p) as [order|] eqn:E; [|done].
  apply sortByOrder_Permutation; eauto.
Qed.

Definition titled (x : ref * entry) : Prop :=
  unmarked (ename x.2) = true /\ exists t, etitle x.2 = Some t /\ unmarked t = true.

Section group.
Variable l : list (ref * entry).
Hypothesis l_titled : forall x, x ∈ l -> titled x.

(** What a title of the group stands for. *)
Definition stands_for (title : string) : list ref :=
  match split_str marker title !! 1%nat with
  | Some key => map fst (bucket (fun x => ename x.2) key l)
  | None => []
  end.

Lemma group_title_of name es :
  (name, es) ∈ groupBy (fun x : ref * entry => ename x.2) l ->
  exists t, unmarked t = true /\ unmarked name = true /\
    match es with
    | (_, e) :: _ => title ← etitle e; Some (title +:+ marker +:+ name)
    | [] => None
    end = Some (t +:+ marker +:+ name).
Proof.
  intros [-> Hne]%elem_groupBy.
  destruct (bucket _ name l) as [|[i e] b] eqn:E; [done|].
  assert ((i, e) ∈ bucket (fun x : ref * entry => ename x.2) name l) as Hx by (rewrite E; left).
  apply list_elem_of_filter in Hx as [Hn Hx]. cbn in Hn. subst name.
  destruct (l_titled _ Hx) as (Hu & t & Ht & Htu). cbn in *. exists t. by rewrite Ht.
Qed.

Lemma group_titles_names :
  (fun t => split_str marker t !! 1%nat) <$> group_titles (groupBy (fun x => ename x.2) l) =
  Some <$> (own_keys (groupBy (fun x => ename x.2) l)).*1.
Proof.
  unfold group_titles. pose proof group_title_of as G.
  assert (H : forall x, x ∈ own_keys (groupBy (fun x : ref * entry => ename x.2) l) ->
                x ∈ groupBy (fun x : ref * entry => ename x.2) l) by (intros x; by rewrite elem_own_keys).
  induction (own_keys (groupBy (fun x : ref * entry => ename x.2) l)) as [|[name es] k IH]; [done|].
  destruct (G name es) as (t & Ht & Hn & E); [apply H; left|].
  cbn [omap list_omap fmap list_fmap]. rewrite E. cbn [fmap list_fmap].
  rewrite marked_key by done. f_equal. apply IH. intros. apply H. by right.
Qed.

Lemma group_titles_NoDup : NoDup (group_titles (groupBy (fun x => ename x.2) l)).
Proof.
  apply (NoDup_fmap_1 (fun t => split_str marker t !! 1%nat)). rewrite group_titles_names.
  apply NoDup_fmap; [by intros ?? [= ->]|]. apply keys_NoDup, groupBy_NoDup.
Qed.

Lemma stands_for_all :
  concat (map stands_for (group_titles (groupBy (fun x => ename x.2) l))) ≡ₚ map fst l.
Proof.
  assert (E : map stands_for (group_titles (groupBy (fun x => ename x.2) l)) =
    map (fun k => map fst (bucket (fun x : ref * entry => ename x.2) k l))
        (own_keys (groupBy (fun x => ename x.2) l)).*1).
  { transitivity (map (fun o => match o with
        | Some key => map fst (bucket (fun x : ref * entry => ename x.2) key l)
        | None => [] end)
        ((fun t => split_str marker t !! 1%nat) <$> group_titles (groupBy (fun x => ename x.2) l))).
    - by rewrite <- list_fmap_compose.
    - rewrite group_titles_names. by rewrite <- list_fmap_compose. }
  rewrite E. rewrite <- list_fmap_compose.
  transitivity (concat (map (fun x => map fst x.2) (own_keys (groupBy (fun x : ref * entry => ename x.2) l)))).
  { apply concat_map_Permutation. intros [k b] [-> _]%elem_own_keys%elem_groupBy. done. }
  rewrite own_keys_Permutation.
  rewrite <- (concat_buckets (fun x : ref * entry => ename x.2) l) at 2.
  generalize (groupBy (fun x : ref * entry => ename x.2) l). intros o.
  induction o as [|[k b] o IH]; [done|]. cbn. rewrite map_app. by rewrite IH.
Qed.

Lemma ordered_group_Permutation :
  exists r, ordered_group p (groupBy (fun x => ename x.2) l) = Some r /\ r ≡ₚ map fst l.
Proof.
  set (ge := groupBy (fun x : ref * entry => ename x.2) l).
  set (titles := custom_order p (sort_strings (group_titles ge)) (Some marker)).
  assert (HP : titles ≡ₚ group_titles ge).
  { unfold titles, sort_strings. rewrite custom_order_Permutation; [apply merge_sort_Permutation|].
    rewrite merge_sort_Permutation. apply group_titles_NoDup. }
  exists (concat (map stands_for titles)). split.
  - unfold ordered_group. fold ge titles.
    rewrite (mapM_total _ stands_for); [done|].
    intros t Ht. rewrite HP in Ht. unfold titled_entries, stands_for.
    assert (Hs : Some <$> (own_keys ge).*1 ≡ₚ (fun t => split_str marker t !! 1%nat) <$> group_titles ge)
      by (unfold ge; by rewrite group_titles_names).
    assert (Hk : split_str marker t !! 1%nat ∈ Some <$> (own_keys ge).*1).
    { rewrite Hs. apply list_elem_of_fmap. eauto. }
    apply list_elem_of_fmap in Hk as (k & -> & Hk).
    apply elem_keys in Hk as [b Hb]. rewrite Hb.
    unfold ge in Hb. rewrite groupBy_get in Hb. by destruct (bucket _ k l); simplify_eq.
  - rewrite HP. apply stands_for_all.
Qed.
End group.

Lemma with_refs_elem es i e : (i, e) ∈ with_refs es <-> es !! i = Some e.
Proof.
  unfold with_refs. rewrite elem_of_lookup_imap. split.
  - by intros (j & x & [= -> ->] & H).
  - intros H. by exists i, e.
Qed.

Lemma with_refs_fst es : map fst (with_refs es) = seq 0 (length es).
Proof.
  unfold with_refs. apply list_eq. intros i. rewrite list_lookup_fmap, list_lookup_imap.
  destruct (es !! i) as [e|] eqn:E; cbn.
  - rewrite lookup_seq_lt; [done|]. by apply lookup_lt_Some in E.
  - rewrite lookup_seq_ge; [done|]. by apply lookup_ge_None in E.
Qed.

Lemma apiByGroupAndName_eq es :
  apiByGroupAndName es =
  map (fun '(k, v) => (k, groupBy (fun x : ref * entry => ename x.2) v)) (own_keys (apiByGroup es)).
Proof.
  unfold apiByGroupAndName. rewrite (foldl_obj_set (groupBy (fun x : ref * entry => ename x.2))); [done|].
  cbn. apply keys_NoDup. unfold apiByGroup. apply groupBy_NoDup.
Qed.

(** With titles and names free of the marker's '#' and a custom order that names
    nothing twice, the viewer shows every documented entry exactly once. *)
Theorem newList_Permutation es :
  Forall (fun e => unmarked (ename e) = true /\ exists t, etitle e = Some t /\ unmarked t = true) es ->
  exists api, newList p es = Some api /\ api ≡ₚ seq 0 (length es) /\
              NoDup api /\ (forall i e, es !! i = Some e -> i ∈ api).
Proof.
  intros Hes.
  assert (Ht : forall x, x ∈ with_refs es -> titled x).
  { intros [i e] Hx%with_refs_elem. rewrite Forall_lookup in Hes. by apply (Hes i). }
  set (og := fun l => default [] (ordered_group p (groupBy (fun x : ref * entry => ename x.2) l))).
  assert (Hog : forall k l, (k, l) ∈ apiByGroup es ->
            ordered_group p (groupBy (fun x : ref * entry => ename x.2) l) = Some (og l) /\
            og l ≡ₚ map fst l).
  { intros k l [-> _]%elem_groupBy. unfold og.
    destruct (ordered_group_Permutation (bucket (fun x => egroup x.2) k (with_refs es)))
      as (r & E & HP); [|by rewrite E].
    intros x [_ Hx]%list_elem_of_filter. auto. }
  set (gs := own_keys (apiByGroup es)).
  assert (Hgs : forall k l, (k, l) ∈ gs -> (k, l) ∈ apiByGroup es)
    by (intros k l; unfold gs; by rewrite elem_own_keys).
  set (rest := fun o => default [] (ordered_group p o)).
  assert (E : newList p es = Some (concat (map (fun x => rest x.2) (own_keys (apiByGroupAndName es))))).
  { unfold newList. rewrite (mapM_total _ (fun x => rest x.2)); [done|].
    intros [k o] Hx. rewrite elem_own_keys, apiByGroupAndName_eq in Hx.
    apply list_elem_of_fmap in Hx as ([k' l] & [= -> ->] & Hx). cbn.
    destruct (Hog k' l (Hgs _ _ Hx)) as [Eo _]. unfold rest. by rewrite Eo. }
  assert (HP : concat (map (fun x => rest x.2) (own_keys (apiByGroupAndName es))) ≡ₚ seq 0 (length es)).
  { rewrite own_keys_Permutation, apiByGroupAndName_eq. fold gs. rewrite <- list_fmap_compose.
    transitivity (concat (map (fun x => map fst x.2) gs)).
    - apply concat_map_Permutation. intros [k l] Hx. cbn. apply (Hog k l (Hgs _ _ Hx)).
    - unfold gs. rewrite own_keys_Permutation. rewrite <- with_refs_fst.
      unfold apiByGroup. rewrite <- (concat_buckets (fun x : ref * entry => egroup x.2) (with_refs es)) at 2.
      generalize (groupBy (fun x : ref * entry => egroup x.2) (with_refs es)). intros o.
      induction o as [|[k b] o IH]; [done|]. cbn. rewrite map_app. by rewrite IH. }
  eexists. split; [exact E|]. split; [done|]. split.
  - rewrite HP. apply NoDup_seq.
  - intros i e Hi. rewrite HP. apply elem_of_seq. apply lookup_lt_Some in Hi. lia.
Qed.
End ordering.

Lemma api_project_order : forall order, porder api_project = Some order -> NoDup order.
Proof. done. Qed.

Lemma newList_Permutation_witness :
  exists l, newList api_project api = Some l /\ l ≡ₚ [0; 1; 2; 3; 4; 5]%nat.
Proof.
  destruct (newList_Permutation api_project api_project_order api) as (l & E & HP & _).
  - repeat (apply Forall_cons; split; [split; [by vm_compute|exists ""; by vm_compute]|]).
    apply Forall_nil_2.
  - exists l. split; [exact E|exact HP].
Defined.

(** * The main version menu *)

Section version_menu.
Variable p : project.

Definition same_name (a b : article) : bool :=
  String.eqb (a_group b) (a_group a) && String.eqb (a_name b) (a_name a).

Definition not_above (selected : string) (a : article) : bool :=
  js_le (data_attr (a_version a)) (JStr selected).

(** The first article of the name of [a], in document order, that is not above the
    selected version. *)
Definition first_not_above (selected : string) (arts : list article) (a : article) : option article :=
  head (filter (fun b => same_name a b && not_above selected b = true) arts).

(** Whether the menu shows [a]: in a section that was hidden, whenever it is not above
    the selected version; else when it has the version of the first such article. *)
Definition shown_by (was_hidden : bool) (selected : string) (arts : list article) (a : article) : bool :=
  if was_hidden
  then existsb (fun b => same_name a b && String.eqb (a_version b) (a_version a) && not_above selected b) arts
  else match first_not_above selected arts a with
       | Some b => String.eqb (a_version b) (a_version a)
       | None => false
       end.

(** Sections have distinct groups and hold the articles of their group. *)
Definition sections_wf (l : list section) : Prop :=
  NoDup (map s_group l) /\ forall s a, s ∈ l -> a ∈ s_articles s -> a_group a = s_group s.

Lemma section_unique l s s' :
  NoDup (map s_group l) -> s ∈ l -> s' ∈ l -> s_group s = s_group s' -> s = s'.
Proof.
  intros HN [i Hi]%list_elem_of_lookup [j Hj]%list_elem_of_lookup E.
  assert (i = j) as ->; [|congruence].
  apply (NoDup_lookup (map s_group l) i j (s_group s)); [done| |];
    rewrite list_lookup_fmap; [by rewrite Hi|by rewrite Hj, E].
Qed.

Lemma attr_is_data t s : attr_is (Some t) (data_attr s) = String.eqb t s.
Proof.
  unfold attr_is. rewrite to_str_data_attr. apply eq_true_iff_eq.
  rewrite bool_decide_eq_true, String.eqb_eq. split; [by intros [= ->]|by intros ->].
Qed.

Lemma article_is_data a b :
  article_is (data_attr (a_group a)) (data_attr (a_name a)) b = same_name a b.
Proof. unfold article_is, same_name. by rewrite !attr_is_data. Qed.

Definition hide_by (sh : section -> article -> bool) (l : list section) : list section :=
  map (fun s => Build_section (s_group s) (s_hide s)
                  (map (fun a => art_set_hide (negb (sh s a)) a) (s_articles s))) l.

Definition shows_version (a b : article) : bool :=
  same_name a b && String.eqb (a_version b) (a_version a).

(** Showing the articles like [a]. *)
Lemma show_hide_by a sh l :
  map_articles (fun b => if article_is (data_attr (a_group a)) (data_attr (a_name a)) b &&
                            attr_is (Some (a_version b)) (data_attr (a_version a))
                         then art_set_hide false b else b) (hide_by sh l) =
  hide_by (fun s b => sh s b || shows_version a b) l.
Proof.
  unfold map_articles, hide_by. rewrite map_map. apply map_ext. intros s. cbn [s_group s_hide s_articles].
  f_equal. rewrite map_map. apply map_ext. intros b.
  rewrite article_is_data, attr_is_data.
  change (same_name a (art_set_hide (negb (sh s b)) b)) with (same_name a b).
  change (a_version (art_set_hide (negb (sh s b)) b)) with (a_version b).
  unfold shows_version. destruct (same_name a b && String.eqb (a_version b) (a_version a)).
  - by rewrite orb_true_r.
  - by rewrite orb_false_r.
Qed.

Lemma visible_hide_by sh l b :
  b ∈ visible_articles (hide_by sh l) <->
  exists s a, s ∈ l /\ a ∈ s_articles s /\ s_hide s = false /\ sh s a = true /\
              b = art_set_hide false a.
Proof.
  unfold visible_articles, hide_by. rewrite map_map. rewrite elem_concat. cbn [s_hide s_articles].
  split.
  - intros (x & (s & -> & Hs)%list_elem_of_fmap & Hb). destruct (s_hide s) eqn:E.
    + by apply not_elem_of_nil in Hb.
    + apply list_elem_of_filter in Hb as [Hh (a & -> & Ha)%list_elem_of_fmap].
      exists s, a. cbn in Hh. apply negb_false_iff in Hh. by rewrite Hh.
  - intros (s & a & Hs & Ha & E & Hsh & ->).
    eexists. split; [apply list_elem_of_fmap; by exists s|]. cbn. rewrite E.
    apply list_elem_of_filter. split; [done|]. apply list_elem_of_fmap. exists a. by rewrite Hsh.
Qed.

Lemma elem_all_articles a l : a ∈ all_articles l <-> exists s, s ∈ l /\ a ∈ s_articles s.
Proof.
  unfold all_articles. rewrite elem_concat. split.
  - intros (x & (s & -> & Hs)%list_elem_of_fmap & Ha). eauto.
  - intros (s & Hs & Ha). eexists. split; [apply list_elem_of_fmap; eauto|done].
Qed.

Lemma hide_by_ext sh sh' l :
  (forall s a, s ∈ l -> a ∈ s_articles s -> sh s a = sh' s a) -> hide_by sh l = hide_by sh' l.
Proof.
  intros H. unfold hide_by. apply map_ext_in. intros s Hs. apply list_elem_of_In in Hs. f_equal.
  apply map_ext_in. intros a Ha. apply list_elem_of_In in Ha. by rewrite (H s a Hs Ha).
Qed.

Lemma same_name_iff a b : same_name a b = true <-> a_group b = a_group a /\ a_name b = a_name a.
Proof. unfold same_name. by rewrite andb_true_iff, !String.eqb_eq. Qed.

Lemma same_name_ext a b x : same_name a b = true -> same_name a x = same_name b x.
Proof. intros [Hg Hn]%same_name_iff. unfold same_name. by rewrite Hg, Hn. Qed.

Lemma same_name_sym a b : same_name a b = same_name b a.
Proof. unfold same_name. by rewrite (String.eqb_sym (a_group b)), (String.eqb_sym (a_name b)). Qed.

Lemma first_same sel arts a b :
  same_name a b = true -> first_not_above sel arts a = first_not_above sel arts b.
Proof.
  intros H. unfold first_not_above. f_equal. apply filter_ext_in. intros x _.
  by rewrite (same_name_ext a b x H).
Qed.

Lemma first_snoc sel pre x a :
  first_not_above sel (pre ++ [x]) a =
  match first_not_above sel pre a with
  | Some f => Some f
  | None => if same_name a x && not_above sel x then Some x else None
  end.
Proof.
  unfold first_not_above. rewrite filter_app.
  destruct (filter _ pre) as [|f fs]; [|done]. cbn [app head]. rewrite filter_cons.
  destruct (same_name a x && not_above sel x); [by rewrite decide_True|by rewrite decide_False].
Qed.

Lemma first_elem sel arts a f :
  first_not_above sel arts a = Some f -> f ∈ arts /\ same_name a f = true /\ not_above sel f = true.
Proof.
  unfold first_not_above. destruct (filter _ arts) as [|x xs] eqn:E; [done|]. intros [= ->].
  assert (H : f ∈ filter (fun b => same_name a b && not_above sel b = true) arts)
    by (rewrite E; left).
  apply list_elem_of_filter in H as [H1 H2]. apply andb_true_iff in H1. tauto.
Qed.

Lemma shown_first sel arts a f :
  first_not_above sel arts a = Some f -> shown_by false sel arts f = true.
Proof.
  intros H. destruct (first_elem _ _ _ _ H) as (_ & Hs & _). unfold shown_by.
  rewrite <- (first_same sel arts a f Hs), H. apply String.eqb_refl.
Qed.

(** One article more: the condition of the loop, in the terms of the specification. *)
Lemma shown_snoc (l : list section) sel pre s x :
  sections_wf l -> (forall a, a ∈ pre -> a ∈ all_articles l) -> s ∈ l -> x ∈ s_articles s ->
  (not_above sel x && negb (existsb (same_name x)
     (visible_articles (hide_by (fun s a => shown_by (s_hide s) sel pre a) l)))) =
  (not_above sel x && (s_hide s || match first_not_above sel pre x with Some _ => false | None => true end)).
Proof.
  intros [HN Hg] Hpre Hs Hx. destruct (not_above sel x) eqn:Hle; [|done]. cbn [andb].
  assert (Hsec : forall s' a, s' ∈ l -> a ∈ s_articles s' -> a_group a = a_group x -> s' = s).
  { intros s' a Hs' Ha Hga.
    apply (section_unique l); [done..|]. by rewrite <- (Hg s' a), <- (Hg s x). }
  apply eq_true_iff_eq. rewrite negb_true_iff, <- not_true_iff_false, existsb_exists, orb_true_iff.
  destruct (s_hide s) eqn:Eh.
  - split; [by left|]. intros _ (b & Hb & Hn).
    apply list_elem_of_In, visible_hide_by in Hb as (s' & a & Hs' & Ha & Eh' & _ & ->).
    apply same_name_iff in Hn as [Hgb _]. cbn in Hgb.
    rewrite (Hsec s' a Hs' Ha Hgb) in Eh'. congruence.
  - destruct (first_not_above sel pre x) as [f|] eqn:Ef.
    + split; [|by intros []]. intros Hno. destruct Hno.
      destruct (first_elem _ _ _ _ Ef) as (Hf & Hn & _).
      apply Hpre, elem_all_articles in Hf as (s' & Hs' & Ha).
      exists (art_set_hide false f). split; [|done].
      apply list_elem_of_In, visible_hide_by. exists s', f.
      apply same_name_iff in Hn as Hn'. destruct Hn' as [Hgf _].
      pose proof (Hsec s' f Hs' Ha Hgf) as ->. rewrite Eh.
      pose proof (shown_first sel pre x f Ef). done.
    + split; [by right|]. intros _ (b & Hb & Hn).
      apply list_elem_of_In, visible_hide_by in Hb as (s' & a & Hs' & Ha & Eh' & Hsh & ->).
      change (same_name x (art_set_hide false a)) with (same_name x a) in Hn.
      rewrite Eh' in Hsh. unfold shown_by in Hsh. rewrite <- (first_same sel pre x a Hn), Ef in Hsh.
      done.
Qed.

Lemma shown_by_snoc (was_hidden : bool) sel pre x a :
  shown_by was_hidden sel (pre ++ [x]) a =
  shown_by was_hidden sel pre a ||
  ((not_above sel x && (was_hidden || match first_not_above sel pre x with Some _ => false | None => true end)) &&
   shows_version x a).
Proof.
  unfold shown_by, shows_version. destruct was_hidden; cbn [orb].
  - rewrite existsb_app. cbn [existsb]. rewrite orb_false_r, andb_true_r. f_equal.
    rewrite (same_name_sym a x), (String.eqb_sym (a_version x)). destruct (same_name x a), (not_above sel x); cbn;
      by rewrite ?andb_false_r, ?andb_true_r.
  - rewrite first_snoc. destruct (same_name x a) eqn:Hn.
    + rewrite (first_same sel pre x a Hn). destruct (first_not_above sel pre a) as [f|].
      * by rewrite andb_false_r, andb_false_l, orb_false_r.
      * rewrite (same_name_sym a x), Hn. cbn [andb orb]. rewrite andb_true_r. destruct (not_above sel x); [|done]. cbn.
        by rewrite String.eqb_sym.
    + rewrite (same_name_sym a x), Hn. cbn [andb]. rewrite andb_false_r, orb_false_r. by destruct (first_not_above sel pre a).
Qed.

Lemma show_article_sections sel pg sh l x :
  sections pg = hide_by sh l ->
  sections (show_article sel pg x) =
  hide_by (fun s a => sh s a || ((not_above sel x && negb (existsb (same_name x) (visible_articles (hide_by sh l)))) &&
                                 shows_version x a)) l.
Proof.
  intros E. unfold show_article. rewrite E.
  assert (Hv : existsb (article_is (data_attr (a_group x)) (data_attr (a_name x))) (visible_articles (hide_by sh l))
             = existsb (same_name x) (visible_articles (hide_by sh l))).
  { induction (visible_articles _) as [|b bs IH]; [done|]. cbn [existsb]. by rewrite IH, article_is_data. }
  rewrite Hv. unfold not_above.
  destruct (js_le _ _ && negb _).
  - cbn [upd_sections sections]. rewrite show_hide_by. by apply hide_by_ext.
  - rewrite E. apply hide_by_ext. intros s a _ _. by rewrite andb_false_l, orb_false_r.
Qed.

Lemma show_articles sel l pg pre :
  sections_wf l -> (forall a, a ∈ pre -> a ∈ all_articles l) ->
  sections pg = hide_by (fun _ _ => false) l ->
  sections (foldl (show_article sel) pg pre) = hide_by (fun s a => shown_by (s_hide s) sel pre a) l.
Proof.
  intros Hwf Hpre E. induction pre as [|x pre IH] using rev_ind.
  - cbn [foldl]. rewrite E. apply hide_by_ext. intros s a _ _. by destruct (s_hide s).
  - rewrite foldl_app. cbn [foldl].
    assert (Hpre' : forall a, a ∈ pre -> a ∈ all_articles l)
      by (intros a Ha; apply Hpre, elem_of_app; by left).
    rewrite (show_article_sections sel _ _ l x (IH Hpre')).
    destruct (proj1 (elem_all_articles x l)) as (sx & Hsx & Hx).
    { apply Hpre, elem_of_app. right. left. }
    rewrite (shown_snoc l sel pre sx x) by done.
    apply hide_by_ext. intros s a Hs Ha. rewrite shown_by_snoc.
    destruct (shows_version x a) eqn:Ev; [|by rewrite !andb_false_r].
    unfold shows_version in Ev. apply andb_true_iff in Ev as [[Hg _]%same_name_iff _].
    destruct Hwf as [HN Hgr]. rewrite (Hgr s a Hs Ha), (Hgr sx x Hsx Hx) in Hg.
    by rewrite (section_unique l s sx HN Hs Hsx).
Qed.

(** A section shows itself when one of its articles is visible. *)
Definition settle (s : section) : section :=
  Build_section (s_group s) (negb (existsb (fun a => negb (a_hide a)) (s_articles s))) (s_articles s).

Lemma show_section_settles l a :
  NoDup (map s_group l) ->
  show_section l a = map (fun s => if String.eqb (s_group s) (a_group a) then settle s else s) l.
Proof.
  intros HN. unfold show_section. rewrite to_str_data_attr, map_map.
  apply map_ext_in. intros s Hs. apply list_elem_of_In in Hs.
  destruct (String.eqb (s_group s) (a_group a)) eqn:E; cbn [s_group s_articles]; rewrite E; [|done].
  unfold settle. do 2 f_equal. apply eq_true_iff_eq. rewrite !existsb_exists. split.
  - intros (s' & Ht & H). apply in_map_iff in Ht as (t & <- & Ht).
    apply andb_true_iff in H as [Hg H]. apply existsb_exists in H as (x & Hx & Hv).
    apply list_elem_of_In in Ht. apply String.eqb_eq in E, Hg.
    assert (t = s) as ->.
    { apply (section_unique l); [done..|]. rewrite E. by destruct (String.eqb (s_group t) (a_group a)). }
    exists x. split; [|done]. by destruct (String.eqb (s_group s) (a_group a)).
  - intros (x & Hx & Hv). exists (Build_section (s_group s) false (s_articles s)). split.
    + apply in_map_iff. exists s. rewrite E. split; [done|]. by apply list_elem_of_In.
    + cbn [s_group s_articles]. rewrite E. apply existsb_exists. eauto.
Qed.

Lemma settle_groups (f : section -> bool) l :
  map s_group (map (fun s => if f s then settle s else s) l) = map s_group l.
Proof. rewrite map_map. apply map_ext. intros s. by destruct (f s). Qed.

Lemma show_sections l arts :
  NoDup (map s_group l) ->
  foldl show_section l arts =
  map (fun s => if existsb (fun a => String.eqb (s_group s) (a_group a)) arts then settle s else s) l.
Proof.
  intros HN. induction arts as [|a arts IH] using rev_ind.
  - cbn. symmetry. rewrite <- (map_id l) at 2. by apply map_ext.
  - rewrite foldl_app. cbn [foldl]. rewrite IH. rewrite show_section_settles by by rewrite settle_groups.
    rewrite map_map. apply map_ext. intros s. rewrite existsb_app. cbn [existsb]. rewrite orb_false_r.
    destruct (existsb _ arts); cbn [orb s_group settle].
    + by destruct (String.eqb (s_group s) (a_group a)).
    + done.
Qed.

(** What the menu leaves: the articles that are shown, and the sections that have one;
    a section without articles stays as it was. *)
Definition menu_spec (sel : string) (l : list section) : list section :=
  map (fun s =>
    let shown := shown_by (s_hide s) sel (all_articles l) in
    Build_section (s_group s)
      (if s_articles s is [] then s_hide s else negb (existsb shown (s_articles s)))
      (map (fun a => art_set_hide (negb (shown a)) a) (s_articles s))) l.

Lemma all_articles_map f l : all_articles (map_articles f l) = map f (all_articles l).
Proof.
  unfold all_articles, map_articles. rewrite map_map. cbn [s_articles].
  induction l as [|s l IH]; [done|]. cbn. by rewrite IH, map_app.
Qed.

(** The classes of the articles do not matter to the specification. *)
Lemma shown_by_map was_hidden sel b arts a :
  shown_by was_hidden sel (map (art_set_hide b) arts) a = shown_by was_hidden sel arts a.
Proof.
  unfold shown_by. destruct was_hidden.
  - induction arts as [|x arts IH]; [done|]. cbn [map existsb]. by rewrite IH.
  - assert (E : first_not_above sel (map (art_set_hide b) arts) a =
                art_set_hide b <$> first_not_above sel arts a).
    { induction arts as [|x arts IH]; [done|]. unfold first_not_above in *. cbn [map].
      rewrite !filter_cons.
      change (same_name a (art_set_hide b x)) with (same_name a x).
      change (not_above sel (art_set_hide b x)) with (not_above sel x).
      destruct (same_name a x && not_above sel x).
      - by rewrite !decide_True.
      - by rewrite !decide_False. }
    rewrite E. by destruct (first_not_above sel arts a).
Qed.

Lemma sections_wf_map b l : sections_wf l -> sections_wf (map_articles (art_set_hide b) l).
Proof.
  intros [HN Hg]. unfold map_articles. split; [by rewrite map_map|].
  intros s a (t & -> & Ht)%list_elem_of_fmap (x & -> & Hx)%list_elem_of_fmap. cbn. by apply Hg.
Qed.

Lemma existsb_map_compose {A B} (f : B -> bool) (g : A -> B) l :
  existsb f (map g l) = existsb (fun x => f (g x)) l.
Proof. induction l as [|x l IH]; [done|]. cbn. by rewrite IH. Qed.

Lemma existsb_ext {A} (f g : A -> bool) l : (forall x, f x = g x) -> existsb f l = existsb g l.
Proof. intros H. induction l as [|x l IH]; [done|]. cbn. by rewrite H, IH. Qed.

(** The two loops together. *)
Lemma menu_loops sel l :
  sections_wf l ->
  let l0 := map_articles (art_set_hide true) l in
  foldl show_section (hide_by (fun s a => shown_by (s_hide s) sel (all_articles l0) a) l0)
        (all_articles l0) = menu_spec sel l.
Proof.
  intros Hwf l0. destruct (sections_wf_map true l Hwf) as [HN0 Hg0]. fold l0 in HN0, Hg0.
  rewrite show_sections.
  2: { unfold hide_by. by rewrite map_map. }
  unfold hide_by, menu_spec, l0 at 3, map_articles. rewrite !map_map.
  apply map_ext_in. intros s Hs. apply list_elem_of_In in Hs. cbn [s_group s_hide s_articles].
  assert (Hmap : map (fun a => art_set_hide (negb (shown_by (s_hide s) sel (all_articles l0) a)) a)
            (map (art_set_hide true) (s_articles s)) =
          map (fun a => art_set_hide (negb (shown_by (s_hide s) sel (all_articles l) a)) a) (s_articles s)).
  { rewrite map_map. apply map_ext. intros a. unfold l0. rewrite all_articles_map, shown_by_map. done. }
  rewrite Hmap. destruct Hwf as [HN Hg].
  assert (Hex : existsb (fun a => String.eqb (s_group s) (a_group a)) (all_articles l0) =
                match s_articles s with [] => false | _ => true end).
  { unfold l0. rewrite all_articles_map, existsb_map_compose. apply eq_true_iff_eq. rewrite existsb_exists. split.
    - intros (a & Ha & E%String.eqb_eq). apply list_elem_of_In, elem_all_articles in Ha as (s' & Hs' & Ha).
      cbn in E. rewrite (Hg s' a Hs' Ha) in E. rewrite (section_unique l s s' HN Hs Hs' E).
      destruct (s_articles s'); [by apply not_elem_of_nil in Ha|done].
    - destruct (s_articles s) as [|a arts] eqn:E; [done|]. intros _. exists a.
      assert (Ha : a ∈ s_articles s) by (rewrite E; left).
      split; [apply list_elem_of_In, elem_all_articles; eauto|].
      cbn. rewrite (Hg s a Hs Ha). apply String.eqb_refl. }
  rewrite Hex. destruct (s_articles s) as [|a arts]; [done|].
  unfold settle. cbn [s_group s_articles]. f_equal. rewrite existsb_map_compose. f_equal.
  apply existsb_ext. intros x. cbn. apply negb_involutive.
Qed.

Lemma select_version_sections pg sel :
  sections_wf (sections pg) -> sections (select_version p pg sel) = menu_spec sel (sections pg).
Proof.
  intros Hwf. rewrite <- menu_loops by done. unfold select_version.
  set (l0 := map_articles (art_set_hide true) (sections pg)).
  cbn [sections upd_sections upd_sidenav initDynamic]. fold l0.
  rewrite (show_articles sel l0 _ (all_articles l0)); [done|by apply sections_wf_map|done|].
  cbn [sections upd_sections upd_sidenav]. unfold l0, map_articles, hide_by. rewrite !map_map.
  apply map_ext. intros s. cbn [s_group s_hide s_articles]. by rewrite map_map.
Qed.

End version_menu.
