(* ===== verification/ApiDocInv.v ===== *)
(** Every page of the documentation viewer is well formed: whatever the reader selects,
    the articles stand in the section of their group, show documented requests, and are
    told apart by their identity. *)
From S2P Require Import Prelude Lists JsNum JsString JsVal JsObj Locale ApiData ApiDoc ApiDocProps.

Definition key_of (e : entry) : string * string * string := (egroup e, ename e, eversion e).
Definition a_key (a : article) : string * string * string := (a_group a, a_name a, a_version a).

Section invariant.
Variable semver_valid : string -> bool.
Variable semver_compare : string -> string -> comparison.
Variable m : locales_module.
Variable p : project.
Variable es : list entry.
Hypothesis order_NoDup : forall order, porder p = Some order -> NoDup order.
(** Versions of the three-number form stay texts when jQuery reads them. *)
Hypothesis versions_text : forall e, e ∈ es -> data_attr (eversion e) = JStr (eversion e).

(** The identities of the articles. *)
Definition nodes (l : list section) : list nat := map a_node (all_articles l).

Record page_ok (pg : page) : Prop := {
  ok_entries : map key_of (entries pg) = map key_of es;
  ok_sections : sections_wf (sections pg);
  ok_nodes : NoDup (nodes (sections pg)) /\ forall a, a ∈ all_articles (sections pg) -> (a_node a < next_node pg)%nat;
  ok_articles : forall a, a ∈ all_articles (sections pg) -> a_key a ∈ map key_of es;
}.

(** ** Changes of the articles in place *)

(** [f] keeps the group of an article, gives it a documented name and version, and
    either keeps its identity or takes the fresh one. *)
Definition in_place (pg : page) (f : article -> article) : Prop :=
  forall a, a ∈ all_articles (sections pg) ->
    a_group (f a) = a_group a /\ a_key (f a) ∈ map key_of es /\
    (a_node (f a) = a_node a \/ a_node (f a) = (next_node pg + a_node a)%nat).

Lemma nodes_map f l : nodes (map_articles f l) = map (fun a => a_node (f a)) (all_articles l).
Proof. unfold nodes. rewrite all_articles_map, map_map. done. Qed.

Lemma fresh_nodes_NoDup (l : list article) (f : article -> article) n :
  NoDup (map a_node l) -> (forall a, a ∈ l -> (a_node a < n)%nat) ->
  (forall a, a ∈ l -> a_node (f a) = a_node a \/ a_node (f a) = (n + a_node a)%nat) ->
  NoDup (map (fun a => a_node (f a)) l).
Proof.
  induction l as [|x l IH]; intros HN Hn Hf; [apply NoDup_nil_2|].
  cbn [map] in *. apply NoDup_cons in HN as [Hx HN]. apply NoDup_cons. split.
  - intros (y & E & Hy)%list_elem_of_fmap. apply Hx.
    apply list_elem_of_fmap. exists y. split; [|done].
    pose proof (Hn x ltac:(left)). pose proof (Hn y ltac:(by right)).
    destruct (Hf x ltac:(left)), (Hf y ltac:(by right)); lia.
  - apply IH; [done| |]; intros a Ha; [apply Hn|apply Hf]; by right.
Qed.

Lemma in_place_ok pg pg' f :
  page_ok pg -> in_place pg f ->
  map key_of (entries pg') = map key_of es ->
  sections pg' = map_articles f (sections pg) ->
  (next_node pg' = next_node pg /\ (forall a, a ∈ all_articles (sections pg) -> a_node (f a) = a_node a) \/
   next_node pg' = (next_node pg + next_node pg)%nat) ->
  page_ok pg'.
Proof.
  intros [He [HN Hg] [Hn Hlt] Ha] Hf He' Hs Hnext. split.
  - done.
  - rewrite Hs. unfold map_articles. split; [by rewrite map_map|].
    intros s a (t & -> & Ht)%list_elem_of_fmap (x & -> & Hx)%list_elem_of_fmap. cbn.
    destruct (Hf x) as [-> _]; [apply elem_all_articles; eauto|]. by apply Hg.
  - rewrite Hs. split.
    + rewrite nodes_map. apply (fresh_nodes_NoDup _ f (next_node pg)); [done|done|].
      intros a Hin. by apply Hf.
    + intros a. rewrite all_articles_map. intros (x & -> & Hx)%list_elem_of_fmap.
      pose proof (Hlt x Hx). destruct Hnext as [[-> E]| ->]; [by rewrite E|].
      destruct (Hf x Hx) as (_ & _ & [-> | ->]); lia.
  - rewrite Hs, all_articles_map. intros a (x & -> & Hx)%list_elem_of_fmap. by apply Hf.
Qed.

(** Changes of classes and of the text of the button. *)
Definition cosmetic (f : article -> article) : Prop :=
  forall a, a_node (f a) = a_node a /\ a_key (f a) = a_key a.

Lemma cosmetic_ok pg pg' f :
  page_ok pg -> cosmetic f -> map key_of (entries pg') = map key_of es ->
  sections pg' = map_articles f (sections pg) -> next_node pg' = next_node pg -> page_ok pg'.
Proof.
  intros Hok Hf He Hs Hn. apply (in_place_ok pg pg' f); try done.
  - intros a Ha. destruct (Hf a) as [H1 H2]. split; [unfold a_key in H2; congruence|]. split; [|by left].
    rewrite H2. by apply (ok_articles pg Hok).
  - left. split; [done|]. intros a _. apply Hf.
Qed.

Lemma same_sections_ok pg pg' :
  page_ok pg -> entries pg' = entries pg -> sections pg' = sections pg ->
  next_node pg' = next_node pg -> page_ok pg'.
Proof. intros [] He Hs Hn. split; rewrite ?He, ?Hs, ?Hn; done. Qed.

Lemma initDynamic_ok pg : page_ok pg -> page_ok (initDynamic p pg).
Proof. intros H. by apply (same_sections_ok pg). Qed.

(** The main version menu changes classes only. *)
Lemma menu_spec_static sel l0 l :
  map (fun a => (a_node a, a_key a)) (all_articles (map (fun s =>
    let shown := shown_by (s_hide s) sel l0 in
    Build_section (s_group s)
      (if s_articles s is [] then s_hide s else negb (existsb shown (s_articles s)))
      (map (fun a => art_set_hide (negb (shown a)) a) (s_articles s))) l)) =
  map (fun a => (a_node a, a_key a)) (all_articles l).
Proof.
  unfold all_articles. rewrite map_map. cbn [s_articles].
  induction l as [|s l IH]; [done|]. cbn [map concat]. rewrite !map_app, IH. f_equal.
  rewrite map_map. apply map_ext. done.
Qed.

Lemma static_ok pg pg' :
  page_ok pg -> entries pg' = entries pg -> next_node pg' = next_node pg ->
  sections_wf (sections pg') ->
  map (fun a => (a_node a, a_key a)) (all_articles (sections pg')) =
  map (fun a => (a_node a, a_key a)) (all_articles (sections pg)) -> page_ok pg'.
Proof.
  intros [He _ [HN Hlt] Ha] He' Hn' Hwf Hst.
  assert (Hin : forall a, a ∈ all_articles (sections pg') ->
            exists b, b ∈ all_articles (sections pg) /\ a_node b = a_node a /\ a_key b = a_key a).
  { intros a Hain.
    assert (H : (a_node a, a_key a) ∈ map (fun a => (a_node a, a_key a)) (all_articles (sections pg'))).
    { apply list_elem_of_fmap. by exists a. }
    rewrite Hst in H. apply list_elem_of_fmap in H as (b & E & Hb). exists b.
    split; [done|]. split; [exact (eq_sym (f_equal fst E))|exact (eq_sym (f_equal snd E))]. }
  split; [by rewrite He'|done| |].
  - rewrite Hn'. split.
    + assert (E : forall l, nodes l = map fst (map (fun a => (a_node a, a_key a)) (all_articles l)))
        by (intros l; unfold nodes; by rewrite map_map).
      rewrite E, Hst, <- E. done.
    + intros a (b & Hb & <- & _)%Hin. by apply Hlt.
  - intros a (b & Hb & _ & <-)%Hin. by apply Ha.
Qed.

Lemma show_articles_frame sel l q :
  entries (foldl (show_article sel) q l) = entries q /\
  next_node (foldl (show_article sel) q l) = next_node q.
Proof.
  revert q. induction l as [|a l IH]; intros q; [done|]. cbn [foldl].
  destruct (IH (show_article sel q a)) as [-> ->]. unfold show_article.
  by destruct (js_le _ _ && _).
Qed.

Lemma select_version_ok pg sel : page_ok pg -> page_ok (select_version p pg sel).
Proof.
  intros Hok. pose proof (ok_sections pg Hok) as Hwf. apply (static_ok pg); [done| | | |].
  - unfold select_version. cbn [initDynamic upd_sidenav upd_sections entries].
    by rewrite (proj1 (show_articles_frame _ _ _)).
  - unfold select_version. cbn [initDynamic upd_sidenav upd_sections next_node].
    by rewrite (proj2 (show_articles_frame _ _ _)).
  - rewrite select_version_sections by done. destruct Hwf as [HN Hg]. split.
    + unfold menu_spec. by rewrite map_map.
    + intros s a (t & -> & Ht)%list_elem_of_fmap (x & -> & Hx)%list_elem_of_fmap. cbn. by apply Hg.
  - rewrite select_version_sections by done. apply menu_spec_static.
Qed.

(** ** Clicks on the versions of an article *)

Lemma obj_get_map {A B} (f : A -> B) k (o : list (string * A)) :
  obj_get k (map (fun '(k, v) => (k, f v)) o) = f <$> obj_get k o.
Proof. induction o as [|[j v] o IH]; [done|]. cbn. by destruct (String.eqb j k). Qed.

(** The references the page keeps for a group and name. *)
Lemma named_refs_spec pg g n l :
  named_refs pg g n = Some l ->
  forall i, i ∈ l <-> exists e, entries pg !! i = Some e /\ egroup e = g /\ ename e = n.
Proof.
  unfold named_refs. rewrite apiByGroupAndName_eq, obj_get_map.
  destruct (obj_get g (own_keys (apiByGroup (entries pg)))) as [b|] eqn:Eg; [|done].
  cbn [fmap option_fmap option_map]. rewrite groupBy_get.
  assert (Hb : b = bucket (fun x => egroup x.2) g (with_refs (entries pg))).
  { apply obj_get_elem in Eg. rewrite elem_own_keys in Eg. by apply elem_groupBy in Eg as [-> _]. }
  intros H i. assert (Hl : l = map fst (bucket (fun x : nat * entry => ename x.2) n b)).
  { destruct (bucket _ n b); [done|]. by injection H. }
  rewrite Hl. clear H Hl. split.
  - intros ([j e] & -> & Hx)%list_elem_of_fmap. apply list_elem_of_filter in Hx as [Hn Hx].
    rewrite Hb in Hx. apply list_elem_of_filter in Hx as [Hg Hx%with_refs_elem]. eauto.
  - intros (e & Hi & Hg & Hn). apply list_elem_of_fmap. exists (i, e). split; [done|].
    apply list_elem_of_filter. split; [done|]. rewrite Hb. apply list_elem_of_filter.
    split; [done|]. by apply with_refs_elem.
Qed.

Lemma find_version_spec es' l v :
  match find_version es' l (JStr v) with
  | Some i => i ∈ l /\ exists e, es' !! i = Some e /\ eversion e = v
  | None => forall i e, i ∈ l -> es' !! i = Some e -> eversion e <> v
  end.
Proof.
  unfold find_version. induction l as [|x l IH] using rev_ind.
  - cbn. by intros i e []%not_elem_of_nil.
  - rewrite foldl_app. cbn [foldl]. set (found := foldl _ None l) in *.
    assert (Hkeep : forall e, es' !! x = Some e -> eversion e <> v \/ eversion e = v) by (intros; destruct (decide (eversion e = v)); auto).
    destruct (es' !! x) as [e|] eqn:Ex.
    + cbn [strict_eq]. destruct (String.eqb_spec (eversion e) v) as [Hv|Hv].
      * split; [apply elem_of_app; right; left|eauto].
      * destruct found as [i|].
        -- destruct IH as [Hi He]. split; [apply elem_of_app; by left|done].
        -- intros i e' [Hi|Hi]%elem_of_app He'; [eauto|]. apply list_elem_of_singleton in Hi. congruence.
    + destruct found as [i|].
      * destruct IH as [Hi He]. split; [apply elem_of_app; by left|done].
      * intros i e' [Hi|Hi]%elem_of_app He'; [eauto|]. apply list_elem_of_singleton in Hi. congruence.
Qed.
(** An article a handler works on, in the document or taken out of it. *)
Definition rooted (pg : page) (root : article) : Prop :=
  (a_node root < next_node pg)%nat /\ a_key root ∈ map key_of es /\
  forall a, a ∈ all_articles (sections pg) -> a_node a = a_node root -> a_group a = a_group root.

Lemma in_place_rooted pg pg' f y :
  in_place pg f -> sections pg' = map_articles f (sections pg) ->
  (next_node pg <= next_node pg')%nat -> rooted pg y -> rooted pg' y.
Proof.
  intros Hf Hs Hn (Hlt & Hk & Hg). split; [lia|]. split; [done|].
  rewrite Hs, all_articles_map. intros a (x & -> & Hx)%list_elem_of_fmap E.
  destruct (Hf x Hx) as (-> & _ & [Hx' | Hx']); [|lia]. apply Hg; congruence.
Qed.

Lemma rooted_version pg root : rooted pg root -> data_attr (a_version root) = JStr (a_version root).
Proof.
  intros (_ & Hk & _). apply list_elem_of_fmap in Hk as (e & [= _ _ ->] & He). by apply versions_text.
Qed.

(** A documented key has its entry, and the version lookup finds it. *)
Lemma find_documented pg root l :
  map key_of (entries pg) = map key_of es -> rooted pg root ->
  named_refs pg (a_group root) (a_name root) = Some l ->
  exists i e, find_version (entries pg) l (JStr (a_version root)) = Some i /\
              entries pg !! i = Some e /\ key_of e = a_key root.
Proof.
  intros He (_ & Hk & _) Hl. rewrite <- He in Hk.
  apply list_elem_of_fmap in Hk as (e & Hkey & Hin). apply list_elem_of_lookup in Hin as [j Hj].
  unfold a_key, key_of in Hkey. injection Hkey as Hg Hn Hv.
  pose proof (named_refs_spec pg _ _ l Hl) as Hspec.
  pose proof (find_version_spec (entries pg) l (a_version root)) as Hf.
  destruct (find_version (entries pg) l _) as [i|].
  - destruct Hf as (Hi & e' & He' & Hv'). exists i, e'. split; [done|]. split; [done|].
    apply Hspec in Hi as (e'' & He'' & Hg' & Hn'). simplify_eq. unfold key_of, a_key. congruence.
  - destruct (Hf j e); [|done|done]. apply Hspec. by exists e.
Qed.

Lemma assign_id_keys l i : map key_of (assign_id l i) = map key_of l.
Proof.
  unfold assign_id. destruct i as [i|]; [|done]. destruct (l !! i) as [e|] eqn:E; [|done].
  apply list_eq. intros j. rewrite !list_lookup_fmap.
  destruct (decide (i = j)) as [->|Hne]; [|by rewrite list_lookup_insert_ne].
  rewrite list_lookup_insert_eq by (by apply lookup_lt_Some in E). by rewrite E.
Qed.

Lemma visible_all a l : a ∈ visible_articles l -> a ∈ all_articles l.
Proof.
  unfold visible_articles. rewrite elem_concat, elem_all_articles.
  intros (x & (s & -> & Hs)%list_elem_of_fmap & Ha). exists s. split; [done|].
  destruct (s_hide s); [by apply not_elem_of_nil in Ha|]. by apply list_elem_of_filter in Ha as [_ ?].
Qed.

Lemma node_unique pg a b :
  page_ok pg -> a ∈ all_articles (sections pg) -> b ∈ all_articles (sections pg) ->
  a_node a = a_node b -> a = b.
Proof.
  intros Hok [i Hi]%list_elem_of_lookup [j Hj]%list_elem_of_lookup E.
  assert (i = j) as ->; [|congruence]. destruct (ok_nodes pg Hok) as [HN _].
  apply (NoDup_lookup _ i j (a_node a) HN); unfold nodes; rewrite list_lookup_fmap;
    [by rewrite Hi|by rewrite Hj, E].
Qed.

Lemma template_key n e fl : f_article fl = Some e -> a_key (templateArticle n fl) = key_of e.
Proof. intros E. unfold templateArticle, a_key, key_of. by rewrite E. Qed.
Lemma template_compare_key n e fl : f_article fl = Some e -> a_key (templateCompareArticle n fl) = key_of e.
Proof. intros E. unfold templateCompareArticle, a_key, key_of. by rewrite E. Qed.

(** [resetArticle] keeps the page well formed. *)
Lemma reset_ok pg root pg' :
  page_ok pg -> rooted pg root ->
  resetArticle pg (data_attr (a_group root)) (data_attr (a_name root)) (data_attr (a_version root)) = Some pg' ->
  page_ok pg' /\ forall y, rooted pg y -> rooted pg' y.
Proof.
  intros Hok Hr. unfold resetArticle. rewrite !to_str_data_attr, (rooted_version pg root Hr).
  destruct (named_refs pg (a_group root) (a_name root)) as [l|] eqn:El; [|done].
  destruct (obj_get (a_group root) (articleVersions pg)); [|done]. intros [= <-].
  destruct (find_documented pg root l (ok_entries pg Hok) Hr El) as (i & e & Hf & He & Hk).
  set (fields := addArticleSettings _ _ _).
  set (roots := filter _ _).
  set (f := fun a => default a (if bool_decide (a_node a ∈ map a_node roots)
                                then Some (templateArticle (next_node pg + a_node a) fields) else None)).
  assert (Hart : f_article fields = Some e) by (unfold fields; cbn; by rewrite Hf).
  assert (Hplace : in_place pg f).
  { intros a Ha. unfold f. case_bool_decide as Hin; cbn [default].
    - unfold id. apply list_elem_of_fmap in Hin as (r & En & Hr').
      apply list_elem_of_filter in Hr' as [Hkey Hv]. apply visible_all in Hv.
      rewrite (node_unique pg a r Hok Ha Hv En).
      pose proof (template_key (next_node pg + a_node r) e fields Hart) as Ek.
      rewrite article_is_data in Hkey. apply same_name_iff in Hkey as [Hg _].
      split; [|split; [|by right]].
      + rewrite Hg. unfold a_key in Ek. rewrite Hk in Ek. by injection Ek.
      + rewrite Ek. rewrite <- (ok_entries pg Hok). apply list_elem_of_fmap. exists e.
        split; [done|]. by apply list_elem_of_lookup_2 in He.
    - split; [done|]. split; [by apply (ok_articles pg Hok)|by left]. }
  split.
  - apply (in_place_ok pg _ f Hok Hplace); [by apply Hok|done|by right].
  - intros y. apply (in_place_rooted pg _ f); [done|done|cbn; lia].
Qed.

(** The comparison of a version keeps it too. *)
Lemma compare_ok pg root l compare versions nav :
  page_ok pg -> rooted pg root -> named_refs pg (a_group root) (a_name root) = Some l ->
  let source := find_version (entries pg) l (JStr (a_version root)) in
  let es' := assign_id (assign_id (entries pg) source) compare in
  let fields := compare_fields (source ≫= fun i => es' !! i) (compare ≫= fun i => es' !! i) versions in
  let content := templateCompareArticle (next_node pg + a_node root) fields in
  let pg' := Build_page es' (api_list pg) (groups pg) (articleVersions pg) (main_version pg) nav
    (replace_articles (fun a => if Nat.eqb (a_node a) (a_node root) then Some content else None) (sections pg))
    (next_node pg + next_node pg) in
  page_ok pg' /\ forall y, rooted pg y -> rooted pg' y.
Proof.
  intros Hok Hr El source es' fields content pg'.
  destruct (find_documented pg root l (ok_entries pg Hok) Hr El) as (i & e & Hf & He & Hk).
  assert (Hkeys : map key_of es' = map key_of (entries pg)) by (unfold es'; by rewrite !assign_id_keys).
  assert (He' : exists e', es' !! i = Some e' /\ key_of e' = key_of e).
  { assert (H : map key_of es' !! i = Some (key_of e)) by (rewrite Hkeys, list_lookup_fmap, He; done).
    rewrite list_lookup_fmap in H. destruct (es' !! i) as [e'|]; [|done]. apply (inj Some) in H. by exists e'. }
  destruct He' as (e' & He' & Hk').
  assert (Hart : f_article fields = Some e') by (unfold fields, source; rewrite Hf; exact He').
  set (f := fun a => default a (if Nat.eqb (a_node a) (a_node root) then Some content else None)).
  assert (Hplace : in_place pg f).
  { intros a Ha. unfold f. destruct (Nat.eqb_spec (a_node a) (a_node root)) as [En|En]; cbn [default].
    - unfold id. pose proof (template_compare_key (next_node pg + a_node root) e' fields Hart) as Ek.
      fold content in Ek. split; [|split; [|right; by rewrite En]].
      + destruct Hr as (_ & _ & Hg). rewrite (Hg a Ha En). rewrite Hk', Hk in Ek.
        unfold a_key in Ek. by injection Ek.
      + rewrite Ek, Hk', Hk. apply Hr.
    - split; [done|]. split; [by apply (ok_articles pg Hok)|by left]. }
  split.
  - apply (in_place_ok pg pg' f Hok Hplace); [|done|by right]. cbn. by rewrite Hkeys, (ok_entries pg Hok).
  - intros y. apply (in_place_rooted pg pg' f); [done|done|cbn; lia].
Qed.
Definition keeps (pg pg' : page) : Prop := page_ok pg' /\ forall y, rooted pg y -> rooted pg' y.

Lemma keeps_trans pg pg1 pg2 : keeps pg pg1 -> (page_ok pg1 -> keeps pg1 pg2) -> keeps pg pg2.
Proof. intros [H1 H2] H. destruct (H H1) as [H3 H4]. split; auto. Qed.

Lemma keeps_initDynamic pg pg' : keeps pg pg' -> keeps pg (initDynamic p pg').
Proof. intros [H1 H2]. split; [by apply initDynamic_ok|]. intros y Hy. apply (H2 y Hy). Qed.

Lemma set_shown_keeps pg root s :
  page_ok pg ->
  keeps pg (upd_sections pg (map_articles (fun a =>
    if Nat.eqb (a_node a) (a_node root) then art_set_shown s a else a) (sections pg))).
Proof.
  intros Hok. set (f := fun a => if Nat.eqb (a_node a) (a_node root) then art_set_shown s a else a).
  assert (Hc : cosmetic f) by (intros a; unfold f; by destruct (Nat.eqb _ _)).
  split; [apply (cosmetic_ok pg _ f Hok Hc); [apply Hok|done|done]|].
  intros y. apply (in_place_rooted pg _ f); [|done|done].
  intros a Ha. destruct (Hc a) as [H1 H2]. split; [unfold a_key in H2; congruence|].
  split; [|by left]. rewrite H2. by apply (ok_articles pg Hok).
Qed.

Lemma change_keeps pg root sel :
  page_ok pg -> rooted pg root -> keeps pg (changeVersionCompareTo p pg root sel).1.
Proof.
  intros Hok Hr. unfold changeVersionCompareTo. rewrite !to_str_data_attr.
  pose proof (set_shown_keeps pg root sel Hok) as K. set (pg1 := upd_sections pg _) in *.
  destruct K as [Hok1 Hr1]. pose proof (Hr1 root Hr) as Hroot1.
  assert (K1 : keeps pg pg1) by by split.
  set (cv := match a_compare root with Some c => data_attr c | None => Undef end).
  destruct (strict_eq cv (JStr sel)); [done|].
  destruct (negb (truthy cv) && loose_eq (data_attr (a_version root)) (JStr sel)); [done|].
  destruct (if truthy cv then _ else Some false) as [highest|]; [|done].
  destruct (highest || strict_eq (data_attr (a_version root)) (JStr sel)).
  - destruct (resetArticle pg1 _ _ _) as [pg2|] eqn:E; [|done]. apply keeps_initDynamic.
    apply (keeps_trans _ _ _ K1). intros _. by apply (reset_ok pg1 root).
  - destruct (named_refs pg1 (a_group root) (a_name root)) as [l|] eqn:El; [|done].
    destruct (obj_get (a_group root) (articleVersions pg1)); [|done]. apply keeps_initDynamic.
    apply (keeps_trans _ _ _ K1). intros _. rewrite (rooted_version pg root Hr).
    apply (compare_ok pg1 root l); done.
Qed.

Lemma compare_all_keeps pg : page_ok pg -> page_ok (changeAllVersionCompareTo p pg).1.
Proof.
  intros Hok. unfold changeAllVersionCompareTo.
  assert (Hvis : forall a, a ∈ visible_articles (sections pg) -> rooted pg a).
  { intros a Ha%visible_all. split; [by apply (ok_nodes pg Hok)|].
    split; [by apply (ok_articles pg Hok)|]. intros b Hb E. by rewrite (node_unique pg b a Hok Hb Ha E). }
  revert Hvis. generalize (visible_articles (sections pg)). intros arts Hvis.
  assert (G : forall b q, page_ok q -> (forall a, a ∈ arts -> rooted q a) ->
    page_ok (foldl (fun '(pg, threw) a => if threw : bool then (pg, true)
      else match predecessor p a with Some v => changeVersionCompareTo p pg a v | None => (pg, false) end)
      (q, b) arts).1).
  { clear Hok Hvis. induction arts as [|a arts IH]; intros b q Hok Hq; [done|]. cbn [foldl].
    assert (Hq' : forall x, x ∈ arts -> rooted q x) by (intros; apply Hq; by right).
    destruct b; [by apply IH|]. destruct (predecessor p a) as [v|]; [|by apply IH].
    destruct (change_keeps q a v Hok) as [Hok' Hr']; [apply Hq; left|].
    destruct (changeVersionCompareTo p q a v) as [q' b']. apply IH; [done|].
    intros x Hx. by apply Hr', Hq'. }
  specialize (G false pg Hok Hvis). destruct (foldl _ (pg, false) arts) as [q threw].
  destruct threw; [done|]. by apply initDynamic_ok.
Qed.

(** ** The page when it has loaded *)

(** The loop over the entries of one group; [n0] is the first identity it hands out. *)
Definition render_inv (group : string) (n0 : nat) (r : rendering) : Prop :=
  map key_of (r_entries r) = map key_of es /\ (n0 <= r_node r)%nat /\
  NoDup (map a_node (r_articles r)) /\
  forall a, a ∈ r_articles r ->
    a_group a = group /\ a_key a ∈ map key_of es /\ (n0 <= a_node a < r_node r)%nat.

Lemma prefix_url_key e : key_of (prefix_url p e) = key_of e.
Proof. unfold prefix_url. destruct (purl p) as [u|]; [|done]. by destruct (String.eqb u ""). Qed.

Lemma render_entry_inv api group n0 r i r' :
  render_inv group n0 r -> render_entry p api group r i = Some r' -> render_inv group n0 r'.
Proof.
  intros (He & Hn & HN & Ha). unfold render_entry.
  destruct (r_entries r !! i) as [e|] eqn:Ei; [|by intros [= <-]].
  destruct (String.eqb group (egroup e)) eqn:Eg; [|by intros [= <-]].
  apply String.eqb_eq in Eg as ->.
  destruct (if negb _ then _ else _) as [av|]; [|done]. intros [= <-]. cbn [r_entries r_node r_articles].
  set (content := templateArticle (r_node r) _).
  assert (Hk : a_key content = key_of e) by (unfold content; rewrite <- (prefix_url_key e); done).
  assert (Hkin : key_of e ∈ map key_of es).
  { rewrite <- He. apply list_elem_of_fmap. exists e. split; [done|]. by apply list_elem_of_lookup_2 in Ei. }
  split; [|split; [|split]].
  - cbn [r_entries]. rewrite <- He. apply list_eq. intros j. rewrite !list_lookup_fmap.
    destruct (decide (i = j)) as [<-|Hne]; [|by rewrite list_lookup_insert_ne].
    rewrite list_lookup_insert_eq by (by apply lookup_lt_Some in Ei). rewrite Ei.
    cbn [fmap option_fmap option_map]. by rewrite prefix_url_key.
  - cbn. lia.
  - cbn [r_articles]. rewrite map_app. apply NoDup_app. split; [done|]. split; [|apply NoDup_singleton].
    intros x (a & -> & Hin)%list_elem_of_fmap Hx%list_elem_of_singleton.
    destruct (Ha a Hin) as (_ & _ & Hlt). change (a_node content) with (r_node r) in Hx. lia.
  - intros a [Hin|Hin]%elem_of_app.
    + destruct (Ha a Hin) as (H1 & H2 & H3). split; [done|]. split; [done|]. cbn. lia.
    + apply list_elem_of_singleton in Hin as ->. rewrite Hk.
      split; [unfold a_key, key_of in Hk; congruence|]. split; [done|]. cbn. lia.
Qed.

Lemma option_foldl_None {A B} (f : A -> B -> option A) l : option_foldl f None l = None.
Proof. by induction l. Qed.

Lemma option_foldl_inv {A B} (P : A -> Prop) (f : A -> B -> option A) l a a' :
  (forall a b a', P a -> f a b = Some a' -> P a') -> P a ->
  option_foldl f (Some a) l = Some a' -> P a'.
Proof.
  intros Hf. revert a. induction l as [|b l IH]; intros a Ha; cbn; [by intros [= <-]|].
  destruct (f a b) as [a1|] eqn:E; [|by rewrite option_foldl_None]. apply IH. by apply (Hf a b).
Qed.

(** The sections made so far. *)
Definition groups_inv (done_ : list string)
    (st : list entry * obj (obj (list string)) * nat * list section) : Prop :=
  let '(es', _, n, secs) := st in
  map key_of es' = map key_of es /\ map s_group secs = done_ /\
  (forall s a, s ∈ secs -> a ∈ s_articles s -> a_group a = s_group s) /\
  NoDup (nodes secs) /\
  forall a, a ∈ all_articles secs -> a_key a ∈ map key_of es /\ (a_node a < n)%nat.

Lemma render_group_inv api done_ st g st' :
  groups_inv done_ st -> render_group p api st g = Some st' -> groups_inv (done_ ++ [g]) st'.
Proof.
  destruct st as [[[es' av] n] secs]. intros (He & Hgs & Hsec & HN & Ha). unfold render_group.
  destruct (option_foldl (render_entry p api g) _ api) as [r|] eqn:E; [|done]. intros [= <-].
  assert (Hr : render_inv g n r).
  { refine (option_foldl_inv (render_inv g n) (render_entry p api g) api _ r _ _ E).
    - intros a b a'. apply render_entry_inv.
    - unfold render_inv. cbn [r_entries r_node r_articles]. split; [done|]. split; [lia|]. split; [apply NoDup_nil_2|]. by intros a []%not_elem_of_nil. }
  destruct Hr as (He' & Hn' & HNr & Har).
  assert (Hall : all_articles (secs ++ [{| s_group := g; s_hide := false; s_articles := r_articles r |}]) =
                 all_articles secs ++ r_articles r).
  { unfold all_articles. rewrite map_app, concat_app. cbn. by rewrite app_nil_r. }
  cbn [groups_inv]. split; [done|]. split; [by rewrite map_app, Hgs|]. split; [|split].
  - intros s a [Hs|Hs]%elem_of_app Hin; [by apply Hsec|].
    apply list_elem_of_singleton in Hs as ->. cbn in *. by apply Har.
  - unfold nodes. rewrite Hall, map_app. apply NoDup_app. split; [done|]. split; [|done].
    intros x (a & -> & Hin)%list_elem_of_fmap (b & Eb & Hb)%list_elem_of_fmap.
    destruct (Ha a Hin) as [_ Hlt], (Har b Hb) as (_ & _ & Hge). lia.
  - rewrite Hall. intros a [Hin|Hin]%elem_of_app.
    + destruct (Ha a Hin). split; [done|lia].
    + destruct (Har a Hin) as (_ & ? & ?). split; [done|lia].
Qed.

Lemma render_groups_inv api gs done_ st st' :
  groups_inv done_ st -> option_foldl (render_group p api) (Some st) gs = Some st' ->
  groups_inv (done_ ++ gs) st'.
Proof.
  revert done_ st. induction gs as [|g gs IH]; intros done_ st H; cbn.
  - intros [= <-]. by rewrite app_nil_r.
  - destruct (render_group p api st g) as [st1|] eqn:E; [|by rewrite option_foldl_None].
    intros H'. rewrite cons_middle, app_assoc. apply (IH _ st1); [|done]. by apply (render_group_inv api done_ st).
Qed.

Lemma apiGroups_NoDup l : NoDup (apiGroups p l).
Proof.
  unfold apiGroups.
  assert (HN : NoDup (sort_strings (keys (foldl (fun o e => obj_set (egroup e) tt o) [] l)))).
  { unfold sort_strings. rewrite merge_sort_Permutation. apply keys_NoDup.
    assert (G : forall o : list (string * unit), NoDup o.*1 -> NoDup (foldl (fun o e => obj_set (egroup e) tt o) o l).*1).
    { induction l as [|e l IH]; intros o Ho; [done|]. cbn. by apply IH, obj_set_NoDup. }
    apply G, NoDup_nil_2. }
  by rewrite (custom_order_Permutation p order_NoDup).
Qed.

Lemma boot_ok href pg threw :
  boot semver_valid semver_compare m p es href = Some (pg, threw) -> page_ok pg.
Proof.
  unfold boot. destruct (newList p es) as [api|]; [|done].
  destruct (apiVersions _ _ _ _); [|done]. destruct (nav _ _ _) as [nv|]; [|done].
  destruct (option_foldl _ _ _) as [[[[es' av] n] secs]|] eqn:E; [|done].
  assert (Hi : groups_inv [] (es, [], 0%nat, [])).
  { cbn. split; [done|]. split; [done|]. split; [by intros s a []%not_elem_of_nil|].
    split; [apply NoDup_nil_2|]. by intros a []%not_elem_of_nil. }
  destruct (render_groups_inv api _ [] _ _ Hi E) as (He & Hgs & Hsec & HN & Ha).
  set (pg0 := initDynamic p _). intros H.
  assert (Hok : page_ok pg0).
  { apply initDynamic_ok. split; cbn [entries sections next_node].
    - done.
    - split; [|done]. rewrite Hgs. apply apiGroups_NoDup.
    - split; [done|]. intros a Hin. by apply Ha.
    - intros a Hin. by apply Ha. }
  destruct (urlParam "compare" href); [destruct (template_withCompare p)|].
  - injection H as H. pose proof (compare_all_keeps pg0 Hok) as K. rewrite H in K. exact K.
  - by injection H as <- <-.
  - by injection H as <- <-.
Qed.
Lemma event_ok pg ev : page_ok pg -> page_ok (on_event p pg ev).
Proof.
  intros Hok. destruct ev as [v|node v|]; cbn [on_event].
  - by apply select_version_ok.
  - unfold click_version. destruct (filter _ _) as [|a l] eqn:E; [done|]. cbn [head].
    case_bool_decide; [|done].
    assert (Ha : a ∈ all_articles (sections pg)).
    { assert (H' : a ∈ filter (fun a => a_node a = node) (all_articles (sections pg))) by (rewrite E; left).
      apply list_elem_of_filter in H' as [_ H']. exact H'. }
    apply change_keeps; [done|]. split; [by apply (ok_nodes pg Hok)|].
    split; [by apply (ok_articles pg Hok)|]. intros b Hb En. by rewrite (node_unique pg b a Hok Hb Ha En).
  - by apply compare_all_keeps.
Qed.

Lemma events_ok pg evs : page_ok pg -> page_ok (foldl (on_event p) pg evs).
Proof. revert pg. induction evs as [|ev evs IH]; intros pg H; [done|]. cbn. by apply IH, event_ok. Qed.

(** C31. From the page that has loaded, whatever versions the reader selects and
    compares: every section has a group of its own and holds the articles of that group
    only, every article shows a request that the documentation has, with its name and
    version, and no two articles are the same element. *)
Theorem page_well_formed href pg threw evs :
  boot semver_valid semver_compare m p es href = Some (pg, threw) ->
  let pg' := foldl (on_event p) pg evs in
  sections_wf (sections pg') /\
  NoDup (map a_node (all_articles (sections pg'))) /\
  forall a, a ∈ all_articles (sections pg') ->
    exists e, e ∈ es /\ egroup e = a_group a /\ ename e = a_name a /\ eversion e = a_version a.
Proof.
  intros H%boot_ok. apply (events_ok pg evs) in H. cbv zeta.
  split; [apply H|]. split; [apply H|]. intros a Ha. apply (ok_articles _ H) in Ha.
  apply list_elem_of_fmap in Ha as (e & E & He). unfold a_key, key_of in E. exists e.
  split; [done|]. repeat split; congruence.
Qed.
End invariant.

(** C32. The main version menu shows of every name the first article, in document
    order, whose version is not above the selected one as texts compare, and the
    sections that have one; but a section that was hidden shows every article that is
    not above it, so that several versions of one request appear together. *)
Theorem select_version_shows p pg sel :
  sections_wf (sections pg) ->
  sections (select_version p pg sel) = menu_spec sel (sections pg).
Proof. apply select_version_sections. Qed.

(** * A documentation with two versions of a request *)

Definition versioned (name group version : string) : entry :=
  {| etype := "get"; eurl := "/" +:+ name; etitle := Some name; ename := name; egroup := group;
     eheader := None; eparameter := None; esuccess := None; eerror := None; einfo := None;
     eversion := version; efilename := "app/routes.js"; egroupTitle := None;
     egroupDescription := None; eid := None |}.

Definition two_versions : list entry :=
  [versioned "turn" "Broker" "2.0.0"; versioned "turn" "Broker" "1.0.0"; versioned "info" "Admin" "1.0.0"].

(** An order of versions for the examples: that of the texts. *)
Definition text_order (a b : string) : comparison :=
  if String.eqb a b then Eq else if str_lt a b then Lt else Gt.

Definition no_language : locales_module :=
  {| langId := ""; language := ""; locales := []; locale := Undefined_object |}.

Definition loaded_page : page :=
  match boot (fun _ => true) text_order no_language api_project two_versions "http://broker/apidoc" with
  | Some (pg, _) => pg
  | None => {| entries := []; api_list := []; groups := []; articleVersions := []; main_version := "";
               sidenav := []; sections := []; next_node := 0 |}
  end.

Lemma loaded :
  boot (fun _ => true) text_order no_language api_project two_versions "http://broker/apidoc" =
  Some (loaded_page, false).
Proof. by vm_compute. Qed.

Lemma two_versions_text e : e ∈ two_versions -> data_attr (eversion e) = JStr (eversion e).
Proof.
  intros He. unfold two_versions in He.
  repeat (apply elem_of_cons in He as [->|He]; [by vm_compute|]). by apply not_elem_of_nil in He.
Qed.

Lemma page_well_formed_witness :
  sections_wf (sections (foldl (on_event api_project) loaded_page [ArticleVersion 1 "1.0.0"; CompareAll])).
Proof.
  exact (proj1 (page_well_formed (fun _ => true) text_order no_language api_project two_versions
    api_project_order two_versions_text "http://broker/apidoc" loaded_page false
    [ArticleVersion 1 "1.0.0"; CompareAll] loaded)).
Defined.

(** The versions shown of a request. *)
Definition shown_versions (name : string) (l : list section) : list string :=
  map a_version (filter (fun a => a_name a = name) (visible_articles l)).

(** Selecting a version below all of them hides the section; selecting the newest one
    then shows both versions of the request, where a page that was not hidden shows one. *)
Lemma select_version_shows_witness :
  let hidden := select_version api_project loaded_page "0.5.0" in
  sections (select_version api_project hidden "2.0.0") = menu_spec "2.0.0" (sections hidden) /\
  shown_versions "turn" (menu_spec "2.0.0" (sections hidden)) = ["2.0.0"; "1.0.0"] /\
  shown_versions "turn" (sections (select_version api_project loaded_page "2.0.0")) = ["2.0.0"].
Proof.
  split; [|split; by vm_compute].
  apply select_version_shows.
  apply (ok_sections two_versions), select_version_ok.
  apply (boot_ok (fun _ => true) text_order no_language api_project two_versions api_project_order
           two_versions_text "http://broker/apidoc" loaded_page false loaded).
Defined.

(** The broker's own documentation: its titles are empty, so that the navigation names
    no request, and of the two entries called getCspConso the second is hidden. *)
Definition broker_page : option page :=
  fst <$> boot (fun _ => true) text_order no_language api_project api "http://broker/apidoc".

Lemma broker_page_navigation :
  match broker_page with
  | Some pg => forallb li_header (sidenav pg) = true /\
               map a_name (filter (fun a => a_hide a = true) (all_articles (sections pg))) = ["getCspConso"]
  | None => False
  end.
Proof. by vm_compute. Qed.
