(* ===== verification/Handlebars.v ===== *)
(** The helpers of the documentation viewer's templates,
    src/broker/BrokerServer/public/apidoc/utils/handlebars_helper.js.  The template
    compiler, the page's templates and the text difference algorithm are parameters;
    the timers and the console are left out. *)
From S2P Require Import Prelude JsNum JsString JsVal JsObj Locale.

(** * Values of a template context *)

(** A primitive, or an object (an array too) with its identity and its own
    properties. *)
Inductive hval :=
  | HVal (v : jsval)
  | HObj (address : nat) (own : list (string * jsval)).

#[export] Instance hval_eq_dec : EqDecision hval.
Proof. solve_decision. Defined.

Definition is_object (v : hval) : bool := match v with HObj _ _ => true | _ => false end.

Definition htruthy (v : hval) : bool := match v with HVal v => truthy v | HObj _ _ => true end.

(** [a === b]: objects by identity. *)
Definition hstrict_eq (a b : hval) : bool :=
  match a, b with
  | HVal x, HVal y => strict_eq x y
  | HObj i _, HObj j _ => Nat.eqb i j
  | _, _ => false
  end.

(** * Texts *)

(** [text.replace(/(_+)/g, ' ')]; a value that is no string has no [replace]. *)
Fixpoint collapse_underscores (after : bool) (s : string) : string :=
  match s with
  | EmptyString => ""
  | String c s' =>
      if eqc c "_" then (if after then "" else " ") +:+ collapse_underscores true s'
      else String c (collapse_underscores false s')
  end.
Definition underscoreToSpace (text : jsval) : option string :=
  match text with JStr s => Some (collapse_underscores false s) | _ => None end.

Definition toLowerCase (value : hval) : string :=
  match value with HVal (JStr s) => to_lower s | _ => "" end.

(** [value.split(splitChar)]; the empty separator splits into characters. *)
Definition js_split (sep s : string) : list string :=
  if String.eqb sep "" then characters s else split_str sep s.

Fixpoint repeat_str (n : nat) (s : string) : string :=
  match n with O => "" | S n => s +:+ repeat_str n s end.

(** [new Array(n).join(fill)] has the fill between [n] empty texts. *)
Definition splitFill (value splitChar fillChar : string) : string :=
  let splits := js_split splitChar value in
  repeat_str (pred (length splits)) fillChar +:+ default "undefined" (last splits).

Definition is_newline (c : ascii) : bool := (code c =? 13) || (code c =? 10).

(** The second group of the pattern at the head of [s]: the line end it takes and the
    rest, by the order of its alternatives. *)
Definition newline_at (s : string) : option (string * string) :=
  match s with
  | String a (String b r) =>
      if ((code a =? 13) && (code b =? 10)) || ((code a =? 10) && (code b =? 13))
      then Some (String a (String b ""), r)
      else if is_newline a then Some (String a "", String b r) else None
  | String a EmptyString => if is_newline a then Some (String a "", "") else None
  | EmptyString => None
  end.

(** The pattern at the head of [s]: first with a character that is no '>' and no line
    end, then without. *)
Definition break_at (s : string) : option (string * string * string) :=
  match (match s with
         | String c r => if negb (eqc c ">") && negb (is_newline c)
                         then match newline_at r with
                              | Some (nl, r') => Some (String c "", nl, r')
                              | None => None
                              end
                         else None
         | EmptyString => None
         end) with
  | Some m => Some m
  | None => match newline_at s with Some (nl, r) => Some ("", nl, r) | None => None end
  end.

Fixpoint replace_breaks (fuel : nat) (s : string) : string :=
  match fuel with
  | O => s
  | S f =>
      match break_at s with
      | Some (g1, g2, r) => g1 +:+ "<br>" +:+ g2 +:+ replace_breaks f r
      | None => match s with
                | String c s' => String c (replace_breaks f s')
                | EmptyString => ""
                end
      end
  end.

(** [_handlebarsNewlineToBreak] of a text; every step of the loop passes a character. *)
Definition newlineToBreak (s : string) : string := replace_breaks (S (String.length s)) s.
Definition nl2br (text : jsval) : string := newlineToBreak (to_str text).

(** * Conditions *)

Section conditions.
(** The text an object converts to. *)
Variable object_text : nat -> list (string * jsval) -> string.

Definition to_prim (v : hval) : jsval :=
  match v with HVal v => v | HObj i own => JStr (object_text i own) end.

(** An object is compared by the number of its properties, with a primitive. *)
Definition compared (context compare : hval) : hval :=
  match context with
  | HObj _ own => if negb (is_object compare) then HVal (JNum (of_Z (Z.of_nat (length own)))) else context
  | _ => context
  end.

(** Whether the block or its alternative is rendered. *)
Definition if_eq (context compare : hval) : bool := hstrict_eq (compared context compare) compare.
Definition if_gt (context compare : hval) : bool :=
  js_gt (to_prim (compared context compare)) (to_prim compare).
End conditions.

(** * Registered helpers and cached templates *)

(** [assign] registers a helper that returns a primitive, or null. *)
Definition assign (helpers : list (string * jsval)) (name : string) (arg : hval) : list (string * jsval) :=
  let arg := match arg with
             | HVal (JStr s) => JStr s
             | HVal (JNum x) => JNum x
             | HVal (JBool b) => JBool b
             | _ => Null
             end in
  obj_set name arg helpers.

(** [$.extend({}, this, hash)]: properties that are undefined are not copied. *)
Definition extend_with (target source : list (string * hval)) : list (string * hval) :=
  foldl (fun o '(k, v) => if bool_decide (v = HVal Undef) then o else obj_set k v o)
        target (own_keys source).
Definition templateContext (this hash : list (string * hval)) : list (string * hval) :=
  extend_with (extend_with [] this) hash.

Section subtemplates.
Variable template : Type.
(** [Handlebars.compile] of the element with the id [template-<name>]. *)
Variable compile : string -> template.
Variable render : template -> list (string * hval) -> string.

(** The cache afterwards and the text; a name that every object inherits is found in
    the empty cache, and is no template. *)
Definition subTemplate (templateCache : list (string * template)) (name : string)
    (this hash : list (string * hval)) : list (string * template) * option string :=
  match obj_get name templateCache with
  | Some t => (templateCache, Some (render t (templateContext this hash)))
  | None =>
      if inherited name then (templateCache, None)
      else let t := compile name in
           (obj_set name t templateCache, Some (render t (templateContext this hash)))
  end.
End subtemplates.

(** * Comparison of two versions of a list *)

Inductive change := typeSame | typeIns | typeDel.

Record compared_data (A : Type) := Data {
  d_type : change;
  d_source : option A;
  d_compare : option A;
  d_index : nat;
  d_last : bool;
}.
Arguments Data {A}. Arguments d_type {A}. Arguments d_source {A}. Arguments d_compare {A}.
Arguments d_index {A}. Arguments d_last {A}.

Section each_compared.
Context {A : Type}.
(** [entry[fieldname]]. *)
Variable field_of : A -> hval.

(** The state of the loops: the list and the next index. *)
Abbreviation acc := (list (compared_data A) * nat)%type.

Definition push_data (t : change) (s c : option A) (st : acc) : acc :=
  let '(dataList, index) := st in
  (dataList ++ [Data t s c index false], S index).

Definition same_loop (sourceEntry : A) (compare : list A) (st : acc) : acc * bool :=
  foldl (fun '(st, found) compareEntry =>
           if hstrict_eq (field_of sourceEntry) (field_of compareEntry)
           then (push_data typeSame (Some sourceEntry) (Some compareEntry) st, true)
           else (st, found)) (st, false) compare.

Definition source_loop (source compare : list A) (st : acc) : acc :=
  foldl (fun st sourceEntry =>
           let '(st, found) := same_loop sourceEntry compare st in
           if found : bool then st else push_data typeIns (Some sourceEntry) None st) st source.

Definition compare_loop (source compare : list A) (st : acc) : acc :=
  foldl (fun st compareEntry =>
           let found := foldl (fun found sourceEntry =>
             if hstrict_eq (field_of sourceEntry) (field_of compareEntry) then true else found)
             false source in
           if found : bool then st else push_data typeDel None (Some compareEntry) st) st compare.

(** A missing list is passed over. *)
Definition data_list (source compare : option (list A)) : list (compared_data A) :=
  let st := match source with
            | Some source => source_loop source (default [] compare) ([], O)
            | None => ([], O)
            end in
  (match compare with
   | Some compare => compare_loop (default [] source) compare st
   | None => st
   end).1.

Definition set_last (d : compared_data A) : compared_data A :=
  Data (d_type d) (d_source d) (d_compare d) (d_index d) true.

(** The list as the block sees it, and the concatenation of what it renders. *)
Definition mark_last (l : list (compared_data A)) : list (compared_data A) :=
  imap (fun i d => if Nat.eqb i (length l - 1) then set_last d else d) l.

Definition handlebarsEachCompared (source compare : option (list A))
    (fn : compared_data A -> string) : string :=
  foldl (fun ret d => ret +:+ fn d) "" (mark_last (data_list source compare)).
End each_compared.

(** Objects of the context, by address. *)
Abbreviation heap := (list (list (string * hval))).
Definition get_field (h : heap) (name : string) (i : nat) : hval :=
  match h !! i with Some o => default (HVal Undef) (obj_get name o) | None => HVal Undef end.

(** [values['key'] = entry[fieldName]] writes into the entry itself. *)
Definition add_key (fieldName : string) (h : heap) (i : nat) : heap :=
  match h !! i with
  | Some o => <[i := obj_set "key" (get_field h fieldName i) o]> h
  | None => h
  end.

Definition each_compare_list_field (h : heap) (source compare : option (list nat)) (field : string)
    (fn : heap -> compared_data nat -> string) : heap * string :=
  let h := foldl (add_key field) h (default [] source) in
  let h := foldl (add_key field) h (default [] compare) in
  (h, handlebarsEachCompared (get_field h "key") (Some (default [] source))
        (Some (default [] compare)) (fn h)).

(** [{value, key}] for every property. *)
Definition key_values (o : option (list (string * hval))) : list (string * hval) :=
  match o with Some o => own_keys o | None => [] end.

Definition each_compare_keys (source compare : option (list (string * hval)))
    (fn : compared_data (string * hval) -> string) : string :=
  handlebarsEachCompared (fun x => HVal (JStr x.1)) (Some (key_values source))
    (Some (key_values compare)) fn.

Definition each_compare_field (h : heap) (source compare : option (list nat))
    (fn : compared_data nat -> string) : string :=
  handlebarsEachCompared (get_field h "field") source compare fn.

Definition each_compare_title (h : heap) (source compare : option (list nat))
    (fn : compared_data nat -> string) : string :=
  handlebarsEachCompared (get_field h "title") source compare fn.

(** * Differences of texts *)

Inductive diff_op := DIFF_DELETE | DIFF_INSERT | DIFF_EQUAL.
#[export] Instance diff_op_eq_dec : EqDecision diff_op.
Proof. solve_decision. Defined.

(** [s.replace(/c/g, r)] for a character. *)
Fixpoint replace_all_char (c : ascii) (r s : string) : string :=
  match s with
  | EmptyString => ""
  | String x s' => (if eqc x c then r else String x "") +:+ replace_all_char c r s'
  end.

(** [s.replace(/p/gm, '')]. *)
Definition drop_all (p s : string) : string := replace_all p "" s.

Definition diff_text (data : string) : string :=
  replace_all_char (chr 10) "&para;<br>"
    (replace_all_char ">" "&gt;" (replace_all_char "<" "&lt;" (replace_all_char "&" "&amp;" data))).

Definition diff_html (d : diff_op * string) : string :=
  let text := diff_text d.2 in
  match d.1 with
  | DIFF_INSERT => "<ins>" +:+ text +:+ "</ins>"
  | DIFF_DELETE => "<del>" +:+ text +:+ "</del>"
  | DIFF_EQUAL => "<span>" +:+ text +:+ "</span>"
  end.

Definition diff_prettyHtml (diffs : list (diff_op * string)) : string :=
  foldr (fun d s => diff_html d +:+ s) "" diffs.

Section show_diff.
(** [diff_main(compare, source)] followed by [diff_cleanupSemantic]. *)
Variable diff_main : string -> string -> list (diff_op * string).

(** [options] is the third argument: the text 'nl2br' or the options of the helper.
    Descriptions and titles are strings or undefined. *)
Definition showDiff (source compare : jsval) (nl2br_option : bool) : jsval :=
  let finish (ds : jsval) := if nl2br_option then JStr (nl2br ds) else ds in
  if strict_eq source compare then finish source
  else if negb (truthy source) then compare
  else if negb (truthy compare) then source
  else finish (JStr (drop_all "&para;" (diff_prettyHtml (diff_main (to_str compare) (to_str source))))).
End show_diff.

(** [{{__ text}}]. *)
Definition helper__ (m : locales_module) (text : string) : translated := __ m text.
