(* ===== verification/HandlebarsProps.v ===== *)
(** What the template helpers of the documentation viewer guarantee. *)
From S2P Require Import Prelude Lists JsNum JsString JsVal JsObj Locale Handlebars.

(** * Comparison of two versions of a list *)

Section compared.
Context {A : Type}.
Variable field_of : A -> hval.

Abbreviation event := (change * option A * option A)%type.

Definition same_field (s c : A) : bool := hstrict_eq (field_of s) (field_of c).

(** What becomes of one entry of the newer list, and of the older one. *)
Definition source_events (compare : list A) (s : A) : list event :=
  match filter (fun c => same_field s c = true) compare with
  | [] => [(typeIns, Some s, None)]
  | cs => map (fun c => (typeSame, Some s, Some c)) cs
  end.

Definition change_events (source compare : list A) : list event :=
  concat (map (source_events compare) source) ++
  map (fun c => (typeDel, None, Some c))
      (filter (fun c => existsb (fun s => same_field s c) source = false) compare).

Definition to_data (i : nat) (e : event) : compared_data A :=
  let '(t, s, c) := e in Data t s c i false.

Definition acc_of (l : list event) : list (compared_data A) * nat := (imap to_data l, length l).

Lemma push_acc l t s c : push_data t s c (acc_of l) = acc_of (l ++ [(t, s, c)]).
Proof.
  unfold push_data, acc_of. rewrite imap_app, length_app. cbn. f_equal; [|lia].
  by rewrite Nat.add_0_r.
Qed.

Lemma same_loop_acc s compare l found :
  foldl (fun '(st, found) c => if hstrict_eq (field_of s) (field_of c)
           then (push_data typeSame (Some s) (Some c) st, true) else (st, found)) (acc_of l, found) compare =
  (acc_of (l ++ map (fun c => (typeSame, Some s, Some c)) (filter (fun c => same_field s c = true) compare)),
   found || existsb (same_field s) compare).
Proof.
  unfold same_field. revert l found. induction compare as [|c compare IH]; intros l found.
  - cbn. by rewrite app_nil_r, orb_false_r.
  - cbn [foldl existsb]. rewrite filter_cons.
    destruct (hstrict_eq (field_of s) (field_of c)) eqn:E.
    + rewrite push_acc, IH, decide_True by done. cbn [map]. rewrite <- app_assoc.
      by destruct found.
    + rewrite IH, decide_False by done. by rewrite orb_false_l.
Qed.

Lemma existsb_filter (f : A -> bool) l :
  existsb f l = match filter (fun x => f x = true) l with [] => false | _ => true end.
Proof.
  induction l as [|x l IH]; [done|]. cbn [existsb]. rewrite filter_cons.
  destruct (f x) eqn:E; [by rewrite decide_True|]. by rewrite decide_False, IH.
Qed.

Lemma source_loop_acc source compare l :
  source_loop field_of source compare (acc_of l) =
  acc_of (l ++ concat (map (source_events compare) source)).
Proof.
  unfold source_loop. revert l. induction source as [|s source IH]; intros l.
  - cbn. by rewrite app_nil_r.
  - cbn [foldl map concat]. unfold same_loop. rewrite same_loop_acc, orb_false_l, existsb_filter.
    destruct (filter (fun c => same_field s c = true) compare) as [|c cs] eqn:E.
    + cbn [map]. rewrite app_nil_r, push_acc, IH. unfold source_events at 2. by rewrite E, <- app_assoc.
    + rewrite IH. unfold source_events at 2. by rewrite E, <- app_assoc.
Qed.

Lemma compare_loop_acc source compare l :
  compare_loop field_of source compare (acc_of l) =
  acc_of (l ++ map (fun c => (typeDel, None, Some c))
                 (filter (fun c => existsb (fun s => same_field s c) source = false) compare)).
Proof.
  assert (Hf : forall c b, foldl (fun found s => if hstrict_eq (field_of s) (field_of c) then true else found) b source
               = b || existsb (fun s => same_field s c) source).
  { intros c. induction source as [|s source IHs]; intros b; [by rewrite orb_false_r|].
    cbn [foldl existsb]. rewrite IHs. unfold same_field. destruct (hstrict_eq _ _); [by rewrite orb_true_r|by rewrite orb_false_l]. }
  unfold compare_loop. revert l. induction compare as [|c compare IH]; intros l.
  - cbn. by rewrite app_nil_r.
  - cbn [foldl]. rewrite Hf, orb_false_l, filter_cons.
    destruct (existsb (fun s => same_field s c) source) eqn:E.
    + rewrite decide_False by done. apply IH.
    + rewrite decide_True by done. rewrite push_acc, IH. cbn [map]. by rewrite <- app_assoc.
Qed.

Lemma data_list_events source compare :
  data_list field_of source compare =
  imap to_data (change_events (default [] source) (default [] compare)).
Proof.
  unfold data_list, change_events. change ([], O) with (acc_of []).
  destruct source as [source|]; cbn [default].
  - unfold id, default. rewrite source_loop_acc. destruct compare as [compare|].
    + rewrite compare_loop_acc. by rewrite app_nil_l.
    + cbn. by rewrite app_nil_r.
  - destruct compare as [compare|]; [by rewrite compare_loop_acc|done].
Qed.

(** C33. Comparing two versions of a list renders, in this order: every entry of the
    newer one, with each older entry that has the same field or as inserted; then the
    older entries no newer one matches, as deleted.  The indices count from 0, only the
    final item is marked as the last, and the text is the concatenation of the blocks. *)
Theorem each_compared_spec source compare fn :
  let l := change_events (default [] source) (default [] compare) in
  handlebarsEachCompared field_of source compare fn =
  foldl (fun ret d => ret +:+ fn d) ""
    (imap (fun i '(t, s, c) => Data t s c i (Nat.eqb i (length l - 1))) l).
Proof.
  intros l. unfold handlebarsEachCompared. f_equal. unfold mark_last.
  rewrite data_list_events. fold l. rewrite length_imap. apply list_eq. intros i.
  rewrite !list_lookup_imap. destruct (l !! i) as [[[t s] c]|]; [|done].
  cbn [fmap option_fmap option_map to_data]. by destruct (Nat.eqb i (length l - 1)).
Qed.
End compared.

(** * Line breaks *)

(** A <br> before every line end, two-character line ends counted once. *)
Fixpoint break_lines (s : string) : string :=
  match s with
  | EmptyString => ""
  | String a rest =>
      if is_newline a then
        match rest with
        | String b r => if is_newline b && negb (eqc a b)
                        then "<br>" +:+ String a (String b (break_lines r))
                        else "<br>" +:+ String a (break_lines rest)
        | EmptyString => "<br>" +:+ String a ""
        end
      else String a (break_lines rest)
  end.

Lemma newline_cases c : is_newline c = true -> c = chr 13 \/ c = chr 10.
Proof.
  intros H.
  pose proof (ascii_test (fun c => negb (is_newline c) || eqc c (chr 13) || eqc c (chr 10))
    ltac:(by vm_compute) c) as E. cbv beta in E. rewrite H in E. cbn [negb orb] in E.
  unfold eqc in E. apply orb_true_iff in E as [E|E]; apply Ascii.eqb_eq in E; auto.
Qed.

(** The line end at the head of a text, and what follows it. *)
Lemma newline_at_cons a rest :
  newline_at (String a rest) =
  if is_newline a then
    match rest with
    | String b r => if is_newline b && negb (eqc a b) then Some (String a (String b ""), r)
                    else Some (String a "", rest)
    | EmptyString => Some (String a "", "")
    end
  else None.
Proof.
  cbn [newline_at]. destruct rest as [|b r]; [done|].
  destruct (is_newline a) eqn:Ea.
  - destruct (is_newline b) eqn:Eb.
    + by destruct (newline_cases a Ea) as [-> | ->], (newline_cases b Eb) as [-> | ->].
    + unfold is_newline in Eb. apply orb_false_iff in Eb as [-> ->]. by rewrite !andb_false_r.
  - unfold is_newline in Ea. by apply orb_false_iff in Ea as [-> ->].
Qed.

Lemma newline_at_break s nl r :
  newline_at s = Some (nl, r) ->
  break_lines s = "<br>" +:+ nl +:+ break_lines r /\ (String.length r < String.length s)%nat.
Proof.
  destruct s as [|a rest]; [done|]. rewrite newline_at_cons. cbn [break_lines].
  destruct (is_newline a); [|done]. destruct rest as [|b q].
  - intros [= <- <-]. cbn. split; [done|lia].
  - destruct (is_newline b && negb (eqc a b)); intros [= <- <-].
    + split; [done|cbn; lia].
    + split; [done|cbn; lia].
Qed.

Lemma replace_breaks_enough fuel s :
  (String.length s < fuel)%nat -> replace_breaks fuel s = break_lines s.
Proof.
  revert s. induction fuel as [|f IH]; intros s Hs; [lia|]. cbn [replace_breaks].
  destruct s as [|c s']; [done|]. cbn [String.length] in Hs.
  unfold break_at. destruct (is_newline c) eqn:Ec.
  - rewrite andb_false_r. destruct (newline_at (String c s')) as [[nl r]|] eqn:E.
    + destruct (newline_at_break _ _ _ E) as [-> Hl]. cbn [String.length] in Hl.
      rewrite IH by lia. done.
    + rewrite newline_at_cons, Ec in E. destruct s' as [|b r]; [done|].
      by destruct (is_newline b && negb (eqc c b)).
  - rewrite newline_at_cons, Ec, andb_true_r.
    assert (Hc : break_lines (String c s') = String c (break_lines s')) by (cbn; by rewrite Ec).
    destruct (negb (eqc c ">")).
    + destruct (newline_at s') as [[nl r]|] eqn:E.
      * destruct (newline_at_break _ _ _ E) as [Hb Hl]. rewrite Hc, Hb, IH by lia. done.
      * rewrite Hc, IH by lia. done.
    + rewrite Hc, IH by lia. done.
Qed.

(** [nl2br] puts a <br> before every line end and changes nothing else, whatever
    precedes the line end: the pattern's exception for '>' has no effect, since the
    group it guards may be empty. *)
Theorem newlineToBreak_spec s : newlineToBreak s = break_lines s.
Proof. apply replace_breaks_enough. lia. Qed.

(** * Differences of texts *)

(** The HTML of a text: special characters escaped, line ends as <br>. *)
Definition html_char (c : ascii) : string :=
  if eqc c "&" then "&amp;" else if eqc c "<" then "&lt;" else if eqc c ">" then "&gt;"
  else if eqc c (chr 10) then "<br>" else String c "".
Fixpoint html_text (s : string) : string :=
  match s with EmptyString => "" | String c s' => html_char c +:+ html_text s' end.

Definition piece_html (d : diff_op * string) : string :=
  match d.1 with
  | DIFF_INSERT => "<ins>" +:+ html_text d.2 +:+ "</ins>"
  | DIFF_DELETE => "<del>" +:+ html_text d.2 +:+ "</del>"
  | DIFF_EQUAL => "<span>" +:+ html_text d.2 +:+ "</span>"
  end.

Fixpoint concat_str (l : list string) : string :=
  match l with [] => "" | s :: l' => s +:+ concat_str l' end.

(** The text of one side of a difference. *)
Definition side (skip : diff_op) (d : list (diff_op * string)) : string :=
  concat_str (map snd (filter (fun x => x.1 <> skip) d)).

Lemma replace_all_app c r a b :
  replace_all_char c r (a +:+ b) = replace_all_char c r a +:+ replace_all_char c r b.
Proof.
  induction a as [|x a IH]; [done|]. rewrite string_app_cons. cbn [replace_all_char].
  by rewrite IH, string_app_assoc.
Qed.

Definition escaped_char (c : ascii) : string :=
  if eqc c "&" then "&amp;" else if eqc c "<" then "&lt;" else if eqc c ">" then "&gt;"
  else if eqc c (chr 10) then "&para;<br>" else String c "".

Lemma diff_text_cons c s : diff_text (String c s) = escaped_char c +:+ diff_text s.
Proof.
  change (String c s) with (String c "" +:+ s). unfold diff_text. rewrite !replace_all_app. f_equal.
  pose proof (ascii_test (fun c => String.eqb (diff_text (String c "")) (escaped_char c))
    ltac:(by vm_compute) c) as E. by apply String.eqb_eq in E.
Qed.

Lemma drop_plain c s : c <> "&"%char -> drop_all "&para;" (String c s) = String c (drop_all "&para;" s).
Proof.
  intros Hc. unfold drop_all, replace_all. cbn [replace_all_go].
  assert (has_prefix "&para;" (String c s) = false) as ->; [|done].
  unfold has_prefix. cbn [drop_prefix]. unfold eqc.
  destruct (Ascii.eqb "&" c) eqn:E; [|done]. apply Ascii.eqb_eq in E. congruence.
Qed.

Lemma drop_plain_str t s :
  str_all (fun c => negb (eqc c "&")) t = true -> drop_all "&para;" (t +:+ s) = t +:+ drop_all "&para;" s.
Proof.
  induction t as [|c t IH]; [done|]. cbn [str_all]. intros [Hc Ht]%andb_true_iff.
  rewrite !string_app_cons, drop_plain, IH; [done|done|]. intros ->. done.
Qed.

Lemma drop_escaped c s : drop_all "&para;" (escaped_char c +:+ s) = html_char c +:+ drop_all "&para;" s.
Proof.
  unfold escaped_char, html_char.
  destruct (eqc c "&") eqn:E1; [done|]. destruct (eqc c "<"); [done|]. destruct (eqc c ">"); [done|].
  destruct (eqc c (chr 10)); [done|]. rewrite !string_app_cons, !string_app_nil_l.
  apply drop_plain. intros ->. done.
Qed.

Lemma drop_text t s : drop_all "&para;" (diff_text t +:+ s) = html_text t +:+ drop_all "&para;" s.
Proof.
  induction t as [|c t IH]; [done|]. rewrite diff_text_cons. cbn [html_text].
  by rewrite <- string_app_assoc, drop_escaped, IH, string_app_assoc.
Qed.

Lemma drop_piece d s : drop_all "&para;" (diff_html d +:+ s) = piece_html d +:+ drop_all "&para;" s.
Proof.
  destruct d as [[] t]; unfold diff_html, piece_html; cbn [fst snd];
    rewrite <- !string_app_assoc, drop_plain_str, drop_text, drop_plain_str by done; done.
Qed.

Lemma drop_pieces d : drop_all "&para;" (diff_prettyHtml d) = concat_str (map piece_html d).
Proof. induction d as [|x d IH]; [done|]. cbn [diff_prettyHtml foldr map concat_str]. by rewrite drop_piece, <- IH. Qed.

(** Two different texts are shown as the pieces of their difference, each in its
    tag with the special characters escaped and the line ends as <br>; nothing of the
    texts is lost to the clean-up of the paragraph marks, and, for a correct difference,
    the two texts can be read off the pieces. *)
Theorem showDiff_pieces diff_main source compare :
  (forall a b, side DIFF_INSERT (diff_main a b) = a /\ side DIFF_DELETE (diff_main a b) = b) ->
  source <> compare -> source <> "" -> compare <> "" ->
  exists pieces,
    showDiff diff_main (JStr source) (JStr compare) false = JStr (concat_str (map piece_html pieces)) /\
    side DIFF_DELETE pieces = source /\ side DIFF_INSERT pieces = compare.
Proof.
  intros Hdiff Hne Hs Hc. exists (diff_main compare source).
  destruct (Hdiff compare source) as [H1 H2]. split; [|done].
  unfold showDiff. cbn [strict_eq truthy to_str].
  rewrite (proj2 (String.eqb_neq _ _) Hne), (proj2 (String.eqb_neq _ _) Hs), (proj2 (String.eqb_neq _ _) Hc).
  cbn [negb]. by rewrite drop_pieces.
Qed.

(** A difference that deletes everything and inserts everything is correct. *)
Definition naive_diff (a b : string) : list (diff_op * string) := [(DIFF_DELETE, a); (DIFF_INSERT, b)].

Lemma showDiff_pieces_witness :
  exists pieces,
    showDiff naive_diff (JStr "a<b") (JStr "a&para;b") false = JStr (concat_str (map piece_html pieces)) /\
    side DIFF_DELETE pieces = "a<b" /\ side DIFF_INSERT pieces = "a&para;b".
Proof.
  apply (showDiff_pieces naive_diff "a<b" "a&para;b"); try discriminate.
  intros a b. unfold side, naive_diff. split.
  - rewrite filter_cons_True, filter_cons_False by (cbn; congruence). apply string_app_nil_r.
  - rewrite filter_cons_False, filter_cons_True by (cbn; congruence). apply string_app_nil_r.
Defined.

(** A text that neither version has is shown as the word 'undefined' where line breaks
    are asked for: the helper does not test its first branch for a missing text. *)
Lemma showDiff_missing diff_main : showDiff diff_main Undef Undef true = JStr "undefined".
Proof. reflexivity. Qed.
