(* ===== verification/SampleRequest.v ===== *)
(** The sample requests of the documentation viewer,
    src/broker/BrokerServer/public/apidoc/utils/send_sample_request.js: the form of an
    article, the request its button sends, and what becomes of the answer.  The package
    path-to-regexp and the pretty printer of JSON are parameters. *)
From S2P Require Import Prelude JsNum JsString JsVal JsObj Json.

(** * The form *)

(** A text field: the group and name attributes of its parameter, its value and the
    value it was created with.  [i_optional] is the property [optional] of the element,
    which only a script could have set. *)
Record input := {
  i_group : string;
  i_name : string;
  i_value : string;
  i_default : string;
  i_optional : bool;
}.

(** A radio button that selects a group of fields. *)
Record radio := { q_group : string; q_checked : bool; q_value : string }.

Record form := {
  header_radios : list radio;
  header_inputs : list input;
  param_radios : list radio;
  param_inputs : list input;
  url_value : string;
  url_default : string;
  response_html : string;
  response_shown : bool;
}.

(** * The request *)

Abbreviation params := (list (string * string)).

Definition field_value (e : input) : string :=
  if negb (i_optional e) && negb (String.eqb (i_default e) "") then i_default e else i_value e.

(** The dictionary of the fields of the checked groups; the values are escaped as HTML. *)
Definition collect (radios : list radio) (inputs : list input) : params :=
  foldl (fun o r =>
    if q_checked r then
      let group := to_str (data_attr (q_group r)) in
      foldl (fun o e => if String.eqb (i_group e) group
                        then obj_set (to_str (data_attr (i_name e))) (escape_html (field_value e)) o
                        else o) o inputs
    else o) [] radios.

(** [encodeURIComponent]: the UTF-8 bytes of the code units that are not unreserved. *)
Definition unreserved (c : ascii) : bool :=
  in_range "A" "Z" c || in_range "a" "z" c || in_range "0" "9" c ||
  bool_decide (c ∈ ["-"; "_"; "."; "!"; "~"; "*"; "'"; "("; ")"]%char).

Definition hex_digit (d : Z) : string :=
  String (chr (if d <? 10 then 48 + d else 55 + d)) "".
Definition percent (b : Z) : string := "%" +:+ hex_digit (b / 16) +:+ hex_digit (b mod 16).

Fixpoint encodeURIComponent (s : string) : string :=
  match s with
  | EmptyString => ""
  | String c s' =>
      (if unreserved c then String c ""
       else if code c <? 128 then percent (code c)
       else percent (192 + code c / 64) +:+ percent (128 + code c mod 64)) +:+
      encodeURIComponent s'
  end.

(** [s.substr(1)]. *)
Definition tail_str (s : string) : string := match s with String _ s' => s' | EmptyString => "" end.

Record ajax_request := {
  q_url : string;
  q_dataType : string;
  q_contentType : string;
  q_headers : params;
  q_type : string;
  q_data : option string;
}.

Fixpoint query_rest (param : params) : string :=
  match param with
  | [] => ""
  | (k, v) :: rest => "&" +:+ k +:+ "=" +:+ v +:+ query_rest rest
  end.

(** The parameters in the order [for .. in] visits them, without any encoding. *)
Definition paramToQueryParms (param : params) : string :=
  match own_keys param with
  | [] => ""
  | (k, v) :: rest => "?" +:+ k +:+ "=" +:+ v +:+ query_rest rest
  end.

(** [JSON.stringify] of the dictionary. *)
Definition json_pairs (param : params) : string :=
  match own_keys param with
  | [] => "{}"
  | (k, v) :: rest =>
      "{" +:+ json_quote k +:+ ":" +:+ json_quote v +:+
      foldr (fun '(k, v) s => "," +:+ json_quote k +:+ ":" +:+ json_quote v +:+ s) "" rest +:+ "}"
  end.

Section send.
(** The groups of [pathToRegexp(url, null).exec(url)] after the whole match: [None]
    when there is no match, a missing group where one did not take part. *)
Variable path_groups : string -> option (list (option string)).
(** The text of a property every object inherits. *)
Variable builtin_text : string -> string.

(** One group of the pattern; [None] is an exception. *)
Definition insert_group (st : option (string * params)) (m : option string) : option (string * params) :=
  match st, m with
  | Some (url, param), Some m =>
      let key := tail_str m in
      match obj_get key param with
      | Some v => Some (replace_first m (encodeURIComponent v) url, obj_del key param)
      | None => if inherited key
                then Some (replace_first m (encodeURIComponent (builtin_text key)) url, param)
                else Some (url, param)
      end
  | _, _ => None
  end.

Definition insert_url_params (url : string) (param : params) : option (string * params) :=
  match path_groups url with
  | Some groups => foldl insert_group (Some (url, param)) groups
  | None => None
  end.

(** [sendSampleRequest]; [type] is the method of the documented request. *)
Definition sendSampleRequest (f : form) (type : string) : option ajax_request :=
  let header := collect (header_radios f) (header_inputs f) in
  let param := collect (param_radios f) (param_inputs f) in
  match insert_url_params (url_value f) param with
  | Some (url, param) =>
      Some (if String.eqb type "get"
            then {| q_url := url +:+ paramToQueryParms param; q_dataType := "text";
                    q_contentType := "text/plain"; q_headers := header;
                    q_type := to_upper type; q_data := None |}
            else {| q_url := url; q_dataType := "json"; q_contentType := "application/json";
                    q_headers := header; q_type := to_upper type;
                    q_data := match param with [] => None | _ => Some (json_pairs param) end |})
  | None => None
  end.
End send.

(** * The answer *)

Definition show_response (f : form) (html : string) : form :=
  Build_form (header_radios f) (header_inputs f) (param_radios f) (param_inputs f) (url_value f)
    (url_default f) html true.

Section answer.
Variable body : Type.
(** [JSON.stringify(data, null, 4)]; [None] when it throws. *)
Variable stringify_pretty : body -> option string.
(** The text of a value put into the document. *)
Variable body_text : body -> string.
(** [JSON.parse]. *)
Variable parse : string -> option body.

(** What jQuery's [.html(..)] leaves of a text is the text. *)
Definition displaySuccess (f : form) (data : body) : form :=
  show_response f (match stringify_pretty data with
                   | Some jsonResponse => jsonResponse
                   | None => body_text data
                   end).

Definition displayError (f : form) (status : Z) (error : string) (responseText : string) : form :=
  let message := "Error " +:+ dec status +:+ ": " +:+ error in
  let jsonResponse := match parse responseText ≫= stringify_pretty with
                      | Some t => t
                      | None => responseText
                      end in
  show_response f (if String.eqb jsonResponse "" then message
                   else message +:+ "<br>" +:+ jsonResponse).
End answer.

(** [clearSampleRequest]: the radio buttons carry the class of the fields and lose
    their values too. *)
Definition clearSampleRequest (f : form) : form :=
  {| header_radios := header_radios f; header_inputs := header_inputs f;
     param_radios := map (fun r => {| q_group := q_group r; q_checked := q_checked r; q_value := "" |})
                         (param_radios f);
     param_inputs := map (fun e => {| i_group := i_group e; i_name := i_name e; i_value := "";
                                      i_default := i_default e; i_optional := i_optional e |})
                         (param_inputs f);
     url_value := url_default f; url_default := url_default f;
     response_html := ""; response_shown := false |}.
