(* ===== verification/SampleRequestProps.v ===== *)
(** What a sample request carries: which parameters go into the path and which into
    the query, and what the server can read of them. *)
From S2P Require Import Prelude Lists JsNum JsString JsVal JsObj Json SampleRequest.

(** * The query *)

(** The values of a query are not encoded for an address but escaped for HTML, so two
    dictionaries may have the same address, and no server can tell them apart. *)
Lemma query_ambiguous :
  exists v, v = escape_html "x&y=z" /\
    paramToQueryParms [("a", v)] = paramToQueryParms [("a", "x"); ("amp;y", "z")].
Proof. eexists. split; [reflexivity|]. reflexivity. Qed.

(** * Parameters of the path *)

Section path.
Variable path_groups : string -> option (list (option string)).
Variable builtin_text : string -> string.





End path.


