(* ===== verification/NextTick.v ===== *)
(** The task queue the bundled agent carries, src/agent/dist/qosbroker-agent.js:
    [process.nextTick] with its two timers, as the packager's shim of [process]
    implements it.

    What a function does is an argument of the model: it takes the state of the program
    to another one, queues tasks, in their order, and may throw in the end.  So a task
    may queue itself again, and a drain need not end: the loops take fuel, and [None] is
    a drain that is still running.  The timers are those of the host; the run-to-completion
    of JavaScript means that nothing but the code itself runs during a drain. *)
From S2P Require Import Prelude Lists.

(** [new Item(fun, array)]: a function and its arguments. *)
Record item (F A : Type) := Item { fun_ : F; array : list A }.
Arguments Item {F A} _ _.
Arguments fun_ {F A} _.
Arguments array {F A} _.

Inductive callback := DrainQueue | CleanUpNextTick.
#[export] Instance callback_eq_dec : EqDecision callback.
Proof. solve_decision. Defined.

Section shim.
(** Functions, their arguments, and the state of the program they work on. *)
Context {F A E : Type}.
(** [fun.apply(null, array)]: the program afterwards, the tasks that were queued, and
    whether an exception came out. *)
Variable apply : F -> list A -> E -> E * list (item F A) * bool.

(** The variables of the module, the pending timers of the host, the program, and two
    histories: the tasks that were queued and those that were run. *)
Record shim := {
  queue : list (item F A);
  draining : bool;
  currentQueue : option (list (item F A));
  queueIndex : Z;
  timers : list (nat * callback);
  next_timer : nat;
  program : E;
  pushed : list (item F A);
  executed : list (item F A);
}.

Definition boot_shim (e : E) : shim :=
  {| queue := []; draining := false; currentQueue := None; queueIndex := -1; timers := [];
     next_timer := 0; program := e; pushed := []; executed := [] |}.

Definition with_queue (s : shim) (q : list (item F A)) : shim :=
  Build_shim q (draining s) (currentQueue s) (queueIndex s) (timers s) (next_timer s) (program s)
    (pushed s) (executed s).
Definition with_draining (s : shim) (b : bool) : shim :=
  Build_shim (queue s) b (currentQueue s) (queueIndex s) (timers s) (next_timer s) (program s)
    (pushed s) (executed s).
Definition with_current (s : shim) (q : option (list (item F A))) : shim :=
  Build_shim (queue s) (draining s) q (queueIndex s) (timers s) (next_timer s) (program s)
    (pushed s) (executed s).
Definition with_index (s : shim) (i : Z) : shim :=
  Build_shim (queue s) (draining s) (currentQueue s) i (timers s) (next_timer s) (program s)
    (pushed s) (executed s).
Definition with_timers (s : shim) (t : list (nat * callback)) (n : nat) : shim :=
  Build_shim (queue s) (draining s) (currentQueue s) (queueIndex s) t n (program s)
    (pushed s) (executed s).
Definition with_program (s : shim) (e : E) : shim :=
  Build_shim (queue s) (draining s) (currentQueue s) (queueIndex s) (timers s) (next_timer s) e
    (pushed s) (executed s).

Definition setTimeout (c : callback) (s : shim) : shim :=
  with_timers s (timers s ++ [(next_timer s, c)]) (S (next_timer s)).
Definition clearTimeout (t : nat) (s : shim) : shim :=
  with_timers s (filter (fun x => x.1 <> t) (timers s)) (next_timer s).

(** [process.nextTick(fun, ...args)], with the item it makes. *)
Definition nextTick (s : shim) (i : item F A) : shim :=
  let q := queue s ++ [i] in
  let s := Build_shim q (draining s) (currentQueue s) (queueIndex s) (timers s) (next_timer s)
             (program s) (pushed s ++ [i]) (executed s) in
  if (length q =? 1)%nat && negb (draining s) then setTimeout DrainQueue s else s.

(** [currentQueue[queueIndex].run()]; the result tells whether it threw. *)
Definition run_item (s : shim) (i : item F A) : shim * bool :=
  let '(e, queued, threw) := apply (fun_ i) (array i) (program s) in
  let s := Build_shim (queue s) (draining s) (currentQueue s) (queueIndex s) (timers s)
             (next_timer s) e (pushed s) (executed s ++ [i]) in
  (foldl nextTick s queued, threw).

(** The inner loop over the tasks from [queueIndex + 1] on. *)
Fixpoint run_items (rest : list (item F A)) (s : shim) : shim * bool :=
  match rest with
  | [] => (s, false)
  | i :: rest' =>
      let '(s, threw) := run_item (with_index s (queueIndex s + 1)) i in
      if threw then (s, true) else run_items rest' s
  end.

(** The outer loop, for a number of rounds. *)
Fixpoint drain_loop (fuel : nat) (s : shim) : option (shim * bool) :=
  match fuel with
  | O => None
  | S f =>
      match queue s with
      | [] => Some (s, false)
      | q =>
          let s := with_queue (with_current s (Some q)) [] in
          let '(s, threw) := run_items (drop (Z.to_nat (queueIndex s + 1)) q) s in
          if threw then Some (s, true) else drain_loop f (with_index s (-1))
      end
  end.

Definition drainQueue (fuel : nat) (s : shim) : option shim :=
  if draining s then Some s
  else
    let timeout := next_timer s in
    let s := with_draining (setTimeout CleanUpNextTick s) true in
    match drain_loop fuel s with
    | Some (s, true) => Some s
    | Some (s, false) => Some (clearTimeout timeout (with_draining (with_current s None) false))
    | None => None
    end.

(** [currentQueue.length] of nothing throws and leaves the flag cleared. *)
Definition cleanUpNextTick (fuel : nat) (s : shim) : option shim :=
  let s := with_draining s false in
  match currentQueue s with
  | None => Some s
  | Some q =>
      let s := match q with
               | [] => with_index s (-1)
               | _ => with_queue s (q ++ queue s)
               end in
      match queue s with [] => Some s | _ => drainQueue fuel s end
  end.

(** The host fires a timer, in any order. *)
Definition fire (fuel : nat) (s : shim) (t : nat) (c : callback) : option shim :=
  let s := clearTimeout t s in
  match c with DrainQueue => drainQueue fuel s | CleanUpNextTick => cleanUpNextTick fuel s end.

(** What can happen between two turns of the event loop: a task is queued, the rest of the
    program runs, a timer fires and its callback comes to an end. *)
Inductive step : shim -> shim -> Prop :=
  | step_call s i : step s (nextTick s i)
  | step_program s e : step s (with_program s e)
  | step_timer s t c fuel s' : (t, c) ∈ timers s -> fire fuel s t c = Some s' -> step s s'.
End shim.
Arguments shim : clear implicits.
