(* ===== verification/NextTickProps.v ===== *)
(** The task queue of the agent's bundle runs every task once, in the order they were
    queued, whatever throws, and it comes to an end exactly when the tasks do. *)
From S2P Require Import Prelude Lists NextTick.

Section props.
Context {F A E : Type}.
Variable apply : F -> list A -> E -> E * list (item F A) * bool.

Notation shim := (shim F A E).
Notation item := (item F A).
Notation drain_loop := (drain_loop apply).
Notation drainQueue := (drainQueue apply).
Notation run_items := (run_items apply).
Notation fire := (fire apply).
Notation step := (step apply).

(** * A plain queue *)

(** The program, the tasks that wait and those that have run: the oldest task runs and
    what it queues comes last, whether it throws or not. *)
Definition config : Type := E * list item * list item.

Inductive fifo_step : config -> config -> Prop :=
  | fifo e i q ran e' queued threw :
      apply (fun_ i) (array i) e = (e', queued, threw) ->
      fifo_step (e, i :: q, ran) (e', q ++ queued, ran ++ [i]).

Lemma fifo_det c c1 c2 : fifo_step c c1 -> fifo_step c c2 -> c1 = c2.
Proof. intros H1 H2. destruct H1 as [e i q ran e' l b E1]. inversion H2 as [? ? ? ? ? ? ? E2]; subst. congruence. Qed.

Lemma fifo_stuck e ran c : ~ fifo_step (e, [], ran) c.
Proof. intros H. inversion H. Qed.

(** A run that ends passes through every earlier point of the same run. *)
Lemma fifo_prefix k n c c1 e ran :
  nsteps fifo_step k c c1 -> nsteps fifo_step n c (e, [], ran) ->
  exists m, (n = k + m)%nat /\ nsteps fifo_step m c1 (e, [], ran).
Proof.
  intros H. revert n. induction H as [c|k c c' c1 Hs _ IH]; intros n Hn; [by exists n|].
  inversion Hn as [|n' ? c2 ? Hs2 Hn']; subst; [by destruct (fifo_stuck _ _ _ Hs)|].
  rewrite (fifo_det _ _ _ Hs2 Hs) in Hn'. destruct (IH _ Hn') as (m & -> & Hm). by exists m.
Qed.

(** Tasks that are queued and have not run. *)
Definition pending (s : shim) : list item :=
  match currentQueue s with
  | Some q => drop (Z.to_nat (queueIndex s + 1)) q
  | None => []
  end ++ queue s.

Definition config_of (s : shim) : config := (program s, pending s, executed s).

(** * A drain *)

(** During a drain tasks only queue up. *)
Lemma foldl_nextTick_draining l (s : shim) :
  draining s = true ->
  foldl nextTick s l =
  Build_shim (queue s ++ l) true (currentQueue s) (queueIndex s) (timers s) (next_timer s)
    (program s) (pushed s ++ l) (executed s).
Proof.
  revert s. induction l as [|i l IH]; intros s Hd; cbn [foldl].
  - rewrite !app_nil_r. destruct s. cbn in *. by subst.
  - unfold nextTick at 2. rewrite Hd, andb_false_r. rewrite IH by done. cbn. by rewrite <- !app_assoc.
Qed.

(** The state of a drain: what ran, what is left of the current queue, what was queued
    meanwhile. *)
Record in_drain (s0 s : shim) (rest : list item) : Prop := {
  id_draining : draining s = true;
  id_current : currentQueue s = currentQueue s0;
  id_timers : timers s = timers s0;
  id_next : next_timer s = next_timer s0;
  id_fifo : pushed s = executed s ++ rest ++ queue s;
}.

Lemma run_items_spec s0 s rest :
  in_drain s0 s rest ->
  exists done rest', rest = done ++ rest' /\
    in_drain s0 (run_items rest s).1 rest' /\
    queueIndex (run_items rest s).1 = queueIndex s + Z.of_nat (length done) /\
    nsteps fifo_step (length done) (program s, rest ++ queue s, executed s)
      (program (run_items rest s).1, rest' ++ queue (run_items rest s).1, executed (run_items rest s).1) /\
    (if (run_items rest s).2 then done <> [] else rest' = []).
Proof.
  revert s. induction rest as [|i rest IH]; intros s H.
  { exists [], []. cbn. split; [done|]. split; [done|]. split; [lia|]. split; [constructor|done]. }
  cbn [NextTick.run_items]. unfold run_item. cbn [program with_index].
  destruct (apply (fun_ i) (array i) (program s)) as [[e l] b] eqn:Ea.
  rewrite foldl_nextTick_draining by apply H.
  set (s1 := Build_shim _ true _ _ _ _ _ _ _).
  assert (H1 : in_drain s0 s1 rest).
  { split; try apply H; [done|]. unfold s1. cbn. rewrite (id_fifo _ _ _ H).
    rewrite <- !app_assoc. reflexivity. }
  assert (Hs : fifo_step (program s, (i :: rest) ++ queue s, executed s)
                 (program s1, rest ++ queue s1, executed s1)).
  { unfold s1. cbn. rewrite app_assoc. by apply (fifo _ i _ _ _ _ b). }
  assert (Hi : queueIndex s1 = queueIndex s + 1) by done.
  destruct b.
  - exists [i], rest. cbn [fst snd length]. split; [done|]. split; [done|].
    split; [lia|]. split; [by apply nsteps_once|done].
  - destruct (IH s1 H1) as (dn & rest' & -> & Hd & Hx & Hst & Hres).
    exists (i :: dn), rest'. split; [done|]. split; [done|].
    split; [cbn [length]; lia|]. split; [cbn [length]; by eapply nsteps_l|].
    by destruct (run_items _ _).2.
Qed.

(** Between two turns: nothing under way and a drain scheduled when it is needed, or a
    drain that an exception interrupted and the clean-up scheduled. *)
Definition idle (s : shim) : Prop :=
  draining s = false /\ currentQueue s = None /\ queueIndex s = -1 /\
  match queue s with
  | [] => timers s = []
  | _ => exists t, timers s = [(t, DrainQueue)]
  end.
Definition interrupted (s : shim) : Prop :=
  draining s = true /\
  (exists q, currentQueue s = Some q /\ 0 <= queueIndex s < Z.of_nat (length q)) /\
  exists t, timers s = [(t, CleanUpNextTick)].

Definition shim_inv (s : shim) : Prop :=
  pushed s = executed s ++ pending s /\ (idle s \/ interrupted s).

(** A queue that is to be drained from [queueIndex + 1] on. *)
Definition rest_of (s : shim) : list item := drop (Z.to_nat (queueIndex s + 1)) (queue s).
Definition drainable (s : shim) : Prop :=
  (-1 <= queueIndex s < Z.of_nat (length (queue s)) \/ (queue s = [] /\ queueIndex s = -1)) /\
  pushed s = executed s ++ rest_of s.

(** What a drain that came to an end leaves. *)
Definition drained (s s' : shim) (threw : bool) : Prop :=
  draining s' = true /\ timers s' = timers s /\ next_timer s' = next_timer s /\
  if threw then
    (exists q, currentQueue s' = Some q /\ 0 <= queueIndex s' < Z.of_nat (length q)) /\
    pushed s' = executed s' ++ pending s' /\
    exists k, nsteps fifo_step (S k) (program s, rest_of s, executed s) (config_of s')
  else
    queue s' = [] /\ pushed s' = executed s' /\ queueIndex s' = -1 /\
    exists k, nsteps fifo_step k (program s, rest_of s, executed s) (program s', [], executed s').

(** One round of the outer loop. *)
Lemma round_spec (s : shim) x q0 :
  draining s = true -> drainable s -> queue s = x :: q0 ->
  let '(s2, threw) := run_items (rest_of s) (with_queue (with_current s (Some (queue s))) []) in
  if threw then drained s s2 true
  else
    draining s2 = true /\ timers s2 = timers s /\ next_timer s2 = next_timer s /\
    pushed s2 = executed s2 ++ queue s2 /\
    nsteps fifo_step (length (rest_of s)) (program s, rest_of s, executed s) (program s2, queue s2, executed s2).
Proof.
  intros Hd [Hi Hp] Eq. set (s1 := with_queue _ _).
  destruct Hi as [Hi|[]]; [|congruence].
  assert (H1 : in_drain s1 s1 (rest_of s)).
  { split; try done. unfold s1. cbn. by rewrite app_nil_r. }
  destruct (run_items_spec s1 s1 (rest_of s) H1) as (dn & rest' & Hsplit & H2 & Hx & Hst & Hres).
  destruct (run_items (rest_of s) s1) as [s2 threw]. cbn [fst snd] in *.
  change (queue s1) with (@nil item) in Hst. rewrite app_nil_r in Hst.
  change (program s1) with (program s) in Hst. change (executed s1) with (executed s) in Hst.
  change (queueIndex s1) with (queueIndex s) in Hx. destruct H2 as [D2 C2 T2 N2 F2].
  change (currentQueue s1) with (Some (queue s)) in C2. destruct threw.
  - split; [done|]. split; [done|]. split; [done|].
    assert (Hrest : rest' = drop (Z.to_nat (queueIndex s2 + 1)) (queue s)).
    { rewrite Hx. replace (Z.to_nat (queueIndex s + Z.of_nat (length dn) + 1))
        with (Z.to_nat (queueIndex s + 1) + length dn)%nat by lia.
      rewrite <- drop_drop. fold (rest_of s). rewrite Hsplit. by rewrite drop_app_length. }
    assert (Hlen : (length dn + length rest' = length (queue s) - Z.to_nat (queueIndex s + 1))%nat)
      by (rewrite <- length_app, <- Hsplit; apply length_drop).
    assert (Hpend : pending s2 = rest' ++ queue s2) by (unfold pending; rewrite C2; by rewrite <- Hrest).
    destruct dn as [|y dn]; [done|]. cbn [length] in *. split; [|split].
    + exists (queue s). split; [done|]. lia.
    + by rewrite Hpend.
    + exists (length dn). unfold config_of. by rewrite Hpend.
  - subst rest'. rewrite app_nil_r in Hsplit. subst dn. by split_and!.
Qed.

(** What a drain does when it ends, and that it ends when the plain queue does; only the
    first round may find nothing left to run. *)
Lemma drain_loop_spec fuel (s : shim) :
  draining s = true -> drainable s ->
  (forall s' threw, drain_loop fuel s = Some (s', threw) -> drained s s' threw) /\
  (forall n e ran, nsteps fifo_step n (program s, rest_of s, executed s) (e, [], ran) ->
     (n < fuel)%nat -> (rest_of s = [] -> queue s <> [] -> 1 < fuel)%nat ->
     is_Some (drain_loop fuel s)).
Proof.
  revert s. induction fuel as [|f IH]; intros s Hd Hdr; [split; [done|lia]|]. cbn [NextTick.drain_loop].
  destruct (queue s) as [|x q0] eqn:Eq.
  { assert (Er : rest_of s = []) by (unfold rest_of; rewrite Eq; apply drop_nil). split; [|by eexists].
    intros s' threw [= <- <-]. destruct Hdr as [Hi Hp]. rewrite Er, app_nil_r in Hp.
    split_and!; try done; [rewrite Eq in Hi; destruct Hi as [Hi|[_ Hi]]; [cbn in Hi|]; lia|].
    exists 0%nat. rewrite Er. constructor. }
  pose proof (round_spec s x q0 Hd Hdr Eq) as R. rewrite Eq in R. cbn [queueIndex with_queue with_current].
  replace (drop (Z.to_nat (queueIndex s + 1)) (x :: q0)) with (rest_of s) by (unfold rest_of; by rewrite Eq).
  destruct (run_items (rest_of s) _) as [s2 [|]].
  { split; [|by eexists]. by intros s' threw [= <- <-]. }
  destruct R as (D2 & T2 & N2 & F2 & Hst).
  assert (Hr2 : rest_of (with_index s2 (-1)) = queue s2) by (unfold rest_of; apply drop_0).
  assert (Hdr2 : drainable (with_index s2 (-1))).
  { split; [|by rewrite Hr2]. cbn. destruct (queue s2); [by right|left; cbn; lia]. }
  destruct (IH (with_index s2 (-1)) D2 Hdr2) as [IH1 IH2]. rewrite Hr2 in IH2.
  cbn [program executed queue with_index] in IH2. split.
  - intros s' threw Es. destruct (IH1 s' threw Es) as (A1 & A2 & A3 & A4).
    unfold drained. rewrite Hr2 in A4. cbn [timers next_timer with_index program executed] in *.
    rewrite A2, A3. split; [done|]. split; [done|]. split; [done|]. destruct threw.
    + destruct A4 as (B1 & B2 & k & B3). split; [done|]. split; [done|].
      exists (length (rest_of s) + k)%nat. rewrite <- Nat.add_succ_r. by eapply nsteps_trans.
    + destruct A4 as (B1 & B2 & B3 & k & B4). split; [done|]. split; [done|]. split; [done|].
      exists (length (rest_of s) + k)%nat. by eapply nsteps_trans.
  - intros n e ran Hn Hf Hz. destruct (fifo_prefix _ _ _ _ _ _ Hst Hn) as (m & -> & Hm).
    apply (IH2 m e ran Hm).
    + destruct (rest_of s); cbn [length] in *; [|lia].
      assert (Hq : queue s2 = []).
      { by inversion Hst. }
      rewrite Hq in Hm. inversion Hm as [|? ? ? ? Hs]; subst; [specialize (Hz eq_refl ltac:(done)); lia|].
      by destruct (fifo_stuck _ _ _ Hs).
    + intros Hq. by rewrite Hq.
Qed.
(** A drain that starts between two turns. *)
Lemma drainQueue_spec fuel (s : shim) :
  draining s = false -> timers s = [] -> drainable s ->
  (forall s', drainQueue fuel s = Some s' ->
     shim_inv s' /\
     ((timers s' = [] /\ exists k, nsteps fifo_step k (program s, rest_of s, executed s) (config_of s')) \/
      exists k, nsteps fifo_step (S k) (program s, rest_of s, executed s) (config_of s'))) /\
  (forall n e ran, nsteps fifo_step n (program s, rest_of s, executed s) (e, [], ran) ->
     (S n < fuel)%nat -> is_Some (drainQueue fuel s)).
Proof.
  intros Hd Ht Hdr. unfold NextTick.drainQueue. rewrite Hd.
  set (s1 := with_draining (setTimeout CleanUpNextTick s) true).
  destruct (drain_loop_spec fuel s1 eq_refl Hdr) as [L1 L2]. split.
  - intros s' Es. destruct (drain_loop fuel s1) as [[s2 threw]|] eqn:El; [|done].
    destruct (L1 s2 threw eq_refl) as (D & T & N & L).
    assert (T' : timers s2 = [(next_timer s, CleanUpNextTick)]).
    { rewrite T. unfold s1. cbn. by rewrite Ht. }
    destruct threw; injection Es as <-.
    + destruct L as (Hc & Hf & Hk). split; [|by right]. split; [done|]. right.
      split; [done|]. split; [done|]. by exists (next_timer s).
    + destruct L as (Hq & Hf & Hx & Hk). set (s3 := clearTimeout _ _).
      assert (T3 : timers s3 = []).
      { unfold s3. cbn. rewrite T'. rewrite filter_cons_False by (cbn; by intros []). done. }
      assert (Hp3 : pending s3 = []) by (unfold pending, s3; cbn; exact Hq).
      split; [|left; split; [done|]; unfold config_of; rewrite Hp3; exact Hk].
      split; [rewrite Hp3, app_nil_r; exact Hf|]. left. split; [done|]. split; [done|]. split; [done|].
      unfold s3 at 1. cbn. by rewrite Hq.
  - intros n e ran Hn Hf. destruct (L2 n e ran Hn) as [[s2 [|]] ->]; [lia|lia|by eexists..].
Qed.

(** A timer of the host fires. *)
Lemma fire_spec fuel (s : shim) t c :
  shim_inv s -> (t, c) ∈ timers s ->
  (forall s', fire fuel s t c = Some s' ->
     shim_inv s' /\
     ((timers s' = [] /\ exists k, nsteps fifo_step k (config_of s) (config_of s')) \/
      exists k, nsteps fifo_step (S k) (config_of s) (config_of s'))) /\
  (forall n e ran, nsteps fifo_step n (config_of s) (e, [], ran) -> (S n < fuel)%nat ->
     is_Some (fire fuel s t c)).
Proof.
  intros [Hf [(Hd & Hc & Hx & Hq)|(Hd & (q & Hc & Hx) & t' & Ht)]] Hin; unfold config_of at 1 3 5.
  - destruct (queue s) as [|i l] eqn:Eq; [rewrite Hq in Hin; by apply not_elem_of_nil in Hin|].
    destruct Hq as [t' Ht]. rewrite Ht in Hin. apply list_elem_of_singleton in Hin as [= -> ->].
    assert (Hpend : pending s = rest_of (clearTimeout t' s)).
    { unfold pending, rest_of. rewrite Hc. cbn. rewrite Hx. symmetry. apply drop_0. }
    rewrite Hpend in *. apply (drainQueue_spec fuel (clearTimeout t' s)); [done| |split; [|done]].
    + cbn. rewrite Ht, filter_cons_False by (cbn; by intros []). done.
    + left. cbn. rewrite Hx, Eq. cbn [length]. lia.
  - rewrite Ht in Hin. apply list_elem_of_singleton in Hin as [= -> ->]. cbn [NextTick.fire].
    unfold NextTick.cleanUpNextTick. cbn [currentQueue with_draining clearTimeout with_timers]. rewrite Hc.
    destruct q as [|x q0]; [cbn in Hx; lia|]. set (q := x :: q0) in *.
    set (s1 := with_queue _ _). change (queue s1) with (q ++ queue s).
    assert (Hpend : pending s = rest_of s1).
    { unfold pending, rest_of. rewrite Hc. symmetry. apply drop_app_le. lia. }
    rewrite Hpend in *. change (q ++ queue s) with (x :: (q0 ++ queue s)). cbv iota.
    apply (drainQueue_spec fuel s1); [done| |split; [|done]].
    + cbn. rewrite Ht, filter_cons_False by (cbn; by intros []). done.
    + left. change (queueIndex s1) with (queueIndex s). change (queue s1) with (q ++ queue s).
      rewrite length_app. lia.
Qed.

Lemma nextTick_inv s i : shim_inv s -> shim_inv (nextTick s i).
Proof.
  intros [Hf Hst].
  assert (Hpend : forall t n, pushed s ++ [i] = executed s ++
            pending (Build_shim (queue s ++ [i]) (draining s) (currentQueue s) (queueIndex s) t n
                       (program s) (pushed s ++ [i]) (executed s))).
  { intros t n. unfold pending. cbn. rewrite Hf. unfold pending. by rewrite <- !app_assoc. }
  unfold nextTick. destruct Hst as [(Hd & Hc & Hx & Hq)|(Hd & Hc & Ht)].
  - rewrite Hd, andb_true_r. destruct (queue s) as [|j l] eqn:Eq.
    + cbn [length app Nat.eqb]. split; [rewrite <- Hd; apply (Hpend _ _)|]. left.
      split; [done|]. split; [done|]. split; [done|]. cbn. rewrite Hq. eauto.
    + rewrite length_app. cbn [length].
      replace (S (length l) + 1 =? 1)%nat with false by (symmetry; apply Nat.eqb_neq; lia).
      split; [rewrite <- Hd; apply (Hpend _ _)|]. left.
      split; [done|]. split; [done|]. split; [done|]. cbn. done.
  - rewrite Hd, andb_false_r. split; [rewrite <- Hd; apply (Hpend _ _)|]. right. done.
Qed.

Lemma reachable_inv e s : rtc step (boot_shim e) s -> shim_inv s.
Proof.
  assert (G : forall a b, rtc step a b -> shim_inv a -> shim_inv b).
  { intros a b H. induction H as [a|a b c Hab _ IH]; [done|]. intros Ha. apply IH.
    destruct Hab as [a i|a e'|a t cb fuel a' Hin Ea]; [by apply nextTick_inv|exact Ha|].
    by apply (fire_spec fuel a t cb Ha Hin). }
  intros H. apply (G _ _ H). split; [done|]. by left.
Qed.

(** C38. At every turn of the event loop the tasks that have run are a prefix of those
    that were queued, in the order they were queued, and the rest is still there, even
    after a task threw; and while a task waits, a timer of the host is pending. *)
Theorem nextTick_fifo e s :
  rtc step (boot_shim e) s ->
  pushed s = executed s ++ pending s /\ (pending s <> [] -> timers s <> []).
Proof.
  intros [Hf Hst]%reachable_inv. split; [done|]. intros Hp.
  destruct Hst as [(Hd & Hc & Hx & Hq)|(_ & _ & t & ->)]; [|done].
  unfold pending in Hp. rewrite Hc in Hp. cbn in Hp. destruct (queue s); [done|].
  by destruct Hq as [t ->].
Qed.

(** The host fires its pending timer, if any, [n] times; each callback has [fuel]. *)
Fixpoint run_host (n fuel : nat) (s : shim) : option shim :=
  match n with
  | O => Some s
  | S n' =>
      match timers s with
      | [] => Some s
      | (t, c) :: _ => match fire fuel s t c with Some s' => run_host n' fuel s' | None => None end
      end
  end.

Lemma no_timer_no_task s : shim_inv s -> timers s = [] -> pending s = [] /\ pushed s = executed s.
Proof.
  intros [Hf [(Hd & Hc & Hx & Hq)|(_ & _ & t & Ht)]] Hn; [|congruence].
  assert (Hp : pending s = []).
  { unfold pending. rewrite Hc. destruct (queue s); [done|]. destruct Hq. congruence. }
  by rewrite Hp, app_nil_r in Hf.
Qed.

(** What the host's timers do, the plain queue does. *)
Lemma run_host_sound n fuel s s' :
  shim_inv s -> run_host n fuel s = Some s' -> shim_inv s' /\ rtc fifo_step (config_of s) (config_of s').
Proof.
  revert s. induction n as [|n IH]; intros s Hs; cbn [run_host]; [intros [= <-]; by split; [|constructor]|].
  destruct (timers s) as [|[t c] ts] eqn:Et; [intros [= <-]; by split; [|constructor]|].
  destruct (fire fuel s t c) as [s1|] eqn:E1; [|done]. intros Es.
  destruct (proj1 (fire_spec fuel s t c Hs ltac:(rewrite Et; left)) s1 E1) as [H1 Hk].
  destruct (IH s1 H1 Es) as [H' Hr]. split; [done|]. etransitivity; [|exact Hr].
  destruct Hk as [(_ & k & Hk)|(k & Hk)]; by eapply rtc_nsteps_2.
Qed.

(** Where the plain queue ends the host's timers come to an end too. *)
Lemma run_host_complete n fuel s e ran :
  shim_inv s -> nsteps fifo_step n (config_of s) (e, [], ran) -> (S n < fuel)%nat ->
  exists m s', run_host m fuel s = Some s' /\ timers s' = [] /\ config_of s' = (e, [], ran).
Proof.
  revert s. induction (lt_wf n) as [n _ IH]. intros s Hs Hn Hf.
  destruct (timers s) as [|[t c] ts] eqn:Et.
  { exists 0%nat, s. split; [done|]. split; [done|]. unfold config_of in *.
    destruct (no_timer_no_task s Hs Et) as [Hp _]. rewrite Hp in *.
    inversion Hn as [|? ? ? ? Hb]; subst; [done|]. by destruct (fifo_stuck _ _ _ Hb). }
  assert (Hin : (t, c) ∈ timers s) by (rewrite Et; left).
  destruct (fire_spec fuel s t c Hs Hin) as [F1 F2].
  destruct (F2 n e ran Hn Hf) as [s1 E1]. destruct (F1 s1 E1) as [H1 Hk].
  assert (Step : forall m s', run_host m fuel s1 = Some s' -> run_host (S m) fuel s = Some s').
  { intros m s' Em. cbn [run_host]. by rewrite Et, E1. }
  destruct Hk as [(Ht & k & Hk)|(k & Hk)].
  - exists 1%nat, s1. split; [by apply Step|]. split; [done|].
    destruct (fifo_prefix _ _ _ _ _ _ Hk Hn) as (m & -> & Hm). unfold config_of in *.
    destruct (no_timer_no_task s1 H1 Ht) as [Hp _]. rewrite Hp in *.
    inversion Hm as [|? ? ? ? Hb]; subst; [done|]. by destruct (fifo_stuck _ _ _ Hb).
  - destruct (fifo_prefix _ _ _ _ _ _ Hk Hn) as (m & -> & Hm).
    destruct (IH m ltac:(lia) s1 H1 Hm ltac:(lia)) as (m' & s' & Em & Hres).
    exists (S m'), s'. split; [by apply Step|done].
Qed.

(** C39. The shim is the plain queue, and ends when it does.  When nothing else is queued
    from outside, the timers of the host come to an end exactly if running the waiting
    tasks one after the other, with what they queue, comes to an end; then no timer is
    left, and the tasks that have run, their order and the state of the program are those
    of the plain queue, every queued task having run once, whichever tasks throw.  Where
    the tasks queue new ones for ever there is no such end. *)
Theorem nextTick_terminates e0 s e ran :
  rtc step (boot_shim e0) s ->
  rtc fifo_step (program s, pending s, executed s) (e, [], ran) <->
  exists n fuel s', run_host n fuel s = Some s' /\ timers s' = [] /\ pending s' = [] /\
    program s' = e /\ executed s' = ran /\ pushed s' = ran.
Proof.
  intros Hs%reachable_inv. split.
  - intros [n Hn]%rtc_nsteps_1.
    destruct (run_host_complete n (S (S n)) s e ran Hs Hn ltac:(lia)) as (m & s' & Em & Ht & [= He Hp Hr]).
    exists m, (S (S n)), s'. destruct (run_host_sound _ _ _ _ Hs Em) as [Hs' _].
    destruct (no_timer_no_task s' Hs' Ht) as [_ Hpe]. split_and!; try done. by rewrite Hpe.
  - intros (n & fuel & s' & Em & _ & Hp & He & Hr & _).
    destruct (run_host_sound _ _ _ _ Hs Em) as [_ Hrtc]. unfold config_of in Hrtc.
    by rewrite Hp, He, Hr in Hrtc.
Qed.
End props.

(** * Concrete runs *)

(** Functions are numbers, a program counts: 1 queues 3 and throws, 4 queues itself while
    the count is below its argument. *)
Definition demo_apply (f : nat) (args : list nat) (count : nat) : nat * list (item nat nat) * bool :=
  match f, args with
  | 1%nat, _ => (count, [Item 3%nat []], true)
  | 4%nat, [n] => if (count <? n)%nat then (S count, [Item f args], false) else (count, [], false)
  | _, _ => (count, [], false)
  end.

Definition two_tasks : shim nat nat nat := nextTick (nextTick (boot_shim 0%nat) (Item 1%nat [])) (Item 4%nat [2%nat]).

Lemma two_tasks_reachable : rtc (step demo_apply) (boot_shim 0%nat) two_tasks.
Proof.
  eapply rtc_l; [apply (step_call _ _ (Item 1%nat []))|].
  apply rtc_once, (step_call _ _ (Item 4%nat [2%nat])).
Qed.

Lemma nextTick_fifo_witness :
  exists s, fire demo_apply 1 two_tasks 0 DrainQueue = Some s /\
    pushed s = executed s ++ pending s /\ executed s = [Item 1%nat []] /\ pending s <> [] /\ timers s <> [].
Proof.
  eexists. split; [reflexivity|].
  match goal with |- pushed ?s = _ /\ _ =>
    destruct (nextTick_fifo demo_apply 0%nat s) as [H1 H2] end.
  - eapply rtc_r; [exact two_tasks_reachable|]. by apply (step_timer _ _ 0 DrainQueue 1); [left|].
  - split; [exact H1|]. split; [reflexivity|]. split; [discriminate|]. apply H2. discriminate.
Defined.

Lemma nextTick_terminates_witness :
  exists n fuel s', run_host demo_apply n fuel two_tasks = Some s' /\ timers s' = [] /\ pending s' = [] /\
    program s' = 2%nat /\
    executed s' = [Item 1%nat []; Item 4%nat [2%nat]; Item 3%nat []; Item 4%nat [2%nat]; Item 4%nat [2%nat]] /\
    pushed s' = executed s'.
Proof.
  destruct (proj1 (nextTick_terminates demo_apply 0%nat two_tasks 2%nat
    [Item 1%nat []; Item 4%nat [2%nat]; Item 3%nat []; Item 4%nat [2%nat]; Item 4%nat [2%nat]] two_tasks_reachable))
    as (n & fuel & s' & H1 & H2 & H3 & H4 & H5 & H6).
  - do 5 (eapply rtc_l; [by eapply fifo|]). apply rtc_refl.
  - exists n, fuel, s'. rewrite H6. rewrite <- H5 at 2. by split_and!.
Defined.

(** A task that queues itself for ever: the callback of the first timer never returns. *)
Definition forever (_ : unit) (_ : list unit) (_ : unit) : unit * list (item unit unit) * bool :=
  (tt, [Item tt []], false).

Lemma drain_never_ends fuel :
  fire forever fuel (nextTick (boot_shim tt) (Item tt [])) 0 DrainQueue = None.
Proof.
  unfold fire, drainQueue. cbn [draining nextTick].
  enough (G : forall s : shim unit unit unit, draining s = true -> queue s = [Item tt []] -> queueIndex s = -1 ->
    drain_loop forever fuel s = None) by (by rewrite G).
  induction fuel as [|f IH]; intros s Hd Hq Hi; [done|]. cbn [drain_loop]. rewrite Hq.
  cbn [queueIndex with_queue with_current]. rewrite Hi. cbn [Z.to_nat Z.add Pos.add Z.opp drop].
  apply IH; cbn; by rewrite ?Hd.
Qed.
