(* ===== verification/Colors.v ===== *)
(** The colors package the agent bundle carries, src/agent/dist/qosbroker-agent.js:
    the table of styles, the functions that wrap a text in the control sequences of a
    terminal, the maps that colour a text letter by letter, the themes, and the test that
    decides whether colours are used at all.  The formatters [trap] and [zalgo] are in
    Glyphs. *)
From S2P Require Import Prelude Lists JsNum JsString JsVal JsObj.

Definition esc : ascii := chr 27.

(** * Styles *)

Definition codes : list (string * (Z * Z)) := [
  ("reset", (0, 0));

  ("bold", (1, 22));
  ("dim", (2, 22));
  ("italic", (3, 23));
  ("underline", (4, 24));
  ("inverse", (7, 27));
  ("hidden", (8, 28));
  ("strikethrough", (9, 29));

  ("black", (30, 39));
  ("red", (31, 39));
  ("green", (32, 39));
  ("yellow", (33, 39));
  ("blue", (34, 39));
  ("magenta", (35, 39));
  ("cyan", (36, 39));
  ("white", (37, 39));
  ("gray", (90, 39));
  ("grey", (90, 39));

  ("bgBlack", (40, 49));
  ("bgRed", (41, 49));
  ("bgGreen", (42, 49));
  ("bgYellow", (43, 49));
  ("bgBlue", (44, 49));
  ("bgMagenta", (45, 49));
  ("bgCyan", (46, 49));
  ("bgWhite", (47, 49));

  ("blackBG", (40, 49));
  ("redBG", (41, 49));
  ("greenBG", (42, 49));
  ("yellowBG", (43, 49));
  ("blueBG", (44, 49));
  ("magentaBG", (45, 49));
  ("cyanBG", (46, 49));
  ("whiteBG", (47, 49))].

Record style := Style { open : string; close : string }.

(** The control sequence with the number [n]. *)
Definition sequence (n : Z) : string := String esc ("[" +:+ dec n +:+ "m").

Definition ansiStyles : list (string * style) :=
  map (fun '(key, val) => (key, Style (sequence val.1) (sequence val.2))) codes.

(** * Regular expressions for a literal text *)

Definition matchOperatorsRe (c : ascii) : bool :=
  match c with
  | "|" | "\" | "{" | "}" | "(" | ")" | "[" | "]" | "^" | "$" | "+" | "*" | "?" | "." => true
  | _ => false
  end%char.

Fixpoint escapeStringRegexp (str : string) : string :=
  match str with
  | EmptyString => ""
  | String c s =>
      if matchOperatorsRe c then String "\" (String c (escapeStringRegexp s))
      else String c (escapeStringRegexp s)
  end.

(** The only text that the source of a regular expression matches, when the source is
    made of ordinary characters and of escaped operators. *)
Fixpoint literal (source : string) : option string :=
  match source with
  | EmptyString => Some ""
  | String "\" (String c s) => if matchOperatorsRe c then String c <$> literal s else None
  | String c s => if matchOperatorsRe c then None else String c <$> literal s
  end.

(** [new RegExp(escapeStringRegexp(close), 'g')], by the text it matches. *)
Definition closeRe (code : style) : option string := literal (escapeStringRegexp (close code)).

(** * Removing the styles *)

(** The digits at the start of a text, their number and the rest. *)
Fixpoint digit_run (s : string) : nat * string :=
  match s with
  | String c s' => if plain_digit c then let '(n, r) := digit_run s' in (S n, r) else (O, s)
  | EmptyString => (O, s)
  end.

(** What is left after a match of [\x1B\[\d+m] at the start. *)
Definition after_sequence (s : string) : option (nat * string) :=
  match s with
  | String e (String "[" s') =>
      if eqc e esc then
        match digit_run s' with
        | (S n, String "m" r) => Some (S n, r)
        | _ => None
        end
      else None
  | _ => None
  end.

Fixpoint strip_go (skip : nat) (str : string) : string :=
  match str with
  | EmptyString => ""
  | String c s =>
      match skip with
      | S k => strip_go k s
      | O => match after_sequence str with
             | Some (n, _) => strip_go (n + 2) s
             | None => String c (strip_go 0 s)
             end
      end
  end.

(** [colors.strip]. *)
Definition strip (str : string) : string := strip_go 0 str.

(** * Applying styles *)

(** One turn of the loop of [applyStyle]. *)
Definition wrap (code : style) (str : string) : string :=
  open code +:+ replace_all (default "" (closeRe code)) (open code) str +:+ close code.

(** The loop runs from the last of the styles to the first; [None] is the exception a
    name that is no style causes. *)
Definition nest (nestedStyles : list string) (str : string) : option string :=
  foldr (fun name acc => acc ≫= fun str => (fun code => wrap code str) <$> obj_get name ansiStyles)
    (Some str) nestedStyles.

(** The arguments as one text. *)
Definition joined (first : jsval) (args : list jsval) : string :=
  foldl (fun str a => str +:+ " " +:+ to_str a) (to_str first) args.

Section enabled.
(** [colors.enabled]. *)
Variable enabled : bool.

(** A property every object inherits is no style, and has neither [open] nor [close]. *)
Definition stylize (str : string) (style : string) : option string :=
  if negb enabled then Some str
  else if inherited style then Some ("undefined" +:+ str +:+ "undefined")
  else (fun code => open code +:+ str +:+ close code) <$> obj_get style ansiStyles.

Definition applyStyle (nestedStyles : list string) (arguments : list jsval) : option jsval :=
  match arguments with
  | [] => Some (JBool false)
  | first :: args =>
      let str := joined first args in
      if negb enabled || String.eqb str "" then Some (JStr str)
      else JStr <$> nest nestedStyles str
  end.

(** A builder carries the names of its styles; reading the property [key] of it adds
    one, and reading it of [colors] starts with one. *)
Definition build_get (_styles : list string) (key : string) : option (list string) :=
  (fun _ => _styles ++ [key]) <$> obj_get key ansiStyles.
Definition colors_get (name : string) : option (list string) :=
  (fun _ => [name]) <$> obj_get name ansiStyles.

(** [colors[name](str)]. *)
Definition colored (name : string) (str : string) : option string :=
  to_str <$> (colors_get name ≫= fun b => applyStyle b [JStr str]).

(** * Maps *)

Definition sequencer (f : string -> nat -> option string) (str : string) : option string :=
  (fun parts => foldr (fun a b => a +:+ b) "" parts) <$>
    mapM id (imap (fun i letter => f letter i) (characters str)).

Definition america (letter : string) (i : nat) : option string :=
  if String.eqb letter " " then Some letter
  else match (i mod 3)%nat with
       | 0%nat => colored "red" letter
       | 1%nat => colored "white" letter
       | _ => colored "blue" letter
       end.

Definition rainbowColors : list string := ["red"; "yellow"; "green"; "blue"; "magenta"].

Definition rainbow (letter : string) (i : nat) : option string :=
  if String.eqb letter " " then Some letter
  else rainbowColors !! (i mod length rainbowColors)%nat ≫= fun name => colored name letter.

Definition available : list string :=
  ["underline"; "inverse"; "grey"; "yellow"; "red"; "green"; "blue"; "white"; "cyan"; "magenta"].

(** [rnd i] is what [Math.random()] returns for the letter [i]. *)
Definition random (rnd : nat -> num) (letter : string) (i : nat) : option string :=
  if String.eqb letter " " then Some letter
  else available !! Z.to_nat (trunc_Z (round (mul (rnd i) (of_Z (Z.of_nat (length available - 1)))))) ≫=
       fun name => colored name letter.

Definition zebra (letter : string) (i : nat) : option string :=
  if Nat.eqb (i mod 2) 0 then Some letter else colored "inverse" letter.

(** [colors[map]]. *)
Definition colors_map (rnd : nat -> num) (map : string) : option (string -> option string) :=
  sequencer <$> obj_get map [("america", america); ("zebra", zebra); ("rainbow", rainbow);
                             ("random", random rnd)].

(** * Themes *)

(** A theme gives a name to a style, or to several that are applied in turn. *)
Inductive theme_value := One (style : string) | Many (styles : list string).

(** [applyTheme]: a name that is a style has a getter and no setter, so that the
    assignment is lost. *)
Definition applyTheme (custom theme : list (string * theme_value)) : list (string * theme_value) :=
  foldl (fun c '(style, v) => match obj_get style ansiStyles with
                              | Some _ => c
                              | None => obj_set style v c
                              end) custom theme.

(** The other members of [colors] that are functions of a text. *)
Variable member : string -> option (string -> option string).

(** [colors[name](str)] once [custom] has been added: [Some None] is an exception in a
    function, [None] a recursion deeper than [fuel]. *)
Fixpoint call_color (custom : list (string * theme_value)) (fuel : nat) (name str : string)
    : option (option string) :=
  match fuel with
  | O => None
  | S f =>
      match obj_get name ansiStyles with
      | Some _ => Some (colored name str)
      | None =>
          match obj_get name custom with
          | Some (One style) => call_color custom f style str
          | Some (Many styles) =>
              foldl (fun out style => match out with
                                      | Some (Some s) => call_color custom f style s
                                      | r => r
                                      end) (Some (Some str)) styles
          | None => Some (member name ≫= fun g => g str)
          end
      end
  end.

(** [colors.setTheme]: the name of a module that holds a theme, [None] if it cannot be
    loaded (the error is printed and returned), or a theme. *)
Definition setTheme (custom : list (string * theme_value))
    (theme : option (list (string * theme_value))) : list (string * theme_value) :=
  match theme with Some t => applyTheme custom t | None => custom end.
End enabled.

(** * Whether colours are used *)

(** What the test reads of the process: [isTTY] of a standard output that may be
    missing, the name of the platform and the environment. *)
Record process := {
  argv : list string;
  stdout_isTTY : option bool;
  platform : option string;
  env : list (string * string) }.

Definition contains (p s : string) : bool :=
  existsb (fun n => has_prefix p (String.substring n (String.length s - n) s))
    (seq 0 (S (String.length s))).

(** [/^screen|^xterm|^vt100|color|ansi|cygwin|linux/i.test(term)]. *)
Definition color_terminal (term : string) : bool :=
  let t := to_lower term in
  existsb (fun p => has_prefix p t) ["screen"; "xterm"; "vt100"] ||
  existsb (fun p => contains p t) ["color"; "ansi"; "cygwin"; "linux"].

Definition has_arg (p : process) (a : string) : bool := existsb (String.eqb a) (argv p).

Definition supportsColor (p : process) : bool :=
  if has_arg p "--no-color" || has_arg p "--color=false" then false
  else if has_arg p "--color" || has_arg p "--color=true" || has_arg p "--color=always" then true
  else if match stdout_isTTY p with Some tty => negb tty | None => false end then false
  else if match platform p with Some w => String.eqb w "win32" | None => false end then true
  else match obj_get "COLORTERM" (env p) with
       | Some _ => true
       | None =>
           let term := of_field (obj_get "TERM" (env p)) in
           if strict_eq term (JStr "dumb") then false else color_terminal (to_str term)
       end.

(** The object the shim of the bundle puts in the place of [process]. *)
Definition shim_process : process :=
  {| argv := []; stdout_isTTY := None; platform := None; env := [] |}.
