(* ===== verification/ColorsProps.v ===== *)
(** Properties of the bundled colors package: styling only adds control sequences, the
    outer style is closed once, and the bundle never uses colours. *)
From S2P Require Import Prelude Lists JsNum JsString JsVal JsObj Colors.

(** * Control sequences *)

Definition no_esc (s : string) : bool := str_all (fun c => negb (eqc c esc)) s.

(** [q] is a complete control sequence. *)
Definition is_sequence (q : string) : Prop :=
  exists ds, q = String esc ("[" +:+ ds +:+ "m") /\ str_all plain_digit ds = true /\ ds <> "".

Lemma plain_digit_esc c : plain_digit c = true -> negb (eqc c esc) = true.
Proof.
  unfold eqc. destruct (Stdlib.Strings.Ascii.eqb_spec c esc) as [->|]; [|done].
  intros H. vm_compute in H. discriminate H.
Qed.

Lemma sequence_is_sequence n : 0 <= n -> is_sequence (sequence n).
Proof.
  intros Hn. exists (dec n). unfold sequence. rewrite dec_nonneg by done. split_and!; [done|apply digits_plain|].
  destruct (digits_nonempty n Hn) as (c & s & ->). done.
Qed.

Lemma sequence_tail q : is_sequence q -> exists t, q = String esc t /\ no_esc t = true.
Proof.
  intros (ds & -> & Hd & _). eexists; split; [done|].
  change (no_esc (ds +:+ "m") = true). unfold no_esc. rewrite str_all_app.
  rewrite (str_all_impl plain_digit); [done|apply plain_digit_esc|done].
Qed.

Lemma digit_run_app ds c s :
  str_all plain_digit ds = true -> plain_digit c = false ->
  digit_run (ds +:+ String c s) = (String.length ds, String c s).
Proof.
  intros Hd Hc. induction ds as [|d ds IH].
  - rewrite string_app_nil_l. cbn [digit_run]. by rewrite Hc.
  - cbn [str_all] in Hd. apply andb_true_iff in Hd as [E Hd].
    rewrite string_app_cons. cbn [digit_run]. by rewrite E, IH.
Qed.

Lemma digit_run_split s n r :
  digit_run s = (n, r) ->
  exists ds, s = ds +:+ r /\ str_all plain_digit ds = true /\ String.length ds = n.
Proof.
  revert n r. induction s as [|c s IH]; intros n r; cbn.
  - intros [= <- <-]. by exists "".
  - destruct (plain_digit c) eqn:Hc; [|intros [= <- <-]; by exists ""].
    destruct (digit_run s) as [m r'] eqn:E. intros [= <- <-].
    destruct (IH _ _ eq_refl) as (ds & -> & Hd & <-).
    exists (String c ds). split_and!; [done| |done]. cbn. by rewrite Hc.
Qed.

Lemma sequence_length ds :
  String.length (String esc ("[" +:+ ds +:+ "m")) = (String.length ds + 3)%nat.
Proof. cbn [String.length]. rewrite !string_length_app. cbn [String.length]. lia. Qed.

Lemma after_sequence_app q s :
  is_sequence q -> after_sequence (q +:+ s) = Some (String.length q - 3, s)%nat.
Proof.
  intros (ds & -> & Hd & Hne). rewrite sequence_length.
  change (String esc ("[" +:+ ds +:+ "m") +:+ s) with (String esc (String "[" ((ds +:+ "m") +:+ s))).
  rewrite <- string_app_assoc. change ("m" +:+ s) with (String "m" s). cbn [after_sequence].
  change (eqc esc esc) with true. cbn iota.
  rewrite digit_run_app by done. destruct ds as [|d ds]; [done|]. cbn.
  do 2 f_equal. cbn. lia.
Qed.

Lemma after_sequence_split s n r :
  after_sequence s = Some (n, r) ->
  exists q, is_sequence q /\ s = q +:+ r /\ String.length q = (n + 3)%nat.
Proof.
  destruct s as [|e [|b s]]; [done|done|].
  intros H. assert (b = "["%char) as ->.
  { revert H. destruct b as [[] [] [] [] [] [] [] []]; done. }
  cbn [after_sequence] in H. unfold eqc in H. destruct (Stdlib.Strings.Ascii.eqb_spec e esc) as [->|]; [|done].
  destruct (digit_run s) as [k t] eqn:E. destruct k as [|k]; [done|].
  destruct t as [|m t]; [done|].
  assert (m = "m"%char) as ->.
  { revert H. destruct m as [[] [] [] [] [] [] [] []]; done. }
  injection H as <- <-. destruct (digit_run_split _ _ _ E) as (ds & -> & Hd & Hl).
  exists (String esc ("[" +:+ ds +:+ "m")). split_and!.
  - exists ds. split_and!; [done|done|]. intros ->. done.
  - rewrite !string_app_cons. do 2 f_equal. by rewrite string_app_nil_l, <- string_app_assoc.
  - by rewrite sequence_length, Hl.
Qed.

Lemma string_app_inj_len (a b s t : string) :
  String.length a = String.length b -> a +:+ s = b +:+ t -> a = b /\ s = t.
Proof.
  revert b. induction a as [|c a IH]; intros [|d b] Hl H; try done.
  rewrite !string_app_cons in H. injection H as -> H. injection Hl as Hl.
  by destruct (IH _ Hl H) as [-> ->].
Qed.

(** A text starts with one control sequence at most. *)
Lemma sequence_unique p q s t : is_sequence p -> is_sequence q -> p +:+ s = q +:+ t -> p = q.
Proof.
  intros Hp Hq H. pose proof (after_sequence_app p s Hp) as E1.
  pose proof (after_sequence_app q t Hq) as E2. rewrite H, E2 in E1.
  injection E1 as E1 _. apply (string_app_inj_len p q s t); [|done].
  enough (3 <= String.length p /\ 3 <= String.length q)%nat by lia.
  destruct Hp as (d & -> & _), Hq as (e & -> & _).
  rewrite !sequence_length. lia.
Qed.

Lemma strip_go_skip a s : strip_go (String.length a) (a +:+ s) = strip s.
Proof. induction a as [|c a IH]; [by destruct s|exact IH]. Qed.

Lemma strip_sequence q s : is_sequence q -> strip (q +:+ s) = strip s.
Proof.
  intros Hq. pose proof (after_sequence_app q s Hq) as E.
  destruct (sequence_tail q Hq) as (t & -> & _).
  unfold strip at 1. rewrite string_app_cons in *. cbn [strip_go]. rewrite E.
  replace (String.length (String esc t) - 3 + 2)%nat with (String.length t); [apply strip_go_skip|].
  destruct Hq as (d & Hd & _). pose proof (sequence_length d) as L. rewrite <- Hd in L.
  cbn [String.length] in *. lia.
Qed.

Lemma strip_char c s : after_sequence (String c s) = None -> strip (String c s) = String c (strip s).
Proof. intros E. unfold strip. cbn [strip_go]. by rewrite E. Qed.

Lemma strip_plain_char c s : eqc c esc = false -> strip (String c s) = String c (strip s).
Proof.
  intros Hc. apply strip_char. destruct s as [|b s]; [done|].
  destruct b as [[] [] [] [] [] [] [] []]; try done. cbn [after_sequence]. by rewrite Hc.
Qed.

Lemma strip_no_esc a s : no_esc a = true -> strip (a +:+ s) = a +:+ strip s.
Proof.
  induction a as [|c a IH]; intros H; [done|].
  apply andb_true_iff in H as [Hc H]. rewrite !string_app_cons.
  rewrite strip_plain_char by (by apply negb_true_iff). by rewrite IH.
Qed.

(** * Replacing a control sequence *)

Section replacing.
Context (p r : string) (Hp : is_sequence p) (Hr : is_sequence r).

Lemma replace_go_skip a s : replace_all_go p r (String.length a) (a +:+ s) = replace_all p r s.
Proof. induction a as [|c a IH]; [by destruct s|exact IH]. Qed.

Lemma replace_hit s : replace_all p r (p +:+ s) = r +:+ replace_all p r s.
Proof.
  pose proof (drop_prefix_app p s) as E. destruct (sequence_tail p Hp) as (t & Ht & _).
  unfold replace_all at 1. rewrite Ht in E |- * at 2. rewrite string_app_cons in *.
  cbn [replace_all_go]. unfold has_prefix. rewrite Ht, E. rewrite <- Ht. f_equal.
  replace (pred (String.length p)) with (String.length t) by (by rewrite Ht).
  apply replace_go_skip.
Qed.

Lemma replace_miss c s :
  has_prefix p (String c s) = false -> replace_all p r (String c s) = String c (replace_all p r s).
Proof. intros H. unfold replace_all. cbn [replace_all_go]. by rewrite H. Qed.

Lemma plain_prefix c s : eqc c esc = false -> has_prefix p (String c s) = false.
Proof.
  intros Hc. destruct (sequence_tail p Hp) as (t & -> & _). unfold has_prefix. cbn [drop_prefix].
  unfold eqc in *. by rewrite Stdlib.Strings.Ascii.eqb_sym, Hc.
Qed.

Lemma replace_no_esc a s : no_esc a = true -> replace_all p r (a +:+ s) = a +:+ replace_all p r s.
Proof.
  induction a as [|c a IH]; intros H; [done|]. apply andb_true_iff in H as [Hc H].
  rewrite !string_app_cons, replace_miss, IH; [done|done|].
  by apply plain_prefix, negb_true_iff.
Qed.

Lemma prefix_split s : has_prefix p s = true -> exists s', s = p +:+ s'.
Proof.
  unfold has_prefix. destruct (drop_prefix p s) eqn:E; [|done]. intros _.
  eexists. by apply drop_prefix_Some.
Qed.

(** Where a text can go on after a replaced part: at its end, or with an escape. *)
Definition boundary (tl : string) : Prop :=
  match tl with EmptyString => True | String c _ => c = esc end.

(** What the result has before an escape was in the text. *)
Lemma replace_back a s tl t :
  boundary tl -> no_esc a = true -> replace_all p r s +:+ tl = a +:+ t ->
  exists s', s = a +:+ s'.
Proof.
  intros Htl. revert s. induction a as [|c a IH]; intros s Ha H; [by exists s|].
  apply andb_true_iff in Ha as [Hc Ha]. apply negb_true_iff in Hc.
  rewrite string_app_cons in H. destruct s as [|d s].
  - change (replace_all p r "" +:+ tl) with tl in H. subst tl. cbn in Htl. subst c.
    by vm_compute in Hc.
  - destruct (has_prefix p (String d s)) eqn:E.
    + apply prefix_split in E as [s' Es]. rewrite Es, replace_hit in H.
      destruct (sequence_tail r Hr) as (t' & -> & _). rewrite <- string_app_assoc, string_app_cons in H.
      injection H as <- _. by vm_compute in Hc.
    + rewrite replace_miss, string_app_cons in H by done. injection H as -> H.
      destruct (IH s Ha H) as [s' ->]. by exists s'.
Qed.

(** The result has a control sequence at a place that is none of the pattern's only if
    the text has it. *)
Lemma replace_sequence_back q d s tl t :
  boundary tl -> is_sequence q -> String d (replace_all p r s) +:+ tl = q +:+ t ->
  exists s', String d s = q +:+ s'.
Proof.
  intros Htl Hq H. destruct (sequence_tail q Hq) as (q' & -> & Hq').
  rewrite !string_app_cons in H. injection H as -> H.
  destruct (replace_back q' s tl t Htl Hq' H) as [s' ->]. by exists s'.
Qed.

(** A text is empty, or starts with a match, or with another control sequence, or with a
    character that starts none. *)
Lemma text_cases (P : string -> Prop) :
  P "" ->
  (forall s, P s -> P (p +:+ s)) ->
  (forall q s, is_sequence q -> q <> p -> P s -> P (q +:+ s)) ->
  (forall c s, has_prefix p (String c s) = false -> after_sequence (String c s) = None ->
     P s -> P (String c s)) ->
  forall s, P s.
Proof.
  intros H0 Hmatch Hseq Hchar s. remember (String.length s) as n eqn:En.
  revert s En. induction (lt_wf n) as [n _ IH]. intros [|c s] ->; [done|].
  destruct (after_sequence (String c s)) as [[k s1]|] eqn:E.
  - apply after_sequence_split in E as (q & Hq & Hs & Hl). rewrite Hs.
    assert (P s1).
    { apply (IH (String.length s1)); [|done]. rewrite Hs, string_length_app. lia. }
    destruct (decide (q = p)) as [->|Hne]; [by apply Hmatch|by apply Hseq].
  - assert (P s) by (apply (IH (String.length s)); [cbn; lia|done]).
    apply Hchar; [|done|done]. destruct (has_prefix p (String c s)) eqn:Hpre; [|done].
    apply prefix_split in Hpre as [s' Hs]. by rewrite Hs, after_sequence_app in E.
Qed.

Lemma other_no_prefix q s : is_sequence q -> q <> p -> has_prefix p (q +:+ s) = false.
Proof.
  intros Hq Hne. destruct (has_prefix p (q +:+ s)) eqn:E; [|done].
  apply prefix_split in E as [s' E]. by destruct Hne; eapply sequence_unique.
Qed.

Lemma replace_other q s :
  is_sequence q -> q <> p -> replace_all p r (q +:+ s) = q +:+ replace_all p r s.
Proof.
  intros Hq Hne. pose proof (other_no_prefix q s Hq Hne) as E.
  destruct (sequence_tail q Hq) as (t & -> & Ht). rewrite !string_app_cons in *.
  by rewrite replace_miss, replace_no_esc.
Qed.

Lemma strip_replace s : strip (replace_all p r s) = strip s.
Proof.
  induction s as [|s IH|q s Hq Hne IH|c s Hpre E IH] using text_cases.
  - done.
  - by rewrite replace_hit, !strip_sequence.
  - by rewrite replace_other, !strip_sequence.
  - rewrite replace_miss by done. rewrite !strip_char; [by rewrite IH|done|].
    destruct (after_sequence (String c (replace_all p r s))) as [[k s1]|] eqn:E1; [|done].
    apply after_sequence_split in E1 as (q & Hq & Hs & _).
    destruct (replace_sequence_back q c s "" s1) as [s' Hs']; [done|done| |].
    { by rewrite string_app_nil_r. }
    by rewrite Hs', after_sequence_app in E.
Qed.

(** Occurrences of [p]. *)
Fixpoint count (s : string) : nat :=
  match s with
  | EmptyString => 0
  | String _ s' => (if has_prefix p s then 1 else 0) + count s'
  end.

Lemma count_no_esc a s : no_esc a = true -> count (a +:+ s) = count s.
Proof.
  induction a as [|c a IH]; intros H; [done|]. apply andb_true_iff in H as [Hc H].
  rewrite string_app_cons. cbn [count]. rewrite plain_prefix by (by apply negb_true_iff).
  by apply IH.
Qed.

Lemma count_other q s : is_sequence q -> q <> p -> count (q +:+ s) = count s.
Proof.
  intros Hq Hne. pose proof (other_no_prefix q s Hq Hne) as E.
  destruct (sequence_tail q Hq) as (t & -> & Ht). rewrite string_app_cons in *.
  cbn [count]. by rewrite E, count_no_esc.
Qed.

Lemma count_end : count p = 1%nat.
Proof.
  destruct (sequence_tail p Hp) as (t & E & Ht).
  enough (count (String esc (t +:+ "")) = 1%nat) as H by (by rewrite string_app_nil_r, <- E in H).
  cbn [count]. rewrite count_no_esc by done. rewrite string_app_nil_r, <- E.
  unfold has_prefix. pose proof (drop_prefix_app p "") as Ed. rewrite string_app_nil_r in Ed.
  by rewrite Ed.
Qed.

(** The result has the pattern only in what follows it. *)
Lemma count_replaced s : r <> p -> count (replace_all p r s +:+ p) = 1%nat.
Proof.
  intros Hne. induction s as [|s IH|q s Hq Hqp IH|c s Hpre E IH] using text_cases.
  - apply count_end.
  - by rewrite replace_hit, <- string_app_assoc, count_other.
  - by rewrite replace_other, <- string_app_assoc, count_other.
  - rewrite replace_miss, string_app_cons by done. cbn [count].
    destruct (has_prefix p (String c (replace_all p r s +:+ p))) eqn:E1; [|exact IH].
    apply prefix_split in E1 as [s1 E1].
    destruct (replace_sequence_back p c s p s1) as [s' Hs']; [|done|done|].
    { by destruct (sequence_tail p Hp) as (t & -> & _). }
    rewrite Hs' in Hpre. unfold has_prefix in Hpre. by rewrite drop_prefix_app in Hpre.
Qed.
End replacing.

Lemma replace_self p s : is_sequence p -> replace_all p p s = s.
Proof.
  intros Hp. induction s as [|s IH|q s Hq Hqp IH|c s Hpre E IH] using (text_cases p Hp).
  - done.
  - by rewrite replace_hit, IH.
  - by rewrite replace_other, IH.
  - by rewrite replace_miss, IH.
Qed.

Lemma strip_end q s : is_sequence q -> strip (s +:+ q) = strip s.
Proof.
  intros Hq. induction s as [|s IH|q' s Hq' Hne IH|c s Hpre E IH] using (text_cases q Hq).
  - rewrite string_app_nil_l. pose proof (strip_sequence q "" Hq) as E.
    rewrite string_app_nil_r in E. exact E.
  - by rewrite <- string_app_assoc, !(strip_sequence q).
  - by rewrite <- string_app_assoc, !(strip_sequence q').
  - rewrite string_app_cons, !strip_char; [by rewrite IH|done|].
    destruct (after_sequence (String c (s +:+ q))) as [[k s1]|] eqn:E1; [|done].
    apply after_sequence_split in E1 as (q' & Hq' & Hs & _).
    destruct (replace_sequence_back q q Hq Hq q' c s q s1) as [s' Hs']; [|done| |].
    { by destruct (sequence_tail q Hq) as (t & -> & _). }
    { by rewrite replace_self, string_app_cons. }
    by rewrite Hs', after_sequence_app in E.
Qed.

(** * The table of styles *)

Lemma literal_escape s : literal (escapeStringRegexp s) = Some s.
Proof.
  induction s as [|c s IH]; [done|]. cbn [escapeStringRegexp].
  destruct (matchOperatorsRe c) eqn:E.
  - cbn [literal]. by rewrite E, IH.
  - assert (literal (String c (escapeStringRegexp s)) = String c <$> literal (escapeStringRegexp s)) as ->
      by (revert E; clear; by destruct c as [[] [] [] [] [] [] [] []]).
    by rewrite IH.
Qed.

(** The regular expression of a style matches its closing sequence and nothing else. *)
Lemma closeRe_literal code : default "" (closeRe code) = close code.
Proof. unfold closeRe. by rewrite literal_escape. Qed.

Definition style_ok (e : string * style) : Prop :=
  is_sequence (open e.2) /\ is_sequence (close e.2) /\ (e.1 <> "reset" -> open e.2 <> close e.2).

Lemma styles_ok : Forall style_ok ansiStyles.
Proof.
  assert (forallb (fun '(key, (o, c)) => (0 <=? o) && (0 <=? c) &&
    (String.eqb key "reset" || negb (String.eqb (sequence o) (sequence c)))) codes = true) as H
    by by vm_compute.
  rewrite forallb_forall in H. unfold ansiStyles. apply Forall_map, Forall_forall.
  intros [key [o c]] Hin%list_elem_of_In. specialize (H _ Hin). cbv beta iota in H.
  rewrite !andb_true_iff, orb_true_iff, negb_true_iff in H. destruct H as [[Ho Hc] Hne]. b2p.
  split_and!; cbn; [by apply sequence_is_sequence..|].
  intros Hk. destruct Hne as [Hne|Hne]; [by apply String.eqb_eq in Hne|by apply String.eqb_neq in Hne].
Qed.

Lemma style_get name code : obj_get name ansiStyles = Some code -> style_ok (name, code).
Proof. intros H. apply obj_get_elem in H. by apply (proj1 (Forall_forall _ _) styles_ok). Qed.

Lemma strip_wrap name code str :
  obj_get name ansiStyles = Some code -> strip (wrap code str) = strip str.
Proof.
  intros H%style_get. destruct H as (Ho & Hc & _). cbn in *. unfold wrap.
  by rewrite strip_sequence, strip_end, closeRe_literal, strip_replace.
Qed.

Lemma wrap_closes name code str :
  obj_get name ansiStyles = Some code -> name <> "reset" -> count (close code) (wrap code str) = 1%nat.
Proof.
  intros H%style_get Hne. destruct H as (Ho & Hc & Hd). cbn in *. unfold wrap.
  rewrite closeRe_literal, count_other, count_replaced; auto.
Qed.

Definition known_style (name : string) : Prop := is_Some (obj_get name ansiStyles).

Lemma nest_known styles str :
  Forall known_style styles ->
  exists out, nest styles str = Some out /\ strip out = strip str /\
    forall name rest code, styles = name :: rest -> obj_get name ansiStyles = Some code ->
      exists body, out = wrap code body.
Proof.
  induction 1 as [|name rest [code Hcode] _ (out & E & Hs & _)].
  - exists str. by split_and!.
  - exists (wrap code out).
    change (nest (name :: rest) str)
      with (nest rest str ≫= fun str => (fun code => wrap code str) <$> obj_get name ansiStyles).
    rewrite E. cbn [mbind option_bind]. rewrite Hcode. split_and!; [done|by rewrite (strip_wrap name)|].
    intros name' rest' code' [= <- <-] [= <-]%(eq_trans (eq_sym Hcode)). by exists out.
Qed.

Lemma plain_strip s : no_esc s = true -> strip s = s.
Proof. intros H. pose proof (strip_no_esc s "" H) as E. by rewrite !string_app_nil_r in E. Qed.

(** * Maps *)

(** A function on letters that only styles them. *)
Definition styles_letter (f : string -> nat -> option string) : Prop :=
  forall c i, eqc c esc = false ->
    exists part, f (String c "") i = Some part /\ forall s, strip (part +:+ s) = String c (strip s).

Lemma letter_itself c : eqc c esc = false ->
  exists part, Some (String c "") = Some part /\ forall s, strip (part +:+ s) = String c (strip s).
Proof. intros Hc. eexists. split; [done|]. intros s. by apply strip_plain_char. Qed.

Lemma colored_letter name c : known_style name -> eqc c esc = false ->
  exists part, colored true name (String c "") = Some part /\
    forall s, strip (part +:+ s) = String c (strip s).
Proof.
  intros [code Hcode] Hc. exists (wrap code (String c "")). split.
  - unfold colored, colors_get. rewrite Hcode. cbn [fmap option_fmap option_map mbind option_bind].
    unfold applyStyle, joined. cbn [foldl to_str negb orb].
    change (String.eqb (String c "") "") with false. cbn iota.
    change (nest [name] (String c "")) with ((fun code => wrap code (String c "")) <$> obj_get name ansiStyles).
    by rewrite Hcode.
  - intros s. destruct (style_get name code Hcode) as (Ho & Hcl & _). cbn in Ho, Hcl.
    unfold wrap. rewrite closeRe_literal.
    assert (replace_all (close code) (open code) (String c "") = String c "") as ->
      by (apply replace_miss, plain_prefix; done).
    rewrite <- !string_app_assoc, strip_sequence by done. rewrite string_app_cons, string_app_nil_l.
    rewrite strip_plain_char by done. by rewrite strip_sequence.
Qed.

Lemma sequencer_letters f s :
  styles_letter f -> no_esc s = true ->
  exists out, sequencer f s = Some out /\ strip out = s.
Proof.
  intros Hf Hs. unfold sequencer.
  enough (forall k, exists parts,
    mapM id (imap (fun i l => f l (k + i)%nat) (characters s)) = Some parts /\
    strip (foldr (fun a b => a +:+ b) "" parts) = s) as H.
  { destruct (H O) as (parts & E & E'). cbn [Nat.add] in E. rewrite E. by eexists. }
  induction s as [|c s IH]; intros k; [by exists []|].
  apply andb_true_iff in Hs as [Hc Hs]. apply negb_true_iff in Hc.
  destruct (Hf c k Hc) as (part & Ep & Hp), (IH Hs (S k)) as (parts & E & E').
  exists (part :: parts). cbn [characters]. rewrite imap_cons. split.
  - rewrite (imap_ext _ (fun i l => f l (S k + i)%nat))
      by (intros; cbn; f_equal; lia).
    apply mapM_Some. rewrite Nat.add_0_r. constructor; [done|]. by apply mapM_Some.
  - cbn [foldr]. by rewrite Hp, E'.
Qed.

Lemma known_styles names : forallb (fun n => bool_decide (is_Some (obj_get n ansiStyles))) names = true ->
  Forall known_style names.
Proof.
  rewrite forallb_forall. intros H. apply Forall_forall. intros n Hn%list_elem_of_In.
  specialize (H n Hn). by apply bool_decide_eq_true in H.
Qed.

Lemma nth_styled names i c :
  Forall known_style names -> (i < length names)%nat -> eqc c esc = false ->
  exists part, names !! i ≫= (fun name => colored true name (String c "")) = Some part /\
    forall s, strip (part +:+ s) = String c (strip s).
Proof.
  intros Hn Hi Hc. destruct (lookup_lt_is_Some_2 names i Hi) as [name E]. rewrite E.
  apply colored_letter; [|done]. by eapply Forall_lookup_1.
Qed.

Lemma random_letter_index rnd :
  random_value rnd ->
  (Z.to_nat (trunc_Z (round (mul rnd (of_Z (Z.of_nat (length available - 1)))))) < length available)%nat.
Proof.
  intros Hr. change (Z.of_nat (length available - 1)) with 9. change (length available) with 10%nat.
  destruct (mul_random 9 rnd ltac:(lia) Hr) as (k & -> & Hk). pose proof scale_pos as Hs.
  unfold round.
  assert (0 <= (2 * k + scale) / (2 * scale) < 10).
  { split; [apply Z.div_pos; lia|apply Z.div_lt_upper_bound; lia]. }
  destruct (_ && _); [cbn; lia|]. cbn [trunc_Z]. rewrite Z.quot_mul by lia. lia.
Qed.

(** Colouring letter by letter adds control sequences only, whatever the map. *)
Lemma maps_strip rnd name f s :
  (forall i, random_value (rnd i)) -> colors_map true rnd name = Some f -> no_esc s = true ->
  exists out, f s = Some out /\ strip out = s.
Proof.
  intros Hr Hf Hs.
  enough (exists g, f = sequencer g /\ styles_letter g) as (g & -> & Hg) by by apply sequencer_letters.
  unfold colors_map in Hf. apply fmap_Some in Hf as (g & Hg & ->). exists g. split; [done|].
  apply obj_get_elem in Hg. intros c i Hc.
  repeat (apply elem_of_cons in Hg as [[= -> ->]|Hg]); [..|by apply elem_of_nil in Hg].
  - unfold america. case_match; [by apply letter_itself|].
    repeat case_match; (apply colored_letter; [by eexists|done]).
  - unfold zebra. case_match; [by apply letter_itself|]. apply colored_letter; [by eexists|done].
  - unfold rainbow. case_match; [by apply letter_itself|].
    apply nth_styled; [by apply known_styles; vm_compute| |done]. apply Nat.mod_upper_bound. done.
  - unfold random. case_match; [by apply letter_itself|].
    apply nth_styled; [by apply known_styles; vm_compute| |done]. by apply random_letter_index.
Qed.

(** * Styled texts *)

(** C40. Styling a text only adds control sequences.  Any chain of styles applies to any
    arguments, and removing the styles again gives the stripped text; the text itself, if
    it had no control sequences.  The outermost style is opened at the start and closed
    once, at the end, whatever styles the text already had. *)
Theorem applyStyle_strips styles first args :
  Forall known_style styles ->
  exists out, applyStyle true styles (first :: args) = Some (JStr out) /\
    strip out = strip (joined first args) /\
    (no_esc (joined first args) = true -> strip out = joined first args) /\
    (joined first args <> "" -> forall name rest code,
       styles = name :: rest -> obj_get name ansiStyles = Some code -> name <> "reset" ->
       (exists body, out = open code +:+ body +:+ close code) /\ count (close code) out = 1%nat).
Proof.
  intros H. unfold applyStyle. cbn [negb orb]. destruct (String.eqb_spec (joined first args) "") as [->|Hne].
  - exists "". by split_and!.
  - destruct (nest_known styles (joined first args) H) as (out & -> & Hs & Hout).
    exists out. split_and!; [done|done|intros ?; by rewrite Hs, plain_strip|].
    intros _ name rest code Hst Hcode Hr. destruct (Hout _ _ _ Hst Hcode) as [body ->].
    split; [by eexists|by eapply wrap_closes].
Qed.

Lemma applyStyle_strips_witness :
  Forall known_style ["red"; "bold"] /\
  exists out, applyStyle true ["red"; "bold"] [JStr ("a" +:+ sequence 39 +:+ "b")] = Some (JStr out) /\
    strip out = "ab" /\ count (sequence 39) out = 1%nat.
Proof.
  assert (Forall known_style ["red"; "bold"]) as H by (repeat constructor; by eexists).
  split; [exact H|].
  destruct (applyStyle_strips ["red"; "bold"] (JStr ("a" +:+ sequence 39 +:+ "b")) [] H)
    as (out & E & Hs & _ & Hc).
  exists out. split_and!; [exact E|exact Hs|].
  apply (Hc ltac:(discriminate) "red" ["bold"] (Style (sequence 31) (sequence 39)));
    [reflexivity|vm_compute; reflexivity|discriminate].
Defined.

(** * Themes *)

(** A style that a theme names works as the style. *)
Lemma themed_strips member custom name style str :
  obj_get name ansiStyles = None -> obj_get name custom = Some (One style) -> known_style style ->
  exists out, call_color true member custom 2 name str = Some (Some out) /\ strip out = strip str.
Proof.
  intros Hn Hc [code Hs]. cbn [call_color]. rewrite Hn, Hc, Hs. unfold colored, colors_get.
  rewrite Hs. cbn [fmap option_fmap option_map mbind option_bind].
  assert (K : Forall known_style [style]) by (constructor; [by exists code|done]).
  unfold applyStyle, joined. cbn [foldl to_str negb orb].
  destruct (String.eqb_spec str "") as [->|]; [by exists ""|].
  destruct (nest_known [style] str K) as (out & -> & Hout & _). by exists out.
Qed.

(** A theme that names itself recurses without end. *)
Lemma theme_cycle member custom name fuel str :
  obj_get name ansiStyles = None -> obj_get name custom = Some (One name) ->
  call_color true member custom fuel name str = None.
Proof. intros Hn Hc. induction fuel as [|f IH]; [done|]. cbn [call_color]. by rewrite Hn, Hc. Qed.

(** The name of a style cannot be given to anything else. *)
Lemma style_not_themed custom v name :
  known_style name -> applyTheme custom [(name, v)] = custom.
Proof. intros [code Hs]. cbn [applyTheme foldl]. by rewrite Hs. Qed.

(** * The bundle *)

(** The shim of [process] has no terminal: the bundled agent never uses colours. *)
Lemma bundle_disabled : supportsColor shim_process = false.
Proof. by vm_compute. Qed.

(** Without colours a style returns its text as it is. *)
Lemma applyStyle_disabled styles first args :
  applyStyle (supportsColor shim_process) styles (first :: args) = Some (JStr (joined first args)).
Proof. by rewrite bundle_disabled. Qed.
