(* ===== verification/Glyphs.v ===== *)
(** The two novelty formatters of the colors package in the agent's bundle,
    src/agent/dist/qosbroker-agent.js: [runTheTrap] puts a look-alike for every letter,
    [zalgo] heaps combining marks on it.  Their glyphs are outside the 8-bit characters
    of the other texts: a result is the list of its code units. *)
From S2P Require Import Prelude Lists JsNum JsString JsVal JsObj.

(** The code units of a text. *)
Fixpoint units (s : string) : list Z :=
  match s with EmptyString => [] | String c s' => code c :: units s' end.

(** [text || other]. *)
Definition text_or (text other : string) : string := if String.eqb text "" then other else text.

(** [Math.floor(Math.random() * n)]. *)
Definition random_below (rnd : num) (n : nat) : nat :=
  Z.to_nat (trunc_Z (floor (mul rnd (of_Z (Z.of_nat n))))).

(** * runTheTrap *)

Definition trap_table : list (string * list Z) := [
  ("a", [64; 260; 570; 581; 916; 923; 1044]);
  ("b", [223; 385; 579; 622; 946; 3647]);
  ("c", [169; 571; 1022]);
  ("d", [208; 394; 1280; 1281; 1282; 1283]);
  ("e", [203; 277; 398; 600; 931; 958; 1212; 2668]);
  ("f", [1274]);
  ("g", [610]);
  ("h", [294; 405; 1186; 1210; 1223; 1290]);
  ("i", [3855]);
  ("j", [308]);
  ("k", [312; 1184; 1219; 1310]);
  ("l", [313]);
  ("m", [653; 1229; 1230; 1312; 1313; 3433]);
  ("n", [209; 331; 413; 886; 928; 1162]);
  ("o", [216; 245; 248; 510; 664; 1146; 1501; 1757; 3663]);
  ("p", [503; 1166]);
  ("q", [2509]);
  ("r", [174; 422; 528; 588; 640; 1071]);
  ("s", [167; 990; 991; 1000]);
  ("t", [321; 358; 883]);
  ("u", [433; 1357]);
  ("v", [1496]);
  ("w", [1064; 1120; 1148; 3440]);
  ("x", [1202; 1278; 1276; 1277]);
  ("y", [165; 1200; 1227]);
  ("z", [437; 576])].

(** The glyph for the letter [c], with the random number drawn for it. *)
Definition trap_letter (c : string) (rnd : num) : list Z :=
  let c := to_lower c in
  match obj_get c trap_table with
  | Some chars => match chars !! random_below rnd (length chars) with
                  | Some glyph => [glyph]
                  | None => units "undefined"
                  end
  | None => units c
  end.

(** [rnd i] is the random number of the letter [i]. *)
Definition runTheTrap (text : string) (rnd : nat -> num) : list Z :=
  concat (imap (fun i c => trap_letter c (rnd i))
    (characters (text_or text "Run the trap, drop the bass"))).

(** * zalgo *)

Record soul_table := { up : list (list Z); down : list (list Z); mid : list (list Z) }.

Definition soul : soul_table := {|
  up := [
    [781]; [782]; [772]; [773]; [831]; [785]; [774]; [784]; [850]; [855]; [849]; [775];
    [776]; [778]; [834]; [787]; [776]; [842]; [843]; [844]; [771]; [770]; [780]; [848];
    [768]; [769]; [779]; [783]; [786]; [787]; [788]; [829]; [777]; [867]; [868]; [869];
    [870]; [871]; [872]; [873]; [874]; [875]; [876]; [877]; [878]; [879]; [830]; [859];
    [838]; [794]];
  down := [
    [790]; [791]; [792]; [793]; [796]; [797]; [798]; [799]; [800]; [804]; [805]; [806];
    [809]; [810]; [811]; [812]; [813]; [814]; [815]; [816]; [817]; [818]; [819]; [825];
    [826]; [827]; [828]; [837]; [839]; [840]; [841]; [845]; [846]; [851]; [852]; [853];
    [854]; [857]; [858]; [803]];
  mid := [
    [789]; [795]; [768]; [769]; [856]; [801]; [802]; [807]; [808]; [820]; [821]; [822];
    [860]; [861]; [862]; [863]; [864]; [866]; [824]; [823]; [865]; [32; 1161]] |}.

(** [[].concat(soul.up, soul.down, soul.mid)]. *)
Definition all_marks : list (list Z) := up soul ++ down soul ++ mid soul.

(** The callback overwrites its answer at every element: only the last one counts. *)
Definition is_char (character : list Z) : bool :=
  foldl (fun _ i => bool_decide (i = character)) false all_marks.

(** What the caller may set; [None] is a property that is missing. *)
Record zalgo_options := {
  o_up : option bool; o_mid : option bool; o_down : option bool; o_size : option string }.
Definition no_options : zalgo_options := {| o_up := None; o_mid := None; o_down := None; o_size := None |}.

Record counts := { c_up : num; c_mid : num; c_down : num }.

Section zalgo.
(** The random numbers in the order they are drawn; the functions below carry how many
    have been. *)
Variable rnd : nat -> num.

Definition randomNumber (range : nat) (n : nat) : Z * nat :=
  (Z.of_nat (random_below (rnd n) range), S n).

Definition draw_counts (size : string) (n : nat) : counts * nat :=
  if String.eqb size "mini" then
    let '(u, n) := randomNumber 8 n in let '(m, n) := randomNumber 2 n in
    let '(d, n) := randomNumber 8 n in
    ({| c_up := of_Z u; c_mid := of_Z m; c_down := of_Z d |}, n)
  else if String.eqb size "maxi" then
    let '(u, n) := randomNumber 16 n in let '(m, n) := randomNumber 4 n in
    let '(d, n) := randomNumber 64 n in
    ({| c_up := of_Z (u + 3); c_mid := of_Z (m + 1); c_down := of_Z (d + 3) |}, n)
  else
    let '(u, n) := randomNumber 8 n in let '(m, n) := randomNumber 6 n in
    let '(d, n) := randomNumber 8 n in
    ({| c_up := of_Z (u + 1); c_mid := div (of_Z m) (of_Z 2); c_down := of_Z (d + 1) |}, n).

(** [for (var i = 0; i <= count; i++)] runs its body once more than the integers up to
    the count, which may be half an integer. *)
Definition rounds (count : num) : nat := S (Z.to_nat (trunc_Z (floor count))).

Fixpoint add_marks (k : nat) (marks : list (list Z)) (n : nat) : list Z * nat :=
  match k with
  | O => ([], n)
  | S k =>
      let '(i, n) := randomNumber (length marks) n in
      let '(rest, n) := add_marks k marks n in
      (default (units "undefined") (marks !! Z.to_nat i) ++ rest, n)
  end.

Definition add_group (on : bool) (count : num) (marks : list (list Z)) (n : nat) : list Z * nat :=
  if on then add_marks (rounds count) marks n else ([], n).

Fixpoint heComes_go (o : zalgo_options) (l : nat) (text : list string) (n : nat) : list Z :=
  match text with
  | [] => []
  | letter :: rest =>
      if is_char (units (dec (Z.of_nat l))) then heComes_go o (S l) rest n
      else
        let '(k, n) := draw_counts (default "maxi" (o_size o)) n in
        let '(a, n) := add_group (default true (o_up o)) (c_up k) (up soul) n in
        let '(b, n) := add_group (default true (o_mid o)) (c_mid k) (mid soul) n in
        let '(c, n) := add_group (default true (o_down o)) (c_down k) (down soul) n in
        units letter ++ a ++ b ++ c ++ heComes_go o (S l) rest n
  end.

Definition heComes (text : string) (o : zalgo_options) : list Z := heComes_go o 0 (characters text) 0.

Definition zalgo (text : string) (o : zalgo_options) : list Z :=
  heComes (text_or text "   he is here   ") o.
End zalgo.
