(* ===== verification/GlyphsProps.v ===== *)
(** What the novelty formatters keep of a text. *)
From S2P Require Import Prelude Lists JsNum JsString JsVal JsObj Glyphs.

Lemma random_below_lt rnd n :
  random_value rnd -> (0 < n)%nat -> Z.of_nat n <= 2 ^ 53 -> (random_below rnd n < n)%nat.
Proof.
  intros Hr Hn Hmax. unfold random_below.
  pose proof (random_index (Z.of_nat n) rnd ltac:(lia) Hr). lia.
Qed.

(** * runTheTrap *)

(** The glyphs a letter may become: those of its row, or its lower case. *)
Definition glyph_of (c : string) (g : list Z) : Prop :=
  match obj_get (to_lower c) trap_table with
  | Some chars => exists x, x ∈ chars /\ g = [x]
  | None => g = units (to_lower c)
  end.

Lemma trap_rows : Forall (fun e => (0 < length e.2)%nat /\ Z.of_nat (length e.2) <= 2 ^ 53) trap_table.
Proof. apply (bool_decide_unpack _). by vm_compute. Qed.

(** Every letter becomes a glyph of its row, in place. *)
Lemma trap_glyphs text rnd :
  (forall i, random_value (rnd i)) ->
  exists gs, runTheTrap text rnd = concat gs /\
    Forall2 glyph_of (characters (text_or text "Run the trap, drop the bass")) gs.
Proof.
  intros Hr. eexists. split; [reflexivity|]. apply Forall2_same_length_lookup_2.
  { by rewrite length_imap. }
  intros i c g Hc Hg. rewrite list_lookup_imap, Hc in Hg. cbn in Hg. injection Hg as <-.
  unfold glyph_of, trap_letter. destruct (obj_get (to_lower c) trap_table) as [chars|] eqn:E; [|done].
  apply obj_get_elem in E. pose proof (proj1 (Forall_forall _ _) trap_rows _ E) as [H1 H2]. cbn in H1, H2.
  destruct (lookup_lt_is_Some_2 chars (random_below (rnd i) (length chars))) as [x Hx].
  { by apply random_below_lt. }
  rewrite Hx. exists x. split; [by eapply list_elem_of_lookup_2|done].
Qed.

(** * zalgo *)

(** The test of [is_char] compares with the last mark only, and is made on the index. *)
Lemma is_char_last c : is_char c = bool_decide ([32; 1161] = c).
Proof. reflexivity. Qed.

Lemma units_plain s : str_all plain_digit s = true -> 32 ∉ units s.
Proof.
  induction s as [|c s IH]; [by intros _ ?%not_elem_of_nil|]. cbn [str_all units].
  intros [Hc Hs]%andb_true_iff. rewrite not_elem_of_cons. split; [|by apply IH].
  intros E. unfold plain_digit, in_range in Hc. rewrite <- E in Hc. by vm_compute in Hc.
Qed.

Lemma is_char_index l : is_char (units (dec (Z.of_nat l))) = false.
Proof.
  rewrite is_char_last. apply bool_decide_eq_false. intros E.
  apply (units_plain (dec (Z.of_nat l))).
  - rewrite dec_nonneg by lia. apply digits_plain.
  - rewrite <- E. left.
Qed.

(** A heap of at most [k] marks. *)
Definition heap_of (k : nat) (m : list Z) : Prop :=
  exists ms, m = concat ms /\ (length ms <= k)%nat /\ forall x, x ∈ ms -> x ∈ all_marks.

Lemma heap_app a b m m' : heap_of a m -> heap_of b m' -> heap_of (a + b) (m ++ m').
Proof.
  intros (x & -> & Hx & Ix) (y & -> & Hy & Iy). exists (x ++ y).
  split_and!; [by rewrite concat_app|rewrite length_app; lia|].
  intros z [Hz|Hz]%elem_of_app; auto.
Qed.

Lemma heap_le a b m : (a <= b)%nat -> heap_of a m -> heap_of b m.
Proof. intros Hab (x & -> & Hx & Ix). exists x. split_and!; [done|lia|done]. Qed.

Section random.
Variable rnd : nat -> num.
Hypothesis Hrnd : forall i, random_value (rnd i).

Lemma randomNumber_spec range n :
  (0 < range)%nat -> Z.of_nat range <= 2 ^ 53 ->
  exists z, randomNumber rnd range n = (z, S n) /\ 0 <= z < Z.of_nat range.
Proof.
  intros H1 H2. eexists. split; [reflexivity|].
  pose proof (random_below_lt (rnd n) range (Hrnd n) H1 H2). lia.
Qed.

Lemma add_marks_heap k marks n :
  marks <> [] -> Z.of_nat (length marks) <= 2 ^ 53 -> (forall x, x ∈ marks -> x ∈ all_marks) ->
  heap_of k (add_marks rnd k marks n).1.
Proof.
  intros Hne Hlen Hin. revert n. induction k as [|k IH]; intros n; cbn [add_marks].
  { exists []. split_and!; [done|done|by intros ? ?%not_elem_of_nil]. }
  destruct (randomNumber_spec (length marks) n) as (z & -> & Hz); [by destruct marks; cbn; [|lia]|done|].
  specialize (IH (S n)). destruct (add_marks rnd k marks (S n)) as [rest n'].
  destruct (lookup_lt_is_Some_2 marks (Z.to_nat z)) as [x Hx]; [lia|]. rewrite Hx.
  change (S k) with (1 + k)%nat. apply heap_app; [|exact IH].
  exists [x]. split_and!; [cbn; by rewrite app_nil_r|done|].
  intros y ->%list_elem_of_singleton. apply Hin. by eapply list_elem_of_lookup_2.
Qed.

(** The counts are finite and bounded, so that a letter gets at most 91 marks. *)
Definition bounded_counts (k : counts) : Prop :=
  (rounds (c_up k) <= 19)%nat /\ (rounds (c_mid k) <= 5)%nat /\ (rounds (c_down k) <= 67)%nat.

Lemma rounds_of_Z z : 0 <= z <= 2 ^ 53 -> rounds (of_Z z) = S (Z.to_nat z).
Proof.
  intros Hz. unfold rounds. pose proof scale_pos. rewrite of_Z_exact by lia. cbn [floor trunc_Z].
  rewrite Z.div_mul, Z.quot_mul by lia. done.
Qed.

Lemma half_rounds z : 0 <= z < 6 -> (rounds (div (of_Z z) (of_Z 2)) <= 5)%nat.
Proof.
  intros Hz. assert (z ∈ [0; 1; 2; 3; 4; 5]) as Hin by (rewrite !elem_of_cons; lia).
  assert (Forall (fun z => bool_decide (rounds (div (of_Z z) (of_Z 2)) <= 5)%nat = true) [0; 1; 2; 3; 4; 5]) as H
    by (repeat (apply Forall_cons; split; [vm_compute; reflexivity|]); by apply Forall_nil).
  rewrite Forall_forall in H. apply (bool_decide_eq_true_1 _ (H z Hin)).
Qed.

Lemma draw_counts_bounded size n : bounded_counts (draw_counts rnd size n).1.
Proof.
  unfold draw_counts, bounded_counts.
  repeat (case_match; cbn [fst c_up c_mid c_down]); simplify_eq.
  all: repeat match goal with
         | H : randomNumber rnd ?r ?n = (?z, _) |- _ =>
             destruct (randomNumber_spec r n ltac:(lia) ltac:(lia)) as (? & E & ?);
             rewrite E in H; injection H as <- <-; clear E
         end.
  all: rewrite ?rounds_of_Z by lia.
  all: split_and!; try lia; apply half_rounds; lia.
Qed.

Lemma add_group_heap on k count marks n :
  (rounds count <= k)%nat ->
  marks <> [] -> Z.of_nat (length marks) <= 2 ^ 53 -> (forall x, x ∈ marks -> x ∈ all_marks) ->
  heap_of k (add_group rnd on count marks n).1.
Proof.
  intros Hk Hne Hlen Hin. unfold add_group. destruct on.
  - eapply heap_le; [exact Hk|]. by apply add_marks_heap.
  - exists []. split_and!; [done|cbn; lia|by intros ? ?%not_elem_of_nil].
Qed.

Lemma heComes_heaps o l text n :
  exists ms, heComes_go rnd o l text n = concat (zip_with (fun c m => units c ++ m) text ms) /\
    length ms = length text /\ Forall (heap_of 91) ms.
Proof.
  revert l n. induction text as [|c text IH]; intros l n; cbn [heComes_go]; [by exists []|].
  rewrite is_char_index. cbn iota.
  destruct (draw_counts rnd (default "maxi" (o_size o)) n) as [k n1] eqn:Ek.
  pose proof (draw_counts_bounded (default "maxi" (o_size o)) n) as (B1 & B2 & B3).
  rewrite Ek in B1, B2, B3. cbn [fst] in B1, B2, B3.
  destruct (add_group rnd (default true (o_up o)) (c_up k) (up soul) n1) as [a n2] eqn:Ea.
  destruct (add_group rnd (default true (o_mid o)) (c_mid k) (mid soul) n2) as [b n3] eqn:Eb.
  destruct (add_group rnd (default true (o_down o)) (c_down k) (down soul) n3) as [d n4] eqn:Ed.
  destruct (IH (S l) n4) as (ms & -> & Hl & Hms).
  assert (Ha : heap_of 19 a).
  { pose proof (add_group_heap (default true (o_up o)) 19 (c_up k) (up soul) n1 B1) as H.
    rewrite Ea in H. apply H; [done|by vm_compute|]. intros x Hx. apply elem_of_app. by left. }
  assert (Hb : heap_of 5 b).
  { pose proof (add_group_heap (default true (o_mid o)) 5 (c_mid k) (mid soul) n2 B2) as H.
    rewrite Eb in H. apply H; [done|by vm_compute|]. intros x Hx. unfold all_marks. rewrite !elem_of_app. by right; right. }
  assert (Hd : heap_of 67 d).
  { pose proof (add_group_heap (default true (o_down o)) 67 (c_down k) (down soul) n3 B3) as H.
    rewrite Ed in H. apply H; [done|by vm_compute|]. intros x Hx. unfold all_marks. rewrite !elem_of_app. by right; left. }
  exists ((a ++ b ++ d) :: ms). cbn [zip_with concat length]. split_and!.
  - by rewrite <- !app_assoc.
  - by rewrite Hl.
  - constructor; [|done]. apply (heap_app 19 72); [done|]. by apply (heap_app 5 67).
Qed.

(** [zalgo] keeps the letters of its text in their order and puts at most 91 of its
    marks on each, whatever the options. *)
Lemma zalgo_heaps text o :
  exists ms, zalgo rnd text o
      = concat (zip_with (fun c m => units c ++ m) (characters (text_or text "   he is here   ")) ms) /\
    length ms = length (characters (text_or text "   he is here   ")) /\ Forall (heap_of 91) ms.
Proof. apply heComes_heaps. Qed.
End random.
