(* ===== verification/Bundle.v ===== *)
(** The module loader of the agent's bundle, src/agent/dist/qosbroker-agent.js: the
    function of its first line, which runs the body of a module the first time the module
    is required, the table of the fourteen modules with the requires of their bodies, and
    the functions the shim of [process] leaves without effect.

    A body is what the loader can see of it: its requires in their order, those in a [try]
    included, the place where it puts a new object in [module.exports], what it does to
    the outside, and whether it throws.  Modules have property keys for names: the cache
    and the table are objects, so a name every object inherits counts as loaded. *)
From S2P Require Import Prelude Lists JsNum JsString JsVal JsObj.

Inductive action :=
  | Require_ (name : string)
  | TryRequire (name : string)
  | SetExports
  | Do (what : string)
  | Throw_.

Record js_module := { body : list action; deps : list (string * option Z) }.

(** What happens while modules load: a body starts, the host's own [require] is called,
    a body receives the exports of another one (with whether their final object was
    there already), a body does something. *)
Inductive load_event :=
  | Started (m : string)
  | FromHost (name : string)
  | Received (m dep : string) (final : bool)
  | Did (m : string) (what : string).

(** The cache [n], with whether [module.exports] has been replaced, and the history. *)
Record loader := { cache : gmap string bool; trace : list load_event }.

Definition empty_loader : loader := {| cache := ∅; trace := [] |}.

Definition record (e : load_event) (st : loader) : loader :=
  {| cache := cache st; trace := trace st ++ [e] |}.

(** [n[o]={exports:{}}], and the call of the body. *)
Definition start_module (o : string) (st : loader) : loader :=
  record (Started o) {| cache := <[o := false]> (cache st); trace := trace st |}.

Definition set_exports (o : string) (st : loader) : loader :=
  {| cache := <[o := true]> (cache st); trace := trace st |}.

Section loader.
Variable table : gmap string js_module.
(** The [require] of the environment, if there is one: the names it finds. *)
Variable host : option (string -> bool).

(** A name that is none of the bundle's modules: the environment's [require], or the
    error of the loader.  The result tells whether an exception was thrown. *)
Definition from_host (name : string) (st : loader) : loader * bool :=
  match host with
  | Some found => (record (FromHost name) st, negb (found name))
  | None => (st, true)
  end.

(** [n?n:e] with [n=t[o][1][e]]: the key of a name for the module [m]; [None] is a function
    that every object inherits, which is no key the environment knows. *)
Definition key_of (m : js_module) (name : string) : option string :=
  match obj_get name (deps m) with
  | Some (Some d) => Some (if d =? 0 then name else dec d)
  | Some None => Some name
  | None => if inherited name then None else Some name
  end.

(** The [require] of the module [o]. *)
Definition require_ (load : loader -> string -> option (loader * bool)) (o : string) (m : js_module)
    (name : string) (st : loader) : option (loader * bool) :=
  match key_of m name with
  | None => Some (st, true)
  | Some k =>
      match load st k with
      | Some (st', false) =>
          Some (match cache st' !! k with
                | Some final => record (Received o k final) st'
                | None => st'
                end, false)
      | r => r
      end
  end.

Fixpoint run_body (load : loader -> string -> option (loader * bool)) (o : string) (m : js_module)
    (actions : list action) (st : loader) : option (loader * bool) :=
  match actions with
  | [] => Some (st, false)
  | SetExports :: l => run_body load o m l (set_exports o st)
  | Do what :: l => run_body load o m l (record (Did o what) st)
  | Throw_ :: _ => Some (st, true)
  | Require_ name :: l =>
      match require_ load o m name st with
      | Some (st', false) => run_body load o m l st'
      | r => r
      end
  | TryRequire name :: l =>
      match require_ load o m name st with
      | Some (st', _) => run_body load o m l st'
      | None => None
      end
  end.

(** The function [s]; a name that every object inherits is found in the cache. *)
Fixpoint load (fuel : nat) (st : loader) (o : string) : option (loader * bool) :=
  match fuel with
  | O => None
  | S f =>
      match cache st !! o with
      | Some _ => Some (st, false)
      | None =>
          if inherited o then Some (st, false)
          else match table !! o with
               | None => Some (from_host o st)
               | Some m => run_body (load f) o m (body m) (start_module o st)
               end
      end
  end.

(** [for(var o=0;o<r.length;o++)s(r[o])]. *)
Fixpoint load_entries (r : list string) (st : loader) : option (loader * bool) :=
  match r with
  | [] => Some (st, false)
  | o :: r' =>
      match load (S (size table)) st o with
      | Some (st', false) => load_entries r' st'
      | x => x
      end
  end.
End loader.

(** * The table *)

Definition bundle_table : gmap string js_module := list_to_map [
  ("1", {| body := [SetExports]; deps := [] |});
  ("2", {| body := [SetExports; Require_ "./styles"; Require_ "./system/supports-colors";
                  Require_ "./custom/trap"; Require_ "./custom/zalgo"; Require_ "./maps/america";
                  Require_ "./maps/zebra"; Require_ "./maps/rainbow"; Require_ "./maps/random"];
         deps := [("./custom/trap", Some 3); ("./custom/zalgo", Some 4); ("./maps/america", Some 5);
                  ("./maps/rainbow", Some 6); ("./maps/random", Some 7); ("./maps/zebra", Some 8);
                  ("./styles", Some 9); ("./system/supports-colors", Some 10)] |});
  ("3", {| body := [SetExports]; deps := [] |});
  ("4", {| body := [SetExports]; deps := [] |});
  ("5", {| body := [Require_ "../colors"; SetExports]; deps := [("../colors", Some 2)] |});
  ("6", {| body := [Require_ "../colors"; SetExports]; deps := [("../colors", Some 2)] |});
  ("7", {| body := [Require_ "../colors"; SetExports]; deps := [("../colors", Some 2)] |});
  ("8", {| body := [Require_ "../colors"; SetExports]; deps := [("../colors", Some 2)] |});
  ("9", {| body := [SetExports]; deps := [] |});
  ("10", {| body := [Require_ "_process"; SetExports]; deps := [("_process", Some 1)] |});
  ("11", {| body := [Require_ "./lib/colors"; SetExports]; deps := [("./lib/colors", Some 2)] |});
  ("12", {| body := [Require_ "requestify"; Require_ "express"; Require_ "microtime"; Require_ "http";
                   Require_ "process"; Require_ "../log/level.json"; Require_ "colors/safe"; SetExports];
          deps := [("../log/level.json", Some 13); ("colors/safe", Some 11); ("express", None);
                   ("http", None); ("microtime", None); ("process", None); ("requestify", None)] |});
  ("13", {| body := [SetExports]; deps := [] |});
  ("14", {| body := [Require_ "./agent/agent.js"; Do "new Agent"; Do "initialize"; Do "start"];
          deps := [("./agent/agent.js", Some 12)] |})].

Definition boot_bundle (host : option (string -> bool)) : option (loader * bool) :=
  load_entries bundle_table host ["14"] empty_loader.

(** * The rest of the process shim *)

(** What a call of a function of the shim gives: a value or an exception. *)
Inductive stub := Returns (v : jsval) | Throws_error (message : string).

Definition process_stub (name : string) : option stub :=
  if bool_decide (name ∈ ["on"; "addListener"; "once"; "off"; "removeListener";
                          "removeAllListeners"; "emit"])
  then Some (Returns Undef)
  else if String.eqb name "binding" then Some (Throws_error "process.binding is not supported")
  else if String.eqb name "cwd" then Some (Returns (JStr "/"))
  else if String.eqb name "chdir" then Some (Throws_error "process.chdir is not supported")
  else if String.eqb name "umask" then Some (Returns (JNum (of_Z 0)))
  else None.
