(* ===== verification/BundleProps.v ===== *)
(** The loader of the bundle runs every body once and comes to an end, cycles among the
    modules included; what the bundle needs of its host to start the agent. *)
From S2P Require Import Prelude Lists JsNum JsString JsVal JsObj Bundle.

Definition started (l : list load_event) : list string :=
  omap (fun e => match e with Started m => Some m | _ => None end) l.

Lemma started_app a b : started (a ++ b) = started a ++ started b.
Proof. apply omap_app. Qed.

Section loading.
Variable table : gmap string js_module.
Variable host : option (string -> bool).

(** The bodies that have started are the modules of the cache, each started once. *)
Definition loader_ok (st : loader) : Prop :=
  NoDup (started (trace st)) /\
  (forall m, m ∈ started (trace st) <-> is_Some (cache st !! m)) /\
  dom (cache st) ⊆ dom table.

(** Modules that have not started. *)
Definition fresh_modules (st : loader) : gset string := dom table ∖ dom (cache st).

(** Loading only adds to the cache. *)
Definition extends (st st' : loader) : Prop := dom (cache st) ⊆ dom (cache st').

Lemma extends_refl st : extends st st.
Proof. unfold extends. set_solver. Qed.
#[local] Hint Resolve extends_refl : core.

Lemma extends_fresh st st' : extends st st' -> (size (fresh_modules st') <= size (fresh_modules st))%nat.
Proof. intros H. apply subseteq_size. unfold fresh_modules, extends in *. set_solver. Qed.

Lemma record_ok e st : (forall m, e <> Started m) -> loader_ok st -> loader_ok (record e st) /\ extends st (record e st).
Proof.
  intros He (H1 & H2 & H3). unfold loader_ok, extends, record. cbn [trace cache].
  assert (started (trace st ++ [e]) = started (trace st)) as ->.
  { rewrite started_app. destruct e as [m| | |]; [by destruct (He m)|by rewrite app_nil_r..]. }
  by split_and!.
Qed.

Lemma set_exports_ok o st :
  is_Some (cache st !! o) -> loader_ok st -> loader_ok (set_exports o st) /\ extends st (set_exports o st).
Proof.
  intros Ho (H1 & H2 & H3). unfold loader_ok, extends, set_exports. cbn [trace cache].
  split_and!; [done| |apply elem_of_dom in Ho; set_solver|set_solver].
  intros m. rewrite H2. destruct (decide (o = m)) as [->|].
  - rewrite lookup_insert_eq. by split.
  - by rewrite lookup_insert_ne.
Qed.

Lemma start_module_ok o m st :
  table !! o = Some m -> cache st !! o = None -> loader_ok st ->
  loader_ok (start_module o st) /\ extends st (start_module o st) /\ is_Some (cache (start_module o st) !! o) /\
  (size (fresh_modules (start_module o st)) < size (fresh_modules st))%nat.
Proof.
  intros Ht Hc (H1 & H2 & H3).
  assert (Ho : o ∈ dom table) by by apply elem_of_dom_2 in Ht.
  assert (Hn : o ∉ dom (cache st)) by by apply not_elem_of_dom.
  unfold loader_ok, extends, start_module, record, fresh_modules. cbn [trace cache].
  rewrite started_app. change (started [Started o]) with [o].
  rewrite lookup_insert_eq, dom_insert. split_and!; [| |set_solver|set_solver|by eexists|].
  - apply NoDup_app. split_and!; [done| |apply NoDup_singleton].
    intros k Hk ->%list_elem_of_singleton. apply H2 in Hk. by rewrite Hc in Hk; destruct Hk.
  - intros k. rewrite elem_of_app, list_elem_of_singleton, H2. destruct (decide (o = k)) as [->|Hne].
    + rewrite lookup_insert_eq. naive_solver.
    + rewrite lookup_insert_ne by done. naive_solver.
  - apply subset_size. split; [set_solver|]. intros H. apply Hn.
    assert (o ∈ dom table ∖ dom (cache st)) as Hin by set_solver. apply H in Hin. set_solver.
Qed.

Lemma from_host_ok name st :
  loader_ok st -> loader_ok (from_host host name st).1 /\ extends st (from_host host name st).1.
Proof.
  intros H. unfold from_host. destruct host; [by apply record_ok|]. by split.
Qed.

(** What a load or the rest of a body gives. *)
Definition gives (st : loader) (r : option (loader * bool)) : Prop :=
  exists st' threw, r = Some (st', threw) /\ loader_ok st' /\ extends st st'.

Lemma gives_trans st st1 r : extends st st1 -> gives st1 r -> gives st r.
Proof.
  intros E (st' & threw & -> & H & E'). exists st', threw. split_and!; [done|done|].
  unfold extends in *. set_solver.
Qed.

Lemma require_gives ld n o m name st :
  (forall st d, loader_ok st -> (size (fresh_modules st) <= n)%nat -> gives st (ld st d)) ->
  loader_ok st -> (size (fresh_modules st) <= n)%nat -> gives st (require_ ld o m name st).
Proof.
  intros Hld Hok Hn. unfold require_. destruct (key_of m name) as [k|]; [|by exists st, true].
  destruct (Hld st k Hok Hn) as (st1 & threw & -> & Hok1 & E). destruct threw; [by exists st1, true|].
  destruct (cache st1 !! k) as [final|]; [|by exists st1, false].
  destruct (record_ok (Received o k final) st1) as [Hok2 E']; [done|done|].
  eexists _, false. split; [done|]. split; [done|]. unfold extends in *. set_solver.
Qed.

Lemma run_body_gives ld n o m actions st :
  (forall st d, loader_ok st -> (size (fresh_modules st) <= n)%nat -> gives st (ld st d)) ->
  loader_ok st -> is_Some (cache st !! o) -> (size (fresh_modules st) <= n)%nat ->
  gives st (run_body ld o m actions st).
Proof.
  intros Hld. revert st. induction actions as [|a l IH]; intros st Hok Ho Hn; cbn [run_body].
  { exists st, false. by split_and!. }
  assert (Hnext : forall st1, loader_ok st1 /\ extends st st1 -> gives st (run_body ld o m l st1)).
  { intros st1 [Hok1 E]. apply (gives_trans st st1); [done|]. apply IH; [done| |].
    - apply elem_of_dom. apply elem_of_dom in Ho. unfold extends in E. set_solver.
    - pose proof (extends_fresh _ _ E). lia. }
  destruct a as [name|name| |what|].
  - destruct (require_gives ld n o m name st Hld Hok Hn) as (st1 & threw & -> & Hok1 & E).
    destruct threw; [by exists st1, true|]. by apply Hnext.
  - destruct (require_gives ld n o m name st Hld Hok Hn) as (st1 & threw & -> & Hok1 & E).
    by apply Hnext.
  - by apply Hnext, set_exports_ok.
  - by apply Hnext, record_ok.
  - by exists st, true.
Qed.

Lemma load_gives fuel st o :
  loader_ok st -> (size (fresh_modules st) < fuel)%nat -> gives st (load table host fuel st o).
Proof.
  revert st o. induction fuel as [|f IH]; intros st o Hok Hf; [lia|]. cbn [load].
  destruct (cache st !! o) as [b|] eqn:Hc; [by exists st, false|].
  destruct (inherited o); [by exists st, false|].
  destruct (table !! o) as [m|] eqn:Ht.
  - destruct (start_module_ok o m st Ht Hc Hok) as (Hok1 & E & Ho & Hlt).
    apply (gives_trans st (start_module o st)); [done|].
    apply (run_body_gives _ (size (fresh_modules (start_module o st)))); [|done|done|lia].
    intros st' d Hok' Hn'. apply IH; [done|lia].
  - pose proof (from_host_ok o st Hok) as H. destruct (from_host host o st) as [st1 threw].
    exists st1, threw. by destruct H.
Qed.

Lemma load_entries_gives r st : loader_ok st -> gives st (load_entries table host r st).
Proof.
  revert st. induction r as [|o r IH]; intros st Hok; cbn [load_entries]; [by exists st, false|].
  destruct (load_gives (S (size table)) st o Hok) as (st1 & threw & -> & Hok1 & E).
  { rewrite <- size_dom. apply Nat.lt_succ_r, subseteq_size. unfold fresh_modules. set_solver. }
  destruct threw; [by exists st1, true|]. apply (gives_trans st st1); auto.
Qed.
End loading.

Lemma empty_ok table : loader_ok table empty_loader.
Proof.
  unfold loader_ok, empty_loader. cbn [cache trace]. split_and!; [constructor| |set_solver].
  intros m. rewrite lookup_empty. cbn. rewrite elem_of_nil. split; [done|by intros []].
Qed.

(** C37. Whatever modules a bundle holds and however they require each other, cycles
    included, the loader comes to an end, with or without an exception of a body or of the
    host; it
    runs the body of no module twice, and of modules of the bundle only.  The bodies that
    have run are the modules of the cache. *)
Theorem modules_load_once table host r :
  exists st threw,
    load_entries table host r empty_loader = Some (st, threw) /\
    NoDup (started (trace st)) /\
    (forall m, m ∈ started (trace st) -> is_Some (table !! m)) /\
    (forall m, m ∈ started (trace st) <-> is_Some (cache st !! m)).
Proof.
  destruct (load_entries_gives table host r empty_loader (empty_ok table))
    as (st & threw & -> & (H1 & H2 & H3) & _).
  exists st, threw. split_and!; [done|done| |done].
  intros m Hm%H2%elem_of_dom. apply elem_of_dom. set_solver.
Qed.

(** * The agent's bundle *)

(** The packages of the host, in the order the agent requires them. *)
Definition host_packages : list string := ["requestify"; "express"; "microtime"; "http"; "process"].

(** The history of a boot whose host has every package. *)
Definition boot_trace : list load_event :=
  [Started "14"; Started "12"; FromHost "requestify"; FromHost "express"; FromHost "microtime";
   FromHost "http"; FromHost "process";
   Started "13"; Received "12" "13" true;
   Started "11"; Started "2"; Started "9"; Received "2" "9" true;
   Started "10"; Started "1"; Received "10" "1" true; Received "2" "10" true;
   Started "3"; Received "2" "3" true; Started "4"; Received "2" "4" true;
   Started "5"; Received "5" "2" true; Received "2" "5" true;
   Started "8"; Received "8" "2" true; Received "2" "8" true;
   Started "6"; Received "6" "2" true; Received "2" "6" true;
   Started "7"; Received "7" "2" true; Received "2" "7" true;
   Received "11" "2" true; Received "12" "11" true; Received "14" "12" true;
   Did "14" "new Agent"; Did "14" "initialize"; Did "14" "start"].

Definition did (l : list load_event) : list string :=
  omap (fun e => match e with Did _ what => Some what | _ => None end) l.

(** The loader asks the host for names only. *)
Lemma load_ext table f g fuel st o :
  (forall name, f name = g name) -> load table (Some f) fuel st o = load table (Some g) fuel st o.
Proof.
  intros E. revert st o. induction fuel as [|n IH]; intros st o; [done|]. cbn [load].
  destruct (cache st !! o); [done|]. destruct (inherited o); [done|].
  destruct (table !! o) as [m|]; [|unfold from_host; by rewrite E].
  assert (R : forall name st0, require_ (load table (Some f) n) o m name st0 = require_ (load table (Some g) n) o m name st0).
  { intros name st0. unfold require_. destruct (key_of m name); [by rewrite IH|done]. }
  generalize (start_module o st). induction (body m) as [|[name|name| |what|] l IHl]; intros st0; cbn [run_body];
    rewrite ?R; [done| | |by apply IHl|by apply IHl|done].
  - destruct (require_ _ o m name st0) as [[? []]|]; [done|by apply IHl|done].
  - destruct (require_ _ o m name st0) as [[? ?]|]; [by apply IHl|done].
Qed.

Lemma load_entries_ext table f g r st :
  (forall name, f name = g name) -> load_entries table (Some f) r st = load_entries table (Some g) r st.
Proof.
  intros E. revert st. induction r as [|o r IH]; intros st; [done|]. cbn [load_entries].
  rewrite (load_ext _ f g) by done. destruct (load _ _ _ st o) as [[? []]|]; [done|by apply IH|done].
Qed.

(** A host whose answers for the five packages are written out. *)
Definition five (found : string -> bool) (b1 b2 b3 b4 b5 : bool) (name : string) : bool :=
  if String.eqb name "requestify" then b1 else if String.eqb name "express" then b2
  else if String.eqb name "microtime" then b3 else if String.eqb name "http" then b4
  else if String.eqb name "process" then b5 else found name.

(** The bundle starts the agent exactly if its host has the five packages, in an order in
    which every module has its final exports when another one receives them, the cycle
    between the colors package and its maps included; with a package missing an exception
    ends it before anything is done. *)
Lemma boot_spec found :
  exists st, boot_bundle (Some found) = Some (st, negb (forallb found host_packages)) /\
    if forallb found host_packages then trace st = boot_trace else did (trace st) = [].
Proof.
  set (found' := five found (found "requestify") (found "express") (found "microtime") (found "http") (found "process")).
  assert (forallb found host_packages = forallb found' host_packages) as -> by done.
  unfold boot_bundle. rewrite (load_entries_ext bundle_table found found').
  - unfold found'. generalize (found "requestify"), (found "express"), (found "microtime"), (found "http"),
      (found "process"). clear found'. intros [] [] [] [] []; eexists; (split; [vm_compute; reflexivity|by vm_compute]).
  - intros name. unfold found', five.
    repeat match goal with |- context [String.eqb name ?x] => destruct (String.eqb_spec name x) as [->|] end; done.
Qed.

(** In a page, where there is no [require], nothing of the agent runs. *)
Lemma boot_in_page : exists st, boot_bundle None = Some (st, true) /\ did (trace st) = [].
Proof. eexists. split; [vm_compute; reflexivity|by vm_compute]. Qed.

Lemma modules_load_once_witness :
  exists st threw, load_entries bundle_table (Some (fun _ => true)) ["14"; "2"; "14"] empty_loader = Some (st, threw) /\
    NoDup (started (trace st)).
Proof.
  destruct (modules_load_once bundle_table (Some (fun _ => true)) ["14"; "2"; "14"]) as (st & threw & E & H & _).
  exists st, threw. split; [exact E|exact H].
Defined.
